(* ===== verification/_CoqProject ===== *)
-Q . S2P
Prelude.v
Text.v
Regex.v
Struct.v
Sha256.v
SerialFlash.v
Flasher.v
Slots.v
SlotsSerial.v
Reader.v
Apps.v
Image.v
ElfTools.v
Logs.v
Drain.v
Endpoint.v
Paths.v
MakeFlash.v
Lcd.v
Stream.v
PumpThread.v
Buffers.v
Qmp.v
Late.v
Shared.v
Supervisor.v
Files.v
Banner.v
Views.v
WebUI.v
RadioApps.v
Server.v
Setup.v
DocCheck.v
Commands.v
SlotTool.v
Probes.v
Page.v
Panes.v
Markup.v
Style.v
Painted.v
Tables.v
