(* ===== verification/Prelude.v ===== *)
(** * A verification library for the UV-K5 V3 emulator's tools

    The repository runs UV-K5 V3 / UV-K1 radio firmware in QEMU.  The machine
    itself is C code for QEMU; around it, under src/tools/, are Python
    programs that prepare firmware and flash images, start and stop the
    emulator, talk to the firmware over its serial protocols, and serve the
    radio as a web page.  This library models those programs and proves what
    makes them correct.

    ** The programs and the files that model them

    Shared by all:
    - [Prelude] (this file): Python exceptions and results, loops that may
      raise, byte strings and slices, the shared lemmas and tactics.
    - [Text]: string methods, number formatting, lines; what the host supplies
      for text (Unicode tables beyond ASCII, [str] of an exception, the clock).
    - [Regex]: the part of [re] the tools use, a backtracking matcher, sound and
      complete for what an expression may consume.
    - [Struct], [Sha256], [Paths]: [struct] and [zlib.crc32]; [hashlib.sha256];
      [os.path], [pathlib] and [sorted].

    Firmware and flash images:
    - [Image] (uvk5_image.py): the three shapes of a firmware file.
    - [ElfTools] (bin2elf.py, elf2bin.py): wrapping an image in an ELF, against
      the specification of a loader, and flattening an ELF.
    - [Slots] (uvk5_slots.py): the FMB1 firmware slots in the bytes of a flash
      image, refined from an abstract table of slots.
    - [Apps] (uvk5_apps.py): the FAP1 overlay apps in the same image.
    - [MakeFlash] (make_flash.py): UF2 files and raw blobs in a new image.
    - [Files] (uvk5_slots.py, uvk5_apps.py): the operations on files, with a
      file system that can crash, in which only what was synced is sure to be
      on the disk and no directory ever is, and the apps command line.
    - [Setup] (uvk5_testenv.py, fetch_firmware.py, webui.py main): where a
      QEMU, a gdb and a firmware are looked for, the download, and the start
      of the server.
    - [Commands] (uvk5_slots.py, bin2elf.py, elf2bin.py, uvk5_serial_flash.py,
      uvk5_buffers.py): the scripts from their parsed arguments on.

    The radio's serial protocols:
    - [SerialFlash] (uvk5_serial_flash.py): the framing, [build] and the
      [Frames] reassembler, whose state is its buffer.
    - [Flasher] (uvk5_serial_flash.py, class Flasher): the bootloader client
      over the class [Transport], which gets the length of every wait; the
      classes [Bootloader] and [Announcer] state what a device promises, one
      that announces itself every so many milliseconds and loses some pages
      discharges them.
    - [SlotsSerial] (uvk5_slots_serial.py): the slot commands of a running
      radio, over a link that may lose, repeat and delay frames.
    - [Reader] (uvk5_slots_serial.py, class Radio): its two threads, the one
      that reads the port and the one that looks for a reply, interleaved.
    - [SlotTool] (uvk5_slots_serial.py): what the tool logs and prints.

    The emulator:
    - [Endpoint] (uvk5_socket.py, uvk5_supervisor.py, uvk5_qmp.py,
      uvk5_serial_flash.py): what every part means by an endpoint string.
    - [Qmp] (uvk5_qmp.py, key.py): the line protocol and the key presses.
    - [Late] (uvk5_qmp.py): the same client when [recv] times out.
    - [Shared] (uvk5_qmp.py): the same client called by many threads, its lock,
      and QEMU answering, reporting events, being late and going away
      meanwhile, as a step relation.
    - [Supervisor] (uvk5_supervisor.py): the emulator's command line and its
      power state machine over a table of processes, as a step relation in
      which power off takes two steps because it releases the lock.
    - [Drain] (uvk5_supervisor.py): QEMU's stderr, a pipe that fills, and the
      thread that drains it into the log.
    - [Lcd] (uvk5_lcd.py, screenshot.py): pixels, PNG, and reading them from a
      guest that changes meanwhile.
    - [Buffers] (uvk5_buffers.py): the screen's buffers found in guest RAM.
    - [Stream] (uvk5_stream.py): the frame pump, its thread interleaved with
      the calls of the handlers.
    - [PumpThread] (uvk5_stream.py): its [start] and [stop], with every thread
      they leave, refined by the one thread of [Stream].
    - [Logs] (uvk5_logs.py, webui.py /api/logs): the bounded log and the
      clients that poll it, writers interleaved.
    - [Banner] (uvk5_banner.py): the firmware's name in the log.
    - [Probes] (panel_dump.py, gpio_watch.py, qom_get.py, qom_ls.py,
      wiring_check.py): the scripts that look at a running machine; they may
      wait for ever in a [recv], as their sockets have no timeout.

    The web server and its page:
    - [Views], [WebUI] (webui.py, uvk5_keys.py): the handlers that read and the
      handlers that act, the latter over the class [PowerControl], which the
      supervisor discharges.  An emulator that is stopped may write its flash
      back to its image file first, as the machine model does.
    - [RadioApps] (webui.py): asking the radio what apps it sees.
    - [Server]: all of them with the pump's thread, processes that end or write
      their flash back, and requests served while a key is held, as one step
      function; what a run may change of the supervisor, the pump, the log and
      the files.
    - [Page], [Panes], [Tables] (webui.py render_index): the page's JavaScript:
      key pad, PTT and their requests, which the server serves overlapping
      and in any order ([Page.serves]), power bar, stream, log and its scroll position, slot and
      app tables with what fetches and fills them, firmware label, uploads.
    - [Markup] (webui.py render_index): the static HTML as a tree, and what the
      script looks up in it.
    - [Style] (webui.py render_index): the style sheet, the part of the cascade
      it uses, and what the script changes of the tree.
    - [Painted] (webui.py render_index): the events of [Page] on that tree.

    The documentation:
    - [DocCheck] (check_docs.py): its seven checks over a tree of files.

    ** How code is modelled

    A [bytes], [bytearray] or [str] is a [list Z] (bytes, or code points); an
    operation that mutates its buffer returns the new one.  An exception is a
    value of [result]; a handler that can raise after it changed something
    returns the new state and the result.  Bytes that a library function
    produced are bounded by [wf_bytes] where a theorem needs it.  Loops over
    data are folds.  A [while True] loop over input takes fuel, and a theorem
    shows that it suffices: one unit per buffered byte for the reassembler
    ([drain_total]) and for the JSON lines ([command_total],
    [command_late_total], [await_settles]), the length of the text for a search, the length of what is left for a
    repetition.  Loops that wait for a deadline take the number of rounds, or
    the list of answers the system gives before it; the theorems hold for
    every number, or for every one that is enough for the answer to arrive.
    Times are milliseconds on the server and microseconds in the page.  What
    the host decides (whether a process starts, hangs, exits, whether a socket
    accepts, the clock, what the network and gdb answer) is an argument.
    Threads are interleavings of the sections their locks make atomic; a
    handler of [Server] is one step, except that a held key lets others in,
    and in [Page] the handlers of the page's own requests overlap.  A file has
    one name, spelled in one way: there are no links, and [os.path.abspath]
    makes no two names equal.

    ** What the theorems show

    Refinement: the byte-level slot operations, the file operations over them
    and the serial installation implement a table of slots.  End to end: what
    is pressed on the page is what the emulator's keypad is told; what the panel shows is what the page
    shows; an app installed in the image is what the radio reports; the
    flashing command leaves the file in the device; a download is what the
    server starts with; a slot or app uploaded through the page is the row the
    page then shows; the last status is what the user sees, and the buttons
    that are lit are those that are down.  Liveness: while
    its stderr is drained QEMU never blocks on it, and a reply the radio sent
    reaches the thread that waits for it; every schedule of the threads that
    share the QMP client ends with each having its own answers, up to the first
    command that ended without one; the serial
    client's two threads refine the loop [SlotsSerial] has, and the pump's,
    however often it is started, the thread [Stream] has.  Functional
    behaviour on every branch: installing, reading, erasing apps; detecting
    images; launching; keys; the handlers.  Equivalence: the banner's
    expression with a reader of lines, the presses of the page with the
    presses of the user, the slot tool with and without its lines.  Round
    trips: frames, app blobs, slots, ELF wrapping, UF2, PNG, hexadecimal
    memory, gdb's words.  Safety: no
    process is left behind over any interleaving, the server writes nothing
    but entries of its upload directory, an image file is never torn by a
    crash, firmware slots and apps never meet, a rejected upload changes
    nothing but its own file, a radio that is off stays dark, and what the
    page asks about is not done without a yes.  Some theorems
    state what the code does where that is not what it means to do, and say
    so.

    ** What is not modelled

    The machine model and the host build (C), but for the write-back of the
    flash; handlers of [Server] that overlap other than during a held key, and
    other clients' requests in [Page]; over the slot protocol, screen data that
    contains the start marker, frames cut by a poll and late answers, which
    [SlotRadio] excludes; the tests, keypad_test.py among
    them; the browser's layout and its own style sheet; argparse itself; the
    progress lines of the bootloader client and of make_flash.py; closing
    sockets at exit; the JSON codec, zlib's compression, urllib and pyserial,
    which are parameters.
*)
From stdpp Require Export prelude list strings gmap.
From Stdlib Require Export ZArith Lia.
Open Scope Z_scope.

(** ** Exceptions and results *)

(** The Python exception classes the modelled code raises or catches. *)
Inductive exn_class :=
| SystemExit | ValueError | StructError | IndexError | TypeError | RuntimeError
| OSError | LookupError | AttributeError | UnicodeEncodeError | NameError | ImageError | AppError | SlotError.

#[export] Instance exn_class_eq_dec : EqDecision exn_class.
Proof. solve_decision. Defined.

(** An exception: its class, the format string of its message and the
    integers the message is formatted with. *)
Record exn := Exn { exn_cls : exn_class; exn_fmt : string; exn_args : list Z }.

#[export] Instance exn_eq_dec : EqDecision exn.
Proof. solve_decision. Defined.

(** What [except Exception] catches: [SystemExit] derives from
    [BaseException] only, so it goes through. *)
Definition is_exception (e : exn) : bool :=
  match exn_cls e with SystemExit => false | _ => true end.

Inductive result (A : Type) :=
| Ok (a : A)
| Raise (e : exn).
Arguments Ok {_} _.
Arguments Raise {_} _.

#[export] Instance result_eq_dec `{EqDecision A} : EqDecision (result A).
Proof. solve_decision. Defined.
#[export] Instance result_ret : MRet result := fun _ a => Ok a.
#[export] Instance result_bind : MBind result := fun _ _ f r =>
  match r with Ok a => f a | Raise e => Raise e end.
#[export] Instance result_fmap : FMap result := fun _ _ f r =>
  match r with Ok a => Ok (f a) | Raise e => Raise e end.

Definition raise {A} (c : exn_class) (fmt : string) (args : list Z) : result A :=
  Raise (Exn c fmt args).

Definition is_ok {A} (r : result A) : bool :=
  match r with Ok _ => true | Raise _ => false end.

Lemma bind_ok {A B} (r : result A) (f : A -> result B) b :
  (r ≫= f) = Ok b <-> exists a, r = Ok a /\ f a = Ok b.
Proof. destruct r; simpl; naive_solver. Qed.

(** Loops that may raise: [for x in l: s = f s x]. *)
Fixpoint foldM {S A} (f : S -> A -> result S) (s : S) (l : list A) : result S :=
  match l with
  | [] => Ok s
  | x :: l => s' ← f s x; foldM f s' l
  end.

Lemma foldM_app {S A} (f : S -> A -> result S) s l1 l2 :
  foldM f s (l1 ++ l2) = s' ← foldM f s l1; foldM f s' l2.
Proof.
  revert s; induction l1 as [|x l1 IH]; intros s; simpl; [done|].
  destruct (f s x); simpl; [apply IH|done].
Qed.

Lemma foldM_invariant {S A} (f : S -> A -> result S) (I : S -> Prop) s l s' :
  (forall s x s', I s -> x ∈ l -> f s x = Ok s' -> I s') ->
  I s -> foldM f s l = Ok s' -> I s'.
Proof.
  revert s; induction l as [|x l IH]; intros s Hf Hs; simpl; [naive_solver|].
  intros (s1 & H1 & H2)%bind_ok. eapply IH; [|  |exact H2].
  - intros; eapply Hf; [done| |done]. by right.
  - eapply Hf; [exact Hs| |exact H1]. by left.
Qed.

(** Case analysis on the [if]s and matches of a computation that must
    return, closing the branches that raise. *)
Ltac inv_ok H :=
  repeat first
    [ progress simplify_eq/=
    | match type of H with
      | (_ ≫= _) = Ok _ => apply bind_ok in H as (?&?&H)
      | context [if ?b then _ else _] => destruct b eqn:?
      | context [match ?x with _ => _ end] => destruct x eqn:?
      end ].

(** ** Byte strings *)

(** A [bytes] or [bytearray] value.  Its elements are integers; [wf_bytes]
    says they are bytes, which Python guarantees of every value of the type. *)
Abbreviation bytes := (list Z) (only parsing).
(** A [str] value, as its code points. *)
Abbreviation pystr := (list Z) (only parsing).

Definition wf_bytes (b : bytes) : Prop := Forall (fun z => 0 <= z < 256) b.

#[export] Instance wf_bytes_dec b : Decision (wf_bytes b).
Proof. unfold wf_bytes. apply Forall_dec. intros z. apply and_dec; apply _. Defined.

(** A literal, [b"..."] or ["..."]. *)
Definition lit (s : string) : list Z :=
  map (fun c => Z.of_nat (Ascii.nat_of_ascii c)) (String.list_ascii_of_string s).

Definition zlen {A} (l : list A) : Z := Z.of_nat (length l).

(** [l[i:j]] for [0 <= i], with Python's clamping at both ends. *)
Definition slice {A} (i j : Z) (l : list A) : list A :=
  take (Z.to_nat (j - i)) (drop (Z.to_nat i) l).

(** [l[i:j] = d] for [0 <= i] on a [bytearray]: a slice past the end is
    clamped, so the assignment extends the buffer. *)
Definition set_slice {A} (i j : Z) (d l : list A) : list A :=
  take (Z.to_nat i) l ++ d ++ drop (Z.to_nat (Z.max i j)) l.

(** [bytes([v]) * n], empty for a negative [n]. *)
Definition zrep {A} (n : Z) (x : A) : list A := replicate (Z.to_nat n) x.

(** [range(n)]. *)
Definition zrange (n : Z) : list Z := map Z.of_nat (seq 0 (Z.to_nat n)).

(** [s.ljust(n, b"\x00")]. *)
Definition ljust (n : Z) (s : bytes) : bytes := s ++ zrep (n - zlen s) 0.

Fixpoint starts_with (p l : bytes) : bool :=
  match p, l with
  | [], _ => true
  | x :: p, y :: l => (x =? y) && starts_with p l
  | _ :: _, [] => false
  end.

(** [l.find(p)]: the least offset of [p], [None] for -1. *)
Fixpoint find_sub (p l : bytes) : option nat :=
  if starts_with p l then Some 0%nat
  else match l with
       | [] => None
       | _ :: l => S <$> find_sub p l
       end.

(** [p in l]. *)
Definition contains (p l : bytes) : bool :=
  match find_sub p l with Some _ => true | None => false end.

(** [s.split(b"\x00")[0]]. *)
Fixpoint until_nul (s : bytes) : bytes :=
  match s with
  | [] => []
  | x :: s => if x =? 0 then [] else x :: until_nul s
  end.

(** [s.encode("ascii", "replace")] and [s.decode("ascii", "replace")]. *)
Definition encode_replace (s : pystr) : bytes :=
  map (fun c => if c <? 128 then c else 63) s.
Definition decode_replace (s : bytes) : pystr :=
  map (fun b => if b <? 128 then b else 0xFFFD) s.

(** ASCII text: every code point below 128, no NUL. *)
Definition ascii_text (s : pystr) : Prop := Forall (fun c => 0 < c < 128) s.

(** ** Lemmas on lengths and slices *)

Lemma zlen_nonneg {A} (l : list A) : 0 <= zlen l.
Proof. unfold zlen. lia. Qed.
Lemma zlen_nil {A} : zlen (@nil A) = 0.
Proof. done. Qed.
Lemma zlen_cons {A} (x : A) l : zlen (x :: l) = 1 + zlen l.
Proof. unfold zlen. simpl. lia. Qed.
Lemma zlen_app {A} (l1 l2 : list A) : zlen (l1 ++ l2) = zlen l1 + zlen l2.
Proof. unfold zlen. rewrite length_app. lia. Qed.
Lemma zlen_rep {A} n (x : A) : 0 <= n -> zlen (zrep n x) = n.
Proof. unfold zlen, zrep. rewrite length_replicate. lia. Qed.
Lemma zlen_map {A B} (f : A -> B) l : zlen (map f l) = zlen l.
Proof. unfold zlen. by rewrite length_map. Qed.
Lemma zlen_slice {A} i j (l : list A) :
  0 <= i <= j -> j <= zlen l -> zlen (slice i j l) = j - i.
Proof. unfold zlen, slice. rewrite length_take, length_drop. lia. Qed.
Lemma zlen_slice_le {A} i j (l : list A) : 0 <= i <= j -> zlen (slice i j l) <= j - i.
Proof. unfold zlen, slice. rewrite length_take, length_drop. lia. Qed.
Lemma zlen_zero_nil {A} (l : list A) : zlen l = 0 -> l = [].
Proof. destruct l; [done|]. unfold zlen; simpl; lia. Qed.

(** The pointwise view of a slice and of a slice assignment: every other
    fact about them is read off these two. *)
Lemma lookup_slice {A} i j (l : list A) k :
  0 <= i ->
  slice i j l !! k = if decide (Z.of_nat k < j - i) then l !! (Z.to_nat i + k)%nat else None.
Proof.
  intros Hi. unfold slice. case_decide.
  - rewrite lookup_take_lt by lia. by rewrite lookup_drop.
  - by rewrite lookup_take_ge by lia.
Qed.

Lemma lookup_set_slice {A} i j (d l : list A) k :
  0 <= i -> j = i + zlen d -> j <= zlen l ->
  set_slice i j d l !! k =
    if decide (i <= Z.of_nat k < j) then d !! (k - Z.to_nat i)%nat else l !! k.
Proof.
  unfold zlen, set_slice. intros Hi Hj Hl.
  assert (Hti : length (take (Z.to_nat i) l) = Z.to_nat i) by (rewrite length_take; lia).
  case_decide.
  - rewrite lookup_app_r by lia. rewrite Hti. apply lookup_app_l. lia.
  - destruct (decide (Z.of_nat k < i)).
    + rewrite lookup_app_l by lia. apply lookup_take_lt. lia.
    + rewrite lookup_app_r by lia. rewrite Hti.
      rewrite lookup_app_r by lia. rewrite lookup_drop. f_equal. lia.
Qed.

Lemma zlen_set_slice {A} i j (d l : list A) :
  0 <= i -> j = i + zlen d -> j <= zlen l -> zlen (set_slice i j d l) = zlen l.
Proof.
  unfold zlen, set_slice. intros. rewrite !length_app, length_take, length_drop. lia.
Qed.

Lemma slice_set_slice_same {A} i j (d l : list A) :
  0 <= i -> j = i + zlen d -> j <= zlen l -> slice i j (set_slice i j d l) = d.
Proof.
  intros Hi Hj Hl. apply list_eq. intros k. rewrite lookup_slice by done.
  pose proof (zlen_nonneg d). unfold zlen in *. case_decide.
  - rewrite lookup_set_slice by (unfold zlen; lia). rewrite decide_True by lia. f_equal. lia.
  - symmetry. apply lookup_ge_None. lia.
Qed.

Lemma slice_set_slice_inside {A} a b i j (d l : list A) :
  0 <= i -> j = i + zlen d -> j <= zlen l -> i <= a -> b <= j ->
  slice a b (set_slice i j d l) = slice (a - i) (b - i) d.
Proof.
  intros Hi Hj Hl Ha Hb. apply list_eq. intros k. rewrite !lookup_slice by lia.
  repeat case_decide; try lia; [|done].
  rewrite lookup_set_slice by done. rewrite decide_True by lia. f_equal. lia.
Qed.

Lemma slice_set_slice_disjoint {A} a b i j (d l : list A) :
  0 <= a -> 0 <= i -> j = i + zlen d -> j <= zlen l -> b <= i \/ j <= a ->
  slice a b (set_slice i j d l) = slice a b l.
Proof.
  intros Ha Hi Hj Hl Hd. apply list_eq. intros k. rewrite !lookup_slice by done.
  case_decide; [|done]. rewrite lookup_set_slice by done. rewrite decide_False by lia. done.
Qed.

Lemma slice_slice {A} a b i j (l : list A) :
  0 <= i -> 0 <= a -> b <= j - i -> slice a b (slice i j l) = slice (i + a) (i + b) l.
Proof.
  intros Hi Ha Hb. apply list_eq. intros k. rewrite !lookup_slice by lia.
  repeat case_decide; try lia; f_equal; lia.
Qed.

Lemma slice_app_l {A} i j (l1 l2 : list A) :
  0 <= i -> j <= zlen l1 -> slice i j (l1 ++ l2) = slice i j l1.
Proof.
  intros Hi Hj. apply list_eq. intros k. rewrite !lookup_slice by done.
  case_decide; [|done]. apply lookup_app_l. unfold zlen in Hj. lia.
Qed.

Lemma slice_app_r {A} i j (l1 l2 : list A) :
  zlen l1 <= i -> slice i j (l1 ++ l2) = slice (i - zlen l1) (j - zlen l1) l2.
Proof.
  pose proof (zlen_nonneg l1). intros Hi. apply list_eq. intros k.
  rewrite !lookup_slice by lia. unfold zlen in *.
  repeat case_decide; try lia; [|done].
  rewrite lookup_app_r by lia. f_equal. lia.
Qed.

Lemma slice_all {A} j (l : list A) : zlen l <= j -> slice 0 j l = l.
Proof.
  intros. unfold slice, zlen in *. rewrite drop_0. apply take_ge. lia.
Qed.

Lemma slice_empty {A} i j (l : list A) : j <= i -> slice i j l = [].
Proof. intros. unfold slice. by replace (Z.to_nat (j - i)) with 0%nat by lia. Qed.

Lemma slice_0_app {A} j (l1 l2 : list A) : j = zlen l1 -> slice 0 j (l1 ++ l2) = l1.
Proof. intros ->. rewrite slice_app_l by lia. by apply slice_all. Qed.

Lemma slice_zrep {A} i j n (x : A) :
  0 <= i <= j -> j <= n -> slice i j (zrep n x) = zrep (j - i) x.
Proof.
  intros. unfold slice, zrep. rewrite drop_replicate, take_replicate. f_equal. lia.
Qed.

Lemma elem_of_zrange n i : i ∈ zrange n <-> 0 <= i < n.
Proof.
  unfold zrange. rewrite list_elem_of_fmap. setoid_rewrite elem_of_seq. split.
  - intros (k & -> & Hk). lia.
  - intros Hi. exists (Z.to_nat i). lia.
Qed.

Lemma zlen_zrange n : 0 <= n -> zlen (zrange n) = n.
Proof. intros. unfold zrange, zlen. rewrite length_map, length_seq. lia. Qed.

Lemma wf_bytes_app l1 l2 : wf_bytes (l1 ++ l2) <-> wf_bytes l1 /\ wf_bytes l2.
Proof. apply Forall_app. Qed.
Lemma wf_bytes_slice i j l : wf_bytes l -> wf_bytes (slice i j l).
Proof. intros. by apply Forall_take, Forall_drop. Qed.
Lemma wf_bytes_rep n x : 0 <= x < 256 -> wf_bytes (zrep n x).
Proof. intros. by apply Forall_replicate. Qed.
Lemma wf_bytes_set_slice i j d l :
  wf_bytes d -> wf_bytes l -> wf_bytes (set_slice i j d l).
Proof.
  intros. unfold set_slice. apply wf_bytes_app. split; [by apply Forall_take|].
  apply wf_bytes_app. split; [done|by apply Forall_drop].
Qed.

(** ** Text lemmas *)

Lemma lit_app_length s : zlen (lit s) = Z.of_nat (String.length s).
Proof.
  unfold zlen, lit. rewrite length_map. f_equal.
  induction s as [|c s IH]; simpl; [done|by rewrite IH].
Qed.

Lemma starts_with_app p l : starts_with p (p ++ l) = true.
Proof. induction p as [|x p IH]; simpl; [done|]. by rewrite Z.eqb_refl, IH. Qed.

Lemma starts_with_iff p l : starts_with p l = true <-> exists r, l = p ++ r.
Proof.
  split; [|intros [r ->]; apply starts_with_app].
  revert l; induction p as [|x p IH]; intros l; simpl; [by eexists|].
  destruct l as [|y l]; [done|]. intros [->%Z.eqb_eq [r ->]%IH]%andb_prop. by eexists.
Qed.

Lemma find_sub_here p l : find_sub p (p ++ l) = Some 0%nat.
Proof. destruct (p ++ l) eqn:E; simpl; by rewrite <- E, starts_with_app. Qed.

Lemma find_sub_spec p l k :
  find_sub p l = Some k ->
  (k <= length l)%nat /\ starts_with p (drop k l) = true /\
  forall m, (m < k)%nat -> starts_with p (drop m l) = false.
Proof.
  revert k; induction l as [|x l IH]; intros k; cbn [find_sub].
  - destruct (starts_with p []) eqn:E; [|done]. intros [= <-].
    split; [lia|]. split; [done|lia].
  - destruct (starts_with p (x :: l)) eqn:E.
    + intros [= <-]. split; [lia|]. split; [done|lia].
    + destruct (find_sub p l) as [k'|]; simpl; [|done]. intros [= <-].
      destruct (IH k' eq_refl) as (Hk & Hs & Hm).
      split; [simpl; lia|]. split; [done|]. intros [|m] Hlt; [done|]. apply Hm. lia.
Qed.

Lemma find_sub_None p l m : find_sub p l = None -> starts_with p (drop m l) = false.
Proof.
  revert m; induction l as [|x l IH]; intros m; cbn [find_sub].
  - destruct (starts_with p []) eqn:E; [done|]. intros _. by rewrite drop_nil.
  - destruct (starts_with p (x :: l)) eqn:E; [done|].
    destruct (find_sub p l) eqn:F; simpl; [done|]. intros _.
    destruct m; [done|]. by apply IH.
Qed.

Lemma contains_app p l r : contains p (l ++ p ++ r) = true.
Proof.
  unfold contains. destruct (find_sub p (l ++ p ++ r)) eqn:E; [done|].
  apply (find_sub_None _ _ (length l)) in E.
  by rewrite drop_app_length, starts_with_app in E.
Qed.

Lemma contains_iff p l : contains p l = true <-> exists l1 l2, l = l1 ++ p ++ l2.
Proof.
  split; [|intros (l1 & l2 & ->); apply contains_app].
  unfold contains. destruct (find_sub p l) as [k|] eqn:E; [|done]. intros _.
  destruct (find_sub_spec _ _ _ E) as (_ & [r Hr]%starts_with_iff & _).
  exists (take k l), r. by rewrite <- Hr, take_drop.
Qed.

Lemma until_nul_app s n :
  Forall (fun c => c <> 0) s -> 0 < n -> until_nul (s ++ zrep n 0) = s.
Proof.
  intros Hs Hn. induction Hs as [|c s Hc Hs IH]; simpl.
  - unfold zrep. destruct (Z.to_nat n) eqn:E; [lia|done].
  - by rewrite (proj2 (Z.eqb_neq c 0) Hc), IH.
Qed.

Lemma ascii_text_nonzero s : ascii_text s -> Forall (fun c => c <> 0) s.
Proof. intros H. eapply Forall_impl; [exact H|]. simpl. lia. Qed.

Lemma ascii_text_take n s : ascii_text s -> ascii_text (take n s).
Proof. apply Forall_take. Qed.

Lemma encode_replace_ascii s : ascii_text s -> encode_replace s = s.
Proof.
  intros H. unfold encode_replace. induction H as [|c s Hc Hs IH]; simpl; [done|].
  rewrite IH. by rewrite (proj2 (Z.ltb_lt c 128)) by lia.
Qed.
Lemma decode_replace_ascii s : ascii_text s -> decode_replace s = s.
Proof.
  intros H. unfold decode_replace. induction H as [|c s Hc Hs IH]; simpl; [done|].
  rewrite IH. by rewrite (proj2 (Z.ltb_lt c 128)) by lia.
Qed.

Lemma zlen_ljust n s : zlen s <= n -> zlen (ljust n s) = n.
Proof. intros. unfold ljust. rewrite zlen_app, zlen_rep; lia. Qed.

Lemma wf_bytes_ljust n s : wf_bytes s -> wf_bytes (ljust n s).
Proof. intros. apply wf_bytes_app. split; [done|by apply wf_bytes_rep]. Qed.

Lemma wf_bytes_ascii s : ascii_text s -> wf_bytes s.
Proof. intros H. eapply Forall_impl; [exact H|]. simpl. lia. Qed.

(** ** Liveness *)

(** [inevitably step P s]: whatever steps are taken from [s], a state of [P] is
    reached; no schedule stops before it and none goes on for ever without it. *)
Section liveness.
Context {S : Type} (step : S -> S -> Prop).

Inductive inevitably (P : S -> Prop) (s : S) : Prop :=
| inevitably_now : P s -> inevitably P s
| inevitably_later :
    (exists s', step s s') -> (forall s', step s s' -> inevitably P s') -> inevitably P s.

Lemma inevitably_weaken (P Q : S -> Prop) s :
  (forall s, P s -> Q s) -> inevitably P s -> inevitably Q s.
Proof. intros HPQ. induction 1; [by apply inevitably_now, HPQ|by apply inevitably_later]. Qed.

Lemma inevitably_trans (P Q : S -> Prop) s :
  inevitably P s -> (forall s, P s -> inevitably Q s) -> inevitably Q s.
Proof. intros H HPQ. induction H; [by apply HPQ|by apply inevitably_later]. Qed.

(** A system that cannot stop before [P], and whose steps all use up
    something, gets to [P]. *)
Lemma inevitably_wf {A} (R : A -> A -> Prop) (I P : S -> Prop) (m : S -> A) s :
  well_founded R ->
  (forall s, I s -> P s \/ exists s', step s s') ->
  (forall s s', I s -> step s s' -> I s' /\ R (m s') (m s)) ->
  I s -> inevitably P s.
Proof.
  intros Hwf Hlive Hstep. remember (m s) as n eqn:Hn. revert s Hn.
  induction (Hwf n) as [n _ IH]. intros s -> HI.
  destruct (Hlive s HI) as [HP|Hs]; [by apply inevitably_now|].
  apply inevitably_later; [done|]. intros s' Hs'. destruct (Hstep s s' HI Hs') as [HI' Hm].
  by apply (IH (m s') Hm s').
Qed.

Lemma inevitably_measure (I P : S -> Prop) (m : S -> nat) s :
  (forall s, I s -> P s \/ exists s', step s s') ->
  (forall s s', I s -> step s s' -> I s' /\ (m s' < m s)%nat) ->
  I s -> inevitably P s.
Proof. apply (inevitably_wf lt), lt_wf. Qed.

(** What no step can leave is there to stay. *)
Lemma rtc_invariant (I : S -> Prop) s s' :
  (forall s s', I s -> step s s' -> I s') -> rtc step s s' -> I s -> I s'.
Proof. intros Hstep. induction 1; eauto. Qed.
End liveness.

(** ** Automation *)

Create HintDb uvk5.
Create Rewrite HintDb zlen.
#[export] Hint Resolve zlen_nonneg wf_bytes_slice wf_bytes_rep wf_bytes_set_slice
  wf_bytes_ljust wf_bytes_ascii ascii_text_nonzero ascii_text_take : uvk5.
#[export] Hint Rewrite @zlen_nil @zlen_cons @zlen_app @zlen_map : zlen.

(** [zlen_tac] closes arithmetic goals about lengths: it computes the
    lengths of appends, repeats and slices, and leaves the rest to [lia]. *)
Ltac zlen_tac :=
  autorewrite with zlen in *;
  repeat first
    [ rewrite zlen_rep by lia
    | rewrite zlen_ljust by lia
    | rewrite zlen_slice by lia ];
  repeat match goal with
  | |- context [zlen ?l] =>
      lazymatch goal with
      | _ : 0 <= zlen l |- _ => fail
      | _ => pose proof (zlen_nonneg l)
      end
  end;
  lia.

(** [wf_tac] checks that the elements of a concrete list are in a range. *)
Ltac wf_tac :=
  hnf;
  match goal with |- Forall ?P ?l => let x := eval vm_compute in l in change (Forall P x) end;
  repeat (apply Forall_cons; split; [lia|]); apply Forall_nil; exact I.

(** [range_tac] decides [a <= c < b] on closed integers. *)
Ltac range_tac := split; vm_compute; first [discriminate | reflexivity].
