(* ===== verification/Text.v ===== *)
(** Text: the string methods the tools use, hexadecimal formatting, and what
    the host supplies for text: the tables beyond ASCII, how an exception and
    a string print, and the clock of the log. *)
From S2P Require Import Prelude.
From stdpp Require Import pretty.
Open Scope Z_scope.

(** Python's tables for the characters beyond ASCII: what [str.upper] and
    [str.lower] map them to and which of them [str.strip] removes. *)
Class Unicode := { upper_ext : Z -> list Z; lower_ext : Z -> list Z; space_ext : Z -> bool }.

(** [str(exc)], [repr(s)], and the time the log writes on its [n]-th line. *)
Class Runtime := { str_exn : exn -> list Z; repr_str : list Z -> list Z; rt_now : Z -> list Z }.

Section case.
Context `{Unicode}.

Definition upper1 (c : Z) : list Z :=
  if c <? 128 then [if (97 <=? c) && (c <=? 122) then c - 32 else c] else upper_ext c.
Definition upper (s : list Z) : list Z := concat (map upper1 s).
Definition lower1 (c : Z) : list Z :=
  if c <? 128 then [if (65 <=? c) && (c <=? 90) then c + 32 else c] else lower_ext c.
Definition lower (s : list Z) : list Z := concat (map lower1 s).
Definition is_space (c : Z) : bool :=
  if c <? 128 then ((9 <=? c) && (c <=? 13)) || ((28 <=? c) && (c <=? 32)) else space_ext c.
Fixpoint lstrip (s : list Z) : list Z :=
  match s with c :: r => if is_space c then lstrip r else s | [] => [] end.
Definition strip (s : list Z) : list Z := reverse (lstrip (reverse (lstrip s))).
End case.

(** The tables of a host that knows ASCII only. *)
Definition ascii_tables : Unicode :=
  {| upper_ext := fun c => [c]; lower_ext := fun c => [c]; space_ext := fun _ => false |}.
Definition plain_runtime : Runtime :=
  {| str_exn := fun e => lit (exn_fmt e); repr_str := fun s => [39] ++ s ++ [39];
     rt_now := fun _ => lit "00:00:00" |}.

(** [sep.join(parts)]. *)
Fixpoint join (sep : list Z) (parts : list (list Z)) : list Z :=
  match parts with
  | [] => []
  | [p] => p
  | p :: parts => p ++ sep ++ join sep parts
  end.

(** [s.split(c)] for a separator of one character. *)
Fixpoint split_on (c : Z) (s : list Z) : list (list Z) :=
  match s with
  | [] => [[]]
  | x :: s =>
      if x =? c then [] :: split_on c s
      else match split_on c s with
           | part :: parts => (x :: part) :: parts
           | [] => [[x]]
           end
  end.

Lemma split_on_ne c s : split_on c s <> [].
Proof. destruct s as [|x s]; cbn; [done|]. destruct (x =? c); [done|]. by destruct (split_on c s). Qed.

Lemma split_on_none c s : c ∉ s -> split_on c s = [s].
Proof.
  induction s as [|x s IH]; intros Hn; [done|]. apply not_elem_of_cons in Hn as [Hx Hn].
  cbn. rewrite (proj2 (Z.eqb_neq x c)) by done. by rewrite IH.
Qed.

Lemma split_on_app c s1 s2 : c ∉ s1 -> split_on c (s1 ++ c :: s2) = s1 :: split_on c s2.
Proof.
  induction s1 as [|x s1 IH]; intros Hn; cbn; [by rewrite Z.eqb_refl|].
  apply not_elem_of_cons in Hn as [Hx Hn]. rewrite (proj2 (Z.eqb_neq x c)) by done. by rewrite IH.
Qed.

Lemma split_on_part c s p : p ∈ split_on c s -> c ∉ p.
Proof.
  revert p. induction s as [|x s IH]; intros p; cbn.
  - intros ->%list_elem_of_singleton. set_solver.
  - destruct (Z.eqb_spec x c) as [->|Hx].
    + intros [->|H]%elem_of_cons; [set_solver|by apply IH].
    + destruct (split_on c s) as [|q qs]; [intros ->%list_elem_of_singleton; set_solver|].
      intros [->|H]%elem_of_cons; [|apply IH; by right].
      apply not_elem_of_cons. split; [done|]. apply IH. by left.
Qed.

(** Splitting is undone by joining. *)
Lemma join_split c s : join [c] (split_on c s) = s.
Proof.
  induction s as [|x s IH]; [done|]. cbn. pose proof (split_on_ne c s) as Hne.
  destruct (Z.eqb_spec x c) as [->|].
  - destruct (split_on c s) as [|p ps]; [done|]. cbn [join]. cbn [app]. by f_equal.
  - destruct (split_on c s) as [|p ps]; [done|]. destruct ps; cbn [join app] in *; by f_equal.
Qed.

Lemma split_join c parts :
  parts <> [] -> Forall (fun p => c ∉ p) parts -> split_on c (join [c] parts) = parts.
Proof.
  intros Hne Hp. induction Hp as [|p parts Hc Hp IH]; [done|]. destruct parts as [|q parts].
  - cbn. by apply split_on_none.
  - change (join [c] (p :: q :: parts)) with (p ++ c :: join [c] (q :: parts)).
    rewrite split_on_app by done. f_equal. by apply IH.
Qed.

(** ** Numbers *)

(** [str(n)]. *)
Definition decimal (n : Z) : list Z :=
  if n <? 0 then 45 :: lit (pretty (Z.to_N (- n))) else lit (pretty (Z.to_N n)).

(** ** Hexadecimal formatting *)

Definition hex_lower (d : Z) : Z := if d <? 10 then 48 + d else 87 + d.
Definition hex_upper (d : Z) : Z := if d <? 10 then 48 + d else 55 + d.

Fixpoint hex_digits (dig : Z -> Z) (fuel : nat) (n : Z) (acc : list Z) : list Z :=
  match fuel with
  | O => acc
  | S fuel =>
      let acc := dig (n mod 16) :: acc in
      if n / 16 =? 0 then acc else hex_digits dig fuel (n / 16) acc
  end.

(** ["%0wX"] and ["%0wx"] of a natural number; a number of [n] bits has at
    most [n] digits. *)
Definition hex (dig : Z -> Z) (width : nat) (n : Z) : list Z :=
  let d := hex_digits dig (S (Z.to_nat (Z.log2 n))) n [] in
  replicate (width - length d) 48 ++ d.

Example hex_example : hex hex_upper 8 0x2000B4F0 = lit "2000B4F0" /\ hex hex_lower 4 0x1f = lit "001f".
Proof. done. Qed.

(** The digits of a formatted number, and the number they spell. *)
Lemma hex_digits_spell dig fuel : forall n acc, 0 <= n -> (n < 16 ^ Z.of_nat fuel) -> (0 < fuel)%nat ->
  exists ds, hex_digits dig fuel n acc = map dig ds ++ acc /\ ds <> [] /\
    Forall (fun d => 0 <= d < 16) ds /\ foldl (fun a d => a * 16 + d) 0 ds = n.
Proof.
  induction fuel as [|fuel IH]; intros n acc Hn Hf Hp; [lia|]. cbn [hex_digits].
  pose proof (Z.mod_pos_bound n 16 ltac:(lia)). pose proof (Z.div_mod n 16 ltac:(lia)).
  destruct (Z.eqb_spec (n / 16) 0) as [E|E].
  - exists [n mod 16]. split; [done|]. split; [done|]. split; [by apply Forall_singleton|]. cbn. lia.
  - assert (0 < n / 16) as Hq by (pose proof (Z.div_pos n 16); lia).
    rewrite Nat2Z.inj_succ, Z.pow_succ_r in Hf by lia.
    destruct (IH (n / 16) (dig (n mod 16) :: acc)) as (ds & -> & Hne & Hd & Hs); [lia|lia| |].
    { destruct fuel; [|lia]. change (16 ^ Z.of_nat 0) with 1 in Hf. lia. }
    exists (ds ++ [n mod 16]). split; [rewrite map_app; by rewrite <- app_assoc|]. split; [by destruct ds|].
    split; [apply Forall_app; split; [done|by apply Forall_singleton]|]. rewrite foldl_app, Hs. cbn. lia.
Qed.

Lemma hex_spell dig width n : 0 <= n -> dig 0 = 48 ->
  exists ds, hex dig width n = map dig ds /\ ds <> [] /\ Forall (fun d => 0 <= d < 16) ds /\
    foldl (fun a d => a * 16 + d) 0 ds = n.
Proof.
  intros Hn H0. unfold hex.
  destruct (hex_digits_spell dig (S (Z.to_nat (Z.log2 n))) n []) as (ds & -> & Hne & Hd & Hs); [done| |lia|].
  { rewrite Nat2Z.inj_succ, Z2Nat.id by apply Z.log2_nonneg. destruct (Z.eq_dec n 0) as [->|]; [done|].
    pose proof (proj2 (Z.log2_spec n ltac:(lia))).
    apply Z.lt_le_trans with (2 ^ Z.succ (Z.log2 n)); [done|]. apply Z.pow_le_mono_l. lia. }
  rewrite app_nil_r, length_map. exists (replicate (width - length ds) 0 ++ ds).
  split; [rewrite map_app; f_equal; rewrite fmap_replicate; by rewrite H0|]. split; [by destruct ds; destruct (width - _)%nat|].
  split; [apply Forall_app; split; [apply Forall_replicate; lia|done]|]. rewrite foldl_app.
  assert (forall k, foldl (fun a d => a * 16 + d) 0 (replicate k 0) = 0) as ->; [|done].
  intros k. by induction k.
Qed.

(** ** Columns and lines *)

(** ["%-18s"] and ["%7d"]. *)
Definition padded (n : nat) (s : list Z) : list Z := s ++ repeat 32 (n - length s).
Definition padded_left (n : nat) (s : list Z) : list Z := repeat 32 (n - length s) ++ s.

(** [str.splitlines]. *)
Definition is_break (c : Z) : bool :=
  ((10 <=? c) && (c <=? 13)) || ((28 <=? c) && (c <=? 30)) || (c =? 0x85) || (c =? 0x2028) || (c =? 0x2029).
Fixpoint splitlines (line s : list Z) : list (list Z) :=
  match s with
  | [] => if bool_decide (line = []) then [] else [line]
  | c :: s => if is_break c
              then line :: match c, s with
                           | 13, 10 :: s => splitlines [] s
                           | _, _ => splitlines [] s
                           end
              else splitlines (line ++ [c]) s
  end.
