(* ===== verification/Regex.v ===== *)
(** The regular expressions of Python's [re], as far as the tools use them: a
    backtracking matcher with groups, greedy and lazy repetition and the line
    anchors, and [search], [findall] and [sub] over it.  Against the relation
    [reach], which says what an expression may consume, the matcher is sound
    and complete; so what a search finds does not depend on how it
    backtracks. *)
From S2P Require Import Prelude Text.
Open Scope Z_scope.

Inductive re :=
| Eps
| Chr (p : Z -> bool)                  (* one character of a class *)
| Cat (a b : re)
| Alt (a b : re)
| Star (greedy : bool) (a : re)
| Grp (n : nat) (a : re)
| Bol                                  (* ^ of re.M *)
| Eol (multi : bool).                  (* $, of re.M or not *)

(** What lies behind, nearest first, what lies ahead, and the groups, the
    latest first. *)
Record state := State { st_left : list Z; st_rest : list Z; st_caps : list (nat * list Z) }.

(** The text between two states of a match. *)
Definition between (b e : state) : list Z :=
  reverse (take (length (st_left e) - length (st_left b)) (st_left e)).
Definition capture (n : nat) (b e : state) : state :=
  State (st_left e) (st_rest e) ((n, between b e) :: st_caps e).
Definition group (n : nat) (e : state) : option (list Z) :=
  snd <$> List.find (fun c => Nat.eqb c.1 n) (st_caps e).

Definition at_bol (st : state) : bool := match st_left st with [] => true | c :: _ => c =? 10 end.
Definition at_eol (multi : bool) (st : state) : bool :=
  match st_rest st with [] => true | [c] => c =? 10 | c :: _ => multi && (c =? 10) end.

Definition or_else {A} (a b : option A) : option A := match a with Some x => Some x | None => b end.

(** A repetition of [step], at most [n] times, none of them empty. *)
Fixpoint star_loop {A} (greedy : bool) (step : state -> (state -> option A) -> option A)
    (k : state -> option A) (n : nat) (st : state) : option A :=
  let more := match n with
              | O => None
              | S n => step st (fun st' =>
                         if (length (st_rest st') <? length (st_rest st))%nat
                         then star_loop greedy step k n st' else None)
              end in
  if greedy then or_else more (k st) else or_else (k st) more.

(** [k] is what has to succeed after the expression. *)
Fixpoint match_ {A} (r : re) (st : state) (k : state -> option A) : option A :=
  match r with
  | Eps => k st
  | Chr p => match st_rest st with
             | c :: s => if p c then k (State (c :: st_left st) s (st_caps st)) else None
             | [] => None
             end
  | Cat a b => match_ a st (fun st => match_ b st k)
  | Alt a b => or_else (match_ a st k) (match_ b st k)
  | Star greedy a => star_loop greedy (fun st k => match_ a st k) k (length (st_rest st)) st
  | Grp n a => match_ a st (fun st' => k (capture n st st'))
  | Bol => if at_bol st then k st else None
  | Eol multi => if at_eol multi st then k st else None
  end.

(** [re.search] from a place on: the leftmost start, and the end. *)
Fixpoint search (r : re) (l s : list Z) : option (state * state) :=
  match match_ r (State l s []) Some with
  | Some e => Some (State l s [], e)
  | None => match s with [] => None | c :: s => search r (c :: l) s end
  end.

(** [re.finditer]: each search starts where the last match ended.  No
    expression of the tools matches the empty string. *)
Fixpoint scan (fuel : nat) (r : re) (l s : list Z) : list (state * state) :=
  match fuel with
  | O => []
  | S fuel =>
      match search r l s with
      | None => []
      | Some (b, e) =>
          (b, e) :: (if (length (st_rest e) <? length (st_rest b))%nat then scan fuel r (st_left e) (st_rest e)
                     else match st_rest e with [] => [] | c :: s => scan fuel r (c :: st_left e) s end)
      end
  end.
Definition finditer (r : re) (s : list Z) : list (state * state) := scan (S (length s)) r [] s.

(** [re.findall] of an expression with one group, and [re.sub]. *)
Definition findall (r : re) (s : list Z) : list (list Z) :=
  map (fun m => default [] (group 1 m.2)) (finditer r s).
Fixpoint sub_loop (fuel : nat) (r : re) (by_ l s : list Z) : list Z :=
  match fuel with
  | O => s
  | S fuel =>
      match search r l s with
      | None => s
      | Some (b, e) =>
          take (length s - length (st_rest b)) s ++ by_ ++
          (if (length (st_rest e) <? length (st_rest b))%nat then sub_loop fuel r by_ (st_left e) (st_rest e)
           else match st_rest e with [] => [] | c :: s => c :: sub_loop fuel r by_ (c :: st_left e) s end)
      end
  end.
Definition sub (r : re) (by_ s : list Z) : list Z := sub_loop (S (length s)) r by_ [] s.

(** ** Expressions *)

Definition one (c : Z) : re := Chr (Z.eqb c).
Definition str (s : list Z) : re := foldr (fun c r => Cat (one c) r) Eps s.
Definition many (a : re) : re := Cat a (Star true a).
Definition many_lazy (a : re) : re := Cat a (Star false a).
Definition in_range (a b c : Z) : bool := (a <=? c) && (c <=? b).
Definition dot : re := Chr (fun c => negb (c =? 10)).

(** ** What an expression may consume *)

Inductive reach : re -> state -> state -> Prop :=
| reach_eps st : reach Eps st st
| reach_chr p c l s g : p c = true -> reach (Chr p) (State l (c :: s) g) (State (c :: l) s g)
| reach_cat a b x y z : reach a x y -> reach b y z -> reach (Cat a b) x z
| reach_left a b x y : reach a x y -> reach (Alt a b) x y
| reach_right a b x y : reach b x y -> reach (Alt a b) x y
| reach_done greedy a x : reach (Star greedy a) x x
| reach_more greedy a x y z :
    reach a x y -> (length (st_rest y) < length (st_rest x))%nat -> reach (Star greedy a) y z ->
    reach (Star greedy a) x z
| reach_grp n a x y : reach a x y -> reach (Grp n a) x (capture n x y)
| reach_bol x : at_bol x = true -> reach Bol x x
| reach_eol multi x : at_eol multi x = true -> reach (Eol multi) x x.


Lemma or_else_some {A} (a b : option A) x : or_else a b = Some x -> a = Some x \/ b = Some x.
Proof. destruct a; [by left|by right]. Qed.
Lemma or_else_ne {A} (a b : option A) : a <> None \/ b <> None -> or_else a b <> None.
Proof. destruct a; [done|]. by intros [?|?]. Qed.

(** What the matcher accepts, the expression may consume. *)
Lemma match_sound {A} r : forall st (k : state -> option A) x,
  match_ r st k = Some x -> exists st', reach r st st' /\ k st' = Some x.
Proof.
  induction r as [|p|a IHa b IHb|a IHa b IHb|greedy a IHa|n a IHa| |multi]; intros st k x; cbn [match_].
  - intros H. by exists st; split; [constructor|].
  - destruct st as [l [|c s] g]; cbn; [done|]. destruct (p c) eqn:Hp; [|done]. intros H.
    eexists. split; [by constructor|exact H].
  - intros (y & Hy & (z & Hz & Hk)%IHb)%IHa. exists z. split; [by econstructor|done].
  - intros [(y & Hy & Hk)%IHa|(y & Hy & Hk)%IHb]%or_else_some; exists y; (split; [|done]);
      [by constructor|by apply reach_right].
  - generalize (length (st_rest st)) as n. intros n. revert st.
    induction n as [|n IHn]; intros st; cbn [star_loop].
    + intros H. exists st. split; [constructor|]. by destruct greedy, (k st).
    + set (next := match_ a st _). intros H.
      assert (k st = Some x \/ next = Some x) as [Hk|Hk] by (destruct greedy; apply or_else_some in H; tauto).
      { exists st. split; [constructor|done]. }
      unfold next in Hk. apply IHa in Hk as (y & Hy & Hk).
      destruct (Nat.ltb_spec (length (st_rest y)) (length (st_rest st))) as [Hl|]; [|done].
      apply IHn in Hk as (z & Hz & Hk). exists z. split; [by eapply reach_more|done].
  - intros (y & Hy & Hk)%IHa. eexists. split; [by constructor|exact Hk].
  - destruct (at_bol st) eqn:E; [|done]. intros H. exists st. by split; [constructor|].
  - destruct (at_eol multi st) eqn:E; [|done]. intros H. exists st. by split; [constructor|].
Qed.

Lemma reach_shrinks r x y : reach r x y -> (length (st_rest y) <= length (st_rest x))%nat.
Proof. induction 1; cbn in *; lia. Qed.

(** What the expression may consume and what follows accepts, the matcher
    finds. *)
Lemma match_complete {A} r st st' (k : state -> option A) :
  reach r st st' -> k st' <> None -> match_ r st k <> None.
Proof.
  intros Hr Hk.
  assert (match r with
          | Star greedy a => forall n, (length (st_rest st) <= n)%nat ->
              star_loop greedy (fun st k => match_ a st k) k n st <> None
          | _ => match_ r st k <> None
          end) as H; [|destruct r; try exact H; cbn [match_]; by apply H].
  revert k Hk. induction Hr as [st|p c l s g Hp|a b x y z H1 IH1 H2 IH2|a b x y H IH|a b x y H IH|greedy a x
    |greedy a x y z H1 IH1 Hl H2 IH2|n a x y H IH|x Hx|multi x Hx]; intros k Hk.
  - exact Hk.
  - cbn [match_ st_rest st_left st_caps]. by rewrite Hp.
  - cbn [match_]. assert (match_ b y k <> None) as Hb.
    { specialize (IH2 k Hk). destruct b; try exact IH2. cbn [match_]. by apply IH2. }
    specialize (IH1 (fun st => match_ b st k) Hb). destruct a; try exact IH1. cbn [match_]. by apply IH1.
  - cbn [match_]. apply or_else_ne. left. specialize (IH k Hk). destruct a; try exact IH. cbn [match_]. by apply IH.
  - cbn [match_]. apply or_else_ne. right. specialize (IH k Hk). destruct b; try exact IH. cbn [match_]. by apply IH.
  - intros n _. destruct n; cbn [star_loop]; destruct greedy; apply or_else_ne; auto.
  - intros [|n] Hn; [lia|]. cbn [star_loop].
    set (f := fun st' : state => if (length (st_rest st') <? length (st_rest x))%nat
                then star_loop greedy (fun st k => match_ a st k) k n st' else None).
    assert (match_ a x f <> None) as Ha.
    { assert (f y <> None) as Hf.
      { unfold f. rewrite (proj2 (Nat.ltb_lt _ _)) by done. apply IH2; [done|lia]. }
      specialize (IH1 f Hf). destruct a; try exact IH1. cbn [match_]. by apply IH1. }
    destruct greedy; apply or_else_ne; [by left|by right].
  - cbn [match_]. set (f := fun st' => k (capture n x st')). specialize (IH f Hk).
    destruct a; try exact IH. cbn [match_]. by apply IH.
  - cbn [match_]. by rewrite Hx.
  - cbn [match_]. by rewrite Hx.
Qed.

(** ** The text a match consumes *)

Lemma reach_text r x y :
  reach r x y -> exists w, st_rest x = w ++ st_rest y /\ st_left y = reverse w ++ st_left x.
Proof.
  induction 1 as [st|p c l s g Hp|a b x y z _ (w1 & R1 & L1) _ (w2 & R2 & L2)|a b x y _ IH|a b x y _ IH|greedy a x
    |greedy a x y z _ (w1 & R1 & L1) _ _ (w2 & R2 & L2)|n a x y _ IH|x Hx|multi x Hx]; try exact IH;
    try (by exists []).
  - by exists [c].
  - exists (w1 ++ w2). rewrite R1, R2, L2, L1, reverse_app. by rewrite !app_assoc.
  - exists (w1 ++ w2). rewrite R1, R2, L2, L1, reverse_app. by rewrite !app_assoc.
Qed.

Lemma between_text x y w : st_left y = reverse w ++ st_left x -> between x y = w.
Proof.
  intros E. unfold between. rewrite E, length_app, Nat.add_sub, take_app_length.
  apply reverse_involutive.
Qed.

(** A search finds the leftmost start from which the expression may consume
    something, and fails only when there is none. *)
Lemma search_some r l s b e :
  search r l s = Some (b, e) ->
  exists pre, s = pre ++ st_rest b /\ b = State (reverse pre ++ l) (st_rest b) [] /\ reach r b e /\
    forall pre' post, s = pre' ++ post -> (length pre' < length pre)%nat ->
      forall e', ~ reach r (State (reverse pre' ++ l) post []) e'.
Proof.
  revert l. induction s as [|c s IH]; intros l; cbn [search].
  - destruct (match_ r _ _) as [e0|] eqn:E; [|done]. intros [= <- ->].
    apply match_sound in E as (e1 & Hr & [= ->]). exists []. do 3 (split; [done|]). intros pre' post _ Hl. cbn in Hl. lia.
  - destruct (match_ r (State l (c :: s) []) Some) as [e0|] eqn:E.
    + intros [= <- ->]. apply match_sound in E as (e1 & Hr & [= ->]). exists []. do 3 (split; [done|]).
      intros pre' post _ Hl. cbn in Hl. lia.
    + intros (pre & Hs & Hb & Hr & Hmin)%IH. exists (c :: pre). split; [cbn; by f_equal|].
      split; [by rewrite reverse_cons, <- app_assoc|]. split; [done|].
      intros [|c' pre'] post Hp Hl e' He.
      * cbn in Hp. subst post. exact (match_complete r _ _ Some He ltac:(discriminate) E).
      * cbn in Hp, Hl. injection Hp as -> Hp. apply (Hmin pre' post Hp ltac:(lia) e').
        by rewrite reverse_cons, <- app_assoc in He.
Qed.

Lemma search_none r l s :
  search r l s = None -> forall pre post e, s = pre ++ post -> ~ reach r (State (reverse pre ++ l) post []) e.
Proof.
  revert l. induction s as [|c s IH]; intros l; cbn [search].
  - destruct (match_ r _ _) as [e0|] eqn:E; [done|]. intros _ pre post e Hp He. symmetry in Hp.
    apply app_eq_nil in Hp as [-> ->]. exact (match_complete r _ _ Some He ltac:(discriminate) E).
  - destruct (match_ r (State l (c :: s) []) Some) as [e0|] eqn:E; [done|].
    intros Hs [|c' pre] post e Hp He.
    + cbn in Hp. subst post. exact (match_complete r _ _ Some He ltac:(discriminate) E).
    + cbn in Hp. injection Hp as -> Hp. apply (IH _ Hs pre post e Hp). by rewrite reverse_cons, <- app_assoc in He.
Qed.

(** Every match of [finditer] is one of the expression in the text; and every
    place the expression matches at is covered by one. *)
Section scanning.
Context (r : re).
Hypothesis Hne : forall x y, reach r x y -> (length (st_rest y) < length (st_rest x))%nat.

Lemma scan_sound fuel : forall l s b e,
  (b, e) ∈ scan fuel r l s -> exists pre, s = pre ++ st_rest b /\ b = State (reverse pre ++ l) (st_rest b) [] /\ reach r b e.
Proof.
  induction fuel as [|fuel IH]; intros l s b e; cbn [scan]; [by intros []%not_elem_of_nil|].
  destruct (search r l s) as [[b0 e0]|] eqn:E; [|by intros []%not_elem_of_nil].
  apply search_some in E as (pre & Hs & Hb & Hr & _). pose proof (Hne _ _ Hr) as Hl.
  rewrite (proj2 (Nat.ltb_lt _ _)) by done. intros [[= -> ->]|Hin]%elem_of_cons; [by exists pre|].
  apply IH in Hin as (pre' & Hs' & Hb' & Hr'). destruct (reach_text r b0 e0 Hr) as (w & R & L).
  exists (pre ++ w ++ pre'). split; [rewrite Hs, R, Hs'; by rewrite <- !app_assoc|]. split; [|done].
  rewrite Hb', L, Hb. cbn [st_left st_rest]. f_equal. by rewrite !reverse_app, <- !app_assoc.
Qed.

Lemma scan_covers fuel : forall l s pre post e',
  (length s < fuel)%nat -> s = pre ++ post -> reach r (State (reverse pre ++ l) post []) e' ->
  exists b e, (b, e) ∈ scan fuel r l s /\
    (length (st_rest e) < length post)%nat /\ (length post <= length (st_rest b))%nat.
Proof.
  induction fuel as [|fuel IH]; intros l s pre post e' Hf Hs Hr'; [lia|]. cbn [scan].
  destruct (search r l s) as [[b0 e0]|] eqn:E.
  2: { exfalso. by apply (search_none r l s E pre post e'). }
  apply search_some in E as (pre0 & Hs0 & Hb & Hr & Hmin). pose proof (Hne _ _ Hr) as Hl.
  rewrite (proj2 (Nat.ltb_lt _ _)) by done.
  assert (length pre0 <= length pre)%nat as Hle.
  { destruct (Nat.le_gt_cases (length pre0) (length pre)) as [|Hlt]; [done|]. exfalso. by apply (Hmin pre post Hs Hlt e'). }
  assert (length post <= length (st_rest b0))%nat as Hpost.
  { rewrite Hs in Hs0. apply (f_equal length) in Hs0. rewrite !length_app in Hs0. lia. }
  destruct (Nat.le_gt_cases (length post) (length (st_rest e0))) as [Hge|Hlt].
  2: { exists b0, e0. split; [by left|done]. }
  destruct (reach_text r b0 e0 Hr) as (w & R & L).
  assert (exists pre1, pre = pre0 ++ w ++ pre1 /\ st_rest e0 = pre1 ++ post) as (pre1 & -> & Hrest).
  { exists (drop (length (pre0 ++ w)) pre).
    assert (s = (pre0 ++ w) ++ st_rest e0) as Hs1 by (rewrite Hs0, R; by rewrite <- app_assoc).
    assert (length (pre0 ++ w) <= length pre)%nat as Hlp.
    { pose proof (f_equal length Hs1) as H1. rewrite Hs in H1. rewrite !length_app in *. lia. }
    rewrite Hs in Hs1. assert (take (length (pre0 ++ w)) pre = pre0 ++ w) as Ht.
    { pose proof (f_equal (take (length (pre0 ++ w))) Hs1) as H1. rewrite take_app_le in H1 by done.
      by rewrite take_app_length in H1. }
    split; [rewrite app_assoc; rewrite <- Ht at 1; by rewrite take_drop|].
    pose proof (f_equal (drop (length (pre0 ++ w))) Hs1) as H1. rewrite drop_app_le in H1 by done.
    by rewrite drop_app_length in H1. }
  destruct (IH (st_left e0) (st_rest e0) pre1 post e') as (b & e & Hin & H1 & H2).
  - rewrite R, length_app in Hl. rewrite Hs0, R, !length_app in Hf. lia.
  - done.
  - rewrite L, Hb. cbn [st_left]. by rewrite !reverse_app, <- !app_assoc in Hr'.
  - exists b, e. split; [by right|done].
Qed.
End scanning.

(** ** Literals and runs of a class *)

Lemma reach_cat_iff a b x z : reach (Cat a b) x z <-> exists y, reach a x y /\ reach b y z.
Proof. split; [inversion 1; subst; eauto|]. intros (y & H1 & H2). by econstructor. Qed.
Lemma reach_grp_iff n a x z : reach (Grp n a) x z <-> exists y, reach a x y /\ z = capture n x y.
Proof. split; [inversion 1; subst; eauto|]. intros (y & H1 & ->). by constructor. Qed.
Lemma reach_alt_iff a b x z : reach (Alt a b) x z <-> reach a x z \/ reach b x z.
Proof. split; [inversion 1; subst; eauto|]. intros [H|H]; [by apply reach_left|by apply reach_right]. Qed.
Lemma reach_bol_iff x z : reach Bol x z <-> at_bol x = true /\ z = x.
Proof. split; [by inversion 1|]. intros [H ->]. by constructor. Qed.
Lemma reach_eol_iff multi x z : reach (Eol multi) x z <-> at_eol multi x = true /\ z = x.
Proof. split; [by inversion 1|]. intros [H ->]. by constructor. Qed.

(** The state after consuming [w]. *)
Definition after (w : list Z) (x y : state) : Prop :=
  st_rest x = w ++ st_rest y /\ st_left y = reverse w ++ st_left x /\ st_caps y = st_caps x.

Lemma after_cons c w x z :
  after (c :: w) x z <-> exists l s g, x = State l (c :: s) g /\ after w (State (c :: l) s g) z.
Proof.
  unfold after. split.
  - intros (R & L & C). destruct x as [l s g]. cbn [st_left st_rest st_caps] in *. subst s. eexists l, _, g. split; [done|]. cbn [st_left st_rest st_caps].
    by rewrite L, reverse_cons, <- app_assoc.
  - intros (l & s & g & -> & R & L & C). cbn [st_left st_rest st_caps] in *. by rewrite L, reverse_cons, <- app_assoc, R.
Qed.
Lemma after_nil x z : after [] x z <-> z = x.
Proof.
  unfold after. destruct x, z; cbn. split; [by intros (-> & -> & ->)|by intros [= -> -> ->]].
Qed.

Lemma reach_chr_iff p x z : reach (Chr p) x z <-> exists c, p c = true /\ after [c] x z.
Proof.
  split.
  - inversion 1; subst. eexists. split; [done|]. apply after_cons. eexists _, _, _. split; [done|]. by apply after_nil.
  - intros (c & Hp & (l & s & g & -> & ->%after_nil)%after_cons). by constructor.
Qed.

Lemma reach_str_iff w x z : reach (str w) x z <-> after w x z.
Proof.
  revert x. induction w as [|c w IH]; intros x; cbn [str foldr].
  - rewrite after_nil. split; [by inversion 1|]. intros ->. constructor.
  - rewrite reach_cat_iff, after_cons. fold (str w). split.
    + intros (y & (d & Hd & (l & s & g & -> & ->%after_nil)%after_cons)%reach_chr_iff & Hw%IH).
      apply Z.eqb_eq in Hd as <-. by eexists _, _, _.
    + intros (l & s & g & -> & Hw%IH). eexists. split; [|exact Hw]. constructor. apply Z.eqb_refl.
Qed.

Lemma reach_run_iff greedy p x z :
  reach (Star greedy (Chr p)) x z <-> exists w, Forall (fun c => p c = true) w /\ after w x z.
Proof.
  split.
  - remember (Star greedy (Chr p)) as r eqn:Er. induction 1; try discriminate; injection Er as -> ->.
    + exists []. split; [constructor|by apply after_nil].
    + destruct IHreach2 as (w & Hw & Ha); [done|].
      match goal with H : reach (Chr _) _ _ |- _ => apply reach_chr_iff in H as (c & Hc & (l & s & g & -> & ->%after_nil)%after_cons) end.
      exists (c :: w). split; [by constructor|]. apply after_cons. by eexists _, _, _.
  - intros (w & Hw & Ha). revert x Ha. induction Hw as [|c w Hc Hw IH]; intros x Ha.
    + apply after_nil in Ha as ->. constructor.
    + apply after_cons in Ha as (l & s & g & -> & Ha). eapply reach_more; [by constructor|cbn; lia|by apply IH].
Qed.

Lemma reach_many_iff greedy p x z :
  reach (Cat (Chr p) (Star greedy (Chr p))) x z <->
  exists w, w <> [] /\ Forall (fun c => p c = true) w /\ after w x z.
Proof.
  rewrite reach_cat_iff. split.
  - intros (y & (c & Hc & (l & s & g & -> & ->%after_nil)%after_cons)%reach_chr_iff & (w & Hw & Ha)%reach_run_iff).
    exists (c :: w). split; [done|]. split; [by constructor|]. apply after_cons. by eexists _, _, _.
  - intros ([|c w] & Hne & Hw & Ha); [done|]. apply Forall_cons in Hw as [Hc Hw].
    apply after_cons in Ha as (l & s & g & -> & Ha). eexists. split; [by constructor|]. apply reach_run_iff. by exists w.
Qed.

Lemma after_between w x y : after w x y -> between x y = w.
Proof. intros (_ & L & _). by apply between_text. Qed.
Lemma after_group n w y z : after w y z -> group n z = group n y.
Proof. intros (_ & _ & C). unfold group. by rewrite C. Qed.
Lemma group_capture n x y : group n (capture n x y) = Some (between x y).
Proof. unfold group, capture. cbn. by rewrite Nat.eqb_refl. Qed.
Lemma after_capture n w x y z : after w (capture n x y) z -> st_rest y = w ++ st_rest z.
Proof. by intros (R & _). Qed.

Lemma after_app w1 w2 x z : after (w1 ++ w2) x z <-> exists y, after w1 x y /\ after w2 y z.
Proof.
  unfold after. split.
  - intros (R & L & C). exists (State (reverse w1 ++ st_left x) (w2 ++ st_rest z) (st_caps x)). cbn [st_left st_rest st_caps].
    split; [split; [by rewrite R, <- app_assoc|done]|]. split; [done|]. by rewrite L, reverse_app, <- app_assoc.
  - intros (y & (R1 & L1 & C1) & (R2 & L2 & C2)). split; [by rewrite R1, R2, <- app_assoc|].
    split; [by rewrite L2, L1, reverse_app, <- app_assoc|by rewrite C2].
Qed.
(** A group around an expression that consumes text. *)
Lemma reach_text_grp n (P : list Z -> Prop) a x z :
  (forall y, reach a x y <-> exists w, P w /\ after w x y) ->
  reach (Grp n a) x z <-> exists w, P w /\ st_rest x = w ++ st_rest z /\ st_left z = reverse w ++ st_left x /\
    st_caps z = (n, w) :: st_caps x.
Proof.
  intros Ha. rewrite reach_grp_iff. split.
  - intros (y & (w & Hw & Hy)%Ha & ->). exists w. pose proof (after_between _ _ _ Hy) as Hb.
    destruct Hy as (R & L & C). unfold capture. cbn [st_left st_rest st_caps]. by rewrite Hb, C.
  - intros (w & Hw & R & L & C). exists (State (st_left z) (st_rest z) (st_caps x)).
    assert (after w x (State (st_left z) (st_rest z) (st_caps x))) as Hy by done.
    split; [apply Ha; by exists w|]. unfold capture. cbn [st_left st_rest st_caps].
    rewrite (after_between _ _ _ Hy), <- C. by destruct z.
Qed.

(** ** Greedy runs

    A greedy run of a class takes all it can, when what follows succeeds
    there. *)
Lemma star_run_greedy {A} p w : Forall (fun c => p c = true) w -> forall (k : state -> option A) x n l s g,
  (length w <= n)%nat -> match s with c :: _ => p c = false | [] => True end ->
  k (State (reverse w ++ l) s g) = Some x ->
  star_loop true (fun st k => match_ (Chr p) st k) k n (State l (w ++ s) g) = Some x.
Proof.
  induction 1 as [|c w Hc Hw IH]; intros k x n l s g Hn Hs Hk.
  - cbn [app reverse] in *. assert (star_loop true (fun st k => match_ (Chr p) st k) k n (State l s g) = k (State l s g)) as ->; [|done].
    destruct n as [|n]; [done|]. cbn. destruct s as [|c s]; [done|]. by rewrite Hs.
  - destruct n as [|n]; cbn [length] in Hn; [lia|].
    cbn [star_loop match_ st_rest st_left st_caps app]. rewrite Hc. cbn [st_rest length].
    rewrite (proj2 (Nat.ltb_lt _ _)) by lia.
    assert (star_loop true (fun st k => match_ (Chr p) st k) k n (State (c :: l) (w ++ s) g) = Some x) as E.
    { apply IH; [lia|done|]. by rewrite reverse_cons, <- app_assoc in Hk. }
    cbn [match_] in E. by rewrite E.
Qed.

Lemma match_run_greedy {A} p w l s g (k : state -> option A) x :
  Forall (fun c => p c = true) w -> match s with c :: _ => p c = false | [] => True end ->
  k (State (reverse w ++ l) s g) = Some x -> match_ (Star true (Chr p)) (State l (w ++ s) g) k = Some x.
Proof. intros Hw Hs Hk. cbn [match_ st_rest]. apply star_run_greedy; [done| |done|done]. rewrite length_app. lia. Qed.

Lemma match_many_greedy {A} p w l s g (k : state -> option A) x :
  w <> [] -> Forall (fun c => p c = true) w -> match s with c :: _ => p c = false | [] => True end ->
  k (State (reverse w ++ l) s g) = Some x -> match_ (many (Chr p)) (State l (w ++ s) g) k = Some x.
Proof.
  intros Hne Hw Hs Hk. destruct w as [|c w]; [done|]. apply Forall_cons in Hw as [Hc Hw].
  unfold many. cbn [match_ st_rest app]. rewrite Hc. cbn [st_left st_caps].
  apply (match_run_greedy p w (c :: l) s g k x Hw Hs). by rewrite reverse_cons, <- app_assoc in Hk.
Qed.

Lemma match_str {A} w l s g (k : state -> option A) :
  match_ (str w) (State l (w ++ s) g) k = k (State (reverse w ++ l) s g).
Proof.
  revert l. induction w as [|c w IH]; intros l; [done|]. cbn [str foldr]. fold (str w). cbn [match_ one st_rest app].
  rewrite Z.eqb_refl. cbn [st_left st_caps]. rewrite IH. by rewrite reverse_cons, <- app_assoc.
Qed.

(** Searching past text where nothing matches. *)
Lemma search_here r l s e : match_ r (State l s []) Some = Some e -> search r l s = Some (State l s [], e).
Proof. intros E. destruct s; cbn [search]; by rewrite E. Qed.
Lemma search_past r l c s : match_ r (State l (c :: s) []) Some = None -> search r l (c :: s) = search r (c :: l) s.
Proof. intros E. cbn [search]. by rewrite E. Qed.

(** An expression that starts with [^] is only tried after a newline. *)
Lemma search_to_line r w s : forall l,
  match l with c :: _ => c <> 10 | [] => False end -> Forall (fun c => c <> 10) w ->
  search (Cat Bol r) l (w ++ 10 :: s) = search (Cat Bol r) (10 :: reverse w ++ l) s.
Proof.
  induction w as [|c w IH]; intros l Hl Hw.
  - cbn [app reverse]. apply search_past. destruct l as [|d l]; [done|]. cbn. by rewrite (proj2 (Z.eqb_neq _ _)) by done.
  - apply Forall_cons in Hw as [Hc Hw]. cbn [app]. rewrite search_past.
    + rewrite IH by done. by rewrite reverse_cons, <- app_assoc.
    + destruct l as [|d l]; [done|]. cbn. by rewrite (proj2 (Z.eqb_neq _ _)) by done.
Qed.
