(* ===== verification/Struct.v ===== *)
(** Python's [struct] module as the sources use it: fixed-width little-endian
    integers ([<B], [<H], [<I]), big-endian ones ([>I], for PNG) and padded
    byte strings ([16s]), with the codec laws the formats of the other files
    rest on; and the CRC-32 of [zlib.crc32]. *)
From S2P Require Import Prelude.

(** ** Integers *)

Fixpoint le_enc (n : nat) (v : Z) : bytes :=
  match n with
  | O => []
  | S n => v mod 256 :: le_enc n (v / 256)
  end.

Fixpoint le_dec (b : bytes) : Z :=
  match b with
  | [] => 0
  | x :: b => x + 256 * le_dec b
  end.

Definition be_enc (n : nat) (v : Z) : bytes := reverse (le_enc n v).
Definition be_dec (b : bytes) : Z := le_dec (reverse b).

(** ** Formats *)

Inductive field :=
| FInt (n : nat)     (* B, H, I little-endian *)
| FBig (n : nat)     (* B, I big-endian *)
| FStr (n : nat).    (* "<n>s" *)

Abbreviation fB := (FInt 1).
Abbreviation fH := (FInt 2).
Abbreviation fI := (FInt 4).

Definition fval (f : field) : Type :=
  match f with FInt _ | FBig _ => Z | FStr _ => list Z end.

Fixpoint fvals (fs : list field) : Type :=
  match fs with
  | [] => unit
  | f :: fs => fval f * fvals fs
  end.

Definition fwidth (f : field) : nat :=
  match f with FInt n | FBig n | FStr n => n end.

Definition calcsize (fs : list field) : Z :=
  foldr (fun f s => Z.of_nat (fwidth f) + s) 0 fs.

(** [struct.pack] raises [struct.error] for an integer that does not fit and
    truncates or pads a string to its width. *)
Definition pack1 (f : field) : fval f -> result (list Z) :=
  match f with
  | FInt n => fun v =>
      if (0 <=? v) && (v <? 256 ^ Z.of_nat n) then Ok (le_enc n v)
      else raise StructError "argument out of range" [v]
  | FBig n => fun v =>
      if (0 <=? v) && (v <? 256 ^ Z.of_nat n) then Ok (be_enc n v)
      else raise StructError "argument out of range" [v]
  | FStr n => fun s => Ok (ljust (Z.of_nat n) (take n s))
  end.

Fixpoint pack (fs : list field) : fvals fs -> result (list Z) :=
  match fs with
  | [] => fun _ => Ok []
  | f :: fs => fun v =>
      b ← pack1 f v.1; bs ← pack fs v.2; Ok (b ++ bs)
  end.

Definition unpack1 (f : field) : list Z -> fval f :=
  match f with
  | FInt _ => le_dec
  | FBig _ => be_dec
  | FStr _ => fun b => b
  end.

Fixpoint unpack (fs : list field) (b : list Z) : fvals fs :=
  match fs with
  | [] => tt
  | f :: fs => (unpack1 f (take (fwidth f) b), unpack fs (drop (fwidth f) b))
  end.

(** [struct.unpack_from(fmt, buf, off)] for [0 <= off]. *)
Definition unpack_from (fs : list field) (buf : list Z) (off : Z) : result (fvals fs) :=
  if off + calcsize fs <=? zlen buf
  then Ok (unpack fs (slice off (off + calcsize fs) buf))
  else raise StructError "unpack_from requires a buffer of at least %d bytes"
         [off + calcsize fs].

(** The values [pack] keeps as they are: integers in range, strings of the
    exact width. *)
Definition fits1 (f : field) : fval f -> Prop :=
  match f with
  | FInt n | FBig n => fun v => 0 <= v < 256 ^ Z.of_nat n
  | FStr n => fun s => length s = n
  end.

Fixpoint fits (fs : list field) : fvals fs -> Prop :=
  match fs with
  | [] => fun _ => True
  | f :: fs => fun v => fits1 f v.1 /\ fits fs v.2
  end.

(** ** Codec laws *)

Lemma length_le_enc n v : length (le_enc n v) = n.
Proof. revert v; induction n; intros v; simpl; [done|]. by rewrite IHn. Qed.
Lemma zlen_le_enc n v : zlen (le_enc n v) = Z.of_nat n.
Proof. unfold zlen. by rewrite length_le_enc. Qed.
Lemma length_be_enc n v : length (be_enc n v) = n.
Proof. unfold be_enc. by rewrite length_reverse, length_le_enc. Qed.

Lemma wf_le_enc n v : wf_bytes (le_enc n v).
Proof.
  revert v; induction n; intros v; simpl; constructor; [|apply IHn].
  apply Z.mod_pos_bound. lia.
Qed.

Lemma le_dec_enc n v : 0 <= v < 256 ^ Z.of_nat n -> le_dec (le_enc n v) = v.
Proof.
  revert v; induction n as [|n IH]; intros v Hv; simpl.
  - change (256 ^ Z.of_nat 0) with 1 in Hv. lia.
  - rewrite Nat2Z.inj_succ, Z.pow_succ_r in Hv by lia. rewrite IH.
    + pose proof (Z.div_mod v 256). lia.
    + split; [apply Z.div_pos; lia|]. apply Z.div_lt_upper_bound; lia.
Qed.

Lemma be_dec_enc n v : 0 <= v < 256 ^ Z.of_nat n -> be_dec (be_enc n v) = v.
Proof. intros. unfold be_dec, be_enc. rewrite reverse_involutive. by apply le_dec_enc. Qed.

Lemma le_enc_dec b : wf_bytes b -> le_enc (length b) (le_dec b) = b.
Proof.
  induction b as [|x b IH]; intros Hb; simpl; [done|].
  apply Forall_cons in Hb as [Hx Hb].
  replace (x + 256 * le_dec b) with (x + le_dec b * 256) by lia.
  rewrite Z.mod_add by lia. rewrite Z.mod_small by lia.
  rewrite Z.div_add by lia. rewrite Z.div_small by lia. f_equal. by apply IH.
Qed.

Lemma le_dec_bound b : wf_bytes b -> 0 <= le_dec b < 256 ^ zlen b.
Proof.
  induction b as [|x b IH]; intros Hb; [done|].
  apply Forall_cons in Hb as [Hx Hb]. apply IH in Hb. rewrite zlen_cons.
  replace (1 + zlen b) with (Z.succ (zlen b)) by lia.
  pose proof (zlen_nonneg b). rewrite Z.pow_succ_r by done. simpl. lia.
Qed.

Lemma le_dec_nonneg b : wf_bytes b -> 0 <= le_dec b.
Proof. intros Hb. apply (le_dec_bound b Hb). Qed.

Lemma calcsize_nonneg fs : 0 <= calcsize fs.
Proof. unfold calcsize. induction fs; simpl; lia. Qed.

Lemma pack1_length f v b : pack1 f v = Ok b -> length b = fwidth f.
Proof.
  destruct f; simpl; [case_match..|]; intros; simplify_eq/=.
  - apply length_le_enc.
  - apply length_be_enc.
  - unfold ljust, zrep, zlen. rewrite length_app, length_replicate, length_take. lia.
Qed.

Lemma pack_zlen fs v b : pack fs v = Ok b -> zlen b = calcsize fs.
Proof.
  revert v b; induction fs as [|f fs IH]; intros v b; simpl.
  - by intros [= <-].
  - intros (b1 & H1 & (b2 & H2 & [= <-])%bind_ok)%bind_ok.
    rewrite zlen_app, (IH _ _ H2). apply pack1_length in H1. unfold zlen. lia.
Qed.

Lemma pack1_wf f v b :
  match f as f return fval f -> Prop with FStr _ => wf_bytes | _ => fun _ => True end v ->
  pack1 f v = Ok b -> wf_bytes b.
Proof.
  destruct f; simpl; [case_match..|]; intros; simplify_eq/=.
  - apply wf_le_enc.
  - apply Forall_reverse, wf_le_enc.
  - apply wf_bytes_ljust. by apply Forall_take.
Qed.

Lemma unpack_pack1 f v b : fits1 f v -> pack1 f v = Ok b -> unpack1 f b = v.
Proof.
  destruct f; simpl; intros Hf Hp; [case_match; simplify_eq/=..|].
  - by apply le_dec_enc.
  - by apply be_dec_enc.
  - simplify_eq/=. unfold ljust. rewrite take_ge by lia.
    unfold zrep, zlen. rewrite Z.sub_diag. simpl. apply app_nil_r.
Qed.

(** Unpacking what was packed gives the values back. *)
Lemma unpack_pack fs v b : fits fs v -> pack fs v = Ok b -> unpack fs b = v.
Proof.
  revert v b; induction fs as [|f fs IH]; intros v b; simpl.
  - by destruct v.
  - intros [Hf Hfs] (b1 & H1 & (b2 & H2 & [= <-])%bind_ok)%bind_ok.
    pose proof (pack1_length _ _ _ H1) as Hl.
    rewrite <- Hl, take_app_length, drop_app_length.
    rewrite (unpack_pack1 _ _ _ Hf H1), (IH _ _ Hfs H2). by destruct v.
Qed.

Lemma pack1_fits f v : fits1 f v -> is_ok (pack1 f v) = true.
Proof.
  destruct f; simpl; intros; [..|done];
    rewrite (proj2 (Z.leb_le _ _)), (proj2 (Z.ltb_lt _ _)) by lia; done.
Qed.

(** [pack] never raises on values that fit. *)
Lemma pack_fits fs v : fits fs v -> exists b, pack fs v = Ok b.
Proof.
  revert v; induction fs as [|f fs IH]; intros v; simpl; [by eexists|].
  intros [H1%pack1_fits [b2 H2]%IH].
  destruct (pack1 f v.1) as [b1|]; [|done]. simpl. rewrite H2. by eexists.
Qed.

(** The string fields have their exact width. *)
Fixpoint strs_exact (fs : list field) : fvals fs -> Prop :=
  match fs with
  | [] => fun _ => True
  | f :: fs => fun v =>
      match f as f return fval f -> Prop with
      | FStr n => fun s => length s = n
      | _ => fun _ => True
      end v.1 /\ strs_exact fs v.2
  end.

Lemma pack_ok_fits fs v b : pack fs v = Ok b -> strs_exact fs v -> fits fs v.
Proof.
  revert v b; induction fs as [|f fs IH]; intros v b; [done|]. cbn [pack strs_exact fits].
  intros (b1 & H1 & (b2 & H2 & _)%bind_ok)%bind_ok [Hs Hss]. split; [|by eapply IH].
  destruct f; simpl in *; [case_match; simplify_eq/=; lia..|done].
Qed.

(** Packing what was unpacked from a buffer of the right size gives the
    bytes back. *)
Lemma pack_unpack fs b : wf_bytes b -> zlen b = calcsize fs -> pack fs (unpack fs b) = Ok b.
Proof.
  revert b; induction fs as [|f fs IH]; intros b Hb Hl.
  - by apply zlen_zero_nil in Hl as ->.
  - change (calcsize (f :: fs)) with (Z.of_nat (fwidth f) + calcsize fs) in Hl.
    pose proof (calcsize_nonneg fs).
    assert (length (take (fwidth f) b) = fwidth f) as Hw.
    { rewrite length_take. unfold zlen in Hl. lia. }
    assert (wf_bytes (take (fwidth f) b)) as Ht by by apply Forall_take.
    cbn [unpack pack fst snd].
    assert (pack1 f (unpack1 f (take (fwidth f) b)) = Ok (take (fwidth f) b)) as ->.
    { destruct f as [n|n|n]; simpl in *.
      - pose proof (le_dec_bound _ Ht) as Hd. unfold zlen in Hd. rewrite Hw in Hd.
        rewrite (proj2 (Z.leb_le _ _)), (proj2 (Z.ltb_lt _ _)) by lia. simpl.
        f_equal. rewrite <- Hw at 1. by apply le_enc_dec.
      - assert (wf_bytes (reverse (take n b))) as Hr by by apply Forall_reverse.
        pose proof (le_dec_bound _ Hr) as Hd. unfold zlen in Hd.
        rewrite length_reverse, Hw in Hd. unfold be_dec, be_enc.
        rewrite (proj2 (Z.leb_le _ _)), (proj2 (Z.ltb_lt _ _)) by lia. simpl. f_equal.
        rewrite <- Hw at 1. rewrite <- (length_reverse (take n b)).
        rewrite le_enc_dec by done. apply reverse_involutive.
      - f_equal. unfold ljust. rewrite take_take, Nat.min_id. unfold zlen, zrep.
        rewrite Hw, Z.sub_diag. simpl. apply app_nil_r. }
    simpl. rewrite IH.
    + simpl. by rewrite take_drop.
    + by apply Forall_drop.
    + unfold zlen in *. rewrite length_drop. lia.
Qed.

(** Reading a packed header out of a larger buffer. *)
Lemma unpack_from_slice fs buf off v :
  0 <= off <= zlen buf ->
  pack fs v = Ok (slice off (off + calcsize fs) buf) -> fits fs v ->
  unpack_from fs buf off = Ok v.
Proof.
  intros Ho Hp Hf. pose proof (pack_zlen _ _ _ Hp) as Hl. pose proof (calcsize_nonneg fs).
  unfold unpack_from. destruct (Z.leb_spec (off + calcsize fs) (zlen buf)).
  - by rewrite (unpack_pack _ _ _ Hf Hp).
  - exfalso. unfold slice, zlen in *. rewrite length_take, length_drop in Hl. lia.
Qed.

(** One integer at a time: when [pack1] succeeds, and with what. *)
Lemma pack1_int_iff n v b :
  pack1 (FInt n) v = Ok b <-> 0 <= v < 256 ^ Z.of_nat n /\ b = le_enc n v.
Proof.
  unfold pack1. destruct (Z.leb_spec 0 v), (Z.ltb_spec v (256 ^ Z.of_nat n));
    cbn [andb]; unfold raise; naive_solver lia.
Qed.

Lemma pack_cons_iff f fs v vs b :
  pack (f :: fs) (v, vs) = Ok b <->
  exists b1 b2, pack1 f v = Ok b1 /\ pack fs vs = Ok b2 /\ b = b1 ++ b2.
Proof.
  cbn [pack fst snd]. rewrite bind_ok. setoid_rewrite bind_ok. naive_solver.
Qed.

Lemma pack_cons_int n v fs (vs : fvals fs) h :
  0 <= v < 256 ^ Z.of_nat n -> pack fs vs = Ok h -> pack (FInt n :: fs) (v, vs) = Ok (le_enc n v ++ h).
Proof.
  intros Hv Hp. apply pack_cons_iff. do 2 eexists. split; [by apply pack1_int_iff|done].
Qed.

Lemma pack_int_iff n v b :
  pack [FInt n] (v, tt) = Ok b <-> 0 <= v < 256 ^ Z.of_nat n /\ b = le_enc n v.
Proof.
  rewrite pack_cons_iff. setoid_rewrite pack1_int_iff. cbn [pack]. split.
  - intros (b1 & b2 & [? ->] & [= <-] & ->). by rewrite app_nil_r.
  - intros [? ->]. exists (le_enc n v), []. by rewrite app_nil_r.
Qed.

#[export] Hint Resolve wf_le_enc : uvk5.
#[export] Hint Rewrite length_le_enc length_be_enc : zlen.

#[global] Arguments le_enc : simpl never.
#[global] Arguments le_dec : simpl never.
#[global] Arguments zrep : simpl never.
#[global] Arguments Z.pow : simpl never.

(** ** CRC-32 *)

(** [zlib.crc32]: the reflected CRC of polynomial 0xEDB88320. *)
Definition crc32_bit (c : Z) : Z :=
  if Z.odd c then Z.lxor (Z.shiftr c 1) 0xEDB88320 else Z.shiftr c 1.
Definition crc32_byte (c b : Z) : Z := Nat.iter 8 crc32_bit (Z.lxor c b).
Definition crc32 (data : list Z) : Z :=
  Z.lxor (foldl crc32_byte 0xFFFFFFFF data) 0xFFFFFFFF.

Example crc32_check_value : crc32 (lit "123456789") = 0xCBF43926.
Proof. reflexivity. Qed.

Lemma lxor_bound n a b : 0 <= n -> 0 <= a < 2 ^ n -> 0 <= b < 2 ^ n -> 0 <= Z.lxor a b < 2 ^ n.
Proof.
  intros Hn Ha Hb.
  assert (Z.lxor a b = Z.lxor a b mod 2 ^ n) as ->; [|apply Z.mod_pos_bound; lia].
  rewrite <- (Z.mod_small a (2 ^ n)) by lia. rewrite <- (Z.mod_small b (2 ^ n)) by lia.
  apply Z.bits_inj'. intros i Hi. destruct (Z.ltb_spec i n).
  - rewrite (Z.mod_pow2_bits_low (Z.lxor _ _)), !Z.lxor_spec by lia. done.
  - rewrite (Z.mod_pow2_bits_high (Z.lxor _ _)), Z.lxor_spec, !Z.mod_pow2_bits_high by lia. done.
Qed.

Lemma crc32_bit_bound c : 0 <= c < 2 ^ 32 -> 0 <= crc32_bit c < 2 ^ 32.
Proof.
  intros Hc. unfold crc32_bit.
  assert (0 <= Z.shiftr c 1 < 2 ^ 32).
  { rewrite Z.shiftr_div_pow2 by lia. change (2 ^ 1) with 2.
    split; [apply Z.div_pos; lia|apply Z.div_lt_upper_bound; lia]. }
  case_match; [apply lxor_bound; lia|done].
Qed.

Lemma crc32_byte_bound c b : 0 <= c < 2 ^ 32 -> 0 <= b < 256 -> 0 <= crc32_byte c b < 2 ^ 32.
Proof.
  intros Hc Hb. unfold crc32_byte.
  assert (0 <= Z.lxor c b < 2 ^ 32) as H by (apply lxor_bound; lia).
  revert H. generalize (Z.lxor c b). generalize 8%nat. intros n.
  induction n as [|n IH]; intros x Hx; simpl; [done|]. by apply crc32_bit_bound, IH.
Qed.

Lemma crc32_bound data : wf_bytes data -> 0 <= crc32 data < 2 ^ 32.
Proof.
  intros Hd. unfold crc32. apply lxor_bound; [lia| |lia].
  assert (0 <= 0xFFFFFFFF < 2 ^ 32) as H by lia. revert H. generalize 0xFFFFFFFF.
  induction Hd as [|b data Hb Hd IH]; intros c Hc; simpl; [done|].
  by apply IH, crc32_byte_bound.
Qed.
