(* ===== verification/Sha256.v ===== *)
(** [hashlib.sha256], which [src/tools/fetch_firmware.py] prints of what it
    fetched: the function of FIPS 180-4 on bytes, its words kept at 32 bits. *)
From S2P Require Import Prelude Text Struct.
Open Scope Z_scope.

Definition w32 (x : Z) : Z := Z.land x 0xFFFFFFFF.
Definition rotr (n x : Z) : Z := Z.lor (Z.shiftr x n) (w32 (Z.shiftl x (32 - n))).

(** The constants are the first 32 bits of the fractional parts of the square
    roots of the first eight primes and of the cube roots of the first 64. *)
Definition divides_none (n : Z) (ds : list Z) : bool := forallb (fun d => negb (n mod d =? 0)) ds.
Fixpoint sieve (ns found : list Z) : list Z :=
  match ns with
  | [] => reverse found
  | n :: ns => sieve ns (if divides_none n found then n :: found else found)
  end.
Definition PRIMES : list Z := Eval vm_compute in sieve (seqZ 2 310) [].
(** The largest [r + y], [y < 2 ^ bits], whose cube is at most [n]. *)
Fixpoint cube_root (bits : nat) (n r : Z) : Z :=
  match bits with
  | O => r
  | S bits => let r' := r + 2 ^ Z.of_nat bits in cube_root bits n (if r' ^ 3 <=? n then r' else r)
  end.
Definition INIT : list Z := Eval vm_compute in map (fun p => w32 (Z.sqrt (p * 2 ^ 64))) (take 8 PRIMES).
Definition K : list Z := Eval vm_compute in map (fun p => w32 (cube_root 36 (p * 2 ^ 96) 0)) PRIMES.

(** The message with its padding: a one bit, zeros, and its length in bits. *)
Definition pad (m : list Z) : list Z :=
  m ++ [0x80] ++ zrep ((55 - zlen m) mod 64) 0 ++ be_enc 8 (8 * zlen m).

(** The words of a block. *)
Fixpoint be_words (n : nat) (b : list Z) : list Z :=
  match n with
  | O => []
  | S n => foldl (fun a x => a * 256 + x) 0 (take 4 b) :: be_words n (drop 4 b)
  end.

(** The schedule, newest word first. *)
Definition next_word (ws : list Z) : Z :=
  let at_ k := nth (k - 1) ws 0 in
  let x := at_ 15%nat in let y := at_ 2%nat in
  let s0 := Z.lxor (Z.lxor (rotr 7 x) (rotr 18 x)) (Z.shiftr x 3) in
  let s1 := Z.lxor (Z.lxor (rotr 17 y) (rotr 19 y)) (Z.shiftr y 10) in
  w32 (at_ 16%nat + s0 + at_ 7%nat + s1).
Definition schedule (block : list Z) : list Z :=
  reverse (Nat.iter 48 (fun ws => next_word ws :: ws) (reverse (be_words 16 block))).

Definition round (s : list Z) (kw : Z * Z) : list Z :=
  match s with
  | [a; b; c; d; e; f; g; h] =>
      let S1 := Z.lxor (Z.lxor (rotr 6 e) (rotr 11 e)) (rotr 25 e) in
      let ch := Z.lxor (Z.land e f) (Z.land (Z.lxor e 0xFFFFFFFF) g) in
      let t1 := h + S1 + ch + kw.1 + kw.2 in
      let S0 := Z.lxor (Z.lxor (rotr 2 a) (rotr 13 a)) (rotr 22 a) in
      let maj := Z.lxor (Z.lxor (Z.land a b) (Z.land a c)) (Z.land b c) in
      [w32 (t1 + S0 + maj); a; b; c; w32 (d + t1); e; f; g]
  | _ => s
  end.

Definition compress (s block : list Z) : list Z :=
  zip_with (fun x y => w32 (x + y)) s (foldl round s (combine K (schedule block))).

Fixpoint blocks (n : nat) (s b : list Z) : list Z :=
  match n with
  | O => s
  | S n => blocks n (compress s (take 64 b)) (drop 64 b)
  end.

(** [sha256(m).hexdigest()]. *)
Definition sha256 (m : list Z) : list Z :=
  let b := pad m in concat (map (hex hex_lower 8) (blocks (length b / 64) INIT b)).

Example constants : length PRIMES = 64%nat /\ last PRIMES = Some 311 /\ hd 0 K = 0x428a2f98 /\ last INIT = Some 0x5be0cd19.
Proof. vm_compute. auto. Qed.

Example sha256_abc :
  sha256 (lit "abc") = lit "ba7816bf8f01cfea414140de5dae2223b00361a396177a9cb410ff61f20015ad".
Proof. vm_compute. reflexivity. Qed.
Example sha256_two_blocks :
  sha256 (lit "abcdbcdecdefdefgefghfghighijhijkijkljklmklmnlmnomnopnopq")
    = lit "248d6a61d20638b8e5c026930c3e6039a33ce45964ff2167f6ecedd419db06c1".
Proof. vm_compute. reflexivity. Qed.
Example sha256_empty :
  sha256 [] = lit "e3b0c44298fc1c149afbf4c8996fb92427ae41e4649b934ca495991b7852b855".
Proof. vm_compute. reflexivity. Qed.

(** The padded message is whole blocks. *)
Lemma pad_blocks m : zlen (pad m) mod 64 = 0.
Proof.
  unfold pad. pose proof (zlen_nonneg m). pose proof (Z.mod_pos_bound (55 - zlen m) 64).
  rewrite !zlen_app, zlen_rep by lia. change (zlen [0x80]) with 1.
  assert (zlen (be_enc 8 (8 * zlen m)) = 8) as -> by (unfold zlen; by rewrite length_be_enc).
  rewrite (Z.mod_eq (55 - zlen m) 64) by lia.
  replace (zlen m + (1 + (55 - zlen m - 64 * ((55 - zlen m) / 64) + 8))) with
    ((1 - (55 - zlen m) / 64) * 64) by lia. apply Z.mod_mul. lia.
Qed.
