(* ===== verification/SerialFlash.v ===== *)
(** The serial framing of [src/tools/uvk5_serial_flash.py]: obfuscation, the
    XMODEM CRC, [build], and the [Frames] reassembler, with the round trip
    between the two and the behaviour of the reassembler on every way a
    stream of frames can be cut into chunks. *)
From S2P Require Import Prelude Struct.

Definition MSG_NOTIFY_DEV_INFO : Z := 0x0518.
Definition MSG_NOTIFY_BL_VER : Z := 0x0530.
Definition MSG_PROG_FW : Z := 0x0519.
Definition MSG_PROG_FW_RESP : Z := 0x051A.

Definition PAGE_SIZE : Z := 256.
Definition MAGIC : list Z := [0xab; 0xcd].
Definition END : list Z := [0xdc; 0xba].
Definition OBFUS : list Z :=
  [0x16; 0x6C; 0x14; 0xE6; 0x2E; 0x91; 0x0D; 0x40;
   0x21; 0x35; 0xD5; 0x40; 0x13; 0x03; 0xE9; 0x80].

Definition obfuscate (data : list Z) : list Z :=
  imap (fun i b => Z.lxor b (nth (i mod length OBFUS) OBFUS 0)) data.

Definition crc16_bit (crc : Z) : Z :=
  if Z.land crc 0x8000 =? 0
  then Z.land (Z.shiftl crc 1) 0xFFFF
  else Z.land (Z.lxor (Z.shiftl crc 1) 0x1021) 0xFFFF.
Definition crc16_byte (crc byte : Z) : Z :=
  Nat.iter 8 crc16_bit (Z.lxor crc (Z.shiftl byte 8)).
Definition crc16_xmodem (data : list Z) : Z := foldl crc16_byte 0 data.

(** The message that [build] frames: type, length, data. *)
Definition payload (msg_type : Z) (data : list Z) : result (list Z) :=
  h ← pack [fH; fH] (msg_type, (zlen data, tt)); Ok (h ++ data).

Definition build (msg_type : Z) (data : list Z) : result (list Z) :=
  payload ← payload msg_type data;
  crc ← pack [fH] (crc16_xmodem payload, tt);
  let body := payload ++ crc in
  len ← pack [fH] (zlen payload, tt);
  Ok (MAGIC ++ len ++ obfuscate body ++ END).

(** The reassembler's state is its buffer. *)
Module Frames.

Definition feed (buf chunk : list Z) : list Z := buf ++ chunk.

(** The [while True] loop of [take].  [None] is running out of fuel, which
    [take_total] excludes. *)
Fixpoint take_loop (fuel : nat) (buf : list Z)
  : option (option (Z * list Z) * list Z) :=
  match fuel with
  | O => None
  | S fuel =>
      match find_sub MAGIC buf with
      | None => Some (None, [])
      | Some k =>
          let start := Z.of_nat k in
          if zlen buf <? start + 8 then Some (None, drop k buf) else
          let length := le_dec (slice (start + 2) (start + 4) buf) in
          let e := start + 6 + length in
          if zlen buf <? e + 2 then Some (None, drop k buf) else
          if negb (bool_decide (slice e (e + 2) buf = END))
          then take_loop fuel (drop (k + 2) buf) else
          let body := obfuscate (slice (start + 4) e buf) in
          let rest := drop (Z.to_nat (e + 2)) buf in
          if zlen body <? 4 then take_loop fuel rest else
          let data_len := le_dec (slice 2 4 body) in
          Some (Some (le_dec (slice 0 2 body), slice 4 (4 + data_len) body), rest)
      end
  end.

(** One fuel unit per buffered byte is enough: every round of the loop
    removes at least two. *)
Definition take (buf : list Z) : option (option (Z * list Z) * list Z) :=
  take_loop (S (length buf)) buf.

(** The callers' [while True: msg = frames.take(); if msg is None: break]. *)
Fixpoint drain_loop (fuel : nat) (buf : list Z) : option (list (Z * list Z) * list Z) :=
  match fuel with
  | O => None
  | S fuel =>
      match take buf with
      | None => None
      | Some (None, buf) => Some ([], buf)
      | Some (Some m, buf) =>
          match drain_loop fuel buf with
          | Some (ms, buf) => Some (m :: ms, buf)
          | None => None
          end
      end
  end.

Definition drain (buf : list Z) : option (list (Z * list Z) * list Z) :=
  drain_loop (S (length buf)) buf.

(** A reader that drains after every chunk it receives. *)
Fixpoint run (buf : list Z) (chunks : list (list Z)) : option (list (Z * list Z) * list Z) :=
  match chunks with
  | [] => Some ([], buf)
  | c :: chunks =>
      match drain (feed buf c) with
      | None => None
      | Some (ms, buf) =>
          match run buf chunks with
          | Some (ms', buf) => Some (ms ++ ms', buf)
          | None => None
          end
      end
  end.

End Frames.

(** ** The frame a message is built into *)

Lemma length_obfuscate d : length (obfuscate d) = length d.
Proof. apply length_imap. Qed.

Lemma zlen_obfuscate d : zlen (obfuscate d) = zlen d.
Proof. unfold zlen. by rewrite length_obfuscate. Qed.
#[export] Hint Rewrite zlen_obfuscate : zlen.

Lemma obfuscate_obfuscate d : obfuscate (obfuscate d) = d.
Proof.
  unfold obfuscate. apply list_eq. intros i. rewrite !list_lookup_imap.
  destruct (d !! i) as [b|]; simpl; [|done]. f_equal.
  by rewrite Z.lxor_assoc, Z.lxor_nilpotent, Z.lxor_0_r.
Qed.

Lemma lxor_byte a b : 0 <= a < 256 -> 0 <= b < 256 -> 0 <= Z.lxor a b < 256.
Proof. change 256 with (2 ^ 8). intros. by apply lxor_bound. Qed.

Lemma OBFUS_byte k : 0 <= nth k OBFUS 0 < 256.
Proof.
  assert (Forall (fun z => 0 <= z < 256) OBFUS) as HO by (repeat constructor; lia).
  destruct (nth_in_or_default k OBFUS 0) as [Hin| ->]; [|lia].
  rewrite Forall_forall in HO. by apply HO, list_elem_of_In.
Qed.

Lemma wf_obfuscate d : wf_bytes d -> wf_bytes (obfuscate d).
Proof.
  intros Hd. apply Forall_lookup. intros i x. unfold obfuscate.
  rewrite list_lookup_imap. destruct (d !! i) as [b|] eqn:E; simpl; [|done].
  intros [= <-]. apply lxor_byte; [by eapply (Forall_lookup_1 _ _ _ _ Hd)|].
  apply OBFUS_byte.
Qed.
#[export] Hint Resolve wf_obfuscate : uvk5.

Lemma crc16_bit_bound c : 0 <= crc16_bit c < 2 ^ 16.
Proof.
  unfold crc16_bit. change 0xFFFF with (Z.ones 16).
  case_match; rewrite Z.land_ones by lia; apply Z.mod_pos_bound; lia.
Qed.

Lemma crc16_byte_bound c b : 0 <= crc16_byte c b < 2 ^ 16.
Proof. apply crc16_bit_bound. Qed.

Lemma crc16_fold_bound c d : 0 <= c < 2 ^ 16 -> 0 <= foldl crc16_byte c d < 2 ^ 16.
Proof.
  revert c; induction d as [|b d IH]; intros c Hc; simpl; [done|].
  apply IH, crc16_byte_bound.
Qed.

Lemma crc16_bound d : 0 <= crc16_xmodem d < 2 ^ 16.
Proof. apply crc16_fold_bound. lia. Qed.

(** [build] succeeds exactly on a 16-bit type and a message whose length
    fits the 16-bit length field. *)
Definition buildable (t : Z) (d : list Z) : Prop := 0 <= t < 65536 /\ 4 + zlen d < 65536.

(** The bytes of a frame whose checksum field holds [crc]. *)
Definition frame_with (crc : list Z) (t : Z) (d : list Z) : list Z :=
  let p := (le_enc 2 t ++ le_enc 2 (zlen d)) ++ d in
  MAGIC ++ le_enc 2 (4 + zlen d) ++ obfuscate (p ++ crc) ++ END.

Definition crc_field (t : Z) (d : list Z) : list Z :=
  le_enc 2 (crc16_xmodem ((le_enc 2 t ++ le_enc 2 (zlen d)) ++ d)).

Definition frame (t : Z) (d : list Z) : list Z := frame_with (crc_field t d) t d.

Lemma payload_iff t d p :
  payload t d = Ok p <->
  0 <= t < 65536 /\ zlen d < 65536 /\ p = (le_enc 2 t ++ le_enc 2 (zlen d)) ++ d.
Proof.
  pose proof (zlen_nonneg d). unfold payload. rewrite bind_ok.
  setoid_rewrite pack_cons_iff. setoid_rewrite pack1_int_iff. setoid_rewrite pack_int_iff.
  change (256 ^ Z.of_nat 2) with 65536. split.
  - intros (h & (b1 & b2 & [? ->] & [? ->] & ->) & [= <-]). split_and!; [lia..|done].
  - intros (? & ? & ->). exists (le_enc 2 t ++ le_enc 2 (zlen d)).
    split; [|done]. exists (le_enc 2 t), (le_enc 2 (zlen d)).
    split; [done|]. split; [|done]. split; [lia|done].
Qed.

Lemma build_iff t d f : build t d = Ok f <-> buildable t d /\ f = frame t d.
Proof.
  pose proof (zlen_nonneg d). unfold build, buildable, frame, frame_with, crc_field.
  set (p := (le_enc 2 t ++ le_enc 2 (zlen d)) ++ d).
  assert (zlen p = 4 + zlen d) as Hp.
  { unfold p, zlen. rewrite !length_app, !length_le_enc. lia. }
  pose proof (crc16_bound p) as Hc.
  rewrite bind_ok. setoid_rewrite payload_iff. fold p. split.
  - intros (p' & (Ht & Hd & ->) & H1). fold p in H1. rewrite bind_ok in H1.
    destruct H1 as (crc & [_ ->]%pack_int_iff & H1). rewrite bind_ok in H1.
    destruct H1 as (len & [Hl ->]%pack_int_iff & [= <-]). rewrite Hp in *.
    change (256 ^ Z.of_nat 2) with 65536 in Hl. split; [lia|done].
  - intros [[Ht Hd] ->]. exists p. split; [split; [lia|split; [lia|done]]|].
    rewrite bind_ok. exists (le_enc 2 (crc16_xmodem p)).
    split; [by apply pack_int_iff|]. rewrite bind_ok.
    exists (le_enc 2 (zlen p)). split.
    + apply pack_int_iff. change (256 ^ Z.of_nat 2) with 65536. split; [lia|done].
    + by rewrite Hp.
Qed.

Lemma zlen_frame_with crc t d : length crc = 2%nat -> zlen (frame_with crc t d) = 12 + zlen d.
Proof.
  intros. unfold frame_with, zlen.
  rewrite !length_app, length_obfuscate, !length_app, !length_le_enc. simpl. lia.
Qed.

Lemma length_crc_field t d : length (crc_field t d) = 2%nat.
Proof. unfold crc_field. generalize (crc16_xmodem ((le_enc 2 t ++ le_enc 2 (zlen d)) ++ d)). intros. apply length_le_enc. Qed.

Lemma zlen_frame t d : zlen (frame t d) = 12 + zlen d.
Proof. unfold frame. apply zlen_frame_with, length_crc_field. Qed.

Lemma wf_frame t d : wf_bytes d -> wf_bytes (frame t d).
Proof.
  intros Hd. unfold frame, frame_with, crc_field.
  repeat (apply wf_bytes_app; split); auto with uvk5.
  - repeat constructor; lia.
  - apply wf_obfuscate. repeat (apply wf_bytes_app; split); auto with uvk5.
  - repeat constructor; lia.
Qed.

(** The three fields [take] reads out of a buffer that starts with a frame. *)
Section frame_fields.
Context (crc : list Z) (t : Z) (d rest : list Z).
Hypothesis Hcrc : length crc = 2%nat.

Lemma frame_length_field :
  buildable t d -> le_dec (slice 2 4 (frame_with crc t d ++ rest)) = 4 + zlen d.
Proof.
  intros [_ Hd]. unfold frame_with. rewrite <- !app_assoc.
  rewrite slice_app_r by done. change (zlen MAGIC) with 2.
  rewrite slice_0_app by (unfold zlen; rewrite length_le_enc; lia).
  apply le_dec_enc. change (256 ^ Z.of_nat 2) with 65536. pose proof (zlen_nonneg d). lia.
Qed.

Lemma frame_body :
  slice 4 (10 + zlen d) (frame_with crc t d ++ rest) =
  obfuscate (((le_enc 2 t ++ le_enc 2 (zlen d)) ++ d) ++ crc).
Proof.
  unfold frame_with. rewrite <- !app_assoc. rewrite slice_app_r by done.
  change (zlen MAGIC) with 2.
  rewrite slice_app_r by (unfold zlen; rewrite length_le_enc; lia).
  unfold zlen at 1 2. rewrite length_le_enc. change (4 - 2 - Z.of_nat 2) with 0.
  apply slice_0_app. unfold zlen.
  rewrite length_obfuscate, !length_app, !length_le_enc. lia.
Qed.

Lemma frame_end : slice (10 + zlen d) (12 + zlen d) (frame_with crc t d ++ rest) = END.
Proof.
  set (p := (le_enc 2 t ++ le_enc 2 (zlen d)) ++ d).
  set (b := MAGIC ++ le_enc 2 (4 + zlen d) ++ obfuscate (p ++ crc)).
  assert (frame_with crc t d = b ++ END) as ->
    by (unfold b, frame_with; by rewrite <- !app_assoc).
  assert (zlen b = 10 + zlen d) as Hb.
  { unfold b, p, zlen.
    rewrite !length_app, length_obfuscate, !length_app, !length_le_enc. simpl. lia. }
  rewrite <- app_assoc, slice_app_r by lia. rewrite Hb, Z.sub_diag. apply slice_0_app.
  change (zlen END) with 2. lia.
Qed.
End frame_fields.

(** ** What one [take] does to a buffer *)

Lemma find_magic_noise noise r :
  contains MAGIC noise = false -> find_sub MAGIC (noise ++ MAGIC ++ r) = Some (length noise).
Proof.
  unfold contains. induction noise as [|x noise IH]; intros Hn; [exact (find_sub_here MAGIC r)|].
  destruct (find_sub MAGIC (x :: noise)) eqn:E; [done|].
  pose proof (find_sub_None MAGIC (x :: noise) 0 E) as H0. rewrite drop_0 in H0.
  assert (find_sub MAGIC noise = None) as HN.
  { cbn [find_sub] in E. rewrite H0 in E. by destruct (find_sub MAGIC noise). }
  rewrite HN in IH. cbn [app find_sub].
  assert (starts_with MAGIC (x :: noise ++ MAGIC ++ r) = false) as ->.
  { destruct noise as [|y noise]; [|exact H0].
    cbn. by destruct (171 =? x). }
  by rewrite IH.
Qed.

(** A complete frame, behind noise that does not contain the start marker:
    the noise is skipped, the message is returned and the buffer keeps
    exactly what follows the frame, whatever the checksum field says. *)
Lemma take_noise_frame_with noise crc t d rest :
  buildable t d -> length crc = 2%nat -> contains MAGIC noise = false ->
  Frames.take (noise ++ frame_with crc t d ++ rest) = Some (Some (t, d), rest).
Proof.
  intros Hb Hcrc Hn. pose proof (zlen_nonneg d).
  pose proof (zlen_frame_with crc t d Hcrc) as Hf.
  unfold Frames.take. cbn [Frames.take_loop].
  assert (find_sub MAGIC (noise ++ frame_with crc t d ++ rest) = Some (length noise)) as ->.
  { unfold frame_with. rewrite <- app_assoc. by apply find_magic_noise. }
  change (Z.of_nat (length noise)) with (zlen noise).
  pose proof (zlen_nonneg rest). pose proof (zlen_nonneg noise).
  rewrite (proj2 (Z.ltb_ge _ _)) by (rewrite !zlen_app; lia).
  assert (forall i j, 0 <= i -> slice (zlen noise + i) (zlen noise + j) (noise ++ frame_with crc t d ++ rest)
                        = slice i j (frame_with crc t d ++ rest)) as Hs.
  { intros i j Hi. rewrite slice_app_r by lia. f_equal; lia. }
  rewrite (Hs 2 4), (frame_length_field _ _ _ _ Hcrc Hb) by lia.
  replace (zlen noise + 6 + (4 + zlen d)) with (zlen noise + (10 + zlen d)) by lia.
  replace (zlen noise + (10 + zlen d) + 2) with (zlen noise + (12 + zlen d)) by lia.
  rewrite (proj2 (Z.ltb_ge _ _)) by (rewrite !zlen_app; lia).
  rewrite (Hs (10 + zlen d)), frame_end, bool_decide_true by (done || lia).
  rewrite (Hs 4), frame_body, obfuscate_obfuscate by (done || lia). cbn [negb].
  destruct Hb as [Ht Hd].
  rewrite (proj2 (Z.ltb_ge _ _)).
  2: { unfold zlen. rewrite !length_app, !length_le_enc. lia. }
  rewrite <- !app_assoc.
  assert (zlen (le_enc 2 t) = 2) as L1 by (unfold zlen; by rewrite length_le_enc).
  assert (zlen (le_enc 2 (zlen d)) = 2) as L2 by (unfold zlen; by rewrite length_le_enc).
  rewrite slice_0_app by done. rewrite le_dec_enc by (change (256 ^ Z.of_nat 2) with 65536; lia).
  rewrite (slice_app_r 2 4), L1 by lia. change (2 - 2) with 0. rewrite slice_0_app by (rewrite L2; lia).
  rewrite le_dec_enc by (change (256 ^ Z.of_nat 2) with 65536; lia).
  rewrite (slice_app_r 4), L1 by lia. rewrite slice_app_r, L2 by (rewrite L2; lia).
  rewrite slice_0_app by lia. do 2 f_equal.
  rewrite app_assoc. apply drop_app_length'. rewrite length_app. unfold zlen in *. lia.
Qed.

Lemma take_noise_frame noise t d rest :
  buildable t d -> contains MAGIC noise = false ->
  Frames.take (noise ++ frame t d ++ rest) = Some (Some (t, d), rest).
Proof. intros. unfold frame. apply take_noise_frame_with; [done|apply length_crc_field|done]. Qed.

(** What is kept of the first [k] bytes of a frame: all of them, except that
    a lone first byte of the start marker is thrown away. *)
Definition held (p : list Z) : list Z := if (length p <=? 1)%nat then [] else p.

(** [p] is an incomplete frame. *)
Definition partial (p : list Z) : Prop :=
  p = [] \/ exists t d, buildable t d /\ exists k, p = take k (frame t d) /\ Z.of_nat k < 12 + zlen d.

Lemma take_nil : Frames.take [] = Some (None, []).
Proof. done. Qed.

Lemma frame_cons t d : exists r, frame t d = 0xab :: 0xcd :: r.
Proof. unfold frame. eexists. done. Qed.

Lemma take_partial p : partial p -> Frames.take p = Some (None, held p).
Proof.
  intros [->|(t & d & Hb & k & -> & Hk)]; [done|].
  destruct (frame_cons t d) as [r Hr]. pose proof (zlen_frame t d) as Hf.
  pose proof (zlen_nonneg d).
  destruct k as [|[|k]]; [by rewrite Hr|by rewrite Hr|].
  set (p := take (S (S k)) (frame t d)).
  assert (zlen p = 2 + Z.of_nat k) as Hp.
  { unfold p, zlen in *. rewrite length_take. lia. }
  assert (p ++ drop (S (S k)) (frame t d) = frame t d) as Hsplit by apply take_drop.
  unfold held. rewrite (proj2 (Nat.leb_gt _ _)) by (unfold zlen in Hp; lia).
  unfold Frames.take. cbn [Frames.take_loop].
  assert (find_sub MAGIC p = Some 0%nat) as ->.
  { unfold p. rewrite Hr. cbn [take]. apply (find_sub_here MAGIC). }
  cbn [drop]. change (Z.of_nat 0) with 0.
  destruct (Z.ltb_spec (zlen p) (0 + 8)); [done|].
  assert (le_dec (slice (0 + 2) (0 + 4) p) = 4 + zlen d) as ->.
  { rewrite <- (frame_length_field (crc_field t d) t d [] (length_crc_field _ _) Hb), app_nil_r.
    fold (frame t d). rewrite <- Hsplit, slice_app_l by lia. done. }
  by rewrite (proj2 (Z.ltb_lt _ _)) by lia.
Qed.

(** ** Draining a prefix of a stream of frames *)

Definition frames (ms : list (Z * list Z)) : list (list Z) := map (fun m => frame m.1 m.2) ms.
Definition all_buildable (ms : list (Z * list Z)) : Prop :=
  Forall (fun m => buildable m.1 m.2) ms.

Lemma drain_loop_frames fuel ms p :
  all_buildable ms -> partial p -> (length ms < fuel)%nat ->
  Frames.drain_loop fuel (concat (frames ms) ++ p) = Some (ms, held p).
Proof.
  intros Hms Hp. revert fuel. induction Hms as [|[t d] ms Hm Hms IH]; intros fuel Hf.
  - destruct fuel; [lia|]. cbn [frames map concat app Frames.drain_loop].
    by rewrite (take_partial p Hp).
  - destruct fuel as [|fuel]; [simpl in Hf; lia|].
    cbn [frames map concat fst snd Frames.drain_loop]. fold (frames ms).
    rewrite <- app_assoc.
    pose proof (take_noise_frame [] t d (concat (frames ms) ++ p) Hm eq_refl) as Ht.
    cbn [app] in Ht. rewrite Ht. rewrite IH by (simpl in Hf; lia). done.
Qed.

Lemma length_frames ms : (length ms <= length (concat (frames ms)))%nat.
Proof.
  induction ms as [|[t d] ms IH]; simpl; [done|]. rewrite length_app.
  pose proof (zlen_frame t d). pose proof (zlen_nonneg d). unfold zlen in *. lia.
Qed.

Lemma drain_frames ms p :
  all_buildable ms -> partial p ->
  Frames.drain (concat (frames ms) ++ p) = Some (ms, held p).
Proof.
  intros. apply drain_loop_frames; [done..|]. rewrite length_app.
  pose proof (length_frames ms). lia.
Qed.

(** The offset of stream position [n] inside the frame it falls in. *)
Fixpoint offset (ms : list (Z * list Z)) (n : nat) : nat :=
  match ms with
  | [] => n
  | m :: ms =>
      let l := length (frame m.1 m.2) in
      if (n <? l)%nat then n else offset ms (n - l)
  end.

(** No chunk ends one byte into a frame. *)
Fixpoint cuts_ok (ms : list (Z * list Z)) (pos : nat) (chunks : list (list Z)) : bool :=
  match chunks with
  | [] => true
  | c :: chunks =>
      let pos := (pos + length c)%nat in
      negb (offset ms pos =? 1)%nat && cuts_ok ms pos chunks
  end.

Lemma offset_skip ms1 ms2 n :
  offset (ms1 ++ ms2) (length (concat (frames ms1)) + n) = offset ms2 n.
Proof.
  induction ms1 as [|m ms1 IH]; [done|]. cbn [frames map concat app offset].
  rewrite length_app. rewrite (proj2 (Nat.ltb_ge _ _)) by lia.
  rewrite <- IH. f_equal. unfold frames. lia.
Qed.

Lemma cuts_ok_skip ms1 ms2 n chunks :
  cuts_ok (ms1 ++ ms2) (length (concat (frames ms1)) + n) chunks = cuts_ok ms2 n chunks.
Proof.
  revert n; induction chunks as [|c chunks IH]; intros n; simpl; [done|].
  by rewrite <- Nat.add_assoc, offset_skip, IH.
Qed.

(** Every prefix of a stream of frames is some complete frames and then an
    incomplete one. *)
Lemma stream_prefix ms s rest :
  all_buildable ms -> s ++ rest = concat (frames ms) ->
  exists ms1 ms2 p, ms = ms1 ++ ms2 /\ s = concat (frames ms1) ++ p /\ partial p /\
    p ++ rest = concat (frames ms2) /\ offset ms (length s) = length p.
Proof.
  intros Hms. revert s. induction Hms as [|[t d] ms Hm Hms IH]; intros s Hs.
  - apply app_eq_nil in Hs as [-> ->]. exists [], [], []. split_and!; try done. by left.
  - cbn [frames map concat fst snd] in Hs. fold (frames ms) in Hs.
    destruct (Nat.ltb_spec (length s) (length (frame t d))) as [Hlt|Hge].
    + exists [], ((t, d) :: ms), s. cbn [offset fst snd].
      rewrite (proj2 (Nat.ltb_lt _ _)) by lia. split_and!; try done.
      right. exists t, d. split; [done|]. exists (length s). split.
      * rewrite <- (take_app_le (frame t d) (concat (frames ms))) by lia.
        by rewrite <- Hs, take_app_length.
      * pose proof (zlen_frame t d). unfold zlen in *. lia.
    + assert (s = frame t d ++ drop (length (frame t d)) s) as Hsplit.
      { rewrite <- (take_drop (length (frame t d)) s) at 1. f_equal.
        rewrite <- (take_app_le s rest) by lia. by rewrite Hs, take_app_length. }
      set (s' := drop (length (frame t d)) s) in *.
      destruct (IH s') as (ms1 & ms2 & p & -> & Hs' & Hp & Hr & Ho).
      { rewrite Hsplit, <- app_assoc in Hs. by apply app_inv_head in Hs. }
      exists ((t, d) :: ms1), ms2, p. cbn [offset fst snd frames map concat app].
      rewrite (proj2 (Nat.ltb_ge _ _)) by lia. split_and!; try done.
      * rewrite <- app_assoc. fold (frames ms1). by rewrite <- Hs'.
      * rewrite <- Ho. f_equal. unfold s'. rewrite length_drop. done.
Qed.

Lemma run_partial ms p chunks :
  all_buildable ms -> p ++ concat chunks = concat (frames ms) ->
  cuts_ok ms (length p) chunks = true ->
  partial p -> (chunks = [] -> p = []) ->
  Frames.run p chunks = Some (ms, []).
Proof.
  revert ms p. induction chunks as [|c chunks IH]; intros ms p Hms Hc Hok Hp Hnil.
  - rewrite (Hnil eq_refl) in Hc |- *. destruct ms as [|[t d] ms]; [done|].
    cbn [app concat frames map fst snd] in Hc. by destruct (frame_cons t d) as [r Hr]; rewrite Hr in Hc.
  - cbn [concat Frames.run] in *. rewrite app_assoc in Hc.
    destruct (stream_prefix ms (p ++ c) (concat chunks) Hms Hc)
      as (ms1 & ms2 & p' & -> & Hs & Hp' & Hr & Ho).
    apply Forall_app in Hms as [Hms1 Hms2].
    unfold Frames.feed. rewrite Hs, (drain_frames ms1 p' Hms1 Hp').
    cbn [cuts_ok] in Hok. rewrite <- length_app, Ho in Hok.
    apply andb_prop in Hok as [Hn1%negb_true_iff Hok].
    rewrite Hs, length_app, cuts_ok_skip in Hok.
    assert (held p' = p') as Hheld.
    { unfold held. destruct p' as [|x [|y p']]; [done|done|done]. }
    rewrite Hheld, (IH ms2 p'); [done|done|done|done|done|].
    intros ->. cbn [concat] in Hr. rewrite app_nil_r in Hr.
    destruct ms2 as [|[t d] ms2]; [done|]. exfalso.
    apply Forall_cons in Hms2 as [Hm _]. apply take_partial in Hp' as HN.
    pose proof (take_noise_frame [] t d (concat (frames ms2)) Hm eq_refl) as HS.
    cbn [app] in HS. rewrite Hr in HN. cbn [frames map concat fst snd] in HN.
    fold (frames ms2) in HN. congruence.
Qed.

(** ** Termination of the reassembler *)

Lemma take_loop_total fuel buf :
  wf_bytes buf -> (length buf < fuel)%nat ->
  exists m rest, Frames.take_loop fuel buf = Some (m, rest) /\ wf_bytes rest /\
    (length rest + (if m is Some _ then 8 else 0) <= length buf)%nat.
Proof.
  revert buf; induction fuel as [|fuel IH]; intros buf Hwf Hf; [lia|].
  assert (forall n, wf_bytes (drop n buf)) as Hdrop by (intros; by apply Forall_drop).
  cbn [Frames.take_loop]. destruct (find_sub MAGIC buf) as [k|] eqn:Hk.
  2: { exists None, []. split_and!; [done|by constructor|simpl; lia]. }
  destruct (Z.ltb_spec (zlen buf) (Z.of_nat k + 8)).
  { exists None, (drop k buf). rewrite length_drop. split_and!; [done|done|lia]. }
  set (l := le_dec _). assert (0 <= l).
  { apply le_dec_bound. auto with uvk5. }
  destruct (Z.ltb_spec (zlen buf) (Z.of_nat k + 6 + l + 2)).
  { exists None, (drop k buf). rewrite length_drop. split_and!; [done|done|lia]. }
  unfold zlen in *. case_bool_decide; cbn [negb].
  2: { destruct (IH (drop (k + 2) buf)) as (m & r & -> & Hr & Hl); [done| |].
       - rewrite length_drop. lia.
       - rewrite length_drop in Hl. exists m, r. split_and!; [done|done|lia]. }
  match goal with |- context [if ?b then _ else _] => destruct b end.
  - destruct (IH (drop (Z.to_nat (Z.of_nat k + 6 + l + 2)) buf)) as (m & r & -> & Hr & Hl);
      [done| |].
    + rewrite length_drop. lia.
    + rewrite length_drop in Hl. exists m, r. split_and!; [done|done|lia].
  - eexists _, _. split_and!; [done|done|]. rewrite length_drop. lia.
Qed.

Lemma take_total buf :
  wf_bytes buf ->
  exists m rest, Frames.take buf = Some (m, rest) /\ wf_bytes rest /\
    (length rest + (if m is Some _ then 8 else 0) <= length buf)%nat.
Proof. intros. apply take_loop_total; [done|lia]. Qed.

(** When [take] finds nothing, taking again finds nothing and changes nothing. *)
Lemma take_loop_none fuel buf rest :
  Frames.take_loop fuel buf = Some (None, rest) -> Frames.take rest = Some (None, rest).
Proof.
  revert buf; induction fuel as [|fuel IH]; intros buf; [done|].
  cbn [Frames.take_loop]. destruct (find_sub MAGIC buf) as [k|] eqn:Hk.
  2: { by intros [= <-]. }
  destruct (find_sub_spec _ _ _ Hk) as (Hkl & [r Hr]%starts_with_iff & _).
  assert (find_sub MAGIC (drop k buf) = Some 0%nat) as H0.
  { rewrite Hr. apply find_sub_here. }
  assert (zlen (drop k buf) = zlen buf - Z.of_nat k) as Hz.
  { unfold zlen. rewrite length_drop. lia. }
  assert (forall i j, 0 <= i -> slice i j (drop k buf) = slice (Z.of_nat k + i) (Z.of_nat k + j) buf) as Hs.
  { intros i j Hi. unfold slice. rewrite drop_drop. f_equal; [lia|]. f_equal. lia. }
  destruct (Z.ltb_spec (zlen buf) (Z.of_nat k + 8)).
  { intros [= <-]. unfold Frames.take. cbn [Frames.take_loop]. rewrite H0, Hz.
    by rewrite (proj2 (Z.ltb_lt _ _)) by lia. }
  set (l := le_dec _). destruct (Z.ltb_spec (zlen buf) (Z.of_nat k + 6 + l + 2)).
  { intros [= <-]. unfold Frames.take. cbn [Frames.take_loop]. rewrite H0, Hz.
    rewrite (proj2 (Z.ltb_ge _ _)) by lia. rewrite Hs by lia.
    cbn [Z.of_nat]. rewrite !Z.add_0_l. fold l.
    by rewrite (proj2 (Z.ltb_lt _ _)) by lia. }
  case_bool_decide; cbn [negb]; [|apply IH].
  match goal with |- context [if ?b then _ else _] => destruct b end; [apply IH|done].
Qed.

Lemma drain_loop_total fuel buf :
  wf_bytes buf -> (length buf < fuel)%nat ->
  exists ms rest, Frames.drain_loop fuel buf = Some (ms, rest) /\ wf_bytes rest /\
    (length rest + 8 * length ms <= length buf)%nat /\ Frames.take rest = Some (None, rest).
Proof.
  revert buf; induction fuel as [|fuel IH]; intros buf Hwf Hf; [lia|].
  cbn [Frames.drain_loop]. destruct (take_total buf Hwf) as (m & r & Ht & Hr & Hl).
  rewrite Ht. destruct m as [m|].
  - destruct (IH r Hr) as (ms & r' & -> & Hr' & Hl' & Hn); [lia|].
    exists (m :: ms), r'. split_and!; [done|done|simpl; lia|done].
  - exists [], r. split_and!; [done|done|simpl; lia|by eapply take_loop_none].
Qed.

(** ** Properties *)

Definition built (m : Z * list Z) (f : list Z) : Prop := build m.1 m.2 = Ok f.

Lemma built_frames ms fs : Forall2 built ms fs -> all_buildable ms /\ fs = frames ms.
Proof.
  induction 1 as [|[t d] f ms fs [Hb ->]%build_iff _ [IH ->]]; [by split; [constructor|]|].
  split; [by constructor|done].
Qed.

(** Round trip of the framing: whatever [build] accepts comes back from
    [Frames.take], also behind line noise that does not contain the start
    marker, and the buffer keeps exactly the bytes behind the frame. *)
Theorem build_take_roundtrip noise t d f rest :
  build t d = Ok f -> contains MAGIC noise = false ->
  Frames.take (noise ++ f ++ rest) = Some (Some (t, d), rest).
Proof. intros [Hb ->]%build_iff Hn. by apply take_noise_frame. Qed.

Lemma build_take_roundtrip_witness :
  exists f, build 0x0519 [1; 2; 3] = Ok f /\
    Frames.take ([0xab; 0; 0xab] ++ f ++ [7]) = Some (Some (0x0519, [1; 2; 3]), [7]).
Proof.
  eexists. split; [vm_compute; reflexivity|].
  apply build_take_roundtrip; vm_compute; reflexivity.
Defined.

(** C9. A reader that drains after every chunk recovers every message of a
    stream of frames, in order and with nothing left over, for every way of
    cutting the stream in which no chunk ends one byte into a frame. *)
Theorem run_any_chunking ms fs chunks :
  Forall2 built ms fs -> concat chunks = concat fs -> cuts_ok ms 0 chunks = true ->
  Frames.run [] chunks = Some (ms, []).
Proof.
  intros [Hms ->]%built_frames Hc Hok. apply run_partial; [done..|by left|done].
Qed.

Lemma run_any_chunking_witness :
  exists f1 f2, build 0x0518 [5] = Ok f1 /\ build 0x051A [] = Ok f2 /\
    Frames.run [] [take 2 f1; drop 2 f1 ++ take 7 f2; drop 7 f2]
      = Some ([(0x0518, [5]); (0x051A, [])], []).
Proof.
  exists (frame 0x0518 [5]), (frame 0x051A []).
  split; [vm_compute; reflexivity|]. split; [vm_compute; reflexivity|].
  apply (run_any_chunking _ [frame 0x0518 [5]; frame 0x051A []]);
    [|vm_compute; reflexivity..].
  repeat constructor; vm_compute; reflexivity.
Defined.

(** The one bad cut: after the first byte of any frame alone, [take]
    empties the buffer, so that byte is forgotten, and a frame split there
    is lost although both parts of it arrive. *)
Theorem magic_split_loses_frame :
  (forall t d f, build t d = Ok f -> Frames.drain (Frames.feed [] (take 1 f)) = Some ([], []))
  /\ exists t d f, build t d = Ok f /\
       Frames.run [] [f] = Some ([(t, d)], []) /\
       Frames.run [] [take 1 f; drop 1 f] = Some ([], []).
Proof.
  split.
  - intros t d f [_ ->]%build_iff. destruct (frame_cons t d) as [r ->]. done.
  - exists 0x0518, [1; 2; 3]. exists (frame 0x0518 [1; 2; 3]).
    split; [vm_compute; reflexivity|]. split; vm_compute; reflexivity.
Qed.

(** Draining always terminates: on every buffer of bytes it returns the
    messages and a remainder in which [take] finds nothing more, and every
    message took at least eight bytes off the buffer. *)
Theorem drain_total buf :
  wf_bytes buf ->
  exists ms rest, Frames.drain buf = Some (ms, rest) /\
    (length rest + 8 * length ms <= length buf)%nat /\
    Frames.take rest = Some (None, rest).
Proof.
  intros Hwf. destruct (drain_loop_total (S (length buf)) buf Hwf) as (ms & r & H & _ & Hl & Hn);
    [lia|]. by exists ms, r.
Qed.

Lemma drain_total_witness :
  let buf := [0xab; 0xcd; 2; 0; 1; 2; 3; 4; 0; 0; 0xab; 0xcd; 9] in
  exists ms rest, Frames.drain buf = Some (ms, rest) /\
    (length rest + 8 * length ms <= length buf)%nat /\
    Frames.take rest = Some (None, rest).
Proof. apply drain_total. wf_tac. Defined.

(** The frame with its two checksum bytes overwritten on the wire. *)
Definition corrupt_crc (f : list Z) (c0 c1 : Z) : list Z :=
  set_slice (zlen f - 4) (zlen f - 2) [c0; c1] f.

Lemma corrupt_crc_frame t d c0 c1 :
  exists crc, length crc = 2%nat /\ corrupt_crc (frame t d) c0 c1 = frame_with crc t d.
Proof.
  set (p := (le_enc 2 t ++ le_enc 2 (zlen d)) ++ d).
  set (g := fun n i b => Z.lxor b (nth ((n + i) mod length OBFUS) OBFUS 0)).
  assert (forall c, obfuscate (p ++ c) = obfuscate p ++ imap (g (length p)) c) as Hobf.
  { intros c. unfold obfuscate. by rewrite imap_app. }
  set (pre := MAGIC ++ le_enc 2 (4 + zlen d) ++ obfuscate p).
  assert (forall c, frame_with c t d = pre ++ imap (g (length p)) c ++ END) as Hf.
  { intros c. unfold frame_with. fold p. rewrite Hobf. unfold pre. by rewrite <- !app_assoc. }
  exists (imap (g (length p)) [c0; c1]). split; [done|].
  assert (forall c, imap (g (length p)) (imap (g (length p)) c) = c) as Hinv.
  { intros c. apply list_eq. intros i. rewrite !list_lookup_imap.
    destruct (c !! i); simpl; [|done]. unfold g.
    by rewrite Z.lxor_assoc, Z.lxor_nilpotent, Z.lxor_0_r. }
  unfold corrupt_crc. rewrite zlen_frame. unfold frame. rewrite !Hf, Hinv.
  assert (length pre = Z.to_nat (12 + zlen d - 4)) as Hpre.
  { unfold pre, p, zlen. rewrite !length_app, length_obfuscate, !length_app, !length_le_enc.
    simpl. lia. }
  unfold set_slice. rewrite <- Hpre, take_app_length. do 2 f_equal.
  rewrite app_assoc. pose proof (zlen_nonneg d). apply drop_app_length'.
  rewrite length_app, Hpre, length_imap. unfold crc_field. rewrite length_le_enc. lia.
Qed.

(** The checksum is not checked: overwriting the two checksum bytes of a
    frame with anything leaves what [take] returns unchanged. *)
Theorem take_ignores_crc t d f c0 c1 :
  build t d = Ok f -> Frames.take (corrupt_crc f c0 c1) = Some (Some (t, d), []).
Proof.
  intros [Hb ->]%build_iff. destruct (corrupt_crc_frame t d c0 c1) as (crc & Hl & ->).
  pose proof (take_noise_frame_with [] crc t d [] Hb Hl eq_refl) as H.
  cbn [app] in H. by rewrite app_nil_r in H.
Qed.

Lemma take_ignores_crc_witness :
  exists f, build 0x051A [1] = Ok f /\
    Frames.take (corrupt_crc f 0 0) = Some (Some (0x051A, [1]), []).
Proof.
  eexists. split; [vm_compute; reflexivity|].
  apply take_ignores_crc. vm_compute. reflexivity.
Defined.
