(* ===== verification/Flasher.v ===== *)
(** The bootloader client of [src/tools/uvk5_serial_flash.py]: the [Flasher]
    class over an abstract transport.  A typeclass states what a bootloader
    promises (a page that is sent is written and acknowledged, up to a bounded
    number of lost requests or replies); the client is proved against it, and
    a concrete lossy bootloader discharges it. *)
From S2P Require Import Prelude Struct SerialFlash.

(** What the client does with the transport.  [dev_pump ms] is one [_pump] of
    that many milliseconds: the bytes that arrive while it listens. *)
Class Transport (D : Type) := {
  dev_send : D -> list Z -> D;
  dev_pump : Z -> D -> D * list Z
}.

(** The client: the reassembly buffer and the device at the other end. *)
Record flasher (D : Type) := Flasher { fl_buf : list Z; fl_dev : D }.
Arguments Flasher {_} _ _.
Arguments fl_buf {_} _.
Arguments fl_dev {_} _.

(** All messages of a buffer: [Frames.drain], which [drain_total] shows is
    never out of fuel on bytes. *)
Definition messages (buf : list Z) : list (Z * list Z) * list Z :=
  default ([], buf) (Frames.drain buf).

(** The data of the last message of type [t], as the loops that overwrite
    [reply] leave it. *)
Fixpoint last_of (t : Z) (ms : list (Z * list Z)) (acc : option (list Z)) : option (list Z) :=
  match ms with
  | [] => acc
  | m :: ms => last_of t ms (if m.1 =? t then Some m.2 else acc)
  end.

(** What a listener has when the bytes that ended with [carry] go on with
    [bs]: whole messages, and the beginning of another.  A cut after the first
    byte of a message is excluded: the reassembler loses that message
    ([magic_split_loses_frame]). *)
Definition carried (p : list Z) : Prop := partial p /\ length p <> 1%nat.
Definition arrive (carry bs : list Z) (ms : list (Z * list Z)) (carry' : list Z) : Prop :=
  all_buildable ms /\ carried carry' /\ carry ++ bs = concat (frames ms) ++ carry'.

(** What a bootloader promises the client. [dev_pages] is the flash it has
    written, by page index, [dev_hellos] the replies to its announcements that
    it got, [dev_carry] what it has sent of a message that is not through, and
    [dev_drops] how many of the next page requests will go unanswered: a
    request may be lost before it is acted on, or the reply after.  One that
    is answered is written and acknowledged under its own index within the
    second the client listens, possibly among other messages, and at most two
    in a row go unanswered. *)
Class Bootloader (D : Type) `{Transport D} := {
  dev_pages : D -> gmap Z (list Z);
  dev_hellos : D -> list (list Z);
  dev_carry : D -> list Z;
  dev_drops : D -> nat;
  dev_page_law : forall d stamp index total page data f,
    0 <= stamp < 2 ^ 32 -> 0 <= index < 65536 -> 0 <= total < 65536 ->
    data = (le_enc 4 stamp ++ le_enc 2 index ++ le_enc 2 total) ++ zrep 4 0 ++ page ->
    build MSG_PROG_FW data = Ok f ->
    let '(d', bs) := dev_pump 1000 (dev_send d f) in
    (dev_drops d' <= 2)%nat /\ dev_hellos d' = dev_hellos d /\
    exists ms, arrive (dev_carry d) bs ms (dev_carry d') /\
      match dev_drops d with
      | O => dev_pages d' = <[index := page]> (dev_pages d) /\
             exists reply st, last_of MSG_PROG_FW_RESP ms None = Some reply /\
               unpack_from [fI; fH; fH] reply 0 = Ok (st, (index, (0, tt)))
      | S n => last_of MSG_PROG_FW_RESP ms None = None /\ dev_drops d' = n /\
               (dev_pages d' = dev_pages d \/ dev_pages d' = <[index := page]> (dev_pages d))
      end
}.

Section client.
Context {D : Type} `{Transport D}.

(** [_pump], its seconds in milliseconds. *)
Definition pump (ms : Z) (s : flasher D) : flasher D :=
  let '(d, bs) := dev_pump ms (fl_dev s) in Flasher (Frames.feed (fl_buf s) bs) d.

Definition send (s : flasher D) (msg_type : Z) (data : list Z) : result (flasher D) :=
  f ← build msg_type data; Ok (Flasher (fl_buf s) (dev_send (fl_dev s) f)).

(** Messages up to the first announcement; the rest stays buffered. *)
Fixpoint find_announcement (fuel : nat) (buf : list Z) : option (option (list Z) * list Z) :=
  match fuel with
  | O => None
  | S fuel =>
      match Frames.take buf with
      | None => None
      | Some (None, buf) => Some (None, buf)
      | Some (Some (t, data), buf) =>
          if t =? MSG_NOTIFY_DEV_INFO then Some (Some data, buf)
          else find_announcement fuel buf
      end
  end.

(** [wait_for_device]; [rounds] is how many half-second pumps fit in the
    timeout. *)
Fixpoint wait_for_device (rounds : nat) (s : flasher D) : result (list Z * flasher D) :=
  match rounds with
  | O => raise SystemExit "no 0x0518 announcement; is the radio in flashing mode?" []
  | S rounds =>
      let s := pump 500 s in
      match find_announcement (S (length (fl_buf s))) (fl_buf s) with
      | Some (Some data, buf) =>
          Ok (decode_replace (until_nul (slice 16 32 data)), Flasher buf (fl_dev s))
      | Some (None, buf) => wait_for_device rounds (Flasher buf (fl_dev s))
      | None => wait_for_device rounds s
      end
  end.

(** [bl_ver[:4].encode("ascii").ljust(4, b"\x00")]; a strict encode raises on
    a character that is not ASCII. *)
Definition handshake_reply (bl_ver : list Z) : result (list Z) :=
  if forallb (fun c => c <? 128) (take 4 bl_ver)
  then Ok (ljust 4 (take 4 bl_ver))
  else raise UnicodeEncodeError "'ascii' codec can't encode character" [].

(** The handshake loop: [rounds] 50 ms pumps fit in the ten seconds.  The
    result carries how many replies were sent. *)
Fixpoint handshake_loop (rounds : nat) (want : list Z) (times sent : Z) (s : flasher D)
  : result (Z * flasher D) :=
  match rounds with
  | O => Ok (sent, s)
  | S rounds =>
      if sent <? times then
        let s := pump 50 s in
        let '(ms, buf) := messages (fl_buf s) in
        let s := Flasher buf (fl_dev s) in
        if existsb (fun m => m.1 =? MSG_NOTIFY_DEV_INFO) ms then
          s ← send s MSG_NOTIFY_BL_VER want;
          handshake_loop rounds want times (sent + 1) s
        else handshake_loop rounds want times sent s
      else Ok (sent, s)
  end.

Definition handshake (rounds : nat) (bl_ver : list Z) (times : Z) (s : flasher D)
  : result (Z * flasher D) :=
  want ← handshake_reply bl_ver; handshake_loop rounds want times 0 s.

(** The message of one page: timestamp, page index, page count, four
    reserved bytes, the page. *)
Definition page_message (stamp index total : Z) (page : list Z) : result (list Z) :=
  h ← pack [fI; fH; fH] (stamp, (index, (total, tt)));
  Ok (h ++ zrep 4 0 ++ page).

(** The attempts at one page; [true] is the [break] after a matching
    acknowledgement, [false] the loop running out. *)
Fixpoint attempt_page (retries : nat) (index : Z) (data : list Z) (s : flasher D)
  : result (bool * flasher D) :=
  match retries with
  | O => Ok (false, s)
  | S retries =>
      s ← send s MSG_PROG_FW data;
      let s := pump 1000 s in
      let '(ms, buf) := messages (fl_buf s) in
      let s := Flasher buf (fl_dev s) in
      match last_of MSG_PROG_FW_RESP ms None with
      | None => attempt_page retries index data s
      | Some reply =>
          '(_, (page_index, (err, _))) ← unpack_from [fI; fH; fH] reply 0;
          if (err =? 0) && (page_index =? index) then Ok (true, s)
          else attempt_page retries index data s
      end
  end.

Definition program_page (image : list Z) (stamp total : Z) (retries : nat)
    (st : Z * flasher D) (index : Z) : result (Z * flasher D) :=
  let '(written, s) := st in
  let page := slice (index * PAGE_SIZE) ((index + 1) * PAGE_SIZE) image in
  data ← page_message stamp index total page;
  '(acked, s) ← attempt_page retries index data s;
  if acked : bool then Ok (written + 1, s)
  else raise SystemExit "page %d never acknowledged" [index].

Definition page_count (image : list Z) (pages : option Z) : Z :=
  let total := (zlen image + PAGE_SIZE - 1) / PAGE_SIZE in
  match pages with Some n => Z.min total n | None => total end.

(** [now] is [int(time.time() * 100)]. *)
Definition program (image : list Z) (pages : option Z) (retries : nat) (now : Z)
    (s : flasher D) : result (Z * flasher D) :=
  let total := page_count image pages in
  let stamp := Z.land now 0xFFFFFFFF in
  foldM (program_page image stamp total retries) (0, s) (zrange total).

End client.

(** ** The client against any lawful bootloader *)

Lemma page_header_ok stamp index total :
  0 <= stamp < 2 ^ 32 -> 0 <= index < 65536 -> 0 <= total < 65536 ->
  pack [fI; fH; fH] (stamp, (index, (total, tt)))
    = Ok (le_enc 4 stamp ++ le_enc 2 index ++ le_enc 2 total).
Proof.
  intros Hs Hi Ht.
  apply pack_cons_iff. do 2 eexists. split; [by apply pack1_int_iff|].
  split; [|done]. apply pack_cons_iff. do 2 eexists. split; [by apply pack1_int_iff|].
  split; [|done]. by apply pack_int_iff.
Qed.

Lemma page_message_ok stamp index total page :
  0 <= stamp < 2 ^ 32 -> 0 <= index < 65536 -> 0 <= total < 65536 ->
  page_message stamp index total page =
    Ok ((le_enc 4 stamp ++ le_enc 2 index ++ le_enc 2 total) ++ zrep 4 0 ++ page).
Proof. intros. unfold page_message. by rewrite page_header_ok. Qed.

Section against_bootloader.
Context {D : Type} `{Bootloader D}.

Lemma held_carried p : carried p -> held p = p.
Proof. intros [_ Hp]. unfold held. by destruct p as [|x [|y p]]. Qed.

Lemma messages_frames ms p : all_buildable ms -> carried p -> messages (concat (frames ms) ++ p) = (ms, p).
Proof.
  intros Hms Hp. unfold messages. rewrite (drain_frames ms p Hms (proj1 Hp)). cbn. by rewrite held_carried.
Qed.

(** A page whose request fits the wire format is acknowledged within the
    attempts left, and written. *)
Lemma attempt_page_acked stamp index total page data :
  0 <= stamp < 2 ^ 32 -> 0 <= index < 65536 -> 0 <= total < 65536 -> zlen page <= 256 ->
  data = (le_enc 4 stamp ++ le_enc 2 index ++ le_enc 2 total) ++ zrep 4 0 ++ page ->
  forall n d P, dev_drops d = n ->
    dev_pages d = P \/ dev_pages d = <[index := page]> P ->
    forall retries, (n < retries)%nat ->
    exists d', attempt_page retries index data (Flasher (dev_carry d) d) = Ok (true, Flasher (dev_carry d') d') /\
      (dev_drops d' <= 2)%nat /\ dev_hellos d' = dev_hellos d /\ dev_pages d' = <[index := page]> P.
Proof.
  intros Hst Hix Htot Hpg Hdata.
  assert (zlen data <= 12 + 256) as Hlen.
  { subst data. unfold zlen, zrep in *. rewrite !length_app, !length_le_enc, !length_replicate. lia. }
  assert (build MSG_PROG_FW data = Ok (frame MSG_PROG_FW data)) as Hb.
  { apply build_iff. split; [|done]. unfold buildable, MSG_PROG_FW. lia. }
  induction n as [|n IH]; intros d P Hn HP retries Hr;
    (destruct retries as [|retries]; [lia|]);
    cbn [attempt_page]; unfold send; rewrite Hb; cbn [mbind result_bind fl_buf fl_dev];
    unfold pump; cbn [fl_buf fl_dev];
    pose proof (dev_page_law d stamp index total page data _ Hst Hix Htot Hdata Hb) as Hlaw;
    destruct (dev_pump 1000 (dev_send d (frame MSG_PROG_FW data))) as [d' bs];
    destruct Hlaw as (Hdr & Hh & ms & (Hms & Hc & Harr) & Hlaw); unfold Frames.feed; cbn [fl_buf fl_dev];
    rewrite Harr, (messages_frames ms _ Hms Hc); rewrite Hn in Hlaw.
  - destruct Hlaw as (Hp & reply & st & -> & ->). cbn. rewrite Z.eqb_refl.
    exists d'. split_and!; [done..|]. rewrite Hp.
    destruct HP as [->| ->]; [done|by rewrite insert_insert_eq].
  - destruct Hlaw as (-> & Hd' & Hp). rewrite <- Hh. apply IH; [done| |lia].
    destruct Hp as [->| ->]; [done|]. right.
    destruct HP as [->| ->]; [done|by rewrite insert_insert_eq].
Qed.

(** The page of [image] at [index]. *)
Definition page_at (image : list Z) (index : Z) : list Z :=
  slice (index * PAGE_SIZE) ((index + 1) * PAGE_SIZE) image.

Lemma program_page_ok image stamp total retries written d i :
  0 <= stamp < 2 ^ 32 -> 0 <= total < 65536 -> (2 < retries)%nat -> 0 <= i < 65536 ->
  (dev_drops d <= 2)%nat ->
  exists d', program_page image stamp total retries (written, Flasher (dev_carry d) d) i
      = Ok (written + 1, Flasher (dev_carry d') d') /\
    (dev_drops d' <= 2)%nat /\ dev_hellos d' = dev_hellos d /\ dev_pages d' = <[i := page_at image i]> (dev_pages d).
Proof.
  intros Hs Ht Hr Hi Hd. unfold program_page. fold (page_at image i).
  rewrite (page_message_ok _ _ _ _ Hs Hi Ht). cbn [mbind result_bind].
  assert (zlen (page_at image i) <= 256) as Hpg.
  { unfold page_at. transitivity ((i + 1) * PAGE_SIZE - i * PAGE_SIZE); unfold PAGE_SIZE;
      [apply zlen_slice_le|]; lia. }
  destruct (attempt_page_acked stamp i total (page_at image i) _ Hs Hi Ht Hpg eq_refl
              (dev_drops d) d (dev_pages d) eq_refl (or_introl eq_refl) retries)
    as (d1 & Ha & Hd1 & Hh1 & Hp1); [lia|].
  rewrite Ha. cbn [mbind result_bind]. by exists d1.
Qed.

Lemma program_pages image stamp total retries idxs :
  0 <= stamp < 2 ^ 32 -> 0 <= total < 65536 -> (2 < retries)%nat ->
  Forall (fun i => 0 <= i < 65536) idxs ->
  forall written d, (dev_drops d <= 2)%nat ->
  exists d', foldM (program_page image stamp total retries) (written, Flasher (dev_carry d) d) idxs
      = Ok (written + zlen idxs, Flasher (dev_carry d') d') /\
    dev_hellos d' = dev_hellos d /\ dev_pages d' = foldl (fun m i => <[i := page_at image i]> m) (dev_pages d) idxs.
Proof.
  intros Hs Ht Hr Hi. induction Hi as [|i idxs Hi His IH]; intros written d Hd.
  - exists d. rewrite zlen_nil, Z.add_0_r. done.
  - destruct (program_page_ok image stamp total retries written d i Hs Ht Hr Hi Hd)
      as (d1 & H1 & Hd1 & Hh1 & Hp1).
    cbn [foldM foldl]. rewrite H1. cbn [mbind result_bind].
    destruct (IH (written + 1) d1 Hd1) as (d' & -> & Hh & Hp).
    exists d'. rewrite zlen_cons, Hp, Hp1, Hh, Hh1. split; [|done]. do 2 f_equal. lia.
Qed.

End against_bootloader.

(** ** The session before the pages *)

(** What a bootloader in flashing mode promises besides: while no page request
    is waiting for its answer it announces itself every [PERIOD] milliseconds,
    with its version, in ASCII, possibly among other messages; [dev_next] is
    how long it will be silent at most.  Neither listening nor the reply to an
    announcement touches its flash. *)
Definition PERIOD : Z := 200.
Class Announcer (D : Type) `{Bootloader D} := {
  dev_quiet : D -> Prop;
  dev_next : D -> Z;
  dev_version : D -> list Z;
  dev_next_law : forall d, dev_quiet d -> 0 <= dev_next d <= PERIOD;
  dev_version_law : forall d, Forall (fun c => 0 <= c < 128) (dev_version d);
  dev_announce_law : forall ms d, dev_quiet d -> 0 <= ms ->
    let '(d', bs) := dev_pump ms d in
    (dev_quiet d' /\ dev_pages d' = dev_pages d /\ dev_drops d' = dev_drops d /\ dev_hellos d' = dev_hellos d /\
     dev_version d' = dev_version d) /\
    exists msgs, arrive (dev_carry d) bs msgs (dev_carry d') /\
      ((exists data, (MSG_NOTIFY_DEV_INFO, data) ∈ msgs) \/ dev_next d' + ms <= dev_next d) /\
      Forall (fun m => m.1 = MSG_NOTIFY_DEV_INFO -> slice 16 32 m.2 = dev_version d) msgs;
  dev_hello_law : forall d want f,
    dev_quiet d -> zlen want = 4 -> build MSG_NOTIFY_BL_VER want = Ok f ->
    dev_quiet (dev_send d f) /\ dev_pages (dev_send d f) = dev_pages d /\ dev_drops (dev_send d f) = dev_drops d /\
    dev_carry (dev_send d f) = dev_carry d /\ dev_version (dev_send d f) = dev_version d /\
    dev_hellos (dev_send d f) = dev_hellos d ++ [want]
}.

(** The reply to a version: its first four characters. *)
Definition hello (version : list Z) : list Z := ljust 4 (take 4 (until_nul version)).

Lemma find_announcement_frames ms : all_buildable ms -> forall fuel rest,
  (length ms < fuel)%nat -> (exists data, (MSG_NOTIFY_DEV_INFO, data) ∈ ms) ->
  exists pre data post, ms = pre ++ (MSG_NOTIFY_DEV_INFO, data) :: post /\
    find_announcement fuel (concat (frames ms) ++ rest) = Some (Some data, concat (frames post) ++ rest).
Proof.
  induction 1 as [|[t d] ms Hb Hms IH]; intros [|fuel] rest Hf [data Hin]; cbn [length] in Hf; try lia;
    [by apply elem_of_nil in Hin|].
  cbn [find_announcement frames map concat fst snd]. rewrite <- app_assoc.
  pose proof (take_noise_frame [] t d (concat (frames ms) ++ rest) Hb eq_refl) as Ht.
  cbn [app] in Ht. unfold frames in Ht |- *. rewrite Ht. fold (frames ms).
  destruct (Z.eqb_spec t MSG_NOTIFY_DEV_INFO) as [->|Hne]; [by exists [], d, ms|].
  destruct (IH fuel rest) as (pre & data' & post & -> & E); [lia| |].
  - apply elem_of_cons in Hin as [Heq|Hin]; [by injection Heq as <-|by exists data].
  - exists ((t, d) :: pre), data', post. split; [done|exact E].
Qed.

Lemma until_nul_ascii s : Forall (fun c => 0 <= c < 128) s -> ascii_text (until_nul s).
Proof.
  induction 1 as [|c s Hc Hs IH]; cbn; [constructor|]. destruct (Z.eqb_spec c 0); constructor; [lia|done].
Qed.

Lemma existsb_announced (ms : list (Z * list Z)) : (exists data, (MSG_NOTIFY_DEV_INFO, data) ∈ ms) ->
  existsb (fun m => m.1 =? MSG_NOTIFY_DEV_INFO) ms = true.
Proof. intros [data Hin]. apply existsb_exists. exists (MSG_NOTIFY_DEV_INFO, data). by rewrite <- list_elem_of_In. Qed.

Section session.
Context {D : Type} `{Announcer D}.

(** What stays the same of the device until the pages are sent. *)
Definition session (d d' : D) : Prop :=
  dev_quiet d' /\ dev_pages d' = dev_pages d /\ dev_drops d' = dev_drops d /\ dev_version d' = dev_version d.

(** Half a second is more than a period: the first wait ends with an
    announcement, and what comes after it stays buffered. *)
Lemma wait_for_device_ok rounds (d : D) : dev_quiet d -> (0 < rounds)%nat ->
  exists ms d', wait_for_device rounds (Flasher (dev_carry d) d)
      = Ok (until_nul (dev_version d), Flasher (concat (frames ms) ++ dev_carry d') d') /\
    all_buildable ms /\ carried (dev_carry d') /\ session d d' /\ dev_hellos d' = dev_hellos d.
Proof.
  intros Hq Hr. destruct rounds as [|rounds]; [lia|]. cbn [wait_for_device]. unfold pump. cbn [fl_dev fl_buf].
  pose proof (dev_announce_law 500 d Hq ltac:(lia)) as Hlaw. destruct (dev_pump 500 d) as [d' bs].
  destruct Hlaw as ((Hq' & Hp & Hd & Hh & Hv) & ms & (Hms & Hc & Harr) & Hin & Ha).
  assert (exists data, (MSG_NOTIFY_DEV_INFO, data) ∈ ms) as Hin'.
  { destruct Hin as [Hin|Hn]; [done|]. pose proof (dev_next_law d Hq). pose proof (dev_next_law d' Hq').
    unfold PERIOD in *. lia. }
  unfold Frames.feed. cbn [fl_buf fl_dev]. rewrite Harr.
  destruct (find_announcement_frames ms Hms (S (length (concat (frames ms) ++ dev_carry d'))) (dev_carry d'))
    as (pre & data & post & E & Hf); [rewrite length_app; pose proof (length_frames ms); lia|done|].
  rewrite Hf. exists post, d'. subst ms. apply Forall_app in Ha as [_ [Ha _]%Forall_cons].
  apply Forall_app in Hms as [_ [_ Hms]%Forall_cons]. specialize (Ha eq_refl). cbn [snd] in Ha. rewrite Ha.
  rewrite decode_replace_ascii by (apply until_nul_ascii, dev_version_law). done.
Qed.

(** Every fifth round of the handshake at the latest hears an announcement. *)
Definition patience (d : D) : Z := dev_next d / 50 + 1.

Lemma patience_bound (d : D) : dev_quiet d -> 1 <= patience d <= 5.
Proof.
  intros Hq. pose proof (dev_next_law d Hq) as Hn. unfold patience, PERIOD in *.
  assert (0 <= dev_next d / 50 <= 4); [|lia].
  split; [apply Z.div_pos; lia|apply Z.div_le_upper_bound; lia].
Qed.

Lemma handshake_loop_ok want times : zlen want = 4 -> forall rounds n ms (d : D),
  dev_quiet d -> (times - n - 1) * 5 + patience d <= Z.of_nat rounds -> all_buildable ms -> carried (dev_carry d) ->
  n < times ->
  exists d', handshake_loop rounds want times n (Flasher (concat (frames ms) ++ dev_carry d) d)
      = Ok (times, Flasher (dev_carry d') d') /\
    session d d' /\ dev_hellos d' = dev_hellos d ++ replicate (Z.to_nat (times - n)) want.
Proof.
  intros Hw. assert (buildable MSG_NOTIFY_BL_VER want) as Hbw by (unfold buildable, MSG_NOTIFY_BL_VER; lia).
  pose proof (proj2 (build_iff MSG_NOTIFY_BL_VER want _) (conj Hbw eq_refl)) as Hb.
  pose proof patience_bound as Hpat.
  induction rounds as [|rounds IH]; intros n ms d Hq Hr Hms Hc Hn; [specialize (Hpat d Hq); lia|]. cbn [handshake_loop].
  rewrite (proj2 (Z.ltb_lt _ _)) by done. unfold pump. cbn [fl_dev fl_buf].
  pose proof (dev_announce_law 50 d Hq ltac:(lia)) as Hlaw. destruct (dev_pump 50 d) as [d1 bs].
  destruct Hlaw as ((Hq1 & Hp & Hd & Hh & Hv) & ms' & (Hms' & Hc1 & Harr) & Hin & _). cbn [fl_dev fl_buf]. unfold Frames.feed.
  rewrite <- app_assoc, Harr, app_assoc.
  replace (concat (frames ms) ++ concat (frames ms')) with (concat (frames (ms ++ ms')))
    by (unfold frames; by rewrite map_app, concat_app).
  rewrite messages_frames by (done || by apply Forall_app). destruct (existsb _ _) eqn:Ex.
  - unfold send. rewrite Hb. cbn [mbind result_bind fl_buf fl_dev].
    destruct (dev_hello_law d1 want _ Hq1 Hw Hb) as (Hq2 & Hp2 & Hd2 & Hc2 & Hv2 & Hh2). set (d2 := dev_send d1 _) in *.
    rewrite <- Hc2. assert (session d d2) as Hsess by (unfold session; by rewrite Hp2, Hp, Hd2, Hd, Hv2, Hv).
    destruct (decide (n + 1 < times)) as [Hlt|Hge].
    + destruct (IH (n + 1) [] d2) as (d' & E & (Hs1 & Hs2 & Hs3 & Hs4) & Hh').
      { done. } { pose proof (Hpat d Hq). pose proof (Hpat d2 Hq2). lia. } { constructor. } { by rewrite Hc2. } { done. }
      exists d'. split; [exact E|]. split; [unfold session; rewrite Hs2, Hs3, Hs4; split; [done|apply Hsess]|].
      rewrite Hh', Hh2, Hh, <- app_assoc. replace (Z.to_nat (times - n)) with (S (Z.to_nat (times - (n + 1)))) by lia. done.
    + exists d2. replace (n + 1) with times by lia. split; [|split; [done|]].
      * destruct rounds; cbn [handshake_loop]; [done|]. by rewrite Z.ltb_irrefl.
      * rewrite Hh2, Hh. by replace (Z.to_nat (times - n)) with 1%nat by lia.
  - destruct Hin as [[data Hin]|Hnext].
    { rewrite existsb_announced in Ex; [done|]. exists data. apply elem_of_app. by right. }
    destruct (IH n [] d1) as (d' & E & (Hs1 & Hs2 & Hs3 & Hs4) & Hh').
    { done. }
    { enough (patience d1 + 1 <= patience d) by lia. unfold patience. pose proof (dev_next_law d1 Hq1).
      assert ((dev_next d1 + 1 * 50) / 50 <= dev_next d / 50) as Hle by (apply Z.div_le_mono; lia).
      rewrite Z.div_add in Hle by lia. lia. }
    { constructor. } { done. } { done. }
    exists d'. split; [exact E|]. split; [|by rewrite Hh', Hh]. unfold session. by rewrite Hs2, Hs3, Hs4.
Qed.

Lemma handshake_ok rounds times ms (d : D) :
  dev_quiet d -> all_buildable ms -> carried (dev_carry d) -> 0 < times -> times * 5 <= Z.of_nat rounds ->
  exists d', handshake rounds (until_nul (dev_version d)) times (Flasher (concat (frames ms) ++ dev_carry d) d)
      = Ok (times, Flasher (dev_carry d') d') /\
    session d d' /\ dev_hellos d' = dev_hellos d ++ replicate (Z.to_nat times) (hello (dev_version d)).
Proof.
  intros Hq Hms Hc Ht Hr. unfold handshake, handshake_reply.
  assert (forallb (fun c => c <? 128) (take 4 (until_nul (dev_version d))) = true) as ->.
  { apply forallb_forall. intros c Hin%list_elem_of_In.
    pose proof (ascii_text_take 4 _ (until_nul_ascii _ (dev_version_law d))) as Ha. unfold ascii_text in Ha.
    rewrite Forall_forall in Ha. specialize (Ha c Hin). cbn in Ha. lia. }
  cbn [mbind result_bind]. replace (Z.to_nat times) with (Z.to_nat (times - 0)) by lia. apply handshake_loop_ok; [|done| |done..|lia].
  - apply zlen_ljust. unfold zlen. rewrite length_take. lia.
  - pose proof (patience_bound d Hq). lia.
Qed.
End session.

(** ** Pages and images *)

Lemma lookup_foldl_pages image idxs (m : gmap Z (list Z)) i :
  foldl (fun m i => <[i := page_at image i]> m) m idxs !! i =
    if decide (i ∈ idxs) then Some (page_at image i) else m !! i.
Proof.
  revert m; induction idxs as [|j idxs IH]; intros m; cbn [foldl].
  - by rewrite decide_False by set_solver.
  - rewrite IH. destruct (decide (i ∈ idxs)).
    + by rewrite decide_True by set_solver.
    + destruct (decide (i = j)) as [->|].
      * rewrite decide_True by set_solver. by rewrite lookup_insert_eq.
      * rewrite decide_False by set_solver. by rewrite lookup_insert_ne.
Qed.

Lemma page_count_bound image :
  0 < page_count image None /\
  (page_count image None - 1) * PAGE_SIZE < zlen image <= page_count image None * PAGE_SIZE
    \/ zlen image = 0 /\ page_count image None = 0.
Proof.
  unfold page_count, PAGE_SIZE. pose proof (zlen_nonneg image).
  pose proof (Z.div_mod (zlen image + 256 - 1) 256).
  pose proof (Z.mod_pos_bound (zlen image + 256 - 1) 256). lia.
Qed.

(** Pages [0 .. n-1] put back together are the image's first [n] pages. *)
Lemma concat_pages image n :
  concat (map (page_at image) (zrange (Z.of_nat n))) = slice 0 (Z.of_nat n * PAGE_SIZE) image.
Proof.
  unfold zrange. rewrite Nat2Z.id. induction n as [|n IH].
  - by rewrite slice_empty by done.
  - rewrite seq_S, !map_app, concat_app, IH. cbn [map concat]. rewrite app_nil_r.
    unfold page_at, slice, PAGE_SIZE. cbn [Nat.add].
    replace (Z.to_nat (Z.of_nat n * 256 - 0)) with (Z.to_nat (Z.of_nat n * 256)) by lia.
    replace (Z.to_nat (Z.of_nat (S n) * 256 - 0))
      with (Z.to_nat (Z.of_nat n * 256) + Z.to_nat ((Z.of_nat n + 1) * 256 - Z.of_nat n * 256))%nat
      by lia.
    change (Z.to_nat 0) with 0%nat. rewrite drop_0. by rewrite <- take_take_drop.
Qed.

(** ** A lossy bootloader *)

(** It announces itself every [PERIOD] milliseconds, writes the pages it
    receives, notes the replies to its announcements, and loses requests or
    replies as its fault list says, two in a row at most. *)
Inductive fault := Acked | LostRequest | LostReply.

Record boot := Boot {
  b_pages : gmap Z (list Z);
  b_out : list Z;
  b_faults : list fault;
  b_left : nat;
  b_next : Z;
  b_hellos : list (list Z)
}.

Fixpoint losses (fs : list fault) (k : nat) : nat :=
  match fs, k with
  | LostRequest :: fs, S k | LostReply :: fs, S k => S (losses fs k)
  | _, _ => 0
  end.

Definition boot_drops (b : boot) : nat := losses (b_faults b) (Nat.min 2 (b_left b)).

Definition boot_ack (stamp index : Z) : list Z :=
  frame MSG_PROG_FW_RESP (le_enc 4 stamp ++ le_enc 2 index ++ le_enc 2 0).

Definition boot_send (b : boot) (f : list Z) : boot :=
  match Frames.take f with
  | Some (Some (t, data), _) =>
      if t =? MSG_PROG_FW then
        match unpack_from [fI; fH; fH] data 0 with
        | Ok (stamp, (index, _)) =>
            let written := <[index := drop 12 data]> (b_pages b) in
            match boot_drops b, b_faults b with
            | S _, LostRequest :: fs =>
                Boot (b_pages b) [] fs (Nat.pred (Nat.min 2 (b_left b))) (b_next b) (b_hellos b)
            | S _, _ :: fs => Boot written [] fs (Nat.pred (Nat.min 2 (b_left b))) (b_next b) (b_hellos b)
            | _, fs => Boot written (boot_ack stamp index) (tail fs) 2 (b_next b) (b_hellos b)
            end
        | Raise _ => b
        end
      else if t =? MSG_NOTIFY_BL_VER
      then Boot (b_pages b) (b_out b) (b_faults b) (b_left b) (b_next b) (b_hellos b ++ [data])
      else b
  | _ => b
  end.

(** How many announcements fall into the next [ms] milliseconds. *)
Definition due (b : boot) (ms : Z) : Z := Z.max 0 ((ms - b_next b + (PERIOD - 1)) / PERIOD).
Definition announcement : Z * list Z := (MSG_NOTIFY_DEV_INFO, zrep 32 65).
Definition boot_pump (ms : Z) (b : boot) : boot * list Z :=
  (Boot (b_pages b) [] (b_faults b) (b_left b) (b_next b + PERIOD * due b ms - ms) (b_hellos b),
   concat (frames (replicate (Z.to_nat (due b ms)) announcement)) ++ b_out b).

#[export] Instance boot_transport : Transport boot :=
  { dev_send := boot_send; dev_pump := boot_pump }.

Lemma losses_le fs k : (losses fs k <= k)%nat.
Proof.
  revert k; induction fs as [|f fs IH]; intros k; simpl; [lia|].
  destruct f, k; try lia; specialize (IH k); lia.
Qed.

Lemma page_fields stamp index total page :
  0 <= stamp < 2 ^ 32 -> 0 <= index < 65536 -> 0 <= total < 65536 ->
  unpack_from [fI; fH; fH]
    ((le_enc 4 stamp ++ le_enc 2 index ++ le_enc 2 total) ++ page) 0
    = Ok (stamp, (index, (total, tt))).
Proof.
  intros Hs Hi Ht.
  pose proof (page_header_ok stamp index total Hs Hi Ht) as Hp.
  apply unpack_from_slice.
  - split; [lia|apply zlen_nonneg].
  - rewrite slice_0_app; [exact Hp|]. by rewrite (pack_zlen _ _ _ Hp).
  - simpl. done.
Qed.

Lemma announce_buildable : buildable MSG_NOTIFY_DEV_INFO (zrep 32 65).
Proof. unfold buildable, MSG_NOTIFY_DEV_INFO. rewrite zlen_rep; lia. Qed.

Lemma ack_buildable stamp index :
  buildable MSG_PROG_FW_RESP (le_enc 4 stamp ++ le_enc 2 index ++ le_enc 2 0).
Proof.
  unfold buildable, MSG_PROG_FW_RESP, zlen. rewrite !length_app, !length_le_enc. lia.
Qed.

Lemma announcements_buildable n : all_buildable (replicate n announcement).
Proof. apply Forall_replicate, announce_buildable. Qed.

Lemma arrive_whole ms : all_buildable ms -> arrive [] (concat (frames ms)) ms [].
Proof. intros Hms. split; [done|]. split; [split; [by left|done]|]. by rewrite app_nil_r. Qed.

Lemma last_of_announcements t n rest acc : t <> MSG_NOTIFY_DEV_INFO ->
  last_of t (replicate n announcement ++ rest) acc = last_of t rest acc.
Proof.
  intros Ht. revert acc. induction n as [|n IH]; intros acc; [done|]. cbn [replicate app last_of announcement fst].
  rewrite (proj2 (Z.eqb_neq _ _)) by congruence. apply IH.
Qed.

#[export] Program Instance boot_bootloader : Bootloader boot :=
  { dev_pages := b_pages; dev_hellos := b_hellos; dev_carry := fun _ => []; dev_drops := boot_drops }.
Next Obligation.
  intros d stamp index total page data f Hs Hi Ht Hdata [Hb ->]%build_iff.
  pose proof (take_noise_frame [] _ _ [] Hb eq_refl) as Htake.
  cbn [app] in Htake. rewrite app_nil_r in Htake.
  cbn [dev_send dev_pump boot_transport]. unfold boot_send. rewrite Htake, Z.eqb_refl.
  assert (unpack_from [fI; fH; fH] data 0 = Ok (stamp, (index, (total, tt)))) as ->.
  { subst data. by apply page_fields. }
  assert (drop 12 data = page) as ->.
  { subst data. rewrite app_assoc. apply drop_app_length'.
    unfold zrep. rewrite !length_app, !length_le_enc, length_replicate. lia. }
  pose proof (ack_buildable stamp index) as Hack.
  assert (boot_drops d = losses (b_faults d) (Nat.min 2 (b_left d))) as Hdef by done.
  destruct (boot_drops d) as [|n] eqn:Hd.
  - unfold boot_pump; cbn [b_faults b_left b_pages b_out b_next b_hellos]. set (k := Z.to_nat (due _ _)).
    split; [apply losses_le|]. split; [done|].
    exists (replicate k announcement ++ [(MSG_PROG_FW_RESP, le_enc 4 stamp ++ le_enc 2 index ++ le_enc 2 0)]).
    split.
    + replace (concat (frames (replicate k announcement)) ++ boot_ack stamp index)
        with (concat (frames (replicate k announcement ++ [(MSG_PROG_FW_RESP, le_enc 4 stamp ++ le_enc 2 index ++ le_enc 2 0)]))).
      * apply arrive_whole, Forall_app. split; [apply announcements_buildable|by constructor].
      * unfold frames. rewrite map_app, concat_app. cbn [map concat fst snd]. by rewrite app_nil_r.
    + rewrite last_of_announcements by done.
      split; [done|]. do 2 eexists. split; [done|]. rewrite <- (app_nil_r (_ ++ _)). apply page_fields; lia.
  - destruct (b_faults d) as [|[] fs]; cbn [losses] in Hdef; [done|done| |];
      (destruct (Nat.min 2 (b_left d)) as [|k] eqn:Hk; [done|]);
      unfold boot_pump, boot_drops; cbn [b_faults b_left b_pages b_out b_next b_hellos Nat.pred];
      set (m := Z.to_nat (due _ _));
      injection Hdef as ->;
      (replace (Nat.min 2 k) with k by lia);
      (split; [pose proof (losses_le fs k); lia|]); (split; [done|]);
      exists (replicate m announcement); rewrite app_nil_r;
      (split; [apply arrive_whole, announcements_buildable|]);
      rewrite <- (app_nil_r (replicate _ _)), last_of_announcements by done; split_and!; auto.
Qed.

#[export] Program Instance boot_announcer : Announcer boot :=
  { dev_quiet := fun b => b_out b = [] /\ 0 <= b_next b <= PERIOD; dev_next := b_next; dev_version := fun _ => zrep 16 65 }.
Next Obligation. by intros d []. Qed.
Next Obligation. intros d. apply Forall_replicate. lia. Qed.
Next Obligation.
  intros ms d [Hq Hn] Hms. cbn [dev_pump boot_transport]. unfold boot_pump. rewrite Hq, app_nil_r. cbn [dev_carry boot_bootloader].
  pose proof (Z.div_mod (ms - b_next d + (PERIOD - 1)) PERIOD) as Hdm.
  pose proof (Z.mod_pos_bound (ms - b_next d + (PERIOD - 1)) PERIOD) as Hmod. unfold PERIOD in *.
  split; [|exists (replicate (Z.to_nat (due d ms)) announcement); split; [apply arrive_whole, announcements_buildable|split]].
  - split_and!; try done; cbn [b_next]; unfold due, PERIOD in *; lia.
  - cbn [b_next]. unfold due, PERIOD in *. destruct (Z.leb_spec ((ms - b_next d + (200 - 1)) / 200) 0); [right; lia|].
    left. exists (zrep 32 65). apply elem_of_replicate. split; [done|]. lia.
  - apply Forall_replicate. reflexivity.
Qed.
Next Obligation.
  intros d want f Hq _ [Hb ->]%build_iff.
  pose proof (take_noise_frame [] _ _ [] Hb eq_refl) as Htake.
  cbn [app] in Htake. rewrite app_nil_r in Htake.
  cbn [dev_send boot_transport]. unfold boot_send. by rewrite Htake.
Qed.

(** ** Properties *)

Lemma stamp_range now : 0 <= Z.land now 0xFFFFFFFF < 2 ^ 32.
Proof. change 0xFFFFFFFF with (Z.ones 32). rewrite Z.land_ones by lia. apply Z.mod_pos_bound. lia. Qed.

Lemma zrange_u16 n : n <= 65535 -> Forall (fun i => 0 <= i < 65536) (zrange n).
Proof. intros. apply Forall_forall. intros i Hi%elem_of_zrange. lia. Qed.

(** Programming against a bootloader that loses at most two requests or
    replies in a row succeeds with the three attempts per page the code
    makes: every page is counted, the bootloader's flash holds exactly the
    pages of the image, those pages put together are the image, and nothing
    else in the flash is touched. *)
Theorem program_writes_image {D} `{Bootloader D} image now (d : D) :
  zlen image <= 65535 * PAGE_SIZE -> (dev_drops d <= 2)%nat ->
  exists d', program image None 3 now (Flasher (dev_carry d) d)
      = Ok (page_count image None, Flasher (dev_carry d') d') /\ dev_hellos d' = dev_hellos d /\
    (forall i, dev_pages d' !! i =
       if decide (0 <= i < page_count image None) then Some (page_at image i)
       else dev_pages d !! i) /\
    concat (map (page_at image) (zrange (page_count image None))) = image.
Proof.
  intros Hlen Hd. unfold program. unfold PAGE_SIZE in Hlen.
  pose proof (page_count_bound image) as Hn. unfold PAGE_SIZE in Hn.
  set (n := page_count image None) in *.
  destruct (program_pages image (Z.land now 0xFFFFFFFF) n 3 (zrange n)) with (written := 0) (d := d)
    as (d' & -> & Hh & Hp); [apply stamp_range|lia|lia|apply zrange_u16; lia|done|].
  exists d'. rewrite zlen_zrange by lia. split_and!; [done|done| |].
  - intros i. rewrite Hp, lookup_foldl_pages.
    destruct (decide (i ∈ zrange n)) as [Hi|Hi]; rewrite elem_of_zrange in Hi;
      [by rewrite decide_True|by rewrite decide_False].
  - replace n with (Z.of_nat (Z.to_nat n)) by lia. rewrite concat_pages.
    apply slice_all. unfold PAGE_SIZE. lia.
Qed.

Lemma program_writes_image_witness :
  let image := zrep 300 7 in
  let d := Boot ∅ [] [LostReply; Acked; LostRequest; LostRequest] 2 130 [] in
  zlen image <= 65535 * PAGE_SIZE /\
  exists d' : boot, program image None 3 1234 (Flasher [] d) = Ok (2, Flasher [] d') /\
    dev_pages d' !! 1 = Some (zrep 44 7).
Proof.
  split; [vm_compute; discriminate|].
  destruct (program_writes_image (zrep 300 7) 1234
              (Boot ∅ [] [LostReply; Acked; LostRequest; LostRequest] 2 130 [])) as (d' & H1 & _ & H2 & _).
  - vm_compute. discriminate.
  - vm_compute. auto.
  - exists d'. split; [exact H1|]. rewrite H2. reflexivity.
Defined.

Lemma attempt_page_silent {D} `{Transport D} retries index data (d : D) :
  (forall ms d, (dev_pump ms d).2 = []) -> 4 + zlen data < 65536 ->
  exists d', attempt_page retries index data (Flasher [] d) = Ok (false, Flasher [] d').
Proof.
  intros Hs Hl. revert d. induction retries as [|retries IH]; intros d; [by exists d|].
  cbn [attempt_page]. unfold send.
  assert (build MSG_PROG_FW data = Ok (frame MSG_PROG_FW data)) as ->.
  { apply build_iff. split; [|done]. unfold buildable, MSG_PROG_FW. lia. }
  cbn [mbind result_bind fl_buf fl_dev]. unfold pump. cbn [fl_buf fl_dev].
  specialize (Hs 1000 (dev_send d (frame MSG_PROG_FW data))).
  destruct (dev_pump _) as [d' bs]. cbn [snd] in Hs. subst bs. apply IH.
Qed.

Lemma program_page_silent {D} `{Transport D} image stamp total retries written (d : D) i :
  (forall ms d, (dev_pump ms d).2 = []) ->
  0 <= stamp < 2 ^ 32 -> 0 <= total < 65536 -> 0 <= i < 65536 ->
  program_page image stamp total retries (written, Flasher [] d) i
    = raise SystemExit "page %d never acknowledged" [i].
Proof.
  intros Hsil Hs Ht Hi. unfold program_page. fold (page_at image i).
  rewrite (page_message_ok _ _ _ _ Hs Hi Ht). cbn [mbind result_bind].
  match goal with |- context [attempt_page retries i ?data _] =>
    destruct (attempt_page_silent retries i data d Hsil) as [d' ->] end; [|done].
  pose proof (zlen_slice_le (i * PAGE_SIZE) ((i + 1) * PAGE_SIZE) image) as Hz.
  fold (page_at image i) in Hz. unfold PAGE_SIZE in Hz. unfold zlen, zrep in *.
  rewrite !length_app, !length_le_enc, length_replicate. lia.
Qed.

(** A line with nothing at the other end. *)
Definition deaf_transport : Transport unit :=
  {| dev_send := fun d _ => d; dev_pump := fun _ d => (d, []) |}.

(** A device that never sends anything back is given up on after the
    attempts at the first page: programming a non-empty image raises
    SystemExit naming page 0. *)
Theorem program_unresponsive {D} `{Transport D} image retries now (d : D) :
  (forall ms d, (dev_pump ms d).2 = []) ->
  0 < zlen image <= 65535 * PAGE_SIZE ->
  program image None retries now (Flasher [] d)
    = raise SystemExit "page %d never acknowledged" [0].
Proof.
  intros Hsilent Hlen. unfold program. pose proof (page_count_bound image) as Hn.
  unfold PAGE_SIZE in *. set (n := page_count image None) in *.
  assert (zrange n = 0 :: map Z.of_nat (seq 1 (Z.to_nat n - 1))) as ->.
  { unfold zrange. replace (Z.to_nat n) with (S (Z.to_nat n - 1)) at 1 by lia. done. }
  cbn [foldM]. rewrite (program_page_silent _ _ _ _ _ _ _ Hsilent); [done|apply stamp_range|lia..].
Qed.

Lemma program_unresponsive_witness :
  (forall ms (d : unit), (@dev_pump _ deaf_transport ms d).2 = []) /\
  @program _ deaf_transport (zrep 10 1) None 3 7 (Flasher [] tt)
    = raise SystemExit "page %d never acknowledged" [0].
Proof.
  split; [done|]. apply (@program_unresponsive _ deaf_transport); [done|].
  vm_compute. split; [done|discriminate].
Defined.
