(* ===== verification/Slots.v ===== *)
(** The external-flash firmware slots of [src/tools/uvk5_slots.py], on the
    bytes of a flash image: slot addressing, the FMB1 header, writing,
    erasing and reading a slot, the two active-state sectors, and the builder.
    An abstract slot table is the specification, and the byte-level
    operations refine it. *)
From S2P Require Import Prelude Struct.

Definition SLOT_MAGIC : Z := 0x31424D46.
Definition HDR_VERSION : Z := 1.
Definition MB_FLAG_COMMITTED : Z := 1.
Definition SLOT_BACKUP_BASE : Z := 0x020000.
Definition SLOT_STRIDE : Z := 0x20000.
Definition SLOT_IMAGE_OFFSET : Z := 0x1000.
Definition SLOT_COUNT : Z := 5.
Definition SLOT_HEADER_SIZE : Z := 64.
Definition STATE_A_BASE : Z := 0x00100000.
Definition STATE_B_BASE : Z := 0x00101000.
Definition STATE_SIZE : Z := 24.

Definition slot_base (slot : Z) : result Z :=
  if slot =? 0 then Ok SLOT_BACKUP_BASE
  else if (1 <=? slot) && (slot <? SLOT_COUNT) then Ok (SLOT_BACKUP_BASE + slot * SLOT_STRIDE)
  else raise ValueError "slot %r out of range (0..%d)" [slot; SLOT_COUNT - 1].

(** [text.encode("ascii", "replace")[:15].ljust(16, b"\x00")]. *)
Definition text_field (text : list Z) : list Z := ljust 16 (take 15 (encode_replace text)).

Definition build_header (image name fw_version : list Z) : result (list Z) :=
  if SLOT_STRIDE - SLOT_IMAGE_OFFSET <? zlen image
  then raise ValueError "image is %d bytes; a slot holds %d"
         [zlen image; SLOT_STRIDE - SLOT_IMAGE_OFFSET]
  else
    pack [fI; fH; fH; fI; fI; FStr 16; FStr 16; FStr 16]
      (SLOT_MAGIC, (HDR_VERSION, (MB_FLAG_COMMITTED, (zlen image,
        (Z.land (crc32 image) 0xFFFFFFFF,
          (text_field name, (text_field fw_version, (zrep 16 0, tt)))))))).

Definition write_slot (buf : list Z) (slot : Z) (image name fw_version : list Z)
  : result (list Z) :=
  base ← slot_base slot;
  header ← build_header image name fw_version;
  let buf := set_slice base (base + SLOT_HEADER_SIZE) header buf in
  let start := base + SLOT_IMAGE_OFFSET in
  Ok (set_slice start (start + zlen image) image buf).

Definition erase_slot (buf : list Z) (slot : Z) : result (list Z) :=
  base ← slot_base slot;
  Ok (set_slice base (base + SLOT_STRIDE) (zrep SLOT_STRIDE 0xff) buf).

(** The header dictionary [read_slot] returns. *)
Record slot_header := SlotHeader {
  sh_slot : Z;
  sh_base : Z;
  sh_hdr_version : Z;
  sh_flags : Z;
  sh_image_size : Z;
  sh_image_crc32 : Z;
  sh_crc_ok : bool;
  sh_name : list Z;
  sh_fw_version : list Z
}.

(** [None] is the pair [(None, None)] of a slot that is not committed. *)
Definition read_slot (buf : list Z) (slot : Z) : result (option (slot_header * list Z)) :=
  base ← slot_base slot;
  '(magic, (ver, (flags, (size, (crc, _))))) ← unpack_from [fI; fH; fH; fI; fI] buf base;
  if negb (magic =? SLOT_MAGIC) || (Z.land flags MB_FLAG_COMMITTED =? 0) then Ok None
  else
    let name := decode_replace (until_nul (slice (base + 16) (base + 32) buf)) in
    let fw := decode_replace (until_nul (slice (base + 32) (base + 48) buf)) in
    let image := slice (base + SLOT_IMAGE_OFFSET) (base + SLOT_IMAGE_OFFSET + size) buf in
    Ok (Some (SlotHeader slot base ver flags size crc
                (Z.land (crc32 image) 0xFFFFFFFF =? crc) name fw, image)).

Definition erase_state (buf : list Z) : list Z :=
  let buf := set_slice STATE_A_BASE (STATE_A_BASE + STATE_SIZE) (zrep STATE_SIZE 0xff) buf in
  set_slice STATE_B_BASE (STATE_B_BASE + STATE_SIZE) (zrep STATE_SIZE 0xff) buf.

(** [build], between reading its files and writing the result: the entries
    are (slot, image bytes, name, version). *)
Definition build_image (base_image : list Z) (slots : list (Z * list Z * list Z * list Z))
    (erase_state_sectors : bool) : result (list Z) :=
  buf ← foldM (fun buf '(slot, image, name, version) =>
                 write_slot buf slot image name version) base_image slots;
  Ok (if erase_state_sectors then erase_state buf else buf).

(** The headers [describe] and [slots_json] print, slot by slot. *)
Definition slot_table (buf : list Z) : result (list (Z * option slot_header)) :=
  foldM (fun rows slot =>
           r ← read_slot buf slot; Ok (rows ++ [(slot, fst <$> r)])) []
        [0; 1; 2; 3; 4].

(** ** Addresses and headers *)

Lemma slot_base_iff slot base :
  slot_base slot = Ok base <->
  0 <= slot < SLOT_COUNT /\ base = SLOT_BACKUP_BASE + slot * SLOT_STRIDE.
Proof.
  unfold slot_base, raise, SLOT_COUNT, SLOT_BACKUP_BASE, SLOT_STRIDE.
  destruct (Z.eqb_spec slot 0); [naive_solver lia|].
  destruct (Z.leb_spec 1 slot), (Z.ltb_spec slot 5); cbn [andb]; naive_solver lia.
Qed.

Lemma zlen_text_field text : zlen (text_field text) = 16.
Proof.
  unfold text_field. apply zlen_ljust. unfold zlen. rewrite length_take. lia.
Qed.

(** The first sixteen bytes of a header, which [read_slot] unpacks. *)
Definition head (image : list Z) : list Z :=
  le_enc 4 SLOT_MAGIC ++ le_enc 2 HDR_VERSION ++ le_enc 2 MB_FLAG_COMMITTED ++
  le_enc 4 (zlen image) ++ le_enc 4 (Z.land (crc32 image) 0xFFFFFFFF).

Definition header (image name fw_version : list Z) : list Z :=
  head image ++ text_field name ++ text_field fw_version ++ zrep 16 0.

Lemma zlen_head image : zlen (head image) = 16.
Proof. unfold head, zlen. rewrite !length_app, !length_le_enc. done. Qed.

Lemma zlen_header image name fw_version : zlen (header image name fw_version) = 64.
Proof.
  unfold header. rewrite !zlen_app, zlen_head, !zlen_text_field, zlen_rep by lia. done.
Qed.

Lemma land_u32 x : 0 <= Z.land x 0xFFFFFFFF < 256 ^ Z.of_nat 4.
Proof.
  change 0xFFFFFFFF with (Z.ones 32). rewrite Z.land_ones by lia. apply Z.mod_pos_bound. lia.
Qed.

Lemma pack_str16 (s : list Z) fs (vs : fvals fs) h :
  zlen s = 16 -> pack fs vs = Ok h -> pack (FStr 16 :: fs) (s, vs) = Ok (s ++ h).
Proof.
  intros Hs Hp. apply pack_cons_iff. exists s, h. split; [|done].
  cbn [pack1]. unfold zlen in Hs. rewrite take_ge by lia. unfold ljust, zlen, zrep.
  rewrite Hs. f_equal. apply app_nil_r.
Qed.

Lemma pack_head image fs (vs : fvals fs) h :
  zlen image <= SLOT_STRIDE - SLOT_IMAGE_OFFSET -> pack fs vs = Ok h ->
  pack (fI :: fH :: fH :: fI :: fI :: fs)
    (SLOT_MAGIC, (HDR_VERSION, (MB_FLAG_COMMITTED, (zlen image,
       (Z.land (crc32 image) 0xFFFFFFFF, vs))))) = Ok (head image ++ h).
Proof.
  intros Hl Hp. unfold SLOT_STRIDE, SLOT_IMAGE_OFFSET in Hl. pose proof (zlen_nonneg image).
  unfold head. rewrite <- !app_assoc.
  repeat apply pack_cons_int; [range_tac|range_tac|range_tac| |apply land_u32|done].
  change (256 ^ Z.of_nat 4) with 4294967296. lia.
Qed.

Lemma build_header_iff image name fw_version h :
  build_header image name fw_version = Ok h <->
  zlen image <= SLOT_STRIDE - SLOT_IMAGE_OFFSET /\ h = header image name fw_version.
Proof.
  unfold build_header. destruct (Z.ltb_spec (SLOT_STRIDE - SLOT_IMAGE_OFFSET) (zlen image)).
  - unfold raise. naive_solver lia.
  - match goal with |- pack ?fs ?v = _ <-> _ =>
      assert (pack fs v = Ok (header image name fw_version)) as -> end; [|naive_solver].
    unfold header. apply pack_head; [done|].
    apply pack_str16; [apply zlen_text_field|]. apply pack_str16; [apply zlen_text_field|].
    rewrite <- (app_nil_r (zrep 16 0)). by apply pack_str16.
Qed.

(** What [write_slot] leaves behind, on a buffer the slot fits in. *)
Lemma write_slot_iff buf slot image name fw_version buf' :
  write_slot buf slot image name fw_version = Ok buf' <->
  exists base, slot_base slot = Ok base /\
    zlen image <= SLOT_STRIDE - SLOT_IMAGE_OFFSET /\
    buf' = set_slice (base + SLOT_IMAGE_OFFSET) (base + SLOT_IMAGE_OFFSET + zlen image) image
             (set_slice base (base + SLOT_HEADER_SIZE) (header image name fw_version) buf).
Proof.
  unfold write_slot. rewrite bind_ok. setoid_rewrite bind_ok. setoid_rewrite build_header_iff.
  naive_solver.
Qed.

(** ** What lies outside a slot *)

Definition slot_end (base : Z) : Z := base + SLOT_STRIDE.

Ltac unfold_layout :=
  unfold slot_end, SLOT_STRIDE, SLOT_IMAGE_OFFSET, SLOT_HEADER_SIZE, SLOT_BACKUP_BASE,
    SLOT_COUNT, STATE_A_BASE, STATE_B_BASE, STATE_SIZE in *.

Lemma write_slot_outside buf slot image name fw_version buf' base a b :
  slot_base slot = Ok base -> write_slot buf slot image name fw_version = Ok buf' ->
  slot_end base <= zlen buf -> 0 <= a -> b <= base \/ slot_end base <= a ->
  zlen buf' = zlen buf /\ slice a b buf' = slice a b buf.
Proof.
  intros Hb Hw Hlen Ha Hab. apply write_slot_iff in Hw as (base' & Hb' & Hl & ->).
  rewrite Hb in Hb'. injection Hb' as <-. apply slot_base_iff in Hb as [Hs ->].
  pose proof (zlen_header image name fw_version). pose proof (zlen_nonneg image).
  unfold_layout.
  assert (zlen (set_slice (0x020000 + slot * 0x20000) (0x020000 + slot * 0x20000 + 64)
                  (header image name fw_version) buf) = zlen buf) as Hz
    by (apply zlen_set_slice; lia).
  split; [by rewrite zlen_set_slice by lia|].
  rewrite slice_set_slice_disjoint by lia. by rewrite slice_set_slice_disjoint by lia.
Qed.

Lemma erase_slot_outside buf slot buf' base a b :
  slot_base slot = Ok base -> erase_slot buf slot = Ok buf' ->
  slot_end base <= zlen buf -> 0 <= a -> b <= base \/ slot_end base <= a ->
  zlen buf' = zlen buf /\ slice a b buf' = slice a b buf.
Proof.
  intros Hb He Hlen Ha Hab. unfold erase_slot in He. rewrite Hb in He. injection He as <-.
  apply slot_base_iff in Hb as [Hs ->]. unfold_layout.
  split; [apply zlen_set_slice|apply slice_set_slice_disjoint]; rewrite ?zlen_rep; lia.
Qed.

(** ** Reading *)

(** The text a header stores for [text]: truncated to fifteen characters,
    cut at the first NUL. *)
Definition stored_text (text : list Z) : list Z :=
  decode_replace (until_nul (take 15 (encode_replace text))).

Lemma until_nul_zrep s n : until_nul (s ++ zrep n 0) = until_nul s.
Proof.
  induction s as [|c s IH]; simpl.
  - unfold zrep. by destruct (Z.to_nat n).
  - destruct (c =? 0); [done|]. by rewrite IH.
Qed.

Lemma text_field_stored text : decode_replace (until_nul (text_field text)) = stored_text text.
Proof. unfold text_field, stored_text, ljust. by rewrite until_nul_zrep. Qed.

Lemma stored_text_ascii text : ascii_text text -> zlen text <= 15 -> stored_text text = text.
Proof.
  intros Ha Hl. unfold stored_text. rewrite encode_replace_ascii by done.
  rewrite take_ge by (unfold zlen in Hl; lia).
  rewrite <- (until_nul_zrep text 1).
  rewrite until_nul_app by (auto with uvk5; lia). by apply decode_replace_ascii.
Qed.

(** [read_slot] looks only at its slot's header and at the bytes the header
    claims as the image. *)
Lemma read_slot_ext buf buf' slot base :
  slot_base slot = Ok base ->
  base + 16 <= zlen buf -> base + 16 <= zlen buf' ->
  slice base (base + 48) buf = slice base (base + 48) buf' ->
  (forall image h, read_slot buf slot = Ok (Some (h, image)) ->
     slice (base + SLOT_IMAGE_OFFSET) (base + SLOT_IMAGE_OFFSET + sh_image_size h) buf =
     slice (base + SLOT_IMAGE_OFFSET) (base + SLOT_IMAGE_OFFSET + sh_image_size h) buf') ->
  read_slot buf slot = read_slot buf' slot.
Proof.
  intros Hb Hl Hl' Hh Hi.
  assert (0 <= base) as Hbase.
  { apply slot_base_iff in Hb as [? ->]. unfold_layout. lia. }
  assert (forall i j, 0 <= i -> i <= j <= 48 -> slice (base + i) (base + j) buf = slice (base + i) (base + j) buf')
    as Hsub.
  { intros i j Hi0 Hij. rewrite <- (slice_slice i j base (base + 48)) by lia.
    rewrite Hh. by rewrite slice_slice by lia. }
  unfold read_slot in *. rewrite Hb in *. cbn [mbind result_bind] in *.
  unfold unpack_from in *. change (calcsize [fI; fH; fH; fI; fI]) with 16 in *.
  rewrite (proj2 (Z.leb_le _ _)) in Hi |- * by lia.
  rewrite (proj2 (Z.leb_le _ _)) by lia. cbn [mbind result_bind] in *.
  pose proof (Hsub 0 16 ltac:(lia) ltac:(lia)) as H16. rewrite Z.add_0_r in H16.
  rewrite <- H16, <- (Hsub 16 32), <- (Hsub 32 48) by lia.
  destruct (unpack _ _) as (magic & ver & flags & size & crc & []).
  destruct (negb (magic =? SLOT_MAGIC) || (Z.land flags MB_FLAG_COMMITTED =? 0)); [done|].
  specialize (Hi _ _ eq_refl). cbn [sh_image_size] in Hi. rewrite <- Hi. done. 
Qed.

Lemma unpack_head image :
  zlen image <= SLOT_STRIDE - SLOT_IMAGE_OFFSET ->
  unpack [fI; fH; fH; fI; fI] (head image) =
    (SLOT_MAGIC, (HDR_VERSION, (MB_FLAG_COMMITTED, (zlen image,
       (Z.land (crc32 image) 0xFFFFFFFF, tt))))).
Proof.
  intros Hl. apply unpack_pack.
  - pose proof (zlen_nonneg image). unfold_layout. cbn [fits fits1 fst snd].
    change (256 ^ Z.of_nat 4) with 4294967296. change (256 ^ Z.of_nat 2) with 65536.
    pose proof (land_u32 (crc32 image)) as Hc. change (256 ^ Z.of_nat 4) with 4294967296 in Hc.
    split_and!; try done; lia.
  - rewrite <- (app_nil_r (head image)). by apply (pack_head image [] tt []).
Qed.

(** The fields of a built header. *)
Lemma header_fields image name fw_version :
  slice 0 16 (header image name fw_version) = head image /\
  slice 16 32 (header image name fw_version) = text_field name /\
  slice 32 48 (header image name fw_version) = text_field fw_version.
Proof.
  unfold header. split; [apply slice_0_app; by rewrite zlen_head|].
  rewrite !(slice_app_r _ _ (head image)) by (rewrite zlen_head; lia). rewrite zlen_head.
  split; [apply slice_0_app; by rewrite zlen_text_field|].
  rewrite slice_app_r by (rewrite zlen_text_field; lia). rewrite zlen_text_field.
  apply slice_0_app. by rewrite zlen_text_field.
Qed.

Definition written_header (slot base : Z) (image name fw_version : list Z) : slot_header :=
  SlotHeader slot base HDR_VERSION MB_FLAG_COMMITTED (zlen image)
    (Z.land (crc32 image) 0xFFFFFFFF) true (stored_text name) (stored_text fw_version).

Lemma read_written buf slot image name fw_version buf' base :
  slot_base slot = Ok base -> write_slot buf slot image name fw_version = Ok buf' ->
  slot_end base <= zlen buf ->
  read_slot buf' slot = Ok (Some (written_header slot base image name fw_version, image)).
Proof.
  intros Hb Hw Hlen. apply write_slot_iff in Hw as (base' & Hb' & Hl & ->).
  rewrite Hb in Hb'. injection Hb' as <-.
  unfold read_slot. rewrite Hb. cbn [mbind result_bind].
  pose proof (zlen_header image name fw_version) as Hh. pose proof (zlen_nonneg image) as Hi.
  assert (0 <= base) as Hbase by (apply slot_base_iff in Hb as [? ->]; unfold_layout; lia).
  clear Hb.
  destruct (header_fields image name fw_version) as (E1 & E2 & E3).
  set (h := header image name fw_version) in *.
  set (b1 := set_slice base (base + SLOT_HEADER_SIZE) h buf).
  assert (zlen b1 = zlen buf) as Hz1 by (apply zlen_set_slice; unfold_layout; lia).
  assert (forall i j, 0 <= i -> i <= j <= 64 ->
    slice (base + i) (base + j) (set_slice (base + SLOT_IMAGE_OFFSET)
      (base + SLOT_IMAGE_OFFSET + zlen image) image b1) = slice i j h) as Hs.
  { intros i j Hi0 Hij. rewrite slice_set_slice_disjoint by (unfold_layout; lia).
    unfold b1. rewrite slice_set_slice_inside by (unfold_layout; lia). f_equal; lia. }
  unfold unpack_from. change (calcsize [fI; fH; fH; fI; fI]) with 16.
  rewrite (proj2 (Z.leb_le _ _)) by (rewrite zlen_set_slice; unfold_layout; lia).
  pose proof (Hs 0 16 ltac:(lia) ltac:(lia)) as H16. rewrite Z.add_0_r in H16. rewrite H16.
  rewrite (Hs 16 32), (Hs 32 48) by lia.
  rewrite E1, E2, E3.
  rewrite (unpack_head image Hl). cbn [mbind result_bind].
  rewrite Z.eqb_refl. change (Z.land MB_FLAG_COMMITTED MB_FLAG_COMMITTED =? 0) with false.
  cbn [negb orb]. rewrite slice_set_slice_same by (unfold_layout; lia).
  rewrite Z.eqb_refl, !text_field_stored. done.
Qed.

Lemma read_erased buf slot buf' base :
  slot_base slot = Ok base -> erase_slot buf slot = Ok buf' ->
  slot_end base <= zlen buf -> read_slot buf' slot = Ok None.
Proof.
  intros Hb He Hlen. unfold erase_slot in He. rewrite Hb in He. injection He as <-.
  unfold read_slot. rewrite Hb. cbn [mbind result_bind].
  apply slot_base_iff in Hb as [Hs Hb]. unfold_layout.
  unfold unpack_from. change (calcsize [fI; fH; fH; fI; fI]) with 16.
  rewrite (proj2 (Z.leb_le _ _)) by (rewrite zlen_set_slice; rewrite ?zlen_rep; lia).
  assert (slice base (base + 16) (set_slice base (base + 131072) (zrep 131072 255) buf)
            = zrep 16 255) as ->; [|done].
  rewrite slice_set_slice_inside by (rewrite ?zlen_rep; lia).
  rewrite slice_zrep by lia. f_equal. lia.
Qed.

(** ** The abstract slot table *)

(** What the radio's slots hold: for a committed slot, every field of its
    header, and its image. *)
Record content := Content { ct_header : slot_header; ct_image : list Z }.
Definition ct_name (c : content) : list Z := sh_name (ct_header c).
Definition ct_version (c : content) : list Z := sh_fw_version (ct_header c).

Definition content_of (r : option (slot_header * list Z)) : option content :=
  '(h, image) ← r; Some (Content h image).

(** What a write puts in a slot: this version of the header, committed, the
    image's size and CRC-32, and the name and version as stored. *)
Definition written (slot : Z) (image name fw_version : list Z) : content :=
  Content (written_header slot (SLOT_BACKUP_BASE + slot * SLOT_STRIDE) image name fw_version) image.

(** [represents buf m]: the flash reaches past the state sectors, and every
    slot of [buf] reads as [m] says, its claimed size within the slot. *)
Definition represents (buf : list Z) (m : gmap Z content) : Prop :=
  STATE_B_BASE + STATE_SIZE <= zlen buf /\
  forall slot, 0 <= slot < SLOT_COUNT ->
    exists r, read_slot buf slot = Ok r /\ content_of r = m !! slot /\
      forall h image, r = Some (h, image) ->
        0 <= sh_image_size h <= SLOT_STRIDE - SLOT_IMAGE_OFFSET.

Inductive slot_op :=
| OpWrite (slot : Z) (image name fw_version : list Z)
| OpErase (slot : Z)
| OpEraseState.

Definition run_op (buf : list Z) (op : slot_op) : result (list Z) :=
  match op with
  | OpWrite slot image name fw_version => write_slot buf slot image name fw_version
  | OpErase slot => erase_slot buf slot
  | OpEraseState => Ok (erase_state buf)
  end.

(** When the specification accepts an operation, and its effect. *)
Definition op_ok (op : slot_op) : bool :=
  match op with
  | OpWrite slot image _ _ =>
      (0 <=? slot) && (slot <? SLOT_COUNT) && (zlen image <=? SLOT_STRIDE - SLOT_IMAGE_OFFSET)
  | OpErase slot => (0 <=? slot) && (slot <? SLOT_COUNT)
  | OpEraseState => true
  end.

Definition spec_op (m : gmap Z content) (op : slot_op) : gmap Z content :=
  match op with
  | OpWrite slot image name fw_version =>
      <[slot := written slot image name fw_version]> m
  | OpErase slot => delete slot m
  | OpEraseState => m
  end.

(** A slot outside the bytes an operation changes reads as before. *)
Lemma represents_read buf buf' m slot lo hi :
  represents buf m -> 0 <= slot < SLOT_COUNT -> zlen buf' = zlen buf ->
  (forall a b, 0 <= a -> b <= lo \/ hi <= a -> slice a b buf' = slice a b buf) ->
  SLOT_BACKUP_BASE + slot * SLOT_STRIDE + SLOT_STRIDE <= lo \/
    hi <= SLOT_BACKUP_BASE + slot * SLOT_STRIDE ->
  read_slot buf' slot = read_slot buf slot.
Proof.
  intros [Hlen Hm] Hs Hz Hout Hfar. destruct (Hm slot Hs) as (r & Hr & _ & Hsz).
  symmetry. eapply read_slot_ext; [by apply slot_base_iff|..]; unfold_layout; [lia|lia| |].
  - symmetry. apply Hout; lia.
  - intros image h Hread. rewrite Hr in Hread. injection Hread as ->.
    specialize (Hsz h image eq_refl). symmetry. apply Hout; lia.
Qed.

Lemma erase_state_outside buf a b :
  STATE_B_BASE + STATE_SIZE <= zlen buf -> 0 <= a ->
  b <= STATE_A_BASE \/ STATE_B_BASE + STATE_SIZE <= a ->
  zlen (erase_state buf) = zlen buf /\ slice a b (erase_state buf) = slice a b buf.
Proof.
  intros Hl Ha Hab. unfold erase_state. unfold_layout.
  assert (forall x, 0 <= x -> x + 24 <= zlen buf ->
            zlen (set_slice x (x + 24) (zrep 24 255) buf) = zlen buf) as Hz.
  { intros. apply zlen_set_slice; rewrite ?zlen_rep; lia. }
  split.
  - rewrite zlen_set_slice; rewrite ?zlen_rep, ?Hz; lia.
  - rewrite slice_set_slice_disjoint; rewrite ?zlen_rep, ?Hz; try lia.
    apply slice_set_slice_disjoint; rewrite ?zlen_rep; lia.
Qed.

(** ** Each operation implements its specification *)

Lemma slot_base_ok slot :
  0 <= slot < SLOT_COUNT -> slot_base slot = Ok (SLOT_BACKUP_BASE + slot * SLOT_STRIDE).
Proof. intros. by apply slot_base_iff. Qed.

Lemma slot_base_err slot :
  ~ 0 <= slot < SLOT_COUNT ->
  slot_base slot = raise ValueError "slot %r out of range (0..%d)" [slot; SLOT_COUNT - 1].
Proof.
  intros Hs. destruct (slot_base slot) eqn:E; [by apply slot_base_iff in E as [? ?]|].
  rewrite <- E. unfold slot_base in *. destruct (slot =? 0); [done|].
  by destruct ((1 <=? slot) && (slot <? SLOT_COUNT)).
Qed.

(** An operation on one slot that leaves the rest of the flash alone turns
    the table as [m'] says if it does so at that slot. *)
Lemma represents_update buf buf' m m' slot :
  represents buf m -> 0 <= slot < SLOT_COUNT -> zlen buf' = zlen buf ->
  (forall a b, 0 <= a ->
     b <= SLOT_BACKUP_BASE + slot * SLOT_STRIDE \/
     SLOT_BACKUP_BASE + slot * SLOT_STRIDE + SLOT_STRIDE <= a ->
     slice a b buf' = slice a b buf) ->
  (exists r, read_slot buf' slot = Ok r /\ content_of r = m' !! slot /\
     forall h image, r = Some (h, image) ->
       0 <= sh_image_size h <= SLOT_STRIDE - SLOT_IMAGE_OFFSET) ->
  (forall slot', slot' <> slot -> m' !! slot' = m !! slot') ->
  represents buf' m'.
Proof.
  intros Hm Hs Hz Hout Hthis Hother. split; [rewrite Hz; apply Hm|].
  intros slot' Hs'. destruct (decide (slot' = slot)) as [->|Hne]; [done|].
  rewrite (Hother slot' Hne).
  erewrite represents_read; [by apply Hm|done|done|done|exact Hout|].
  unfold_layout. lia.
Qed.

Lemma write_slot_ok buf slot image name fw_version :
  0 <= slot < SLOT_COUNT -> zlen image <= SLOT_STRIDE - SLOT_IMAGE_OFFSET ->
  exists buf', write_slot buf slot image name fw_version = Ok buf'.
Proof.
  intros Hs Hl. eexists. apply write_slot_iff. eexists. split; [by apply slot_base_ok|done].
Qed.

Lemma write_represents buf m slot image name fw_version :
  represents buf m -> 0 <= slot < SLOT_COUNT ->
  zlen image <= SLOT_STRIDE - SLOT_IMAGE_OFFSET ->
  exists buf', write_slot buf slot image name fw_version = Ok buf' /\
    represents buf' (<[slot := written slot image name fw_version]> m).
Proof.
  intros Hm Hs Hl. pose proof (slot_base_ok slot Hs) as Hb.
  destruct (write_slot_ok buf slot image name fw_version Hs Hl) as [buf' Hw].
  exists buf'. split; [done|].
  assert (slot_end (SLOT_BACKUP_BASE + slot * SLOT_STRIDE) <= zlen buf) as Hfit
    by (destruct Hm as [? _]; unfold_layout; lia).
  eapply represents_update; [done|done| | | |].
  - eapply (write_slot_outside _ _ _ _ _ _ _ 0 0); [done|done|done|lia|unfold_layout; lia].
  - intros a b Ha Hab. by eapply write_slot_outside.
  - eexists. split; [by eapply read_written|]. split.
    + by rewrite lookup_insert_eq.
    + intros h im [= <- <-]. cbn. pose proof (zlen_nonneg image). lia.
  - intros slot' Hne. by rewrite lookup_insert_ne.
Qed.

Lemma erase_represents buf m slot :
  represents buf m -> 0 <= slot < SLOT_COUNT ->
  exists buf', erase_slot buf slot = Ok buf' /\ represents buf' (delete slot m).
Proof.
  intros Hm Hs. pose proof (slot_base_ok slot Hs) as Hb.
  destruct (erase_slot buf slot) as [buf'|e] eqn:He;
    [|unfold erase_slot in He; by rewrite Hb in He].
  exists buf'. split; [done|].
  assert (slot_end (SLOT_BACKUP_BASE + slot * SLOT_STRIDE) <= zlen buf) as Hfit
    by (destruct Hm as [? _]; unfold_layout; lia).
  eapply represents_update; [done|done| | | |].
  - eapply (erase_slot_outside _ _ _ _ 0 0); [done|done|done|lia|unfold_layout; lia].
  - intros a b Ha Hab. by eapply erase_slot_outside.
  - exists None. split; [by eapply read_erased|]. by rewrite lookup_delete_eq.
  - intros slot' Hne. by rewrite lookup_delete_ne.
Qed.

Lemma erase_state_represents buf m : represents buf m -> represents (erase_state buf) m.
Proof.
  intros Hm. pose proof Hm as [Hl Hr].
  assert (zlen (erase_state buf) = zlen buf) as Hz
    by (eapply (erase_state_outside buf 0 0); unfold_layout; lia).
  split; [by rewrite Hz|]. intros slot Hs.
  erewrite represents_read; [by apply Hr|done|done|done| |].
  - intros a b Ha Hab. by apply erase_state_outside.
  - unfold_layout. lia.
Qed.

(** What every slot reads as after a write, and after the state sectors are
    erased. *)
Lemma write_reads buf m slot image name fw_version buf' s :
  represents buf m -> 0 <= slot < SLOT_COUNT -> write_slot buf slot image name fw_version = Ok buf' ->
  0 <= s < SLOT_COUNT ->
  read_slot buf' s =
    if decide (s = slot)
    then Ok (Some (written_header slot (SLOT_BACKUP_BASE + slot * SLOT_STRIDE) image name fw_version, image))
    else read_slot buf s.
Proof.
  intros Hm Hs Hw Hr. pose proof (slot_base_ok slot Hs) as Hb.
  assert (slot_end (SLOT_BACKUP_BASE + slot * SLOT_STRIDE) <= zlen buf) as Hfit
    by (destruct Hm as [? _]; unfold_layout; lia).
  case_decide as E; [subst s; by eapply read_written|].
  eapply (represents_read buf buf' m s (SLOT_BACKUP_BASE + slot * SLOT_STRIDE)); [done|done| | |].
  - eapply (write_slot_outside _ _ _ _ _ _ _ 0 0); [done|done|done|lia|unfold_layout; lia].
  - intros a b Ha Hab. eapply write_slot_outside; [done|done|done|done|exact Hab].
  - unfold_layout. lia.
Qed.

Lemma erase_state_reads buf m s :
  represents buf m -> 0 <= s < SLOT_COUNT -> read_slot (erase_state buf) s = read_slot buf s.
Proof.
  intros Hm Hs. pose proof Hm as [Hl _].
  eapply (represents_read _ _ m s STATE_A_BASE (STATE_B_BASE + STATE_SIZE)); [done|done| | |].
  - eapply (erase_state_outside buf 0 0); unfold_layout; lia.
  - intros a b Ha Hab. by apply erase_state_outside.
  - unfold_layout. lia.
Qed.

(** ** Properties *)

Lemma op_refines buf m op :
  represents buf m ->
  match run_op buf op with
  | Ok buf' => op_ok op = true /\ represents buf' (spec_op m op)
  | Raise e => op_ok op = false /\ exn_cls e = ValueError
  end.
Proof.
  intros Hm. destruct op as [slot image name fw_version|slot|]; cbn [run_op op_ok spec_op].
  - destruct (decide (0 <= slot < SLOT_COUNT)) as [Hs|Hs].
    + destruct (Z.leb_spec (zlen image) (SLOT_STRIDE - SLOT_IMAGE_OFFSET)) as [Hl|Hl].
      * destruct (write_represents buf m slot image name fw_version Hm Hs Hl) as (b & -> & Hb).
        split; [|done]. unfold SLOT_COUNT in *. lia.
      * unfold write_slot. rewrite (slot_base_ok slot Hs). cbn [mbind result_bind].
        unfold build_header. rewrite (proj2 (Z.ltb_lt _ _)) by done.
        split; [|done]. by rewrite andb_false_r.
    + unfold write_slot. rewrite (slot_base_err slot Hs). split; [|done].
      unfold SLOT_COUNT in *. lia.
  - destruct (decide (0 <= slot < SLOT_COUNT)) as [Hs|Hs].
    + destruct (erase_represents buf m slot Hm Hs) as (b & -> & Hb).
      split; [|done]. unfold SLOT_COUNT in *. lia.
    + unfold erase_slot. rewrite (slot_base_err slot Hs). split; [|done].
      unfold SLOT_COUNT in *. lia.
  - split; [done|]. by apply erase_state_represents.
Qed.

(** C2. The byte-level slot operations implement the slot table: an
    operation raises ValueError exactly when its slot number is out of range
    or its image does not fit, and otherwise the new buffer represents the
    table with that slot replaced or removed and every other slot as it was.
    A slot's entry is all that reading it returns: header version, flags,
    size, CRC and whether it matches, name, version and image; a write puts
    version 1, committed, with the image's own CRC-32, which matches. *)
Theorem slot_ops_refine_table buf m op :
  represents buf m ->
  match run_op buf op with
  | Ok buf' => op_ok op = true /\ represents buf' (spec_op m op)
  | Raise e => op_ok op = false /\ exn_cls e = ValueError
  end.
Proof. apply op_refines. Qed.

(** An erased two-megabyte flash holds no slot. *)
Lemma represents_erased n : STATE_B_BASE + STATE_SIZE <= n -> represents (zrep n 0xff) ∅.
Proof.
  unfold_layout. intros Hn. split; [unfold_layout; rewrite zlen_rep; lia|].
  intros slot Hs. exists None. rewrite lookup_empty. split; [|done].
  unfold read_slot. rewrite (slot_base_ok slot Hs). cbn [mbind result_bind].
  unfold unpack_from. change (calcsize [fI; fH; fH; fI; fI]) with 16. unfold_layout.
  rewrite (proj2 (Z.leb_le _ _)) by (rewrite zlen_rep; lia).
  assert (slice (131072 + slot * 131072) (131072 + slot * 131072 + 16) (zrep n 255) = zrep 16 255)
    as ->; [|done].
  rewrite slice_zrep by lia. f_equal. lia.
Qed.

Lemma slot_ops_refine_table_witness :
  exists buf', write_slot (zrep 0x200000 0xff) 1 [1; 2; 3] (lit "a.bin") (lit "v6") = Ok buf' /\
    represents buf' (<[1 := Content (SlotHeader 1 0x40000 1 1 3 (crc32 [1; 2; 3]) true (lit "a.bin") (lit "v6")) [1; 2; 3]]> ∅).
Proof.
  pose proof (slot_ops_refine_table (zrep 0x200000 0xff) ∅
    (OpWrite 1 [1; 2; 3] (lit "a.bin") (lit "v6"))
    (represents_erased 0x200000 ltac:(vm_compute; discriminate))) as H.
  cbn [run_op] in H. destruct (write_slot _ _ _ _ _) as [buf'|e].
  - exists buf'. split; [reflexivity|]. exact (proj2 H).
  - destruct H as [H _]. vm_compute in H. discriminate.
Defined.

(** Writing a slot and reading it back returns the image byte for byte,
    committed, with a matching CRC and the stored name and version, which
    are the given ones when they are ASCII of at most fifteen characters. *)
Theorem write_read_slot buf slot image name fw_version buf' :
  0 <= slot < SLOT_COUNT -> SLOT_BACKUP_BASE + (slot + 1) * SLOT_STRIDE <= zlen buf ->
  ascii_text name -> zlen name <= 15 -> ascii_text fw_version -> zlen fw_version <= 15 ->
  write_slot buf slot image name fw_version = Ok buf' ->
  read_slot buf' slot =
    Ok (Some (SlotHeader slot (SLOT_BACKUP_BASE + slot * SLOT_STRIDE) HDR_VERSION
                MB_FLAG_COMMITTED (zlen image) (Z.land (crc32 image) 0xFFFFFFFF) true
                name fw_version, image)).
Proof.
  intros Hs Hl Hn1 Hn2 Hv1 Hv2 Hw.
  rewrite (read_written _ _ _ _ _ _ _ (slot_base_ok slot Hs) Hw) by (unfold_layout; lia).
  unfold written_header. by rewrite !stored_text_ascii.
Qed.

Lemma write_read_slot_witness :
  exists buf', write_slot (zrep 0x200000 0xff) 4 [9; 8] (lit "x.bin") [] = Ok buf' /\
    read_slot buf' 4 =
      Ok (Some (SlotHeader 4 0xA0000 1 1 2 (crc32 [9; 8]) true (lit "x.bin") [], [9; 8])).
Proof.
  destruct (write_slot_ok (zrep 0x200000 0xff) 4 [9; 8] (lit "x.bin") []) as [buf' E];
    [split; vm_compute; congruence|vm_compute; discriminate|].
  exists buf'. split; [exact E|].
  rewrite (write_read_slot (zrep 0x200000 0xff) 4 [9; 8] (lit "x.bin") [] buf');
    [reflexivity|split; vm_compute; congruence| |wf_tac|vm_compute; discriminate
    |wf_tac|vm_compute; discriminate|exact E].
  rewrite zlen_rep; vm_compute; discriminate.
Defined.
