(* ===== verification/SlotsSerial.v ===== *)
(** The slot commands over the serial link, [src/tools/uvk5_slots_serial.py]:
    the [Radio] client in a state and error monad over an abstract link.  The
    class [SlotRadio] states what the firmware's slot commands promise; the
    client is proved against it to leave in the radio's flash exactly what
    [Slots.write_slot] leaves in an image file, and a lossy radio discharges
    the class. *)
From S2P Require Import Prelude Struct SerialFlash Flasher Slots.

Definition MSG_SLOT_INFO : Z := 0x0720.
Definition MSG_SLOT_INFO_ACK : Z := 0x0721.
Definition MSG_APP_INFO : Z := 0x0730.
Definition MSG_APP_INFO_ACK : Z := 0x0731.
Definition MSG_SLOT_ERASE : Z := 0x0722.
Definition MSG_SLOT_ERASE_ACK : Z := 0x0723.
Definition MSG_SLOT_WRITE : Z := 0x0724.
Definition MSG_SLOT_WRITE_ACK : Z := 0x0725.
Definition MSG_SLOT_VALIDATE : Z := 0x0726.
Definition MSG_SLOT_VALIDATE_ACK : Z := 0x0727.
Definition MSG_SESSION : Z := 0x0514.
Definition MSG_SESSION_ACK : Z := 0x0515.
Definition CHUNK : Z := 200.

(** The link: what is sent, and what the reader thread has received by the
    next look at it, a 2 ms poll. *)
Class Link (D : Type) := {
  link_send : D -> list Z -> D;
  link_poll : D -> D * list Z
}.

(** The client: its session timestamp, the reassembly buffer the reader
    thread feeds, and the radio. *)
Record radio (D : Type) := Radio { rd_timestamp : Z; rd_buf : list Z; rd_dev : D }.
Arguments Radio {_} _ _ _.
Arguments rd_timestamp {_} _.
Arguments rd_buf {_} _.
Arguments rd_dev {_} _.

(** [Radio.__init__]: [now] is [int(time.time() * 100)]. *)
Definition open_radio {D} (now : Z) (d : D) : radio D := Radio (Z.land now 0xFFFFFFFF) [] d.

(** A method: it changes the client and returns or raises. *)
Definition M (D A : Type) : Type := radio D -> radio D * result A.
#[export] Instance M_ret D : MRet (M D) := fun _ a s => (s, Ok a).
#[export] Instance M_bind D : MBind (M D) := fun _ _ f m s =>
  match m s with
  | (s, Ok a) => f a s
  | (s, Raise e) => (s, Raise e)
  end.
Definition lift {D A} (r : result A) : M D A := fun s => (s, r).

(** [self.timestamp]. *)
Definition timestamp {D} : M D Z := fun s => (s, Ok (rd_timestamp s)).

(** [for x in l: body]. *)
Fixpoint forM {D A} (l : list A) (body : A -> M D unit) : M D unit :=
  match l with
  | [] => mret tt
  | x :: l => _ ← body x; forM l body
  end.

(** [bytes(l)] of integers. *)
Definition py_bytes (l : list Z) : result (list Z) :=
  if forallb (fun z => (0 <=? z) && (z <? 256)) l then Ok l
  else raise ValueError "bytes must be in range(0, 256)" [].

(** [l[i]] of a byte string. *)
Definition py_index (i : nat) (l : list Z) : result Z :=
  match l !! i with
  | Some z => Ok z
  | None => raise IndexError "index out of range" []
  end.

Section client.
Context {D : Type} `{Link D}.
(** How many polls fit in a wait of so many milliseconds. *)
Context (polls : Z -> nat).

Definition got_all (got : gmap Z (list Z)) (ms : list (Z * list Z)) : gmap Z (list Z) :=
  foldl (fun got m => <[m.1 := m.2]> got) got ms.

(** [_pump]: each round takes every message reassembled so far. *)
Fixpoint pump_loop (rounds : nat) (want : Z) (got : gmap Z (list Z)) (s : radio D)
  : radio D * gmap Z (list Z) :=
  match rounds with
  | O => (s, got)
  | S rounds =>
      let '(d, bs) := link_poll (rd_dev s) in
      let '(ms, buf) := messages (Frames.feed (rd_buf s) bs) in
      let s := Radio (rd_timestamp s) buf d in
      let got := got_all got ms in
      match got !! want with
      | Some _ => (s, got)
      | None => pump_loop rounds want got s
      end
  end.

Definition send_frame (f : list Z) (s : radio D) : radio D :=
  Radio (rd_timestamp s) (rd_buf s) (link_send (rd_dev s) f).

(** One [sendall] and the [_pump] that waits for [want]. *)
Definition exchange (f : list Z) (wait want : Z) (s : radio D) : radio D * option (list Z) :=
  let '(s, got) := pump_loop (polls wait) want ∅ (send_frame f s) in (s, got !! want).

Fixpoint handshakes (attempts : nat) (f : list Z) (s : radio D) : radio D * option (list Z) :=
  match attempts with
  | O => (s, None)
  | S attempts =>
      match exchange f 2500 MSG_SESSION_ACK s with
      | (s, Some ack) => (s, Some ack)
      | (s, None) => handshakes attempts f s
      end
  end.

Definition session : M D (list Z) := fun s =>
  match (b ← pack [fI] (rd_timestamp s, tt); build MSG_SESSION (b ++ zrep 4 0)) with
  | Raise e => (s, Raise e)
  | Ok f =>
      match handshakes 6 f s with
      | (s, None) => (s, raise SlotError "no 0x0515 reply after 6 handshakes" [])
      | (s, Some ack) => (s, Ok (decode_replace (until_nul (slice 0 16 ack))))
      end
  end.

Fixpoint command_loop (tries : nat) (f : list Z) (wait ack_id : Z) : M D (option (list Z)) :=
  fun s =>
  match tries with
  | O => (s, Ok None)
  | S more =>
      match exchange f wait ack_id s with
      | (s, Some ack) => (s, Ok (Some ack))
      | (s, None) =>
          match more with
          | O => (s, Ok None)
          | S _ =>
              match session s with
              | (s, Ok _) => command_loop more f wait ack_id s
              | (s, Raise e) =>
                  if decide (exn_cls e = SlotError) then command_loop more f wait ack_id s
                  else (s, Raise e)
              end
          end
      end
  end.

Definition command (msg_id : Z) (data : list Z) (ack_id wait : Z) : M D (option (list Z)) :=
  f ← lift (build msg_id data); command_loop 4 f wait ack_id.

Definition app_info (slot : Z) : M D (option (list Z)) :=
  data ← lift (py_bytes [slot]);
  command MSG_APP_INFO data MSG_APP_INFO_ACK 4000.

Definition info (slot : Z) : M D (Z * list Z) :=
  data ← lift (py_bytes [slot]);
  r ← command MSG_SLOT_INFO data MSG_SLOT_INFO_ACK 4000;
  match r with
  | None => lift (raise SlotError "0x0720 got no reply" [])
  | Some ack => status ← lift (py_index 1 ack); mret (status, slice 2 66 ack)
  end.

Definition erase_payload (timestamp slot : Z) : result (list Z) :=
  a ← py_bytes [slot; 0];
  b ← pack [fI] (timestamp, tt);
  Ok (a ++ b).

Definition erase (slot : Z) : M D Z :=
  ts ← timestamp;
  data ← lift (erase_payload ts slot);
  r ← command MSG_SLOT_ERASE data MSG_SLOT_ERASE_ACK 15000;
  match r with
  | None => lift (raise SlotError "0x0722 got no reply" [])
  | Some ack => lift (py_index 1 ack)
  end.

(** The payload of one 0x0724. *)
Definition write_payload (timestamp slot offset : Z) (piece : list Z) : result (list Z) :=
  a ← py_bytes [slot; 0];
  b ← pack [fI] (offset, tt);
  c ← pack [fH] (zlen piece, tt);
  t ← pack [fI] (timestamp, tt);
  Ok (a ++ b ++ c ++ t ++ piece).

(** The body of [write]'s loop for the chunk at [k * CHUNK]. *)
Definition write_chunk (slot offset : Z) (blob : list Z) (k : Z) : M D unit :=
  let start := k * CHUNK in
  let piece := slice start (start + CHUNK) blob in
  let chunk_no := k + 1 in
  _ ← (if (1 <? chunk_no) && ((chunk_no - 1) mod 25 =? 0) then session else mret [] : M D (list Z));
  ts ← timestamp;
  data ← lift (write_payload ts slot (offset + start) piece);
  r ← command MSG_SLOT_WRITE data MSG_SLOT_WRITE_ACK 4000;
  match r with
  | None => lift (raise SlotError "0x0724 got no reply at offset 0x%x" [offset + start])
  | Some ack =>
      status ← lift (py_index 1 ack);
      if status =? 0 then mret tt
      else lift (raise SlotError "0x0724 offset 0x%x: %s" [offset + start; status])
  end.

Definition chunk_count (n : Z) : Z := (n + CHUNK - 1) / CHUNK.

Definition write (slot offset : Z) (blob : list Z) : M D unit :=
  forM (zrange (chunk_count (zlen blob))) (write_chunk slot offset blob).

Definition validate (slot : Z) : M D (Z * Z) :=
  data ← lift (py_bytes [slot]);
  r ← command MSG_SLOT_VALIDATE data MSG_SLOT_VALIDATE_ACK 20000;
  match r with
  | None => lift (raise SlotError "0x0726 got no reply" [])
  | Some ack =>
      '(crc, _) ← lift (unpack_from [fI] ack 0);
      status ← lift (py_index 5 ack);
      mret (status, crc)
  end.

Definition install (slot : Z) (image name version : list Z) : M D Z :=
  header ← lift (build_header image name version);
  status ← erase slot;
  if negb (status =? 0) then lift (raise SlotError "erase: %s" [status]) else
  _ ← write slot 0 header;
  _ ← write slot SLOT_IMAGE_OFFSET image;
  '(status, crc) ← validate slot;
  if negb (status =? 0) then lift (raise SlotError "validate: %s" [status]) else
  if negb (crc =? Z.land (crc32 image) 0xFFFFFFFF)
  then lift (raise SlotError "device CRC %08x does not match the host's %08x"
               [crc; Z.land (crc32 image) 0xFFFFFFFF])
  else mret crc.

(** [main], from the open link to the exit status: [image] is the file's
    bytes, [None] under --info; the error is what is printed. *)
Definition main (slot : Z) (image : option (list Z)) (name version : list Z)
    : M D Z := fun s =>
  let body : M D Z :=
    _ ← session;
    match image with
    | None => _ ← info slot; mret 0
    | Some image => _ ← install slot image name version; mret 0
    end in
  match body s with
  | (s, Raise e) => if decide (exn_cls e = SlotError) then (s, Ok 1) else (s, Raise e)
  | r => r
  end.

End client.

(** ** What the firmware promises *)

(** What a poll may bring: messages in frames, with the screen stream or
    anything else that does not contain the start marker around them. *)
Inductive carries : list Z -> list (Z * list Z) -> Prop :=
| carries_noise c : contains MAGIC c = false -> carries c []
| carries_frame noise t d c ms :
    contains MAGIC noise = false -> buildable t d -> carries c ms ->
    carries (noise ++ frame t d ++ c) ((t, d) :: ms).

(** The requests that change or check a slot. *)
Inductive request :=
| ReqErase (slot : Z)
| ReqWrite (slot offset : Z) (piece : list Z)
| ReqValidate (slot : Z).

Definition req_slot (r : request) : Z :=
  match r with ReqErase s | ReqWrite s _ _ | ReqValidate s => s end.

Definition req_id (r : request) : Z :=
  match r with
  | ReqErase _ => MSG_SLOT_ERASE
  | ReqWrite _ _ _ => MSG_SLOT_WRITE
  | ReqValidate _ => MSG_SLOT_VALIDATE
  end.

Definition req_ack (r : request) : Z := req_id r + 1.

(** The payload of the protocol's table, with the session's timestamp. *)
Definition req_data (ts : Z) (r : request) : list Z :=
  match r with
  | ReqErase slot => [slot; 0] ++ le_enc 4 ts
  | ReqWrite slot offset piece =>
      [slot; 0] ++ le_enc 4 offset ++ le_enc 2 (zlen piece) ++ le_enc 4 ts ++ piece
  | ReqValidate slot => [slot]
  end.

Definition slot_addr (slot : Z) : Z := SLOT_BACKUP_BASE + slot * SLOT_STRIDE.

(** A request inside its slot, whose frame fits the receive buffer. *)
Definition req_ok (flash : list Z) (r : request) : Prop :=
  0 <= req_slot r < SLOT_COUNT /\ slot_addr (req_slot r) + SLOT_STRIDE <= zlen flash /\
  match r with
  | ReqWrite _ offset piece =>
      0 <= offset /\ offset + zlen piece <= SLOT_STRIDE /\ zlen piece <= CHUNK
  | _ => True
  end.

(** What a request does to the flash. *)
Definition req_exec (r : request) (flash : list Z) : list Z :=
  match r with
  | ReqErase slot =>
      set_slice (slot_addr slot) (slot_addr slot + SLOT_STRIDE) (zrep SLOT_STRIDE 0xff) flash
  | ReqWrite slot offset piece =>
      set_slice (slot_addr slot + offset) (slot_addr slot + offset + zlen piece) piece flash
  | ReqValidate _ => flash
  end.

(** The reply to a request: status 0, and for a validation of a slot whose
    header is committed and whose checksum holds, that checksum. *)
Definition req_answer (r : request) (flash reply : list Z) : Prop :=
  match r with
  | ReqErase _ | ReqWrite _ _ _ => reply !! 1%nat = Some 0
  | ReqValidate slot =>
      forall h image, read_slot flash slot = Ok (Some (h, image)) -> sh_crc_ok h = true ->
      reply = le_enc 4 (sh_image_crc32 h) ++ [slot; 0]
  end.

Section promises.
Context {D : Type} `{Link D}.

(** Successive polls and the messages each brings. *)
Inductive receives : D -> list (list (Z * list Z)) -> D -> Prop :=
| receives_nil d : receives d [] d
| receives_cons d d1 d2 c ms mss :
    link_poll d = (d1, c) -> carries c ms -> receives d1 mss d2 ->
    receives d (ms :: mss) d2.

Definition without (t : Z) (mss : list (list (Z * list Z))) : Prop :=
  Forall (fun ms => last_of t ms None = None) mss.

(** Within [latency] polls a message of type [t] arrives; the last one of its
    poll carries [reply]. *)
Definition answers (latency : nat) (d : D) (t : Z) (reply : list Z) (d' : D) : Prop :=
  exists mss ms, (length mss <= latency)%nat /\ receives d (mss ++ [ms]) d' /\
    without t mss /\ last_of t ms None = Some reply.

(** However long the client listens, no message of type [t] arrives. *)
Definition silent (d : D) (t : Z) (P : D -> Prop) : Prop :=
  forall n, exists mss d', length mss = n /\ receives d mss d' /\ without t mss /\ P d'.
End promises.

(** The slot commands of the firmware.  [dev_lost] and [dev_deaf] are how many
    of the next commands and of the next handshakes go unanswered, at most
    three and five in a row: a command may be lost before it is acted on, or
    its reply after.  One that is answered has been carried out, under the
    timestamp the session latched. *)
Class SlotDevice (D : Type) := {
  dev_flash : D -> list Z;
  dev_session : D -> option Z;
  dev_lost : D -> nat;
  dev_deaf : D -> nat;
  dev_latency : nat
}.

Definition dev_ready {D} `{SlotDevice D} (d : D) : Prop :=
  (dev_lost d <= 3)%nat /\ (dev_deaf d <= 5)%nat.

Class SlotRadio (D : Type) `{Link D} `{SlotDevice D} := {
  handshake_law : forall d ts f,
    dev_ready d -> 0 <= ts < 2 ^ 32 -> build MSG_SESSION (le_enc 4 ts ++ zrep 4 0) = Ok f ->
    match dev_deaf d with
    | O => exists reply d', answers dev_latency (link_send d f) MSG_SESSION_ACK reply d' /\
             dev_flash d' = dev_flash d /\ dev_session d' = Some ts /\
             (dev_lost d' <= dev_lost d)%nat /\ (dev_deaf d' <= 5)%nat
    | S n => silent (link_send d f) MSG_SESSION_ACK (fun d' =>
               dev_flash d' = dev_flash d /\
               (dev_session d' = dev_session d \/ dev_session d' = Some ts) /\
               (dev_lost d' <= dev_lost d)%nat /\ dev_deaf d' = n)
    end;
  command_law : forall d ts r f,
    dev_ready d -> dev_session d = Some ts -> 0 <= ts < 2 ^ 32 -> req_ok (dev_flash d) r ->
    build (req_id r) (req_data ts r) = Ok f ->
    match dev_lost d with
    | O => exists reply d', answers dev_latency (link_send d f) (req_ack r) reply d' /\
             dev_flash d' = req_exec r (dev_flash d) /\ req_answer r (dev_flash d') reply /\
             dev_session d' = Some ts /\ dev_ready d'
    | S n => silent (link_send d f) (req_ack r) (fun d' =>
               (dev_flash d' = dev_flash d \/ dev_flash d' = req_exec r (dev_flash d)) /\
               dev_session d' = Some ts /\ dev_lost d' = n /\ (dev_deaf d' <= 5)%nat)
    end
}.

(** ** Draining what a poll brought *)

Lemma messages_carries c ms : carries c ms -> messages c = (ms, []).
Proof.
  intros Hc. unfold messages, Frames.drain.
  assert (length ms < S (length c))%nat as Hl.
  { induction Hc as [|noise t d c ms ?? Hc IH]; cbn [length]; [lia|].
    rewrite !length_app. pose proof (zlen_frame t d). pose proof (zlen_nonneg d).
    unfold zlen in *. lia. }
  assert (forall fuel, (length ms < fuel)%nat -> Frames.drain_loop fuel c = Some (ms, [])) as ->;
    [|done|exact Hl].
  clear Hl. induction Hc as [c Hn|noise t d c ms Hn Hb Hc IH]; intros [|fuel] Hf; try lia;
    cbn [Frames.drain_loop].
  - unfold Frames.take. cbn [Frames.take_loop]. unfold contains in Hn.
    by destruct (find_sub MAGIC c).
  - rewrite take_noise_frame by done. cbn [length] in Hf. by rewrite IH by lia.
Qed.

Lemma lookup_got_all got ms t : got_all got ms !! t = last_of t ms (got !! t).
Proof.
  unfold got_all. revert got; induction ms as [|m ms IH]; intros got; cbn [foldl last_of]; [done|].
  rewrite IH. f_equal. destruct (Z.eqb_spec m.1 t) as [->|];
    [by rewrite lookup_insert_eq|by rewrite lookup_insert_ne].
Qed.

Section pumping.
Context {D : Type} `{Link D}.

Lemma pump_step rounds want got ts (d d1 : D) c ms :
  link_poll d = (d1, c) -> carries c ms ->
  pump_loop (S rounds) want got (Radio ts [] d) =
    match last_of want ms (got !! want) with
    | Some _ => (Radio ts [] d1, got_all got ms)
    | None => pump_loop rounds want (got_all got ms) (Radio ts [] d1)
    end.
Proof.
  intros Hp Hc. cbn [pump_loop rd_dev rd_buf rd_timestamp]. rewrite Hp.
  unfold Frames.feed. cbn [app]. rewrite (messages_carries c ms Hc), lookup_got_all. done.
Qed.

Lemma pump_without want mss (d d' : D) :
  receives d mss d' -> without want mss ->
  forall rounds got ts, got !! want = None ->
  exists got', pump_loop (length mss + rounds) want got (Radio ts [] d)
      = pump_loop rounds want got' (Radio ts [] d') /\ got' !! want = None.
Proof.
  induction 1 as [d|d d1 d' c ms mss Hp Hc Hr IH]; intros Hw rounds got ts Hg; [by exists got|].
  apply Forall_cons in Hw as [Hm Hw]. cbn [length Nat.add]. rewrite (pump_step _ _ _ _ _ _ _ _ Hp Hc), Hg, Hm.
  apply IH; [done|]. by rewrite lookup_got_all, Hg.
Qed.

Lemma receives_app (d d' : D) mss ms :
  receives d (mss ++ [ms]) d' ->
  exists d1 c, receives d mss d1 /\ link_poll d1 = (d', c) /\ carries c ms.
Proof.
  revert d; induction mss as [|m mss IH]; intros d Hr; cbn [app] in Hr; inversion Hr; subst.
  - match goal with H : receives _ [] _ |- _ => inversion H; subst end.
    eexists _, _. split; [constructor|done].
  - match goal with H : receives _ (_ ++ _) _ |- _ => destruct (IH _ H) as (e & c' & ? & ? & ?) end.
    exists e, c'. split; [by econstructor|done].
Qed.

Context (polls : Z -> nat).

Lemma exchange_answers latency f wait want ts (d d' : D) reply :
  (latency < polls wait)%nat -> answers latency (link_send d f) want reply d' ->
  exchange polls f wait want (Radio ts [] d) = (Radio ts [] d', Some reply).
Proof.
  intros Hl (mss & ms & Hn & Hr & Hw & Ha). unfold exchange, send_frame.
  cbn [rd_timestamp rd_buf rd_dev].
  apply receives_app in Hr as (d1 & c & Hr & Hp & Hc).
  destruct (pump_without want mss _ _ Hr Hw (S (polls wait - length mss - 1)) ∅ ts (lookup_empty want))
    as (got & Hg & Hnone).
  replace (polls wait) with (length mss + S (polls wait - length mss - 1))%nat by lia.
  rewrite Hg, (pump_step _ _ _ _ _ _ _ _ Hp Hc), Hnone, Ha. by rewrite lookup_got_all, Hnone, Ha.
Qed.

Lemma exchange_silent f wait want ts (d : D) P :
  silent (link_send d f) want P ->
  exists d', exchange polls f wait want (Radio ts [] d) = (Radio ts [] d', None) /\ P d'.
Proof.
  intros Hs. destruct (Hs (polls wait)) as (mss & d' & Hn & Hr & Hw & HP).
  exists d'. split; [|done]. unfold exchange, send_frame. cbn [rd_timestamp rd_buf rd_dev].
  destruct (pump_without want mss _ _ Hr Hw 0 ∅ ts (lookup_empty want)) as (got & Hg & Hnone).
  rewrite Nat.add_0_r, Hn in Hg. by rewrite Hg; cbn [pump_loop]; rewrite Hnone.
Qed.
End pumping.

(** ** Requests are idempotent *)

Lemma set_slice_idem {A} i j (d l : list A) :
  0 <= i -> j = i + zlen d -> j <= zlen l ->
  set_slice i j d (set_slice i j d l) = set_slice i j d l.
Proof.
  intros Hi Hj Hl. apply list_eq. intros k.
  rewrite !lookup_set_slice by (rewrite ?zlen_set_slice; done). by case_decide.
Qed.

Ltac unfold_slots := unfold slot_addr in *; unfold_layout.

Lemma req_exec_facts r flash :
  req_ok flash r ->
  zlen (req_exec r flash) = zlen flash /\ req_exec r (req_exec r flash) = req_exec r flash.
Proof.
  intros (Hs & Hl & Hr).
  destruct r as [slot|slot offset piece|slot]; cbn [req_exec req_slot] in *; [| |done];
    (split; [apply zlen_set_slice|apply set_slice_idem]);
    try (pose proof (zlen_nonneg piece)); unfold_slots; rewrite ?zlen_rep; lia.
Qed.

Lemma req_ok_len flash flash' r : zlen flash' = zlen flash -> req_ok flash r -> req_ok flash' r.
Proof. unfold req_ok. by intros ->. Qed.

Lemma req_data_buildable flash ts r : req_ok flash r -> buildable (req_id r) (req_data ts r).
Proof.
  intros (_ & _ & Hr). unfold buildable.
  destruct r as [slot|slot offset piece|slot]; cbn [req_id req_data];
    unfold MSG_SLOT_ERASE, MSG_SLOT_WRITE, MSG_SLOT_VALIDATE, CHUNK, zlen in *;
    rewrite ?length_app, ?length_le_enc; cbn [length]; lia.
Qed.

(** ** The client against any radio that keeps its promises *)

Section against_radio.
Context {D : Type} `{SlotRadio D} (polls : Z -> nat) (ts : Z).
Hypothesis Hpolls : forall w, 2500 <= w -> (dev_latency < polls w)%nat.
Hypothesis Hts : 0 <= ts < 2 ^ 32.

Lemma handshakes_ok f n : forall attempts d,
  build MSG_SESSION (le_enc 4 ts ++ zrep 4 0) = Ok f ->
  dev_ready d -> dev_deaf d = n -> (n < attempts)%nat ->
  exists ack d', handshakes polls attempts f (Radio ts [] d) = (Radio ts [] d', Some ack) /\
    dev_flash d' = dev_flash d /\ dev_session d' = Some ts /\
    (dev_lost d' <= dev_lost d)%nat /\ (dev_deaf d' <= 5)%nat.
Proof.
  induction n as [|n IH]; intros [|attempts] d Hf Hrd Hn Ha; try lia; cbn [handshakes];
    pose proof (handshake_law d ts f Hrd Hts Hf) as Hlaw; rewrite Hn in Hlaw.
  - destruct Hlaw as (reply & d' & Hans & Hd').
    rewrite (exchange_answers polls _ _ _ _ _ _ _ _ (Hpolls 2500 ltac:(lia)) Hans).
    exists reply, d'. exact (conj eq_refl Hd').
  - apply (exchange_silent polls f 2500 MSG_SESSION_ACK ts) in Hlaw
      as (d1 & -> & Hfl & Hse & Hlo & Hde).
    destruct Hrd as [? ?].
    destruct (IH attempts d1 Hf) as (ack & d' & -> & Hfl' & ? & ? & ?); [split; lia|done|lia|].
    exists ack, d'. split_and!; [done|congruence|done|lia|done].
Qed.

Lemma session_ok d :
  dev_ready d ->
  exists v d', session polls (Radio ts [] d) = (Radio ts [] d', Ok v) /\
    dev_flash d' = dev_flash d /\ dev_session d' = Some ts /\
    (dev_lost d' <= dev_lost d)%nat /\ (dev_deaf d' <= 5)%nat.
Proof.
  intros Hrd. unfold session. cbn [rd_timestamp].
  assert (pack [fI] (ts, tt) = Ok (le_enc 4 ts)) as -> by (apply pack_int_iff; exact (conj Hts eq_refl)).
  cbn [mbind result_bind].
  assert (build MSG_SESSION (le_enc 4 ts ++ zrep 4 0) =
          Ok (frame MSG_SESSION (le_enc 4 ts ++ zrep 4 0))) as Hb.
  { apply build_iff. split; [|done]. unfold buildable, MSG_SESSION, zlen.
    rewrite length_app, length_le_enc. unfold zrep. rewrite length_replicate. lia. }
  rewrite Hb. generalize (frame MSG_SESSION (le_enc 4 ts ++ zrep 4 0)) as f, Hb. intros f Hf.
  destruct (handshakes_ok f (dev_deaf d) 6 d Hf Hrd eq_refl) as (ack & d' & E & Hrest);
    [destruct Hrd; lia|]. rewrite E.
  exists (decode_replace (until_nul (slice 0 16 ack))), d'. exact (conj eq_refl Hrest).
Qed.

(** The retries of [_command], for any command that is answered unless it is
    lost: [I] holds of the radio before every attempt, [Q] of the answer. *)
Lemma command_retries f wait ack_id (I : D -> Prop) (Q : list Z -> D -> Prop) :
  2500 <= wait ->
  (forall d d', I d -> dev_flash d' = dev_flash d -> I d') ->
  (forall d, I d -> dev_ready d -> dev_session d = Some ts ->
    match dev_lost d with
    | O => exists reply d', answers dev_latency (link_send d f) ack_id reply d' /\ Q reply d'
    | S n => silent (link_send d f) ack_id (fun d' =>
               I d' /\ dev_session d' = Some ts /\ dev_lost d' = n /\ (dev_deaf d' <= 5)%nat)
    end) ->
  forall n tries d, I d -> dev_ready d -> dev_session d = Some ts -> dev_lost d = n -> (n < tries)%nat ->
  exists reply d', command_loop polls tries f wait ack_id (Radio ts [] d)
      = (Radio ts [] d', Ok (Some reply)) /\ Q reply d'.
Proof.
  intros Hw Hcl Hlaw n. induction n as [n IH] using lt_wf_ind.
  intros [|tries] d HI Hrd Hse Hn Ht; [lia|]. pose proof (Hlaw d HI Hrd Hse) as Hl. cbn [command_loop].
  rewrite Hn in Hl. destruct n as [|n].
  - destruct Hl as (reply & d' & Hans & HQ).
    rewrite (exchange_answers polls _ _ _ _ _ _ _ _ (Hpolls wait Hw) Hans). by exists reply, d'.
  - apply (exchange_silent polls f wait ack_id ts) in Hl as (d1 & -> & HI1 & Hse1 & Hlo1 & Hde1).
    destruct tries as [|tries]; [lia|]. destruct Hrd as [? ?].
    destruct (session_ok d1) as (v & d2 & -> & Hfl2 & Hse2 & Hlo2 & Hde2); [split; lia|].
    apply (IH (dev_lost d2)); [lia|by apply (Hcl d1)|split; lia|done|done|lia].
Qed.

(** A command is carried out, whatever was lost on the way, and its effect is
    that of carrying it out once. *)
Lemma command_loop_ok r F wait f n : forall tries d,
  2500 <= wait -> build (req_id r) (req_data ts r) = Ok f -> req_ok F r ->
  dev_ready d -> dev_session d = Some ts -> dev_flash d = F \/ dev_flash d = req_exec r F ->
  dev_lost d = n -> (n < tries)%nat ->
  exists reply d', command_loop polls tries f wait (req_ack r) (Radio ts [] d)
      = (Radio ts [] d', Ok (Some reply)) /\
    dev_flash d' = req_exec r F /\ req_answer r (dev_flash d') reply /\
    dev_session d' = Some ts /\ dev_ready d'.
Proof.
  intros tries d Hw Hf Hok Hrd Hse HF Hn Ht. destruct (req_exec_facts r F Hok) as [Hz Hid].
  apply (command_retries f wait (req_ack r) (fun d => dev_flash d = F \/ dev_flash d = req_exec r F)
           (fun reply d' => dev_flash d' = req_exec r F /\ req_answer r (dev_flash d') reply /\
              dev_session d' = Some ts /\ dev_ready d') Hw) with n; try done; [by intros d1 d2 HI ->|].
  clear d Hrd Hse HF Hn Ht. intros d HF Hrd Hse.
  assert (req_ok (dev_flash d) r) as Hok'
    by (destruct HF as [-> | ->]; [done|by apply (req_ok_len F)]).
  assert (req_exec r (dev_flash d) = req_exec r F) as Hex by (by destruct HF as [-> | ->]).
  pose proof (command_law d ts r f Hrd Hse Hts Hok' Hf) as Hlaw. destruct (dev_lost d) as [|k].
  - destruct Hlaw as (reply & d' & Hans & Hfl & Hrest). exists reply, d'. split; [done|].
    rewrite Hfl in *. by rewrite Hex in *.
  - intros m. destruct (Hlaw m) as (mss & d' & Hm & Hr & Hwo & Hfl & Hrest). exists mss, d'.
    split; [done|]. split; [done|]. split; [done|]. split; [|done].
    rewrite Hex in Hfl. destruct Hfl as [-> | ->]; [done|by right].
Qed.

Lemma command_ok r d wait :
  2500 <= wait -> req_ok (dev_flash d) r -> dev_ready d -> dev_session d = Some ts ->
  exists reply d', command polls (req_id r) (req_data ts r) (req_ack r) wait (Radio ts [] d)
      = (Radio ts [] d', Ok (Some reply)) /\
    dev_flash d' = req_exec r (dev_flash d) /\ req_answer r (dev_flash d') reply /\
    dev_session d' = Some ts /\ dev_ready d'.
Proof.
  intros Hw Hok Hrd Hse.
  pose proof (req_data_buildable _ ts _ Hok) as Hb.
  assert (build (req_id r) (req_data ts r) = Ok (frame (req_id r) (req_data ts r))) as Hf
    by (by apply build_iff).
  unfold command, lift. unfold mbind, M_bind. rewrite Hf.
  apply (command_loop_ok r (dev_flash d) wait _ (dev_lost d)); try done; [by left|].
  destruct Hrd. lia.
Qed.
End against_radio.

(** ** Chunks put together *)

Lemma set_slice_append {A} i (a b l : list A) :
  0 <= i -> i + zlen a + zlen b <= zlen l ->
  set_slice (i + zlen a) (i + zlen a + zlen b) b (set_slice i (i + zlen a) a l)
    = set_slice i (i + zlen (a ++ b)) (a ++ b) l.
Proof.
  intros Hi Hl. pose proof (zlen_nonneg a). pose proof (zlen_nonneg b).
  apply list_eq. intros k. rewrite !lookup_set_slice; rewrite ?zlen_set_slice, ?zlen_app; try lia.
  unfold zlen in *. repeat case_decide; try lia; [|by rewrite lookup_app_l by lia|done].
  rewrite lookup_app_r by lia. f_equal. lia.
Qed.

Lemma slice_extend {A} i j (l : list A) :
  0 <= i <= j -> slice 0 i l ++ slice i j l = slice 0 j l.
Proof.
  intros. unfold slice. change (Z.to_nat 0) with 0%nat. rewrite !drop_0.
  replace (Z.to_nat (j - 0)) with (Z.to_nat (i - 0) + Z.to_nat (j - i))%nat by lia.
  replace (Z.to_nat i) with (Z.to_nat (i - 0)) by lia. by rewrite take_take_drop.
Qed.

Lemma M_bind_ok {D A B} (m : M D A) (f : A -> M D B) s s' a :
  m s = (s', Ok a) -> (m ≫= f) s = f a s'.
Proof. unfold mbind, M_bind. by intros ->. Qed.

Lemma lift_bind {D A B} (r : result A) (f : A -> M D B) s a :
  r = Ok a -> (lift r ≫= f) s = f a s.
Proof. intros ->. done. Qed.

Lemma pack_u32 v : 0 <= v < 2 ^ 32 -> pack [fI] (v, tt) = Ok (le_enc 4 v).
Proof. intros Hv. apply pack_int_iff. exact (conj Hv eq_refl). Qed.

Lemma py_bytes_slot l : Forall (fun z => 0 <= z < 256) l -> py_bytes l = Ok l.
Proof.
  intros Hl. unfold py_bytes.
  replace (forallb _ l) with true; [done|]. symmetry. apply forallb_forall.
  intros z Hz%list_elem_of_In. rewrite Forall_forall in Hl. specialize (Hl z Hz). lia.
Qed.

Lemma slot_byte slot : 0 <= slot < SLOT_COUNT -> Forall (fun z => 0 <= z < 256) [slot; 0].
Proof. intros. unfold SLOT_COUNT in *. repeat constructor; lia. Qed.

Section install_against_radio.
Context {D : Type} `{SlotRadio D} (polls : Z -> nat) (ts : Z).
Hypothesis Hpolls : forall w, 2500 <= w -> (dev_latency < polls w)%nat.
Hypothesis Hts : 0 <= ts < 2 ^ 32.

(** The radio answers, with our session latched, and its flash is [F]. *)
Definition serving (d : D) (F : list Z) : Prop :=
  dev_ready d /\ dev_session d = Some ts /\ dev_flash d = F.

Lemma erase_ok slot d F :
  req_ok F (ReqErase slot) -> serving d F ->
  exists d', erase polls slot (Radio ts [] d) = (Radio ts [] d', Ok 0) /\
    serving d' (req_exec (ReqErase slot) F).
Proof.
  intros Hok (Hrd & Hse & <-). unfold erase.
  rewrite (M_bind_ok timestamp _ _ (Radio ts [] d) ts) by done.
  rewrite (lift_bind (erase_payload ts slot) _ _ (req_data ts (ReqErase slot))).
  2: { unfold erase_payload. rewrite py_bytes_slot by (apply slot_byte, Hok).
       cbn [mbind result_bind]. by rewrite (pack_u32 ts Hts). }
  destruct (command_ok polls ts Hpolls Hts (ReqErase slot) d 15000 ltac:(lia) Hok Hrd Hse)
    as (reply & d' & Hc & Hfl & Ha & Hse' & Hrd').
  rewrite (M_bind_ok _ _ _ _ _ Hc). cbn [req_answer] in Ha. unfold lift, py_index. rewrite Ha.
  exists d'. exact (conj eq_refl (conj Hrd' (conj Hse' Hfl))).
Qed.

Lemma write_payload_ok slot offset piece F :
  req_ok F (ReqWrite slot offset piece) ->
  write_payload ts slot offset piece = Ok (req_data ts (ReqWrite slot offset piece)).
Proof.
  intros (Hs & _ & Ho & Hl & Hp). cbn [req_slot] in Hs. pose proof (zlen_nonneg piece).
  unfold write_payload. rewrite py_bytes_slot by by apply slot_byte. cbn [mbind result_bind].
  unfold_slots. unfold CHUNK in Hp.
  rewrite (pack_u32 offset) by lia. cbn [mbind result_bind].
  assert (pack [fH] (zlen piece, tt) = Ok (le_enc 2 (zlen piece))) as ->.
  { apply pack_int_iff. split; [change (256 ^ Z.of_nat 2) with 65536; lia|done]. }
  cbn [mbind result_bind]. by rewrite (pack_u32 ts Hts).
Qed.

Lemma write_chunk_ok slot offset blob k d F :
  let piece := slice (k * CHUNK) (k * CHUNK + CHUNK) blob in
  req_ok F (ReqWrite slot (offset + k * CHUNK) piece) -> serving d F ->
  exists d', write_chunk polls slot offset blob k (Radio ts [] d) = (Radio ts [] d', Ok tt) /\
    serving d' (req_exec (ReqWrite slot (offset + k * CHUNK) piece) F).
Proof.
  intros piece Hok (Hrd & Hse & HF). unfold write_chunk. fold piece.
  assert (exists v d1, (if (1 <? k + 1) && ((k + 1 - 1) mod 25 =? 0) then session polls
                        else mret [] : M D (list Z)) (Radio ts [] d) = (Radio ts [] d1, Ok v) /\
                        serving d1 F) as (v & d1 & Hs & Hrd1 & Hse1 & HF1).
  { destruct (_ && _); [|by exists [], d].
    destruct (session_ok polls ts Hpolls Hts d Hrd) as (v & d1 & E & Hfl & Hse' & Hlo & Hde).
    exists v, d1. destruct Hrd. split; [exact E|]. split_and!; [split; lia|done|congruence]. }
  rewrite (M_bind_ok _ _ _ _ _ Hs).
  rewrite (M_bind_ok timestamp _ _ (Radio ts [] d1) ts) by done.
  rewrite (lift_bind _ _ _ _ (write_payload_ok slot _ piece F Hok)).
  rewrite <- HF1 in Hok.
  destruct (command_ok polls ts Hpolls Hts _ d1 4000 ltac:(lia) Hok Hrd1 Hse1)
    as (reply & d' & Hc & Hfl & Ha & Hse' & Hrd').
  rewrite (M_bind_ok _ _ _ _ _ Hc). cbn [req_answer] in Ha.
  rewrite (lift_bind (py_index 1 reply) _ _ 0) by (unfold py_index; by rewrite Ha).
  exists d'. rewrite <- HF1. exact (conj eq_refl (conj Hrd' (conj Hse' Hfl))).
Qed.

(** The flash after the first [n] chunks of [blob]. *)
Definition chunks_written (slot offset : Z) (blob F : list Z) (n : Z) : list Z :=
  let p := slice 0 (n * CHUNK) blob in
  set_slice (slot_addr slot + offset) (slot_addr slot + offset + zlen p) p F.

Lemma write_loop_ok slot offset blob F :
  0 <= slot < SLOT_COUNT -> slot_addr slot + SLOT_STRIDE <= zlen F ->
  0 <= offset -> offset + zlen blob <= SLOT_STRIDE ->
  forall n k d, Z.of_nat (k + n) * CHUNK < zlen blob + CHUNK ->
  serving d (chunks_written slot offset blob F (Z.of_nat k)) ->
  exists d', forM (map Z.of_nat (seq k n)) (write_chunk polls slot offset blob) (Radio ts [] d)
      = (Radio ts [] d', Ok tt) /\
    serving d' (chunks_written slot offset blob F (Z.of_nat (k + n))).
Proof.
  intros Hs Hl Ho Hb n. induction n as [|n IH]; intros k d Hk Hd.
  - exists d. by rewrite Nat.add_0_r.
  - cbn [seq map forM]. unfold CHUNK in Hk.
    set (piece := slice (Z.of_nat k * CHUNK) (Z.of_nat k * CHUNK + CHUNK) blob).
    pose proof (slice_extend (Z.of_nat k * CHUNK) (Z.of_nat k * CHUNK + CHUNK) blob) as Hcat.
    pose proof (zlen_slice 0 (Z.of_nat k * CHUNK) blob) as Hpre.
    pose proof (zlen_slice_le (Z.of_nat k * CHUNK) (Z.of_nat k * CHUNK + CHUNK) blob) as Hpc.
    pose proof (f_equal zlen (take_drop (Z.to_nat (Z.of_nat k * CHUNK + CHUNK)) blob)) as Htot.
    fold piece in Hcat, Hpc. unfold CHUNK in *.
    assert (zlen (slice 0 (Z.of_nat k * 200 + 200) blob) <= zlen blob) as Hle.
    { unfold slice. change (Z.to_nat 0) with 0%nat. unfold zlen. rewrite length_take, length_drop. lia. }
    rewrite <- Hcat, zlen_app, Hpre in Hle by lia. pose proof (zlen_nonneg piece).
    assert (zlen (chunks_written slot offset blob F (Z.of_nat k)) = zlen F) as HzF.
    { unfold chunks_written, CHUNK. apply zlen_set_slice; rewrite ?Hpre; unfold_slots; lia. }
    destruct (write_chunk_ok slot offset blob (Z.of_nat k) d
                (chunks_written slot offset blob F (Z.of_nat k))) as (d1 & Hc & Hd1).
    { unfold CHUNK. fold piece. split_and!; cbn [req_slot]; try done; unfold_slots; unfold CHUNK; lia. }
    { done. }
    rewrite (M_bind_ok _ _ _ _ _ Hc).
    destruct (IH (S k) d1) as (d' & Hd' & Hsv); [lia| |].
    { replace (chunks_written slot offset blob F (Z.of_nat (S k)))
        with (req_exec (ReqWrite slot (offset + Z.of_nat k * CHUNK) piece)
                (chunks_written slot offset blob F (Z.of_nat k))); [exact Hd1|].
      unfold chunks_written, CHUNK. cbn [req_exec].
      replace (Z.of_nat (S k) * 200) with (Z.of_nat k * 200 + 200) by lia. rewrite <- Hcat by lia.
      rewrite <- set_slice_append by (rewrite ?Hpre; unfold_slots; lia).
      rewrite Hpre by lia. f_equal; lia. }
    exists d'. by replace (k + S n)%nat with (S k + n)%nat by lia.
Qed.

Lemma write_ok slot offset blob d F :
  0 <= slot < SLOT_COUNT -> slot_addr slot + SLOT_STRIDE <= zlen F ->
  0 <= offset -> offset + zlen blob <= SLOT_STRIDE -> serving d F ->
  exists d', write polls slot offset blob (Radio ts [] d) = (Radio ts [] d', Ok tt) /\
    serving d' (set_slice (slot_addr slot + offset) (slot_addr slot + offset + zlen blob) blob F).
Proof.
  intros Hs Hl Ho Hb Hd. unfold write, zrange, chunk_count, CHUNK. pose proof (zlen_nonneg blob).
  pose proof (Z.div_mod (zlen blob + 200 - 1) 200). pose proof (Z.mod_pos_bound (zlen blob + 200 - 1) 200).
  set (n := Z.to_nat ((zlen blob + 200 - 1) / 200)).
  assert (zlen blob <= Z.of_nat n * 200) by (unfold n; lia).
  destruct (write_loop_ok slot offset blob F Hs Hl Ho Hb n 0 d) as (d' & Hw & Hd').
  - unfold CHUNK. lia.
  - unfold chunks_written. rewrite slice_empty by done. rewrite zlen_nil, Z.add_0_r.
    unfold set_slice. cbn [app]. by rewrite Z.max_id, take_drop.
  - exists d'. split; [exact Hw|]. unfold chunks_written in Hd'.
    rewrite (slice_all (Z.of_nat (0 + n) * CHUNK) blob) in Hd'; [exact Hd'|].
    unfold CHUNK. rewrite Nat.add_0_l. assumption.
Qed.
End install_against_radio.

(** ** A whole installation *)

Lemma slot_base_addr slot : 0 <= slot < SLOT_COUNT -> slot_base slot = Ok (slot_addr slot).
Proof. intros. by apply slot_base_iff. Qed.

(** The flash after the erase, the header and the image. *)
Definition installed_flash (slot : Z) (image name version F : list Z) : list Z :=
  let start := slot_addr slot + SLOT_IMAGE_OFFSET in
  set_slice start (start + zlen image) image
    (set_slice (slot_addr slot) (slot_addr slot + SLOT_HEADER_SIZE) (header image name version)
      (req_exec (ReqErase slot) F)).

Lemma installed_flash_slots slot image name version F :
  0 <= slot < SLOT_COUNT -> slot_addr slot + SLOT_STRIDE <= zlen F ->
  zlen image <= SLOT_STRIDE - SLOT_IMAGE_OFFSET ->
  exists f1, erase_slot F slot = Ok f1 /\ slot_end (slot_addr slot) <= zlen f1 /\
    write_slot f1 slot image name version = Ok (installed_flash slot image name version F).
Proof.
  intros Hs Hl Hi. exists (req_exec (ReqErase slot) F).
  destruct (req_exec_facts (ReqErase slot) F) as [Hz _]; [done|].
  split_and!.
  - unfold erase_slot. by rewrite slot_base_addr.
  - rewrite Hz. exact Hl.
  - apply write_slot_iff. exists (slot_addr slot). by rewrite slot_base_addr.
Qed.

Section whole_install.
Context {D : Type} `{SlotRadio D} (polls : Z -> nat) (ts : Z).
Hypothesis Hpolls : forall w, 2500 <= w -> (dev_latency < polls w)%nat.
Hypothesis Hts : 0 <= ts < 2 ^ 32.

Lemma validate_ok slot d F h image :
  req_ok F (ReqValidate slot) -> serving ts d F ->
  read_slot F slot = Ok (Some (h, image)) -> sh_crc_ok h = true -> 0 <= sh_image_crc32 h < 2 ^ 32 ->
  exists d', validate polls slot (Radio ts [] d) = (Radio ts [] d', Ok (0, sh_image_crc32 h)) /\
    serving ts d' F.
Proof.
  intros Hok (Hrd & Hse & <-) Hread Hcrc Hr. unfold validate.
  rewrite (lift_bind (py_bytes [slot]) _ _ [slot]).
  2: { apply py_bytes_slot. constructor; [|done]. destruct Hok as [Hs _].
       unfold SLOT_COUNT in Hs. cbn [req_slot] in Hs. lia. }
  destruct (command_ok polls ts Hpolls Hts _ d 20000 ltac:(lia) Hok Hrd Hse)
    as (reply & d' & Hc & Hfl & Ha & Hse' & Hrd').
  rewrite (M_bind_ok _ _ _ _ _ Hc). cbn [req_answer req_exec] in Ha, Hfl. rewrite Hfl in Ha.
  rewrite (Ha _ _ Hread Hcrc). clear Hc.
  rewrite (lift_bind (unpack_from [fI] _ 0) _ _ (sh_image_crc32 h, tt)).
  2: { apply unpack_from_slice.
       - split; [lia|apply zlen_nonneg].
       - cbn [Z.add]. rewrite slice_0_app; [by apply pack_u32|].
         unfold zlen. by rewrite length_le_enc.
       - cbn [fits fits1]. exact (conj Hr I). }
  rewrite (lift_bind (py_index 5 _) _ _ 0); [|done].
  exists d'. exact (conj eq_refl (conj Hrd' (conj Hse' Hfl))).
Qed.

Lemma install_ok slot image name version d F :
  0 <= slot < SLOT_COUNT -> slot_addr slot + SLOT_STRIDE <= zlen F ->
  zlen image <= SLOT_STRIDE - SLOT_IMAGE_OFFSET -> serving ts d F ->
  exists d', install polls slot image name version (Radio ts [] d)
      = (Radio ts [] d', Ok (Z.land (crc32 image) 0xFFFFFFFF)) /\
    serving ts d' (installed_flash slot image name version F).
Proof.
  intros Hs Hl Hi Hd. unfold install. pose proof (zlen_nonneg image).
  pose proof (zlen_header image name version) as Hzh.
  rewrite (lift_bind (build_header image name version) _ _ (header image name version))
    by (by apply build_header_iff).
  assert (req_ok F (ReqErase slot)) as Hok by done.
  destruct (req_exec_facts _ _ Hok) as [Hz1 _].
  destruct (erase_ok polls ts Hpolls Hts slot d F Hok Hd) as (d1 & He & Hd1).
  rewrite (M_bind_ok _ _ _ _ _ He). cbn [Z.eqb negb].
  destruct (write_ok polls ts Hpolls Hts slot 0 (header image name version) d1 _ Hs
              ltac:(by rewrite Hz1) ltac:(lia) ltac:(rewrite Hzh; vm_compute; discriminate) Hd1)
    as (d2 & Hw & Hd2).
  rewrite (M_bind_ok _ _ _ _ _ Hw). rewrite Z.add_0_r, Hzh in Hd2.
  edestruct (write_ok polls ts Hpolls Hts slot SLOT_IMAGE_OFFSET image d2) as (d3 & Hw2 & Hd3);
    [exact Hs| | | |exact Hd2|].
  { rewrite zlen_set_slice; rewrite ?Hz1, ?Hzh; unfold_slots; lia. }
  { vm_compute. discriminate. }
  { unfold_slots. lia. }
  rewrite (M_bind_ok _ _ _ _ _ Hw2).
  change (set_slice (slot_addr slot + SLOT_IMAGE_OFFSET) _ image _)
    with (installed_flash slot image name version F) in Hd3.
  destruct (installed_flash_slots slot image name version F Hs Hl Hi) as (f1 & Hf1 & Hlf & Hwr).
  pose proof (read_written f1 slot image name version _ _ (slot_base_addr slot Hs) Hwr Hlf) as Hread.
  assert (req_ok (installed_flash slot image name version F) (ReqValidate slot)) as Hokv.
  { split; [done|]. split; [|done]. cbn [req_slot].
    destruct (write_slot_outside _ _ _ _ _ _ _ 0 0 (slot_base_addr slot Hs) Hwr Hlf) as [Hzw _];
      [lia|unfold_slots; lia|]. rewrite Hzw. exact Hlf. }
  destruct (validate_ok slot d3 _ _ _ Hokv Hd3 Hread eq_refl (land_u32 _)) as (d4 & Hv & Hd4).
  rewrite (M_bind_ok _ _ _ _ _ Hv). cbn [written_header sh_image_crc32].
  cbn [Z.eqb negb]. rewrite Z.eqb_refl. cbn [negb]. by exists d4.
Qed.

Lemma main_ok slot image name version d :
  0 <= slot < SLOT_COUNT -> slot_addr slot + SLOT_STRIDE <= zlen (dev_flash d) ->
  zlen image <= SLOT_STRIDE - SLOT_IMAGE_OFFSET -> dev_ready d ->
  exists d', main polls slot (Some image) name version (Radio ts [] d) = (Radio ts [] d', Ok 0) /\
    dev_flash d' = installed_flash slot image name version (dev_flash d).
Proof.
  intros Hs Hl Hi Hrd. unfold main.
  destruct (session_ok polls ts Hpolls Hts d Hrd) as (v & d1 & E & Hfl & Hse & Hlo & Hde).
  rewrite (M_bind_ok _ _ _ _ _ E).
  destruct (install_ok slot image name version d1 (dev_flash d) Hs Hl Hi) as (d2 & Hin & Hrest).
  { destruct Hrd. split; [split; lia|]. exact (conj Hse Hfl). }
  rewrite (M_bind_ok _ _ _ _ _ Hin). exists d2. exact (conj eq_refl (proj2 (proj2 Hrest))).
Qed.
End whole_install.

(** ** A lossy radio *)

(** It streams its screen between replies, and loses commands and handshakes
    by counters that start again after each answer. *)
Record sim := Sim {
  sim_flash : list Z;
  sim_session : option Z;
  sim_out : list (list Z);
  sim_lost : nat;
  sim_deaf : nat;
  sim_acts : bool;      (* a lost command was carried out, only its reply was lost *)
  sim_period : nat      (* how many are lost after each answer *)
}.

Definition screen : list Z := [0x55; 0xaa; 0x01; 0x02].

(** A request as the firmware reads it, with the timestamp it carries. *)
Definition decode_req (id : Z) (data : list Z) : option (request * option Z) :=
  let slot := nth 0 data 0 in
  if id =? MSG_SLOT_ERASE then Some (ReqErase slot, Some (le_dec (slice 2 6 data)))
  else if id =? MSG_SLOT_WRITE then
    Some (ReqWrite slot (le_dec (slice 2 6 data)) (slice 12 (12 + le_dec (slice 6 8 data)) data),
          Some (le_dec (slice 8 12 data)))
  else if id =? MSG_SLOT_VALIDATE then Some (ReqValidate slot, None)
  else None.

Definition sim_reply (r : request) (flash : list Z) : list Z :=
  match r with
  | ReqErase slot | ReqWrite slot _ _ => [slot; 0]
  | ReqValidate slot =>
      match read_slot flash slot with
      | Ok (Some (h, _)) =>
          if sh_crc_ok h then le_enc 4 (sh_image_crc32 h) ++ [slot; 0] else le_enc 4 0 ++ [slot; 5]
      | _ => le_enc 4 0 ++ [slot; 1]
      end
  end.

Definition sim_command (d : sim) (r : request) : sim :=
  match sim_lost d with
  | S n => Sim (if sim_acts d then req_exec r (sim_flash d) else sim_flash d) (sim_session d) []
             n (sim_deaf d) (sim_acts d) (sim_period d)
  | O => let flash := req_exec r (sim_flash d) in
         Sim flash (sim_session d) [screen; screen ++ frame (req_ack r) (sim_reply r flash) ++ screen]
           (Nat.min 3 (sim_period d)) (sim_deaf d) (sim_acts d) (sim_period d)
  end.

Definition sim_handshake (d : sim) (ts : Z) : sim :=
  match sim_deaf d with
  | S n => Sim (sim_flash d) (sim_session d) [] (sim_lost d) n (sim_acts d) (sim_period d)
  | O => Sim (sim_flash d) (Some ts) [frame MSG_SESSION_ACK (zrep 16 65)]
           (sim_lost d) (Nat.min 5 (sim_period d)) (sim_acts d) (sim_period d)
  end.

(** The header of an overlay app, as the firmware reads it of its region. *)
Definition app_header (slot : Z) (flash : list Z) : list Z :=
  slice (0x102000 + slot * 0x2000) (0x102000 + slot * 0x2000 + 64) flash.

Definition sim_app (d : sim) (slot : Z) : sim :=
  match sim_lost d with
  | S n => Sim (sim_flash d) (sim_session d) [] n (sim_deaf d) (sim_acts d) (sim_period d)
  | O => Sim (sim_flash d) (sim_session d)
           [screen; screen ++ frame MSG_APP_INFO_ACK ([slot; 0] ++ app_header slot (sim_flash d)) ++ screen]
           (Nat.min 3 (sim_period d)) (sim_deaf d) (sim_acts d) (sim_period d)
  end.

Definition sim_send (d : sim) (f : list Z) : sim :=
  match Frames.take f with
  | Some (Some (t, data), _) =>
      if t =? MSG_SESSION then sim_handshake d (le_dec (slice 0 4 data))
      else match decode_req t data with
           | Some (r, ts) =>
               if bool_decide (ts = None \/ ts = sim_session d) then sim_command d r else d
           | None => if t =? MSG_APP_INFO then sim_app d (nth 0 data 0) else d
           end
  | _ => d
  end.

Definition sim_poll (d : sim) : sim * list Z :=
  match sim_out d with
  | [] => (d, screen)
  | c :: out => (Sim (sim_flash d) (sim_session d) out (sim_lost d) (sim_deaf d) (sim_acts d)
                   (sim_period d), c)
  end.

#[export] Instance sim_link : Link sim := { link_send := sim_send; link_poll := sim_poll }.
#[export] Instance sim_device : SlotDevice sim :=
  { dev_flash := sim_flash; dev_session := sim_session; dev_lost := sim_lost;
    dev_deaf := sim_deaf; dev_latency := 1 }.

Lemma sim_silent d t (P : sim -> Prop) : sim_out d = [] -> P d -> silent d t P.
Proof.
  intros Ho HP n. exists (replicate n []), d. split; [apply length_replicate|].
  split; [|split; [by apply Forall_replicate|done]].
  induction n as [|n IH]; cbn [replicate]; [constructor|].
  apply (receives_cons d d d screen []); [|by apply carries_noise|exact IH].
  cbn [link_poll sim_link]. unfold sim_poll. by rewrite Ho.
Qed.

Lemma take_frame t data : buildable t data -> Frames.take (frame t data) = Some (Some (t, data), []).
Proof.
  intros Hb. pose proof (take_noise_frame [] t data [] Hb eq_refl) as Ht.
  cbn [app] in Ht. by rewrite app_nil_r in Ht.
Qed.

Lemma le_field (p q data : list Z) n v i j :
  data = p ++ le_enc n v ++ q -> i = zlen p -> j = i + Z.of_nat n -> 0 <= v < 256 ^ Z.of_nat n ->
  le_dec (slice i j data) = v.
Proof.
  intros -> -> -> Hv. rewrite slice_app_r by lia. rewrite Z.sub_diag, slice_0_app;
    [by apply le_dec_enc|]. unfold zlen. rewrite length_le_enc. lia.
Qed.

(** The firmware reads back the request the client encoded. *)
Lemma decode_req_data ts r flash :
  req_ok flash r -> 0 <= ts < 2 ^ 32 ->
  exists t, decode_req (req_id r) (req_data ts r) = Some (r, t) /\ (t = None \/ t = Some ts).
Proof.
  intros (Hs & Hl & Hr) Hts. unfold decode_req.
  destruct r as [slot|slot offset piece|slot]; cbn [req_id req_data req_slot] in *.
  - rewrite Z.eqb_refl. exists (Some ts). split; [|by right].
    rewrite (le_field [slot; 0] [] _ 4 ts); [done|by rewrite app_nil_r|done|done|exact Hts].
  - change (MSG_SLOT_WRITE =? MSG_SLOT_ERASE) with false. rewrite Z.eqb_refl.
    destruct Hr as (Ho & Hb & Hp). pose proof (zlen_nonneg piece). unfold CHUNK in Hp. unfold_slots.
    set (data := [slot; 0] ++ _).
    rewrite (le_field [slot; 0] _ data 4 offset _ _ eq_refl) by (try done; cbn; lia).
    rewrite (le_field ([slot; 0] ++ le_enc 4 offset) _ data 2 (zlen piece) _ _ (app_assoc _ _ _))
      by (rewrite ?zlen_app, ?zlen_le_enc; try done; cbn; lia).
    rewrite (le_field ([slot; 0] ++ le_enc 4 offset ++ le_enc 2 (zlen piece)) piece data 4 ts)
      by (try exact Hts; rewrite ?zlen_app, ?zlen_le_enc; try done; unfold data; by rewrite <- !app_assoc).
    assert (slice 12 (12 + zlen piece) data = piece) as ->.
    { unfold data. rewrite !app_assoc, slice_app_r by (rewrite !zlen_app, !zlen_le_enc; done).
      rewrite !zlen_app, !zlen_le_enc. apply slice_all. change (zlen [slot; 0]) with 2. lia. }
    exists (Some ts). split; [done|by right].
  - exists None. split; [done|by left].
Qed.

Lemma sim_reply_buildable r flash : buildable (req_ack r) (sim_reply r flash).
Proof.
  unfold buildable. split; [destruct r; range_tac|].
  assert (zlen (sim_reply r flash) <= 6) as ?; [|lia].
  destruct r; cbn [sim_reply]; [done|done|].
  destruct (read_slot _ _) as [[[h ?]|]|]; [destruct (sh_crc_ok h)| |];
    rewrite zlen_app, zlen_le_enc; done.
Qed.

Lemma sim_reply_answers r flash : req_answer r flash (sim_reply r flash).
Proof.
  destruct r; cbn [req_answer sim_reply]; [done|done|]. intros h image -> ->. done.
Qed.

Lemma sim_answers d t reply out :
  sim_out d = [screen; screen ++ frame t reply ++ screen] -> buildable t reply ->
  out = Sim (sim_flash d) (sim_session d) [] (sim_lost d) (sim_deaf d) (sim_acts d) (sim_period d) ->
  answers 1 d t reply out.
Proof.
  intros Ho Hb ->. exists [[]], [(t, reply)]. split; [done|]. split.
  - cbn [app]. destruct d as [fl se o lo de ac pe]. cbn in Ho. subst o.
    eapply (receives_cons _ _ _ screen []); [done|by apply carries_noise|].
    eapply (receives_cons _ _ _ (screen ++ frame t reply ++ screen) [(t, reply)]); [done| |constructor].
    apply carries_frame; [done|done|by apply carries_noise].
  - split; [by repeat constructor|]. cbn [last_of fst snd]. by rewrite Z.eqb_refl.
Qed.

#[export] Program Instance sim_radio : SlotRadio sim.
Next Obligation.
  intros d ts f [Hlo Hde] Hts [Hb ->]%build_iff.
  cbn [link_send sim_link dev_deaf sim_device]. unfold sim_send. rewrite take_frame by done.
  cbn [dev_lost dev_deaf sim_device] in *.
  rewrite Z.eqb_refl.
  rewrite (le_field [] (zrep 4 0) (le_enc 4 ts ++ zrep 4 0) 4 ts 0 4 eq_refl eq_refl eq_refl Hts).
  unfold sim_handshake. destruct (sim_deaf d) as [|n] eqn:En.
  - exists (zrep 16 65). eexists. split.
    + exists [], [(MSG_SESSION_ACK, zrep 16 65)]. split; [cbn; lia|].
      split; [|split; [constructor|done]].
      eapply (receives_cons _ _ _ ([] ++ frame MSG_SESSION_ACK (zrep 16 65) ++ []) _);
        [by rewrite app_nil_r| |constructor].
      apply carries_frame; [done|split; [range_tac|vm_compute; reflexivity]|by apply carries_noise].
    + cbn -[Nat.min]. split_and!; try done; lia.
  - apply sim_silent; [done|]. cbn. split_and!; try done. by left.
Qed.
Next Obligation.
  intros d ts r f [Hlo Hde] Hse Hts Hok [Hb ->]%build_iff.
  cbn [link_send sim_link dev_lost dev_deaf dev_session dev_flash dev_latency sim_device] in *.
  unfold sim_send. rewrite take_frame by done.
  assert ((req_id r =? MSG_SESSION) = false) as -> by (by destruct r).
  destruct (decode_req_data ts r _ Hok Hts) as (t & -> & Ht).
  rewrite bool_decide_true by (rewrite Hse; tauto).
  unfold sim_command. destruct (sim_lost d) as [|n] eqn:En.
  - exists (sim_reply r (req_exec r (sim_flash d))). eexists. split.
    + eapply sim_answers; [done|apply sim_reply_buildable|done].
    + refine (conj eq_refl (conj (sim_reply_answers r _) (conj Hse (conj _ _))));
        cbn -[Nat.min]; lia.
  - apply sim_silent; [done|]. cbn. split; [destruct (sim_acts d); [by right|by left]|].
    by split_and!.
Qed.

(** ** Properties *)

(** C3. Writing a firmware slot over the serial link.  For any radio that keeps
    the promises of [SlotRadio] - it loses at most three commands and five
    handshakes in a row, whatever the session it is in; a command it does not
    lose is carried out and answered within the wait, none later; a poll
    brings whole frames, not parts of one, with screen data or other noise
    between them in which the start marker AB CD does not occur - for a slot
    that lies within the radio's flash and an image that fits it: [main] exits
    with status 0, and the radio's flash is then byte for byte what erasing
    the slot and [write_slot] leave in an image file. *)
Theorem serial_install_writes_slot {D} `{SlotRadio D} polls now slot image name version (d : D) :
  (forall w, 2500 <= w -> (dev_latency < polls w)%nat) -> dev_ready d ->
  0 <= slot < SLOT_COUNT -> slot_addr slot + SLOT_STRIDE <= zlen (dev_flash d) ->
  zlen image <= SLOT_STRIDE - SLOT_IMAGE_OFFSET ->
  exists s f1, main polls slot (Some image) name version (open_radio now d) = (s, Ok 0) /\
    erase_slot (dev_flash d) slot = Ok f1 /\
    write_slot f1 slot image name version = Ok (dev_flash (rd_dev s)).
Proof.
  intros Hp Hrd Hs Hl Hi.
  destruct (main_ok polls _ Hp (stamp_range now) slot image name version d Hs Hl Hi Hrd)
    as (d' & Hm & Hfl).
  destruct (installed_flash_slots slot image name version _ Hs Hl Hi) as (f1 & He & _ & Hw).
  exists (Radio (Z.land now 0xFFFFFFFF) [] d'), f1. rewrite <- Hfl in Hw.
  exact (conj Hm (conj He Hw)).
Qed.

Definition sim0 : sim := Sim (zrep 0x40000 0xff) None [] 3 5 true 2.

Lemma serial_install_writes_slot_witness :
  dev_ready sim0 /\
  exists s f1, main (fun _ => 2%nat) 0 (Some (zrep 450 7)) (lit "F4HWN") (lit "v4") (open_radio 99 sim0)
      = (s, Ok 0) /\
    erase_slot (dev_flash sim0) 0 = Ok f1 /\
    write_slot f1 0 (zrep 450 7) (lit "F4HWN") (lit "v4") = Ok (dev_flash (rd_dev s)).
Proof.
  assert (dev_ready sim0) as Hrd by (split; cbn; lia). split; [exact Hrd|].
  apply (serial_install_writes_slot (fun _ => 2%nat) 99 0 _ _ _ sim0); [|exact Hrd|split; done| |].
  - intros. apply le_n.
  - cbn [dev_flash sim_device sim_flash sim0]. rewrite zlen_rep by lia. discriminate.
  - vm_compute. discriminate.
Defined.

Section deaf.
Context {D : Type} `{Link D} (polls : Z -> nat).
Hypothesis Hsilent : forall d : D, (link_poll d).2 = [].

Lemma pump_silent rounds want ts (d : D) :
  exists d', pump_loop rounds want ∅ (Radio ts [] d) = (Radio ts [] d', ∅).
Proof.
  revert d; induction rounds as [|rounds IH]; intros d; [by exists d|].
  destruct (link_poll d) as [d1 c] eqn:E. pose proof (Hsilent d) as Hc. rewrite E in Hc.
  cbn [snd] in Hc. subst c.
  rewrite (pump_step rounds want ∅ ts d d1 [] [] E (carries_noise [] eq_refl)).
  cbn [last_of]. rewrite lookup_empty. apply IH.
Qed.

Lemma handshakes_silent attempts f ts (d : D) :
  exists d', handshakes polls attempts f (Radio ts [] d) = (Radio ts [] d', None).
Proof.
  revert d; induction attempts as [|attempts IH]; intros d; [by exists d|].
  cbn [handshakes]. unfold exchange, send_frame. cbn [rd_timestamp rd_buf rd_dev].
  destruct (pump_silent (polls 2500) MSG_SESSION_ACK ts (link_send d f)) as [d1 ->].
  rewrite lookup_empty. apply IH.
Qed.
End deaf.

(** A line with nothing at the other end. *)
Definition deaf_link : Link unit := {| link_send := fun d _ => d; link_poll := fun d => (d, []) |}.

(** Against a line that never answers, [main] reports the failure: it
    exits with status 1 whatever it was asked to do, and it gives up after the
    six handshakes without sending a single slot command. *)
Theorem silent_radio_reported {D} `{Link D} polls now slot image name version (d : D) :
  (forall d : D, (link_poll d).2 = []) ->
  exists s, main polls slot image name version (open_radio now d) = (s, Ok 1) /\
    session polls (open_radio now d)
      = (s, raise SlotError "no 0x0515 reply after 6 handshakes" []).
Proof.
  intros Hsil. unfold open_radio.
  assert (exists s, session polls (Radio (Z.land now 0xFFFFFFFF) [] d)
            = (s, raise SlotError "no 0x0515 reply after 6 handshakes" [])) as [s Hs].
  { unfold session. cbn [rd_timestamp]. rewrite (pack_u32 _ (stamp_range now)). cbn [mbind result_bind].
    set (data := le_enc 4 (Z.land now 0xFFFFFFFF) ++ zrep 4 0).
    assert (build MSG_SESSION data = Ok (frame MSG_SESSION data)) as ->.
    { apply build_iff. split; [|done]. unfold buildable, data. rewrite zlen_app, zlen_le_enc.
      split; [range_tac|done]. }
    destruct (handshakes_silent polls Hsil 6 (frame MSG_SESSION data) (Z.land now 0xFFFFFFFF) d)
      as [d' ->].
    eexists. reflexivity. }
  exists s. split; [|exact Hs]. unfold main, mbind, M_bind. rewrite Hs. reflexivity.
Qed.

Lemma silent_radio_reported_witness :
  (@link_poll _ deaf_link tt).2 = [] /\
  exists s, @main _ deaf_link (fun _ => 3%nat) 1 None [] [] (open_radio 5 tt) = (s, Ok 1) /\
    @session _ deaf_link (fun _ => 3%nat) (open_radio 5 tt)
      = (s, raise SlotError "no 0x0515 reply after 6 handshakes" []).
Proof.
  split; [reflexivity|].
  apply (@silent_radio_reported _ deaf_link (fun _ => 3%nat) 5 1 None [] [] tt). intros []. reflexivity.
Defined.

(** ** A late reply *)

(** A radio that carries out the first command but answers it late: the
    client has sent the command again by then, both are answered, and the
    second answer waits in the line.  The next new command never arrives. *)
Record late := Late { late_out : list (list Z); late_seen : list (Z * list Z); late_left : nat }.

Definition late_send (d : late) (f : list Z) : late :=
  match Frames.take f, late_left d with
  | Some (Some (t, data), _), S n =>
      if t =? MSG_SLOT_WRITE
      then Late (late_out d) (late_seen d ++ [(le_dec (slice 2 6 data), drop 12 data)]) n
      else d
  | _, _ => d
  end.

Definition late_poll (d : late) : late * list Z :=
  match late_out d with
  | [] => (d, [])
  | c :: out => (Late out (late_seen d) (late_left d), c)
  end.

Definition late_link : Link late := {| link_send := late_send; link_poll := late_poll |}.

Definition late0 : late :=
  Late [[]; frame MSG_SESSION_ACK (zrep 16 65); frame MSG_SLOT_WRITE_ACK [1; 0];
        frame MSG_SLOT_WRITE_ACK [1; 0]] [] 2.

(** A resent chunk leaves a second acknowledgement on the line, and [write]
    takes it for the next chunk's: here a write of two chunks returns
    normally although the radio only ever received the first of them, twice.
    Nothing in an acknowledgement names the offset it is for; only the
    checksum that [install] asks for afterwards can notice. *)
Theorem stale_ack_hides_lost_chunk :
  let r := @write _ late_link (fun _ => 1%nat) 1 0 (zrep 400 7) (Radio 5 [] late0) in
  r.2 = Ok tt /\ late_seen (rd_dev r.1) = [(0, zrep 200 7); (0, zrep 200 7)].
Proof. vm_compute. split; reflexivity. Qed.
