(* ===== verification/Reader.v ===== *)
(** The two threads of [Radio] in [src/tools/uvk5_slots_serial.py]: the reader
    thread ([_read_loop]) that empties the socket into the shared reassembler,
    and the main thread in [_pump], which looks at it.  Both take the lock for
    what they do to the reassembler.  Every interleaving is a run of the
    sequential [_pump] of [SlotsSerial] over a link, which is what its client
    is proved against. *)
From S2P Require Import Prelude Struct SerialFlash Flasher SlotsSerial.
Open Scope Z_scope.

(** ** The threads *)

(** The reader: before [recv], holding a chunk it has yet to feed, or
    returned. *)
Inductive reader := Receiving | Holding (chunk : list Z) | Returned.

(** The socket (what the radio sent and was not received, and whether the
    other end is closed), [_stop], the reader, the reassembler, and [_pump]:
    what it has got and whether it is back. *)
Record threads := Threads {
  th_wire : list Z; th_hung_up : bool; th_stop : bool; th_reader : reader;
  th_frames : list Z; th_got : gmap Z (list Z); th_back : bool
}.

Inductive event :=
| Arrive (bytes : list Z)      (* the radio sends *)
| HangUp                       (* the other end closes *)
| Recv (n : nat)               (* the reader's [recv] returns, with up to [n] bytes *)
| TimedOut                     (* it raises [socket.timeout] or [OSError] *)
| Feed                         (* the reader has the lock *)
| Look                         (* [_pump] has the lock *)
| Deadline                     (* [_pump]'s time is over *)
| Close.                       (* [close], from any thread *)

Definition set_reader (s : threads) (wire : list Z) (r : reader) : threads :=
  Threads wire (th_hung_up s) (th_stop s) r (th_frames s) (th_got s) (th_back s).

Definition RECV_SIZE : nat := Z.to_nat 65536.

(** An iteration of [_read_loop] up to its [with self._lock]. *)
Definition receive (s : threads) (n : nat) : threads :=
  match th_reader s with
  | Receiving =>
      if th_stop s then set_reader s (th_wire s) Returned
      else
        match take (Nat.min n RECV_SIZE) (th_wire s) with
        | [] => match th_wire s with
                | [] => if th_hung_up s then set_reader s [] Returned else s
                | _ => s
                end
        | chunk => set_reader s (drop (Nat.min n RECV_SIZE) (th_wire s)) (Holding chunk)
        end
  | _ => s
  end.

(** [with self._lock: self.frames.feed(chunk)]. *)
Definition feed_chunk (s : threads) : threads :=
  match th_reader s with
  | Holding chunk =>
      Threads (th_wire s) (th_hung_up s) (th_stop s) Receiving (Frames.feed (th_frames s) chunk) (th_got s) (th_back s)
  | _ => s
  end.

(** One round of [_pump]: every message, then the test for [want]. *)
Definition look (want : Z) (s : threads) : threads :=
  if th_back s then s
  else
    let '(ms, buf) := messages (th_frames s) in
    let got := got_all (th_got s) ms in
    Threads (th_wire s) (th_hung_up s) (th_stop s) (th_reader s) buf got (bool_decide (is_Some (got !! want))).

Definition step (want : Z) (s : threads) (ev : event) : threads :=
  match ev with
  | Arrive bytes =>
      Threads (th_wire s ++ bytes) (th_hung_up s) (th_stop s) (th_reader s) (th_frames s) (th_got s) (th_back s)
  | HangUp => Threads (th_wire s) true (th_stop s) (th_reader s) (th_frames s) (th_got s) (th_back s)
  | Recv n => receive s n
  | TimedOut => match th_reader s with
                | Receiving => if th_stop s then set_reader s (th_wire s) Returned else s
                | _ => s
                end
  | Feed => feed_chunk s
  | Look => look want s
  | Deadline => Threads (th_wire s) (th_hung_up s) (th_stop s) (th_reader s) (th_frames s) (th_got s) true
  | Close => Threads (th_wire s) (th_hung_up s) true (th_reader s) (th_frames s) (th_got s) (th_back s)
  end.

Definition run (want : Z) (s : threads) (evs : list event) : threads := foldl (step want) s evs.

(** [_pump] begins: the reassembler holds what earlier calls left. *)
Definition pumping (wire : list Z) (r : reader) (frames : list Z) : threads :=
  Threads wire false false r frames ∅ false.

(** What has been sent and is not in the reassembler yet. *)
Definition in_flight (s : threads) : list Z :=
  (match th_reader s with Holding chunk => chunk | _ => [] end) ++ th_wire s.
Fixpoint arrived (evs : list event) : list Z :=
  match evs with
  | [] => []
  | Arrive bytes :: evs => bytes ++ arrived evs
  | _ :: evs => arrived evs
  end.

Lemma arrived_app evs1 evs2 : arrived (evs1 ++ evs2) = arrived evs1 ++ arrived evs2.
Proof. induction evs1 as [|[] evs1 IH]; cbn [app arrived]; rewrite ?IH, ?app_assoc; done. Qed.

(** A link that brings what is written down, one entry a look. *)
#[export] Instance script_link : Link (list (list Z)) := {
  link_send := fun d _ => d;
  link_poll := fun d => match d with [] => ([], []) | c :: d => (d, c) end
}.

(** ** Every interleaving is a sequential run *)

(** Where the threads are, against the sequential pump over [script]. *)
Definition matches (want ts : Z) (frames sent : list Z) (s : threads) (script : list (list Z)) (seg : list Z) : Prop :=
  concat script ++ seg ++ in_flight s = sent /\
  exists buf, th_frames s = buf ++ seg /\
    pump_loop (length script) want ∅ (Radio ts frames script) = (Radio ts buf [], th_got s) /\
    (th_back s = false -> th_got s !! want = None).

Lemma pump_snoc want ts c script : forall got buf buf' got',
  pump_loop (length script) want got (Radio ts buf script) = (Radio ts buf' [], got') ->
  got' !! want = None ->
  pump_loop (length (script ++ [c])) want got (Radio ts buf (script ++ [c])) =
    let '(ms, b) := messages (Frames.feed buf' c) in (Radio ts b [], got_all got' ms).
Proof.
  induction script as [|d script IH]; intros got buf buf' got' Hp Hnone.
  - cbn in Hp. injection Hp as -> ->. cbn [length app pump_loop rd_dev rd_buf rd_timestamp link_poll script_link].
    destruct (messages _) as [ms b]. by case_match.
  - cbn [length app pump_loop rd_dev rd_buf rd_timestamp link_poll script_link] in Hp |- *.
    destruct (messages (Frames.feed buf d)) as [ms b].
    destruct (got_all got ms !! want) as [x|] eqn:Hx; [|by apply IH].
    injection Hp as _ _ <-. congruence.
Qed.

Lemma matches_look want ts frames sent s script seg :
  matches want ts frames sent s script seg -> th_back s = false ->
  matches want ts frames sent (look want s) (script ++ [seg]) [].
Proof.
  intros (Hsent & buf & Hbuf & Hp & Hnone) Hback. unfold look. rewrite Hback, Hbuf. specialize (Hnone Hback).
  pose proof (pump_snoc want ts seg script _ _ _ _ Hp Hnone) as Hsnoc. unfold Frames.feed in Hsnoc.
  destruct (messages (buf ++ seg)) as [ms b]. split.
  - rewrite concat_app. cbn [concat]. rewrite app_nil_r, <- app_assoc. exact Hsent.
  - exists b. cbn. rewrite app_nil_r. split; [done|]. split; [done|]. intros H%bool_decide_eq_false.
    by apply eq_None_not_Some.
Qed.

(** Bytes move towards the reassembler, in order. *)
Lemma receive_in_flight s n : in_flight (receive s n) = in_flight s.
Proof.
  unfold receive, in_flight. destruct (th_reader s) eqn:Hr; [|by rewrite Hr..].
  destruct (th_stop s); [done|]. destruct (take _ _) eqn:Ht.
  - destruct (th_wire s) eqn:Hw; [|by rewrite Hr, Hw]. destruct (th_hung_up s); [done|by rewrite Hr, Hw].
  - cbn [set_reader th_reader th_wire]. rewrite <- Ht. by rewrite take_drop.
Qed.

Lemma receive_rest s n :
  th_frames (receive s n) = th_frames s /\ th_got (receive s n) = th_got s /\ th_back (receive s n) = th_back s.
Proof. unfold receive. by repeat case_match. Qed.

Lemma matches_step want ts frames sent s script seg ev :
  matches want ts frames sent s script seg ->
  exists script' seg', matches want ts frames (sent ++ arrived [ev]) (step want s ev) script' seg'.
Proof.
  intros Hm. assert ((ev = Look /\ th_back s = false) \/ ~ (ev = Look /\ th_back s = false)) as [[-> Hback]|Hlook]
    by (destruct ev, (th_back s); naive_solver).
  { exists (script ++ [seg]), []. cbn [arrived step]. rewrite app_nil_r. by apply matches_look. }
  destruct Hm as (Hsent & buf & Hbuf & Hp & Hnone).
  destruct ev as [bytes| |n| | | | |]; cbn [arrived step]; rewrite ?app_nil_r.
  - exists script, seg. split; [|by exists buf]. unfold in_flight in *. cbn.
    rewrite <- Hsent. by rewrite <- !app_assoc.
  - exists script, seg. split; [done|by exists buf].
  - exists script, seg. destruct (receive_rest s n) as (Hf & Hg & Hb). split; [by rewrite receive_in_flight|].
    exists buf. by rewrite Hf, Hg, Hb.
  - exists script, seg. destruct s as [wire hung stop rd fr got back]. unfold set_reader. cbn in *.
    destruct rd; [destruct stop|..]; (split; [done|by exists buf]).
  - unfold feed_chunk, Frames.feed. destruct (th_reader s) as [|chunk|] eqn:Hr; [|exists script, (seg ++ chunk)|].
    + exists script, seg. split; [done|by exists buf].
    + split; [unfold in_flight in *; rewrite Hr in Hsent; cbn; by rewrite <- app_assoc|].
      exists buf. cbn. by rewrite Hbuf, <- app_assoc.
    + exists script, seg. split; [done|by exists buf].
  - destruct (th_back s) eqn:Hback; [|by destruct Hlook]. exists script, seg. unfold look. rewrite Hback.
    split; [done|]. exists buf. by rewrite Hback.
  - exists script, seg. split; [done|]. exists buf. split; [done|]. by split.
  - exists script, seg. split; [done|]. by exists buf.
Qed.

(** C12. The threads refine the sequential [_pump]: whatever the radio sends
    and however the reader's receives, its waits for the lock, the looks of
    [_pump], its deadline and [close] are interleaved, what [_pump] has got is
    what the sequential [_pump] gets from a link that brings the same bytes in
    the same order, cut at the looks; no byte is lost, repeated or moved
    before another, and what is left in the reassembler is what the next call
    starts with. *)
Theorem threads_refine_pump want ts wire frames evs :
  let s := run want (pumping wire Receiving frames) evs in
  exists script seg buf,
    concat script ++ seg ++ in_flight s = wire ++ arrived evs /\
    th_frames s = buf ++ seg /\
    pump_loop (length script) want ∅ (Radio ts frames script) = (Radio ts buf [], th_got s).
Proof.
  cbv zeta. assert (exists script seg, matches want ts frames (wire ++ arrived evs)
    (run want (pumping wire Receiving frames) evs) script seg) as (script & seg & H & buf & H1 & H2 & _).
  2: { by exists script, seg, buf. }
  induction evs as [|ev evs IH] using rev_ind.
  - exists [], []. split; [by cbn; rewrite app_nil_r|]. exists frames. cbn. by rewrite app_nil_r.
  - destruct IH as (script & seg & Hm). unfold run. rewrite foldl_app. cbn [foldl].
    rewrite arrived_app, app_assoc. by apply (matches_step want ts frames _ _ script seg).
Qed.

(** ** The reply gets through *)

Lemma partial_stream ms p : all_buildable ms -> partial p -> p = concat (SerialFlash.frames ms) -> ms = [].
Proof.
  intros Hms Hp ->. destruct ms as [|[t d] ms]; [done|]. exfalso. apply Forall_cons in Hms as [Hm _].
  apply take_partial in Hp. pose proof (take_noise_frame [] t d (concat (frames ms)) Hm eq_refl) as HS.
  cbn [app] in HS. cbn [frames map concat fst snd] in Hp. fold (frames ms) in Hp. congruence.
Qed.

(** How much of what arrived is in the reassembler, or was. *)
Definition fed (want : Z) (s : threads) (evs : list event) : nat :=
  length (arrived evs) - length (in_flight (run want s evs)).

(** No look comes when the bytes fed end one byte into a frame. *)
Definition looks_ok (want : Z) (ms : list (Z * list Z)) (evs : list event) : Prop :=
  forall evs1 evs2, evs = evs1 ++ Look :: evs2 ->
    offset ms (fed want (pumping [] Receiving []) evs1) <> 1%nat.

(** [_pump] has the first messages of the stream, and the rest of it is
    split between the reassembler, the reader, the socket and the future. *)
Definition reading (ms : list (Z * list Z)) (future : list Z) (s : threads) (p seg : list Z) : Prop :=
  exists ms1 ms2, ms = ms1 ++ ms2 /\ th_got s = got_all ∅ ms1 /\ th_frames s = p ++ seg /\
    partial p /\ length p <> 1%nat /\ p ++ seg ++ in_flight s ++ future = concat (frames ms2).

Lemma reading_look want ms future s p seg :
  all_buildable ms -> reading ms future s p seg -> th_back s = false ->
  offset ms (length (concat (frames ms)) - length (in_flight s ++ future)) <> 1%nat ->
  exists p', reading ms future (look want s) p' [].
Proof.
  intros Hms (ms1 & ms2 & -> & Hgot & Hfr & Hp & Hp1 & Hstream) Hback Hoff.
  apply Forall_app in Hms as [_ Hms2].
  destruct (stream_prefix ms2 (p ++ seg) (in_flight s ++ future) Hms2) as (m1 & m2 & p' & -> & Hs & Hp' & Hr & Ho).
  { by rewrite <- app_assoc. }
  apply Forall_app in Hms2 as [Hm1 _]. exists p', (ms1 ++ m1), m2.
  unfold look. rewrite Hback, Hfr, Hs. unfold messages. rewrite (drain_frames m1 p' Hm1 Hp').
  assert (length p' <> 1%nat) as Hl.
  { rewrite <- Ho. intros H1. apply Hoff. rewrite <- H1.
    replace (length (concat (frames (ms1 ++ m1 ++ m2))) - length (in_flight s ++ future))%nat
      with (length (concat (frames ms1)) + length (p ++ seg))%nat; [apply offset_skip|].
    unfold frames at 2. rewrite map_app, concat_app, length_app. fold (frames ms1) (frames (m1 ++ m2)).
    rewrite <- Hstream, !length_app. lia. }
  assert (held p' = p') as Hheld by (unfold held; destruct p' as [|x [|y p']]; done).
  cbn. rewrite Hheld, app_nil_r. split; [by rewrite app_assoc|]. split; [by rewrite Hgot; unfold got_all; rewrite foldl_app|].
  split; [done|]. split; [done|]. split; [done|]. by rewrite <- Hr.
Qed.

Lemma reading_step want ms future s p seg ev :
  reading ms (arrived [ev] ++ future) s p seg -> ev <> Look ->
  exists seg', reading ms future (step want s ev) p seg'.
Proof.
  intros (ms1 & ms2 & -> & Hgot & Hfr & Hp & Hp1 & Hs) Hev.
  assert (exists seg', th_frames (step want s ev) = p ++ seg' /\ th_got (step want s ev) = th_got s /\
    seg' ++ in_flight (step want s ev) = seg ++ in_flight s ++ arrived [ev]) as (seg' & H1 & H2 & H3).
  { destruct ev as [bytes| |n| | | | |]; cbn [step arrived]; rewrite ?app_nil_r; try done.
    - exists seg. split; [done|]. split; [done|]. unfold in_flight. cbn. by rewrite <- !app_assoc.
    - by exists seg.
    - exists seg. destruct (receive_rest s n) as (-> & -> & _). by rewrite receive_in_flight.
    - exists seg. destruct s as [wire hung stop rd fr got back]. unfold set_reader. cbn in *.
      by destruct rd; [destruct stop|..].
    - destruct s as [wire hung stop rd fr got back]. unfold feed_chunk, Frames.feed. cbn in *.
      destruct rd as [|chunk|]; [by exists seg| |by exists seg]. exists (seg ++ chunk). cbn.
      by rewrite Hfr, <- !app_assoc.
    - by exists seg.
    - by exists seg. }
  exists seg', ms1, ms2. split; [done|]. split; [by rewrite H2|]. split; [done|]. split; [done|]. split; [done|].
  rewrite <- Hs. rewrite (app_assoc seg'), H3. by rewrite <- !app_assoc.
Qed.

Lemma reading_run want ms evs : forall future,
  all_buildable ms -> arrived evs ++ future = concat (frames ms) -> looks_ok want ms evs ->
  exists p seg, reading ms future (run want (pumping [] Receiving []) evs) p seg.
Proof.
  induction evs as [|ev evs IH] using rev_ind; intros future Hms Hst Hok.
  { exists [], [], [], ms. repeat split; try done. by left. }
  rewrite arrived_app, <- app_assoc in Hst.
  destruct (IH (arrived [ev] ++ future) Hms Hst) as (p & seg & Hr).
  { intros e1 e2 ->. apply (Hok e1 (e2 ++ [ev])). by rewrite <- app_assoc. }
  unfold run. rewrite foldl_app. cbn [foldl]. fold (run want (pumping [] Receiving []) evs).
  assert (ev = Look \/ ev <> Look) as [->|Hev] by (destruct ev; auto).
  - set (s := run want _ evs) in *. cbn [step]. destruct (th_back s) eqn:Hback.
    + exists p, seg. unfold look. by rewrite Hback.
    + destruct (reading_look want ms future s p seg Hms Hr Hback) as (p' & Hr'); [|by exists p', []].
      intros Ho. apply (Hok evs []); [done|]. unfold fed. fold s. rewrite <- Ho. f_equal.
      apply (f_equal length) in Hst. cbn [arrived app] in Hst. rewrite !length_app in *. lia.
  - destruct (reading_step want ms future _ p seg ev Hr Hev) as (seg' & Hr'). by exists p, seg'.
Qed.

Lemma back_with_reply want evs :
  Deadline ∉ evs ->
  let s := run want (pumping [] Receiving []) evs in th_back s = true -> is_Some (th_got s !! want).
Proof.
  cbv zeta. induction evs as [|ev evs IH] using rev_ind; intros Hd; [done|].
  rewrite not_elem_of_app, list_elem_of_singleton in Hd. destruct Hd as [Hd Hne]. specialize (IH Hd).
  unfold run. rewrite foldl_app. cbn [foldl]. fold (run want (pumping [] Receiving []) evs).
  set (s := run want _ evs) in *. destruct ev as [bytes| |n| | | | |]; cbn [step th_back th_got]; try done.
  - destruct (receive_rest s n) as (_ & -> & ->). exact IH.
  - destruct (th_reader s); [destruct (th_stop s)|..]; exact IH.
  - unfold feed_chunk. destruct (th_reader s); exact IH.
  - unfold look. destruct (th_back s) eqn:Hb; [intros _; by apply IH|]. destruct (messages _) as [ms b].
    cbn. apply bool_decide_eq_true.
Qed.

Lemma last_of_in t ms acc d : last_of t ms acc = Some d -> (t, d) ∈ ms \/ acc = Some d.
Proof.
  revert acc; induction ms as [|[u e] ms IH]; intros acc; cbn [last_of fst snd]; [by right|].
  intros [H|H]%IH; [left; by right|]. destruct (Z.eqb_spec u t) as [->|]; [|by right].
  injection H as ->. left. by left.
Qed.

Lemma last_of_some t ms acc : (exists d, (t, d) ∈ ms) \/ is_Some acc -> is_Some (last_of t ms acc).
Proof.
  revert acc; induction ms as [|[u e] ms IH]; intros acc H; cbn [last_of fst snd].
  { destruct H as [[d Hd]|H]; [by apply not_elem_of_nil in Hd|done]. }
  apply IH. destruct H as [[d [E|Hd]%elem_of_cons]|H].
  - injection E as <- <-. right. by rewrite Z.eqb_refl.
  - left. by exists d.
  - right. destruct (u =? t); [done|exact H].
Qed.

(** C15. A reply that was sent is returned: once the reader thread has caught
    up with a stream of frames that holds an answer of the wanted type, the
    next look of [_pump] returns with the data of such an answer, however the
    bytes were cut into receives and however the receives, the waits for the
    lock and the earlier looks were interleaved, unless the time ran out
    first or a look came one byte into a frame. *)
Theorem reply_gets_through want ms fs evs :
  Forall2 built ms fs -> arrived evs = concat fs -> Deadline ∉ evs -> looks_ok want ms (evs ++ [Look]) ->
  in_flight (run want (pumping [] Receiving []) evs) = [] -> want ∈ map fst ms ->
  let s := run want (pumping [] Receiving []) (evs ++ [Look]) in
  th_back s = true /\ exists d, th_got s !! want = Some d /\ (want, d) ∈ ms.
Proof.
  intros [Hms ->]%built_frames Harr Hd Hok Hfl Hw s.
  destruct (reading_run want ms evs [] Hms) as (p & seg & Hr); [by rewrite app_nil_r| |].
  { intros e1 e2 ->. apply (Hok e1 (e2 ++ [Look])). by rewrite <- app_assoc. }
  set (s0 := run want (pumping [] Receiving []) evs) in *.
  assert (s = look want s0) as Hs by (unfold s, run; by rewrite foldl_app).
  assert (forall d ms1 ms2, ms = ms1 ++ ms2 -> got_all ∅ ms1 !! want = Some d -> (want, d) ∈ ms) as Hin.
  { intros d ms1 ms2 ->. rewrite lookup_got_all, lookup_empty. intros [H|H]%last_of_in; [|done].
    apply elem_of_app. by left. }
  destruct (th_back s0) eqn:Hb.
  - assert (s = s0) as -> by (rewrite Hs; unfold look; by rewrite Hb). split; [done|].
    destruct (back_with_reply want evs Hd Hb) as [d Hgd]. exists d. split; [done|].
    destruct Hr as (ms1 & ms2 & E & Hgot & _). apply (Hin d ms1 ms2 E). rewrite <- Hgot. exact Hgd.
  - destruct (reading_look want ms [] s0 p seg Hms Hr Hb) as (p' & ms1 & ms2 & E & Hgot & _ & Hp' & _ & Hstream).
    { intros Ho. apply (Hok evs []); [done|]. unfold fed. fold s0. rewrite <- Ho. f_equal.
      by rewrite Harr, Hfl. }
    assert (in_flight (look want s0) = in_flight s0) as Hfl2.
    { unfold look. rewrite Hb. by destruct (messages _). }
    rewrite Hfl2, Hfl, !app_nil_r in Hstream. rewrite E in Hms. apply Forall_app in Hms as [_ Hms2].
    rewrite (partial_stream ms2 p' Hms2 Hp' Hstream), app_nil_r in E. subst ms1.
    destruct (last_of_some want ms None) as [d Hdat].
    { left. apply list_elem_of_fmap in Hw as ([t d] & -> & Hw). by exists d. }
    assert (th_got s !! want = Some d) as Hgd by (rewrite Hs, Hgot, lookup_got_all, lookup_empty; exact Hdat).
    split; [|exists d; split; [done|]; apply last_of_in in Hdat as [?|?]; done].
    rewrite Hs in Hgd |- *. unfold look in *. rewrite Hb in *. destruct (messages _) as [ms' b]. cbn in *.
    apply bool_decide_eq_true. by exists d.
Qed.

(** ** A concrete run *)

Definition looks_okb (want : Z) (ms : list (Z * list Z)) (evs : list event) : bool :=
  forallb (fun k => match evs !! k with
                    | Some Look => negb (offset ms (fed want (pumping [] Receiving []) (take k evs)) =? 1)%nat
                    | _ => true
                    end) (seq 0 (length evs)).

Lemma looks_okb_ok want ms evs : looks_okb want ms evs = true -> looks_ok want ms evs.
Proof.
  intros H evs1 evs2 ->. unfold looks_okb in H. rewrite forallb_forall in H.
  specialize (H (length evs1)). rewrite take_app_length, list_lookup_middle in H by done.
  apply Nat.eqb_neq, negb_true_iff, H. apply in_seq. rewrite length_app. cbn. lia.
Qed.

(** The answer to an erase, received in two pieces with a look between. *)
Definition two_pieces : list event :=
  let f := frame MSG_SLOT_ERASE_ACK [1; 0] in
  [Look; Arrive (take 5 f); Recv 100; Arrive (drop 5 f); Feed; Look; TimedOut; Recv 100; Look; Feed].

Lemma reply_gets_through_witness :
  th_got (run MSG_SLOT_ERASE_ACK (pumping [] Receiving []) (two_pieces ++ [Look])) !! MSG_SLOT_ERASE_ACK = Some [1; 0].
Proof.
  destruct (reply_gets_through MSG_SLOT_ERASE_ACK [(MSG_SLOT_ERASE_ACK, [1; 0])] [frame MSG_SLOT_ERASE_ACK [1; 0]]
    two_pieces) as (_ & d & Hd & Hin).
  - repeat constructor; vm_compute; reflexivity.
  - vm_compute. reflexivity.
  - intros Hin. unfold two_pieces in Hin. repeat (apply elem_of_cons in Hin as [Hin|Hin]; [discriminate|]).
    by apply not_elem_of_nil in Hin.
  - apply looks_okb_ok. vm_compute. reflexivity.
  - vm_compute. reflexivity.
  - by left.
  - rewrite Hd. f_equal. apply list_elem_of_singleton in Hin. by injection Hin.
Defined.
