(* ===== verification/Apps.v ===== *)
(** The overlay apps of [src/tools/uvk5_apps.py]: the .app blob (a 64-byte
    FAP1 header and its code), packing and validating it, and installing,
    reading and erasing app slots in the bytes of a flash image. *)
From S2P Require Import Prelude Struct.

Definition MAGIC : Z := 0x31504146.
Definition HDR_VERSION : Z := 1.
Definition APP_OVERLAY_MAX : Z := 0x1000.
Definition NAME_LEN : Z := 16.
Definition VERSION_LEN : Z := 16.
Definition HDR_SIZE : Z := 64.
Definition REGION_BASE : Z := 0x00102000.
Definition SLOT_STRIDE : Z := 0x0002000.
Definition CODE_OFFSET : Z := 0x00001000.
Definition SLOT_COUNT : Z := 16.
Definition FLAG_COMMITTED : Z := 0x0001.
Definition FLAG_SCREEN_SAVER : Z := 0x0002.
Definition FLAG_SHORTCUT_MASK : Z := 0x0F00.
Definition FLAG_SHORTCUT_SHIFT : Z := 8.
Definition OVERLAY_VMA : Z := 0x20000280.

Definition SHORTCUTS : list (Z * list Z) :=
  [(0x01, lit "fm"); (0x02, lit "foxhunt"); (0x04, lit "beacon"); (0x08, lit "beam")].

Definition header_fmt : list field :=
  [fI; fH; fB; fB; fI; fI; fH; fH; FStr 16; FStr 16; fI; fI; fI].

Example header_fmt_size : calcsize header_fmt = HDR_SIZE.
Proof. reflexivity. Qed.

Definition slot_base (slot : Z) : result Z :=
  if negb ((0 <=? slot) && (slot <? SLOT_COUNT))
  then raise AppError "slot %s is outside 0..%d" [slot; SLOT_COUNT - 1]
  else Ok (REGION_BASE + slot * SLOT_STRIDE).

(** What [str.strip] removes among the characters [decode] can produce. *)
Definition is_space (c : Z) : bool :=
  ((9 <=? c) && (c <=? 13)) || ((28 <=? c) && (c <=? 32)).
Fixpoint lstrip (s : list Z) : list Z :=
  match s with
  | c :: r => if is_space c then lstrip r else s
  | [] => []
  end.
Definition strip (s : list Z) : list Z := reverse (lstrip (reverse (lstrip s))).

Definition _text (raw : list Z) : list Z := strip (decode_replace (until_nul raw)).

(** [SHORTCUTS.get(k, "none")] and the inverse search of [build]. *)
Definition shortcut_name (k : Z) : list Z :=
  default (lit "none") ((fun p => p.2.2) <$> list_find (fun p => p.1 = k) SHORTCUTS).
Definition shortcut_code (name : list Z) : option Z :=
  (fun p => p.2.1) <$> list_find (fun p => p.2 = name) SHORTCUTS.

(** The dictionary [parse] returns. *)
Record info := Info {
  i_hdr_version : Z; i_abi : Z; i_api_min : Z; i_code_size : Z; i_crc32 : Z;
  i_entry_off : Z; i_flags : Z; i_name : list Z; i_version : list Z; i_vma : Z;
  i_capabilities : Z; i_committed : bool; i_screen_saver : bool;
  i_shortcut : list Z; i_total : Z
}.

(** The part of [parse] both modes share. *)
Definition parse_header (blob : list Z) : result info :=
  if zlen blob <? HDR_SIZE
  then raise AppError "only %d bytes: too short to hold the 64-byte header" [zlen blob]
  else
    '(magic, (hdr_version, (abi, (api_min, (code_size, (crc, (entry_off, (flags,
      (name, (version, (vma, (cap, _)))))))))))) ← unpack_from header_fmt blob 0;
    if negb (magic =? MAGIC)
    then raise AppError "magic is %r, not FAP1 -- this is not an app blob" (slice 0 4 blob)
    else Ok (Info hdr_version abi api_min code_size crc entry_off flags
               (_text name) (_text version) vma cap
               (negb (Z.land flags FLAG_COMMITTED =? 0))
               (negb (Z.land flags FLAG_SCREEN_SAVER =? 0))
               (shortcut_name (Z.shiftr (Z.land flags FLAG_SHORTCUT_MASK) FLAG_SHORTCUT_SHIFT))
               (HDR_SIZE + code_size)).

Definition parse (blob : list Z) (strict : bool) : result info :=
  info ← parse_header blob;
  if negb strict then Ok info
  else if negb (i_hdr_version info =? HDR_VERSION)
  then raise AppError "header version %d, this firmware writes %d"
         [i_hdr_version info; HDR_VERSION]
  else if (i_code_size info =? 0) || (APP_OVERLAY_MAX <? i_code_size info)
  then raise AppError "code_size %d is outside 1..%d" [i_code_size info; APP_OVERLAY_MAX]
  else if zlen blob <? HDR_SIZE + i_code_size info
  then raise AppError "header says %d bytes of code but the file holds %d"
         [i_code_size info; zlen blob - HDR_SIZE]
  else
    let actual := Z.land (crc32 (slice HDR_SIZE (HDR_SIZE + i_code_size info) blob)) 0xFFFFFFFF in
    if negb (actual =? i_crc32 info)
    then raise AppError "CRC-32 over the code is 0x%08X but the header says 0x%08X"
           [actual; i_crc32 info]
    else if negb (i_vma info =? OVERLAY_VMA)
    then raise AppError "vma is 0x%08X; this firmware loads overlays at 0x%08X"
           [i_vma info; OVERLAY_VMA]
    else Ok info.

(** [text.encode("ascii")]: a strict encode. *)
Definition encode_ascii (text : list Z) : result (list Z) :=
  if forallb (fun c => c <? 128) text then Ok text
  else raise UnicodeEncodeError "'ascii' codec can't encode character" [].

Definition check_text (fmt : string) (len : Z) (text : list Z) : result unit :=
  if (zlen text =? 0) || (len <=? zlen text)
  then raise AppError fmt [NAME_LEN - 1] else Ok tt.

(** The shortcut bits [build] sets in the flags. *)
Definition add_shortcut (shortcut : list Z) (flags : Z) : result Z :=
  if bool_decide (shortcut = lit "none") then Ok flags
  else match shortcut_code shortcut with
       | None => raise AppError "unknown shortcut %r; known: %s" shortcut
       | Some k => Ok (Z.lor flags (Z.shiftl k FLAG_SHORTCUT_SHIFT))
       end.

Definition build (code name version : list Z) (abi api_min : Z) (shortcut : list Z)
    (flags capabilities : Z) : result (list Z) :=
  if APP_OVERLAY_MAX <? zlen code
  then raise AppError "code is %d bytes; the overlay budget is %d" [zlen code; APP_OVERLAY_MAX]
  else
    _ ← check_text "name must be 1..%d characters" NAME_LEN name;
    _ ← check_text "version must be 1..%d characters" VERSION_LEN version;
    flags ← add_shortcut shortcut flags;
    name ← encode_ascii name;
    version ← encode_ascii version;
    header ← pack header_fmt
      (MAGIC, (HDR_VERSION, (abi, (api_min, (zlen code, (Z.land (crc32 code) 0xFFFFFFFF,
        (0, (flags, (ljust NAME_LEN (slice 0 (NAME_LEN - 1) name),
          (ljust VERSION_LEN (slice 0 (VERSION_LEN - 1) version),
            (OVERLAY_VMA, (capabilities, (0, tt)))))))))))));
    Ok (header ++ code).

(** What [read_slot] reports of an occupied slot. *)
Inductive slot_info :=
| SlotApp (slot base : Z) (i : info)             (* kind "app" *)
| SlotUnreadable (slot base : Z)                 (* "app (unreadable header)" *)
| SlotFirmware (slot base : Z) (magic : list Z)  (* kind "firmware" *)
| SlotUnknown (slot base : Z) (magic : list Z).  (* kind "unknown" *)

Definition is_app (s : slot_info) : bool :=
  match s with SlotApp _ _ _ => true | _ => false end.

Definition read_slot (image : list Z) (slot : Z) : result (option slot_info) :=
  base ← slot_base slot;
  if zlen image <? base + SLOT_STRIDE then Ok None
  else
    let raw := slice base (base + SLOT_STRIDE) image in
    let magic := slice 0 4 raw in
    if bool_decide (magic = [0xff; 0xff; 0xff; 0xff]) || forallb (fun b => b =? 0) raw
    then Ok None
    else if negb (bool_decide (magic = lit "FAP1"))
    then Ok (Some (if bool_decide (magic = lit "FMB1") then SlotFirmware slot base magic
                   else SlotUnknown slot base magic))
    else
      '(size, _) ← unpack_from [fI] raw 8;
      match parse (slice 0 HDR_SIZE raw ++ slice CODE_OFFSET (CODE_OFFSET + size) raw) false with
      | Ok i => Ok (Some (SlotApp slot base i))
      | Raise e => if bool_decide (exn_cls e = AppError) then Ok (Some (SlotUnreadable slot base))
                   else Raise e
      end.

(** [range(SLOT_COUNT)], and the rows [list_apps] keeps. *)
Definition slot_numbers : list Z := [0; 1; 2; 3; 4; 5; 6; 7; 8; 9; 10; 11; 12; 13; 14; 15].

Definition list_apps (image : list Z) : result (list slot_info) :=
  foldM (fun found i =>
           r ← read_slot image i;
           Ok (found ++ match r with Some s => [s] | None => [] end)) [] slot_numbers.

(** [for i in range(base, base + SLOT_STRIDE): image[i] = 0xFF]. *)
Definition fill_erased (image : list Z) (base : Z) : list Z :=
  set_slice base (base + SLOT_STRIDE) (zrep SLOT_STRIDE 0xFF) image.

Definition install (image : list Z) (slot : Z) (blob : list Z) (force : bool)
  : result (list Z * info) :=
  info ← parse blob true;
  base ← slot_base slot;
  if zlen image <? base + SLOT_STRIDE
  then raise AppError "the image is too small for slot %d" [slot]
  else
    occupied ← (if force then Ok None else read_slot image slot);
    if match occupied with Some s => negb (is_app s) | None => false end
    then raise AppError "slot %d at 0x%06X already holds %s (%r), not an app" [slot; base]
    else
      let image := fill_erased image base in
      let image := set_slice base (base + HDR_SIZE) (slice 0 HDR_SIZE blob) image in
      let code := slice HDR_SIZE (HDR_SIZE + i_code_size info) blob in
      Ok (set_slice (base + CODE_OFFSET) (base + CODE_OFFSET + zlen code) code image, info).

Definition erase (image : list Z) (slot : Z) : result (list Z * Z) :=
  base ← slot_base slot;
  if zlen image <? base + SLOT_STRIDE
  then raise AppError "the image is too small for slot %d" [slot]
  else Ok (fill_erased image base, base).

(** The firmware's 0x0731 answer. *)
Inductive radio_reply :=
| ReplyShort                                         (* status None, "short reply" *)
| ReplyBare (slot status : Z)
| ReplyMagic (slot status : Z) (magic : list Z)
| ReplyNote (slot status : Z) (e : exn)
| ReplyApp (slot status : Z) (i : info).

Definition parse_radio_reply (raw : list Z) : radio_reply :=
  match raw with
  | slot :: status :: _ =>
      if 2 + HDR_SIZE <=? zlen raw then
        let header := slice 2 (2 + HDR_SIZE) raw in
        if bool_decide (slice 0 4 header = lit "FAP1") then
          match parse header false with
          | Ok i => ReplyApp slot status i
          | Raise e => ReplyNote slot status e
          end
        else ReplyMagic slot status (slice 0 4 header)
      else ReplyBare slot status
  | _ => ReplyShort
  end.

(** ** Parsing *)

Lemma parse_loose blob : parse blob false = parse_header blob.
Proof. unfold parse. by destruct (parse_header blob). Qed.

(** [parse_header] reads the first 64 bytes only. *)
Lemma parse_header_ext b1 b2 :
  HDR_SIZE <= zlen b1 -> HDR_SIZE <= zlen b2 -> slice 0 HDR_SIZE b1 = slice 0 HDR_SIZE b2 ->
  parse_header b1 = parse_header b2.
Proof.
  unfold HDR_SIZE. intros H1 H2 He. unfold parse_header, unpack_from, HDR_SIZE.
  change (0 + calcsize header_fmt) with 64.
  rewrite !(proj2 (Z.ltb_ge _ _)), !(proj2 (Z.leb_le _ _)) by done. rewrite He.
  assert (slice 0 4 b1 = slice 0 4 b2) as ->; [|done].
  transitivity (slice 0 4 (slice 0 64 b1)); [by rewrite slice_slice by lia|].
  rewrite He. by rewrite slice_slice by lia.
Qed.

(** What a strict parse guarantees. *)
Definition runnable (blob : list Z) (i : info) : Prop :=
  i_hdr_version i = HDR_VERSION /\ 1 <= i_code_size i <= APP_OVERLAY_MAX /\
  HDR_SIZE + i_code_size i <= zlen blob /\
  crc32 (slice HDR_SIZE (HDR_SIZE + i_code_size i) blob) = i_crc32 i /\
  i_vma i = OVERLAY_VMA.

Lemma crc32_land data : wf_bytes data -> Z.land (crc32 data) 0xFFFFFFFF = crc32 data.
Proof.
  intros H. change 0xFFFFFFFF with (Z.ones 32). rewrite Z.land_ones by lia.
  apply Z.mod_small. by apply crc32_bound.
Qed.

Lemma parse_header_size blob i : wf_bytes blob -> parse_header blob = Ok i -> 0 <= i_code_size i < 2 ^ 32.
Proof.
  intros Hwf. unfold parse_header. destruct (zlen blob <? HDR_SIZE); [done|].
  unfold unpack_from. change (0 + calcsize header_fmt) with 64.
  destruct (64 <=? zlen blob); [|done]. cbn [mbind result_bind].
  assert (wf_bytes (slice 0 64 blob)) as Hb by auto with uvk5.
  set (b := slice 0 64 blob) in *.
  cbn [header_fmt unpack unpack1 fwidth]. intros H.
  destruct (negb _); [done|]. injection H as <-. cbn [i_code_size].
  match goal with |- 0 <= le_dec ?x < _ =>
    assert (wf_bytes x) as Hx by (apply Forall_take; repeat apply Forall_drop; done);
    pose proof (le_dec_bound x Hx); pose proof (zlen_nonneg x);
    assert (zlen x <= 4) by (unfold zlen; rewrite length_take; lia) end.
  change (2 ^ 32) with (256 ^ 4).
  match goal with H : 0 <= le_dec ?x < 256 ^ zlen ?x |- _ =>
    pose proof (Z.pow_le_mono_r 256 (zlen x) 4) end. lia.
Qed.

Lemma parse_strict_iff blob i :
  wf_bytes blob -> parse blob true = Ok i <-> parse_header blob = Ok i /\ runnable blob i.
Proof.
  intros Hwf. unfold parse. rewrite bind_ok. cbn [negb].
  assert (forall i, parse_header blob = Ok i -> 0 <= i_code_size i) as Hsz.
  { intros i' H. by apply parse_header_size in H as [? _]. }
  assert (forall i, Z.land (crc32 (slice HDR_SIZE (HDR_SIZE + i_code_size i) blob)) 0xFFFFFFFF
            = crc32 (slice HDR_SIZE (HDR_SIZE + i_code_size i) blob)) as Hcrc.
  { intros. apply crc32_land. auto with uvk5. }
  unfold runnable. split.
  - intros (i' & Hh & H). pose proof (Hsz i' Hh). rewrite Hcrc in H.
    repeat match type of H with
    | (if ?b then raise _ _ _ else _) = _ => destruct b eqn:?; [done|]
    end. injection H as <-. unfold HDR_VERSION, HDR_SIZE, APP_OVERLAY_MAX in *.
    split; [done|]. lia.
  - intros (Hh & Hv & Hc & Hl & Hcc & Hvma). exists i. split; [done|].
    rewrite Hcrc, Hcc, Hv, Hvma. unfold HDR_VERSION, HDR_SIZE, APP_OVERLAY_MAX, OVERLAY_VMA in *.
    rewrite !Z.eqb_refl. rewrite (proj2 (Z.eqb_neq _ _)) by lia.
    rewrite !(proj2 (Z.ltb_ge _ _)) by lia. done.
Qed.

(** ** Packing *)

(** The value tuple [build] packs. *)
Definition header_values (code name version : list Z) (abi api_min flags capabilities : Z)
  : fvals header_fmt :=
  (MAGIC, (HDR_VERSION, (abi, (api_min, (zlen code, (Z.land (crc32 code) 0xFFFFFFFF,
    (0, (flags, (ljust NAME_LEN (slice 0 (NAME_LEN - 1) name),
      (ljust VERSION_LEN (slice 0 (VERSION_LEN - 1) version),
        (OVERLAY_VMA, (capabilities, (0, tt))))))))))))).

Lemma build_inv code name version abi api_min shortcut flags capabilities blob :
  build code name version abi api_min shortcut flags capabilities = Ok blob ->
  exists flags' header,
    zlen code <= APP_OVERLAY_MAX /\ 1 <= zlen name < 16 /\ 1 <= zlen version < 16 /\
    add_shortcut shortcut flags = Ok flags' /\
    pack header_fmt (header_values code name version abi api_min flags' capabilities) = Ok header /\
    blob = header ++ code.
Proof.
  unfold build, check_text, encode_ascii, NAME_LEN, VERSION_LEN.
  pose proof (zlen_nonneg name). pose proof (zlen_nonneg version).
  destruct (Z.ltb_spec APP_OVERLAY_MAX (zlen code)); [done|].
  destruct (Z.eqb_spec (zlen name) 0); [done|]. destruct (Z.leb_spec 16 (zlen name)); [done|].
  destruct (Z.eqb_spec (zlen version) 0); [done|]. destruct (Z.leb_spec 16 (zlen version)); [done|].
  cbn [orb mbind result_bind].
  destruct (add_shortcut shortcut flags) as [flags'|]; [|done]. cbn [mbind result_bind].
  destruct (forallb _ name); [|done]. destruct (forallb _ version); [|done].
  cbn [mbind result_bind]. intros (header & Hp & [= <-])%bind_ok.
  exists flags', header. split_and!; first [done|lia].
Qed.

Lemma length_ljust16 (s : list Z) : length (ljust 16 (slice 0 15 s)) = 16%nat.
Proof.
  pose proof (zlen_ljust 16 (slice 0 15 s)) as H. pose proof (zlen_slice_le 0 15 s) as H'.
  unfold zlen in *. lia.
Qed.

Lemma text_ljust (s : list Z) :
  ascii_text s -> strip s = s -> 1 <= zlen s < 16 -> _text (ljust 16 (slice 0 15 s)) = s.
Proof.
  intros Ha Hs Hl. unfold _text. rewrite slice_all by lia. unfold ljust.
  rewrite until_nul_app by (auto with uvk5; lia). by rewrite decode_replace_ascii.
Qed.

(** Reading back the header of a built blob. *)
Lemma parse_header_build code name version abi api_min flags capabilities header :
  pack header_fmt (header_values code name version abi api_min flags capabilities) = Ok header ->
  parse_header (header ++ code) =
    Ok (Info HDR_VERSION abi api_min (zlen code) (Z.land (crc32 code) 0xFFFFFFFF) 0 flags
          (_text (ljust 16 (slice 0 15 name))) (_text (ljust 16 (slice 0 15 version)))
          OVERLAY_VMA capabilities
          (negb (Z.land flags FLAG_COMMITTED =? 0))
          (negb (Z.land flags FLAG_SCREEN_SAVER =? 0))
          (shortcut_name (Z.shiftr (Z.land flags FLAG_SHORTCUT_MASK) FLAG_SHORTCUT_SHIFT))
          (HDR_SIZE + zlen code)).
Proof.
  intros Hp. pose proof (pack_zlen _ _ _ Hp) as Hz. change (calcsize header_fmt) with 64 in Hz.
  pose proof (zlen_nonneg code). unfold parse_header, HDR_SIZE.
  rewrite (proj2 (Z.ltb_ge _ _)) by (rewrite zlen_app; lia).
  erewrite unpack_from_slice; [| |rewrite slice_0_app; [exact Hp|by rewrite Hz]|].
  - done.
  - rewrite zlen_app. lia.
  - eapply pack_ok_fits; [exact Hp|]. unfold header_values, NAME_LEN, VERSION_LEN.
    cbn [header_fmt strs_exact fst snd]. rewrite !length_ljust16. done.
Qed.

Lemma shortcut_flags shortcut flags flags' :
  add_shortcut shortcut flags = Ok flags' -> Z.land flags FLAG_SHORTCUT_MASK = 0 ->
  shortcut_name (Z.shiftr (Z.land flags' FLAG_SHORTCUT_MASK) FLAG_SHORTCUT_SHIFT) = shortcut.
Proof.
  unfold add_shortcut. case_bool_decide as Hn.
  - intros [= <-] ->. by subst shortcut.
  - unfold shortcut_code. destruct (list_find _ SHORTCUTS) as [[i [k name]]|] eqn:E; [|done].
    intros [= <-] Hz. rewrite Z.land_lor_distr_l, Hz, Z.lor_0_l.
    apply list_find_Some in E as (Hi & Hname & _). cbn [snd fst] in *. subst name.
    destruct i as [|[|[|[|i]]]]; cbn in Hi; [injection Hi as <- <-; reflexivity..|done].
Qed.


(** ** The slot region *)

Lemma app_base_iff slot base :
  slot_base slot = Ok base <-> 0 <= slot < SLOT_COUNT /\ base = REGION_BASE + slot * SLOT_STRIDE.
Proof.
  unfold slot_base. destruct (Z.leb_spec 0 slot), (Z.ltb_spec slot SLOT_COUNT);
    cbn [negb andb]; unfold raise; naive_solver lia.
Qed.

Ltac app_layout :=
  unfold SLOT_COUNT, REGION_BASE, SLOT_STRIDE, CODE_OFFSET, HDR_SIZE, APP_OVERLAY_MAX in *.

Lemma parse_header_magic blob i :
  wf_bytes blob -> parse_header blob = Ok i -> slice 0 4 blob = lit "FAP1".
Proof.
  intros Hwf. unfold parse_header. destruct (Z.ltb_spec (zlen blob) HDR_SIZE) as [|Hl]; [done|].
  unfold unpack_from. change (0 + calcsize header_fmt) with 64.
  destruct (64 <=? zlen blob); [|done]. cbn [mbind result_bind header_fmt unpack unpack1 fwidth].
  case (Z.eqb_spec (le_dec (take 4 (slice 0 64 blob))) MAGIC) as [Hm|]; [|done].
  intros _. change (take 4 (slice 0 64 blob)) with (take (Z.to_nat (4 - 0)) (drop (Z.to_nat 0) (slice 0 64 blob))) in Hm.
  fold (slice 0 4 (slice 0 64 blob)) in Hm. rewrite slice_slice in Hm by lia.
  change (slice (0 + 0) (0 + 4) blob) with (slice 0 4 blob) in Hm.
  rewrite <- (le_enc_dec (slice 0 4 blob)) by auto with uvk5. rewrite Hm.
  pose proof (zlen_slice 0 4 blob) as Hz. app_layout. unfold zlen at 2 in Hz.
  replace (length (slice 0 4 blob)) with 4%nat by lia. reflexivity.
Qed.

(** [parse_header] raises nothing but AppError. *)
Lemma parse_header_err blob e : parse_header blob = Raise e -> exn_cls e = AppError.
Proof.
  unfold parse_header, unpack_from, raise, HDR_SIZE. change (0 + calcsize header_fmt) with 64.
  destruct (Z.ltb_spec (zlen blob) 64) as [|Hl]; [by intros [= <-]|].
  rewrite (proj2 (Z.leb_le _ _)) by lia. cbn [mbind result_bind].
  destruct (unpack header_fmt _) as (?&?&?&?&?&?&?&?&?&?&?&?&?&?).
  destruct (negb _); [|done]. by intros [= <-].
Qed.

(** A slot number in range never makes [read_slot] raise, and the answer
    depends on the slot's own bytes only. *)
Lemma read_slot_total image slot : 0 <= slot < SLOT_COUNT -> exists o, read_slot image slot = Ok o.
Proof.
  intros Hs. unfold read_slot.
  rewrite (proj2 (app_base_iff slot (REGION_BASE + slot * SLOT_STRIDE))) by done.
  cbn [mbind result_bind]. set (base := REGION_BASE + _).
  destruct (Z.ltb_spec (zlen image) (base + SLOT_STRIDE)) as [|Hl]; [by eexists|].
  case_match; [by eexists|]. case_match; [by eexists|].
  unfold unpack_from. change (8 + calcsize [fI]) with 12.
  rewrite (proj2 (Z.leb_le _ _)) by (rewrite zlen_slice; unfold base; app_layout; lia).
  cbn [mbind result_bind unpack]. rewrite parse_loose.
  destruct (parse_header _) eqn:E; [by eexists|].
  apply parse_header_err in E. rewrite bool_decide_eq_true_2 by done. by eexists.
Qed.

Lemma app_slot_ext image image' slot base :
  slot_base slot = Ok base -> zlen image = zlen image' ->
  slice base (base + SLOT_STRIDE) image = slice base (base + SLOT_STRIDE) image' ->
  read_slot image slot = read_slot image' slot.
Proof. intros Hb Hl He. unfold read_slot. rewrite Hb. cbn [mbind result_bind]. by rewrite Hl, He. Qed.

(** What is in the image after an install. *)
Definition installed (image : list Z) (base : Z) (blob : list Z) (size : Z) : list Z :=
  set_slice (base + CODE_OFFSET) (base + CODE_OFFSET + size) (slice HDR_SIZE (HDR_SIZE + size) blob)
    (set_slice base (base + HDR_SIZE) (slice 0 HDR_SIZE blob) (fill_erased image base)).

(** The slot is free for an app. *)
Definition free_for_app (image : list Z) (slot : Z) : Prop :=
  exists o, read_slot image slot = Ok o /\ match o with Some s => is_app s = true | None => True end.

Lemma install_iff image slot blob force image' i :
  wf_bytes blob ->
  install image slot blob force = Ok (image', i) <->
  parse blob true = Ok i /\ 0 <= slot < SLOT_COUNT /\
  REGION_BASE + (slot + 1) * SLOT_STRIDE <= zlen image /\
  (force = true \/ free_for_app image slot) /\
  image' = installed image (REGION_BASE + slot * SLOT_STRIDE) blob (i_code_size i).
Proof.
  intros Hwf. unfold install.
  assert (forall i, parse blob true = Ok i ->
    zlen (slice HDR_SIZE (HDR_SIZE + i_code_size i) blob) = i_code_size i) as Hz.
  { intros i' (_ & _ & Hc & Hl & _)%parse_strict_iff; [|done]. rewrite zlen_slice; app_layout; lia. }
  split.
  - intros (i' & Hp & (base & [Hs ->]%app_base_iff & H)%bind_ok)%bind_ok.
    destruct (Z.ltb_spec (zlen image) (REGION_BASE + slot * SLOT_STRIDE + SLOT_STRIDE)) as [|Hl]; [done|].
    apply bind_ok in H as (o & Ho & H). destruct (match o with Some s => _ | None => _ end) eqn:Hocc; [done|].
    injection H as <- <-. split; [done|]. split; [done|]. split; [lia|]. split.
    + destruct force; [by left|right]. exists o. split; [done|]. destruct o as [s|]; [|done].
      by destruct (is_app s).
    + unfold installed. by rewrite (Hz i' Hp).
  - intros (Hp & Hs & Hl & Hf & ->). rewrite Hp. cbn [mbind result_bind].
    rewrite (proj2 (app_base_iff _ _) (conj Hs eq_refl)). cbn [mbind result_bind].
    rewrite (proj2 (Z.ltb_ge _ _)) by lia. apply bind_ok. destruct Hf as [->|(o & Ho & Happ)].
    + exists None. split; [done|]. unfold installed. by rewrite (Hz i Hp).
    + exists (if force then None else o). split; [by destruct force|].
      destruct force; [unfold installed; by rewrite (Hz i Hp)|].
      destruct o as [s|]; [rewrite Happ|]; unfold installed; by rewrite (Hz i Hp).
Qed.

Lemma zlen_fill_erased image base :
  0 <= base -> base + SLOT_STRIDE <= zlen image -> zlen (fill_erased image base) = zlen image.
Proof. intros. unfold fill_erased. apply zlen_set_slice; rewrite ?zlen_rep; app_layout; lia. Qed.

Lemma lookup_fill_erased image base k :
  0 <= base -> base + SLOT_STRIDE <= zlen image ->
  fill_erased image base !! k =
    if decide (base <= Z.of_nat k < base + SLOT_STRIDE) then Some 0xFF else image !! k.
Proof.
  intros Hb Hl. unfold fill_erased.
  rewrite lookup_set_slice by (rewrite ?zlen_rep; app_layout; lia). case_decide; [|done].
  unfold zrep. apply lookup_replicate_2. app_layout. lia.
Qed.

(** Every byte of an image after an install. *)
Lemma lookup_installed image base blob size k :
  0 <= base -> 0 <= size <= APP_OVERLAY_MAX -> base + SLOT_STRIDE <= zlen image ->
  HDR_SIZE + size <= zlen blob ->
  installed image base blob size !! k =
    if decide (base <= Z.of_nat k < base + HDR_SIZE) then blob !! (k - Z.to_nat base)%nat
    else if decide (base + CODE_OFFSET <= Z.of_nat k < base + CODE_OFFSET + size)
    then blob !! (k - Z.to_nat (base + CODE_OFFSET) + Z.to_nat HDR_SIZE)%nat
    else if decide (base <= Z.of_nat k < base + SLOT_STRIDE) then Some 0xFF
    else image !! k.
Proof.
  intros Hb Hs Hi Hbl. pose proof (zlen_fill_erased image base Hb Hi) as Hz.
  assert (zlen (slice 0 HDR_SIZE blob) = HDR_SIZE) as Hh by (rewrite zlen_slice; app_layout; lia).
  unfold installed. rewrite lookup_set_slice.
  2: { app_layout; lia. }
  2: { rewrite zlen_slice; app_layout; lia. }
  2: { rewrite zlen_set_slice; rewrite ?Hz, ?Hh; app_layout; lia. }
  rewrite lookup_set_slice by (rewrite ?Hz, ?Hh; app_layout; lia).
  rewrite lookup_fill_erased by done. rewrite !lookup_slice by (app_layout; lia).
  app_layout. repeat case_decide; try lia; try done; f_equal; lia.
Qed.

Lemma zlen_installed image base blob size :
  0 <= base -> 0 <= size <= APP_OVERLAY_MAX -> base + SLOT_STRIDE <= zlen image ->
  HDR_SIZE + size <= zlen blob -> zlen (installed image base blob size) = zlen image.
Proof.
  intros. unfold installed.
  assert (zlen (slice 0 HDR_SIZE blob) = HDR_SIZE) by (rewrite zlen_slice; app_layout; lia).
  assert (zlen (slice HDR_SIZE (HDR_SIZE + size) blob) = size) by (rewrite zlen_slice; app_layout; lia).
  assert (zlen (set_slice base (base + HDR_SIZE) (slice 0 HDR_SIZE blob) (fill_erased image base)) = zlen image).
  { rewrite zlen_set_slice; rewrite ?zlen_fill_erased; app_layout; lia. }
  rewrite zlen_set_slice; app_layout; lia.
Qed.

(** Reading a slot that an install has written. *)
Lemma read_installed image slot blob i :
  wf_bytes blob -> parse blob true = Ok i -> 0 <= slot < SLOT_COUNT ->
  REGION_BASE + (slot + 1) * SLOT_STRIDE <= zlen image ->
  read_slot (installed image (REGION_BASE + slot * SLOT_STRIDE) blob (i_code_size i)) slot =
    Ok (Some (SlotApp slot (REGION_BASE + slot * SLOT_STRIDE) i)).
Proof.
  intros Hwf (Hh & _ & Hc & Hl & _)%parse_strict_iff Hs Hi; [|done].
  pose proof (app_base_iff slot (REGION_BASE + slot * SLOT_STRIDE)) as [_ Hb].
  unfold read_slot. rewrite Hb by done. cbn [mbind result_bind].
  set (base := REGION_BASE + slot * SLOT_STRIDE).
  assert (0 <= base) as Hb0 by (unfold base; app_layout; lia).
  assert (base + SLOT_STRIDE <= zlen image) as Hi' by (unfold base; lia).
  set (image' := installed image base blob (i_code_size i)).
  assert (zlen image' = zlen image) as Hz by (apply zlen_installed; lia || done).
  rewrite (proj2 (Z.ltb_ge _ _)) by lia.
  set (raw := slice base (base + SLOT_STRIDE) image').
  assert (zlen raw = SLOT_STRIDE) as Hraw by (unfold raw; rewrite zlen_slice; app_layout; lia).
  assert (slice 0 HDR_SIZE raw = slice 0 HDR_SIZE blob) as Hraw64.
  { unfold raw. rewrite slice_slice by (app_layout; lia). apply list_eq. intros k.
    rewrite !lookup_slice by (app_layout; lia). unfold image'. rewrite lookup_installed by (lia || done).
    app_layout. repeat case_decide; try lia; [|done]. f_equal. lia. }
  assert (slice 0 4 raw = lit "FAP1") as Hmagic.
  { rewrite <- (parse_header_magic blob i Hwf Hh). change (slice 0 4 raw) with (slice (0+0) (0+4) raw).
    rewrite <- (slice_slice 0 4 0 HDR_SIZE raw), Hraw64 by (app_layout; lia).
    by rewrite slice_slice by (app_layout; lia). }
  rewrite Hmagic. rewrite bool_decide_eq_false_2 by done. cbn [orb].
  assert (forallb (fun b => b =? 0) raw = false) as ->.
  { destruct raw as [|b raw']; [done|]. cbn in Hmagic. injection Hmagic as -> _. done. }
  rewrite bool_decide_eq_true_2 by done. cbn [negb].
  unfold unpack_from. change (8 + calcsize [fI]) with 12.
  rewrite (proj2 (Z.leb_le _ _)) by (app_layout; lia). cbn [mbind result_bind unpack].
  rewrite parse_loose. erewrite (parse_header_ext _ blob); [by rewrite Hh| | |].
  - rewrite zlen_app, Hraw64. pose proof (zlen_nonneg (slice CODE_OFFSET (CODE_OFFSET + unpack1 fI (take (fwidth fI) (slice 8 12 raw))) raw)).
    rewrite zlen_slice by (app_layout; lia). lia.
  - app_layout; lia.
  - rewrite slice_app_l.
    + rewrite Hraw64. rewrite slice_slice by (app_layout; lia). done.
    + done.
    + rewrite Hraw64, zlen_slice; app_layout; lia.
Qed.

Lemma parse_header_total blob i : parse_header blob = Ok i -> i_total i = HDR_SIZE + i_code_size i.
Proof.
  unfold parse_header. destruct (zlen blob <? HDR_SIZE); [done|].
  destruct (unpack_from _ _ _) as [v|]; [|done]. cbn [mbind result_bind].
  destruct v as (?&?&?&?&?&?&?&?&?&?&?&?&?&?). destruct (negb _); [done|].
  by intros [= <-].
Qed.

Lemma parse_err blob strict e : parse blob strict = Raise e -> exn_cls e = AppError.
Proof.
  unfold parse. destruct (parse_header blob) as [i|e'] eqn:E; cbn [mbind result_bind].
  - intros H. repeat match type of H with
      (if ?b then _ else _) = _ => destruct b; [by injection H as <- || done|] end. done.
  - intros [= <-]. by eapply parse_header_err.
Qed.

Lemma app_base_err slot e : slot_base slot = Raise e -> exn_cls e = AppError.
Proof. unfold slot_base, raise. by destruct (negb _); [intros [= <-]|]. Qed.

Lemma install_err image slot blob force e :
  install image slot blob force = Raise e -> exn_cls e = AppError.
Proof.
  unfold install. destruct (parse blob true) eqn:E; cbn [mbind result_bind];
    [|intros [= <-]; by eapply parse_err].
  destruct (slot_base slot) eqn:E1; cbn [mbind result_bind];
    [|intros [= <-]; by eapply app_base_err].
  destruct (zlen image <? _); [by intros [= <-]|]. destruct force; [done|].
  apply app_base_iff in E1 as [Hs _]. destruct (read_slot_total image slot Hs) as [o ->].
  cbn [mbind result_bind]. case_match; [by intros [= <-]|done].
Qed.

(** What [install] requires. *)
Definition acceptable (image : list Z) (slot : Z) (blob : list Z) (force : bool) (i : info) : Prop :=
  parse_header blob = Ok i /\ runnable blob i /\ 0 <= slot < SLOT_COUNT /\
  REGION_BASE + (slot + 1) * SLOT_STRIDE <= zlen image /\
  (force = true \/ free_for_app image slot).

(** Two slots never share a byte. *)
Lemma read_slot_other image image' slot other :
  0 <= slot < SLOT_COUNT -> other <> slot -> zlen image' = zlen image ->
  (forall k, ~ (REGION_BASE + slot * SLOT_STRIDE <= Z.of_nat k < REGION_BASE + (slot + 1) * SLOT_STRIDE) ->
     image' !! k = image !! k) ->
  read_slot image' other = read_slot image other.
Proof.
  intros Hs Hne Hz Hk. destruct (slot_base other) as [base|e] eqn:Hb.
  - apply (app_slot_ext _ _ _ base); [done|done|].
    apply app_base_iff in Hb as [Ho ->]. apply list_eq. intros k.
    rewrite !lookup_slice by (app_layout; lia). case_decide; [|done].
    apply Hk. app_layout. lia.
  - unfold read_slot. rewrite Hb. cbn [mbind result_bind]. reflexivity.
Qed.

(** The two parts of a slot the firmware's loader reads. *)
Definition loaded (image : list Z) (base size : Z) : list Z :=
  slice base (base + HDR_SIZE) image ++ slice (base + CODE_OFFSET) (base + CODE_OFFSET + size) image.

Lemma loaded_installed image base blob size :
  0 <= base -> 0 <= size <= APP_OVERLAY_MAX -> base + SLOT_STRIDE <= zlen image ->
  HDR_SIZE + size <= zlen blob ->
  loaded (installed image base blob size) base size = slice 0 (HDR_SIZE + size) blob.
Proof.
  intros Hb Hs Hi Hl. unfold loaded.
  rewrite <- (take_drop (Z.to_nat HDR_SIZE) (slice 0 (HDR_SIZE + size) blob)). f_equal.
  - apply list_eq. intros k. rewrite lookup_slice by lia. rewrite lookup_installed by done.
    app_layout. repeat case_decide; try lia.
    + rewrite lookup_take_lt by lia. rewrite lookup_slice by lia. rewrite decide_True by lia. f_equal. lia.
    + by rewrite lookup_take_ge by lia.
  - apply list_eq. intros k. rewrite lookup_slice by (app_layout; lia). rewrite lookup_installed by done.
    rewrite lookup_drop. rewrite lookup_slice by lia. app_layout.
    repeat case_decide; try lia; [|done]. f_equal. lia.
Qed.

Lemma runnable_prefix blob i :
  0 <= i_code_size i -> runnable blob i -> runnable (slice 0 (HDR_SIZE + i_code_size i) blob) i.
Proof.
  intros H0 (Hv & Hc & Hl & Hcrc & Hvma). unfold runnable. app_layout.
  rewrite zlen_slice by lia. rewrite slice_slice by lia. split_and!; try lia; done.
Qed.

(** The slots after an install: the new app, and the others as they were. *)
Lemma install_slots image slot blob force image' i :
  wf_bytes blob -> install image slot blob force = Ok (image', i) ->
  0 <= slot < SLOT_COUNT /\
  read_slot image' slot = Ok (Some (SlotApp slot (REGION_BASE + slot * SLOT_STRIDE) i)) /\
  (forall other, other <> slot -> read_slot image' other = read_slot image other).
Proof.
  intros Hwf (Hp & Hs & Hl & Hf & ->)%install_iff; [|done].
  pose proof (proj1 (parse_strict_iff _ _ Hwf) Hp) as [_ (_ & Hc & Hbl & _)].
  set (base := REGION_BASE + slot * SLOT_STRIDE).
  assert (0 <= base) as Hb0 by (unfold base; app_layout; lia).
  assert (base + SLOT_STRIDE <= zlen image) as Hi by (unfold base; lia).
  assert (0 <= i_code_size i <= APP_OVERLAY_MAX) as Hc' by lia.
  split; [done|]. split; [by apply read_installed|].
  intros other Hne. apply (read_slot_other _ _ slot); try done; [by apply zlen_installed|]. intros k Hk.
  rewrite lookup_installed by done. unfold base. app_layout. repeat case_decide; try lia; done.
Qed.

(** ** Properties *)

(** C24. Installing an app leaves the image's length alone and puts the app
    in its slot: the slot reads back as an app with the blob's own header,
    the header and code the loader will fetch are the blob's bytes and pass
    the loader's checks, every other byte of the slot is erased, so nothing
    of a previous app survives, and no byte outside the slot, hence no other
    slot, changes. *)
Theorem install_reads_back image slot blob force image' i :
  wf_bytes blob -> install image slot blob force = Ok (image', i) ->
  let base := REGION_BASE + slot * SLOT_STRIDE in
  zlen image' = zlen image /\
  read_slot image' slot = Ok (Some (SlotApp slot base i)) /\
  loaded image' base (i_code_size i) = slice 0 (i_total i) blob /\
  runnable (loaded image' base (i_code_size i)) i /\
  (forall other, other <> slot -> read_slot image' other = read_slot image other) /\
  (forall k, base + HDR_SIZE <= k < base + CODE_OFFSET \/
             base + CODE_OFFSET + i_code_size i <= k < base + SLOT_STRIDE ->
     image' !! Z.to_nat k = Some 0xFF) /\
  (forall k, ~ (base <= Z.of_nat k < base + SLOT_STRIDE) -> image' !! k = image !! k).
Proof.
  intros Hwf Hin base. destruct (install_slots _ _ _ _ _ _ Hwf Hin) as (_ & Hread & Hother).
  apply install_iff in Hin as (Hp & Hs & Hl & Hf & ->); [|done]. fold base.
  pose proof (proj1 (parse_strict_iff _ _ Hwf) Hp) as [Hh Hr].
  pose proof Hr as (_ & Hc & Hbl & _).
  assert (0 <= base) as Hb0 by (unfold base; app_layout; lia).
  assert (base + SLOT_STRIDE <= zlen image) as Hi by (unfold base; lia).
  assert (0 <= i_code_size i <= APP_OVERLAY_MAX) as Hc' by lia.
  assert (loaded (installed image base blob (i_code_size i)) base (i_code_size i)
            = slice 0 (HDR_SIZE + i_code_size i) blob) as Hld by by apply loaded_installed.
  pose proof (zlen_installed image base blob _ Hb0 Hc' Hi Hbl) as Hz.
  split; [done|]. split; [done|].
  split; [by rewrite Hld, (parse_header_total _ _ Hh)|].
  split; [rewrite Hld; apply runnable_prefix; [lia|done]|].
  split; [done|split].
  - intros k Hk. rewrite lookup_installed by done. app_layout.
    repeat case_decide; try lia; done.
  - intros k Hk. rewrite lookup_installed by done. app_layout.
    repeat case_decide; try lia; done.
Qed.


Lemma shortcut_flag_bits shortcut flags flags' m :
  add_shortcut shortcut flags = Ok flags' -> Z.land m FLAG_SHORTCUT_MASK = 0 -> 0 <= m < 0x1000 ->
  Z.land flags' m = Z.land flags m.
Proof.
  unfold add_shortcut. case_bool_decide; [by intros [= ->]|].
  unfold shortcut_code. destruct (list_find _ SHORTCUTS) as [[i [k name]]|] eqn:E; [|done].
  intros [= <-] Hm _. rewrite Z.land_lor_distr_l.
  apply list_find_Some in E as (Hi & _ & _). cbn [snd fst] in *.
  assert (Z.land (Z.shiftl k FLAG_SHORTCUT_SHIFT) FLAG_SHORTCUT_MASK = Z.shiftl k FLAG_SHORTCUT_SHIFT) as <-.
  { destruct i as [|[|[|[|i]]]]; cbn in Hi; [injection Hi as <- <-; reflexivity..|done]. }
  rewrite <- Z.land_assoc, (Z.land_comm FLAG_SHORTCUT_MASK), Hm.
  by rewrite Z.land_0_r, Z.lor_0_r.
Qed.

(** What a blob [build] made parses to. *)
Lemma build_parsed code name version abi api_min shortcut flags capabilities blob :
  build code name version abi api_min shortcut flags capabilities = Ok blob ->
  exists flags' header,
    add_shortcut shortcut flags = Ok flags' /\ blob = header ++ code /\ zlen header = HDR_SIZE /\
    zlen code <= APP_OVERLAY_MAX /\ 1 <= zlen name < 16 /\ 1 <= zlen version < 16 /\
    parse_header blob = Ok (Info HDR_VERSION abi api_min (zlen code)
      (Z.land (crc32 code) 0xFFFFFFFF) 0 flags'
      (_text (ljust 16 (slice 0 15 name))) (_text (ljust 16 (slice 0 15 version)))
      OVERLAY_VMA capabilities
      (negb (Z.land flags' FLAG_COMMITTED =? 0)) (negb (Z.land flags' FLAG_SCREEN_SAVER =? 0))
      (shortcut_name (Z.shiftr (Z.land flags' FLAG_SHORTCUT_MASK) FLAG_SHORTCUT_SHIFT))
      (HDR_SIZE + zlen code)).
Proof.
  intros (flags' & header & Hc & Hn & Hv & Hf & Hp & ->)%build_inv.
  pose proof (pack_zlen _ _ _ Hp) as Hz. exists flags', header.
  split; [done|]. split; [done|]. split; [by rewrite Hz|].
  split; [done|]. split; [done|]. split; [done|]. by apply (parse_header_build _ _ _ _ _ _ _ _ Hp).
Qed.

(** The bits beside the shortcut's stay as they were. *)
Lemma shortcut_flag_rest shortcut flags flags' :
  add_shortcut shortcut flags = Ok flags' -> Z.land flags FLAG_SHORTCUT_MASK = 0 ->
  Z.ldiff flags' FLAG_SHORTCUT_MASK = flags.
Proof.
  intros Hf Hz. assert (Z.ldiff flags FLAG_SHORTCUT_MASK = flags) as Hd.
  { rewrite <- (Z.lor_ldiff_and flags FLAG_SHORTCUT_MASK) at 2. by rewrite Hz, Z.lor_0_r. }
  revert Hf. unfold add_shortcut. case_bool_decide; [by intros [= <-]|].
  unfold shortcut_code. destruct (list_find _ SHORTCUTS) as [[i [k name]]|] eqn:E; [|done]. intros [= <-].
  assert (forall x y z, Z.ldiff (Z.lor x y) z = Z.lor (Z.ldiff x z) (Z.ldiff y z)) as -> by (intros; by rewrite !Z.ldiff_land, Z.land_lor_distr_l).
  rewrite Hd. apply list_find_Some in E as (Hi & _ & _). cbn [snd fst] in *.
  assert (Z.ldiff (Z.shiftl k FLAG_SHORTCUT_SHIFT) FLAG_SHORTCUT_MASK = 0) as ->; [|by rewrite Z.lor_0_r].
  destruct i as [|[|[|[|i]]]]; cbn in Hi; [injection Hi as <- <-; reflexivity..|done].
Qed.

(** C40. A blob that [build] packs around at least one byte of code passes
    the strict parser, whose whole answer is determined: the header version,
    ABI, lowest API, code size, CRC-32 of the code, entry offset 0, name,
    version, load address, capabilities and shortcut it was built with or
    for; flags that are the given ones in every bit outside the shortcut
    field; and the code after the header is the code (names being ASCII that
    [strip] leaves alone, and flags that do not preset the shortcut bits). *)
Theorem build_parse_roundtrip code name version abi api_min shortcut flags capabilities blob :
  wf_bytes blob -> 0 < zlen code ->
  ascii_text name -> strip name = name -> ascii_text version -> strip version = version ->
  Z.land flags FLAG_SHORTCUT_MASK = 0 ->
  build code name version abi api_min shortcut flags capabilities = Ok blob ->
  exists flags', Z.ldiff flags' FLAG_SHORTCUT_MASK = flags /\
    parse blob true = Ok (Info HDR_VERSION abi api_min (zlen code) (crc32 code) 0 flags' name version
      OVERLAY_VMA capabilities (negb (Z.land flags FLAG_COMMITTED =? 0))
      (negb (Z.land flags FLAG_SCREEN_SAVER =? 0)) shortcut (zlen blob)) /\
    slice HDR_SIZE (zlen blob) blob = code.
Proof.
  intros Hwf Hc Hn Hsn Hv Hsv Hfl (flags' & header & Hf & -> & Hz & Hl & Hln & Hlv & Hp)%build_parsed.
  rewrite !text_ljust in Hp by done. exists flags'. split; [by eapply shortcut_flag_rest|].
  assert (slice HDR_SIZE (HDR_SIZE + zlen code) (header ++ code) = code) as Hcode.
  { rewrite slice_app_r by (rewrite Hz; done). rewrite Hz. apply slice_all. app_layout. lia. }
  assert (Z.land (crc32 code) 0xFFFFFFFF = crc32 code) as Hcrc.
  { apply crc32_land. by apply wf_bytes_app in Hwf as [_ ?]. }
  rewrite zlen_app, Hz. split; [|done].
  rewrite (shortcut_flags _ _ _ Hf Hfl) in Hp.
  rewrite (shortcut_flag_bits _ _ _ _ Hf), (shortcut_flag_bits _ _ _ _ Hf), Hcrc in Hp by done.
  apply parse_strict_iff; [done|]. split; [exact Hp|].
  split; [done|]. cbn [i_code_size i_crc32 i_vma].
  split; [app_layout; lia|]. split; [rewrite zlen_app, Hz; lia|]. split; [by rewrite Hcode|done].
Qed.

(** [build] accepts an empty code section, and the blob it then returns
    is one the strict parser refuses: for code of no bytes it is not the
    parser's inverse. *)
Theorem build_empty_unparsable name version abi api_min shortcut flags capabilities blob :
  build [] name version abi api_min shortcut flags capabilities = Ok blob ->
  parse blob true = raise AppError "code_size %d is outside 1..%d" [0; APP_OVERLAY_MAX].
Proof.
  intros (flags' & header & Hf & -> & Hz & Hl & Hln & Hlv & Hp)%build_parsed.
  unfold parse. rewrite Hp. done.
Qed.

Lemma erase_iff image slot image' base :
  erase image slot = Ok (image', base) <->
  0 <= slot < SLOT_COUNT /\ base = REGION_BASE + slot * SLOT_STRIDE /\
  base + SLOT_STRIDE <= zlen image /\ image' = fill_erased image base.
Proof.
  unfold erase. split.
  - intros (b & [Hs ->]%app_base_iff & H)%bind_ok.
    destruct (Z.ltb_spec (zlen image) (REGION_BASE + slot * SLOT_STRIDE + SLOT_STRIDE)); [done|].
    injection H as <- <-. done.
  - intros (Hs & -> & Hl & ->). rewrite (proj2 (app_base_iff _ _) (conj Hs eq_refl)).
    cbn [mbind result_bind]. by rewrite (proj2 (Z.ltb_ge _ _)).
Qed.

Lemma read_erased_app image slot base :
  slot_base slot = Ok base -> base + SLOT_STRIDE <= zlen image ->
  read_slot (fill_erased image base) slot = Ok None.
Proof.
  intros Hb Hl. unfold read_slot. rewrite Hb. cbn [mbind result_bind].
  apply app_base_iff in Hb as [Hs ->]. set (base := REGION_BASE + slot * SLOT_STRIDE) in *.
  assert (0 <= base) by (unfold base; app_layout; lia). clearbody base.
  rewrite (proj2 (Z.ltb_ge _ _)) by (rewrite zlen_fill_erased; lia).
  assert (slice base (base + SLOT_STRIDE) (fill_erased image base) = zrep SLOT_STRIDE 0xFF) as ->.
  { unfold fill_erased. apply slice_set_slice_same; rewrite ?zlen_rep; app_layout; lia. }
  assert (slice 0 4 (zrep SLOT_STRIDE 0xFF) = [0xff; 0xff; 0xff; 0xff]) as ->.
  { rewrite slice_zrep by (app_layout; lia). reflexivity. }
  by rewrite bool_decide_eq_true_2.
Qed.

(** Erasing an app slot empties it, leaves every other slot as it was,
    and frees it: any blob the parser accepts then installs there without
    [force], whatever the slot held before. *)
Theorem erase_frees_slot image slot image' base blob i :
  wf_bytes blob -> erase image slot = Ok (image', base) -> parse blob true = Ok i ->
  read_slot image' slot = Ok None /\
  (forall other, other <> slot -> read_slot image' other = read_slot image other) /\
  exists image'', install image' slot blob false = Ok (image'', i).
Proof.
  intros Hwf (Hs & Hb & Hl & ->)%erase_iff Hp.
  assert (slot_base slot = Ok base) as Hsb by (subst base; by apply app_base_iff).
  pose proof (read_erased_app image slot base Hsb Hl) as Hr.
  assert (0 <= base) by (subst base; app_layout; lia).
  pose proof (zlen_fill_erased image base ltac:(done) Hl) as Hz.
  split; [done|]. split.
  - intros other Hne. apply (read_slot_other _ _ slot); try done. intros k Hk.
    rewrite lookup_fill_erased by done. subst base. app_layout. case_decide; [lia|done].
  - eexists. apply install_iff; [done|]. split; [exact Hp|]. split; [done|].
    split; [rewrite Hz; subst base; app_layout; lia|]. split; [|reflexivity].
    right. by exists None.
Qed.

(** ** A concrete app *)

Definition beam : list Z :=
  match build (lit "thumb code") (lit "Beam") (lit "1.2") 1 1 (lit "beam") FLAG_COMMITTED 0 with
  | Ok b => b | Raise _ => [] end.
Definition beam_info : info :=
  Info 1 1 1 10 (crc32 (lit "thumb code")) 0 0x801 (lit "Beam") (lit "1.2") OVERLAY_VMA 0
    true false (lit "beam") 74.

Lemma beam_parses : parse beam true = Ok beam_info.
Proof. vm_compute. reflexivity. Qed.
Lemma beam_wf : wf_bytes beam.
Proof. wf_tac. Qed.

(** A 2 MB erased flash. *)
Definition blank : list Z := zrep 0x200000 0xff.

Lemma blank_free slot : 0 <= slot < SLOT_COUNT -> free_for_app blank slot.
Proof.
  intros Hs. exists None. split; [|done].
  assert (slot_base slot = Ok (REGION_BASE + slot * SLOT_STRIDE)) as Hb by by apply app_base_iff.
  rewrite <- (read_erased_app blank slot _ Hb).
  - apply (app_slot_ext _ _ _ _ Hb); unfold blank;
      rewrite ?zlen_fill_erased; rewrite ?zlen_rep; try (app_layout; lia).
    unfold fill_erased. rewrite slice_set_slice_same; rewrite ?zlen_rep; try (app_layout; lia).
    rewrite slice_zrep by (app_layout; lia). f_equal. lia.
  - unfold blank. rewrite zlen_rep; app_layout; lia.
Qed.

Lemma beam_installs slot :
  0 <= slot < SLOT_COUNT -> exists image', install blank slot beam false = Ok (image', beam_info).
Proof.
  intros Hs. eexists. apply install_iff; [exact beam_wf|].
  split; [exact beam_parses|]. split; [done|].
  split; [unfold blank; rewrite zlen_rep; app_layout; lia|]. split; [|reflexivity].
  right. by apply blank_free.
Qed.

Lemma install_reads_back_witness :
  exists image', install blank 3 beam false = Ok (image', beam_info) /\
    read_slot image' 3 = Ok (Some (SlotApp 3 0x108000 beam_info)).
Proof.
  destruct (beam_installs 3) as [image' E]; [split; vm_compute; congruence|].
  exists image'. split; [exact E|].
  exact (proj1 (proj2 (install_reads_back blank 3 beam false image' beam_info beam_wf E))).
Defined.


Lemma build_parse_roundtrip_witness :
  build (lit "thumb code") (lit "Beam") (lit "1.2") 1 1 (lit "beam") FLAG_COMMITTED 0 = Ok beam /\
  exists flags', Z.ldiff flags' FLAG_SHORTCUT_MASK = FLAG_COMMITTED /\
    parse beam true = Ok (Info HDR_VERSION 1 1 (zlen (lit "thumb code")) (crc32 (lit "thumb code")) 0 flags'
      (lit "Beam") (lit "1.2") OVERLAY_VMA 0 (negb (Z.land FLAG_COMMITTED FLAG_COMMITTED =? 0))
      (negb (Z.land FLAG_COMMITTED FLAG_SCREEN_SAVER =? 0)) (lit "beam") (zlen beam)) /\
    slice HDR_SIZE (zlen beam) beam = lit "thumb code".
Proof.
  assert (build (lit "thumb code") (lit "Beam") (lit "1.2") 1 1 (lit "beam") FLAG_COMMITTED 0
    = Ok beam) as E by (vm_compute; reflexivity).
  split; [exact E|].
  apply (build_parse_roundtrip (lit "thumb code") (lit "Beam") (lit "1.2") 1 1 (lit "beam") FLAG_COMMITTED 0 beam);
    [exact beam_wf|vm_compute; reflexivity|wf_tac|reflexivity|wf_tac|reflexivity|reflexivity|exact E].
Defined.

Lemma build_empty_unparsable_witness :
  exists blob, build [] (lit "Nil") (lit "1") 1 1 (lit "none") FLAG_COMMITTED 0 = Ok blob /\
    parse blob true = raise AppError "code_size %d is outside 1..%d" [0; APP_OVERLAY_MAX].
Proof.
  eexists. split; [vm_compute; reflexivity|].
  apply (build_empty_unparsable (lit "Nil") (lit "1") 1 1 (lit "none") FLAG_COMMITTED 0).
  vm_compute. reflexivity.
Defined.

Lemma erase_frees_slot_witness :
  exists image', erase blank 5 = Ok (image', 0x10C000) /\ read_slot image' 5 = Ok None.
Proof.
  assert (erase blank 5 = Ok (fill_erased blank 0x10C000, 0x10C000)) as E.
  { apply erase_iff. split; [split; vm_compute; congruence|]. split; [reflexivity|].
    split; [|reflexivity]. unfold blank. rewrite zlen_rep; vm_compute; congruence. }
  eexists. split; [exact E|].
  exact (proj1 (erase_frees_slot blank 5 _ 0x10C000 beam beam_info beam_wf E beam_parses)).
Defined.
