(* ===== verification/Image.v ===== *)
(** Image detection, [src/tools/uvk5_image.py]: which of the three shapes a
    firmware file has, where the loader has to alias address 0, and the slot
    that holds the image the next launch boots. *)
From S2P Require Import Prelude Struct.

Definition FLASH_BASE : Z := 0x08000000.
Definition APP_OFFSET : Z := 0x2800.
Definition SRAM_BASE : Z := 0x20000000.
Definition SRAM_TOP : Z := 0x20004000.
Definition ELF_MAGIC : list Z := 0x7f :: lit "ELF".
Definition MAX_IMAGE : Z := 4 * 1024 * 1024.

Inductive image_kind := Application | FullFlash | Elf.

#[export] Instance image_kind_eq_dec : EqDecision image_kind.
Proof. solve_decision. Defined.

Record image_info := ImageInfo {
  ii_path : list Z;
  ii_kind : image_kind;
  ii_app_offset : Z;
  ii_size : Z;
  ii_sp : option Z;
  ii_reset : option Z
}.

(** The files of the host, by path. *)
Abbreviation files := (gmap (list Z) (list Z)).

(** [os.path.basename]. *)
Definition basename (path : list Z) : list Z :=
  foldl (fun acc c => if c =? 47 then [] else acc ++ [c]) [] path.

(** [as_dict]; the hexadecimal rendering of [sp] and [reset] is left to the
    reader. *)
Definition as_dict (i : image_info)
  : list Z * list Z * image_kind * Z * Z * option Z * option Z :=
  (basename (ii_path i), ii_path i, ii_kind i, ii_app_offset i, ii_size i, ii_sp i, ii_reset i).

Definition _vector_at (data : list Z) (offset : Z) : option (Z * Z) :=
  if zlen data <? offset + 8 then None
  else
    match unpack_from [fI; fI] data offset with
    | Raise _ => None                       (* not reached: the length is checked above *)
    | Ok (sp, (reset, _)) =>
        if negb ((SRAM_BASE <? sp) && (sp <=? SRAM_TOP)) then None
        else if negb ((FLASH_BASE <=? reset) && (reset <? FLASH_BASE + zlen data)) then None
        else Some (sp, reset)
    end.

Definition detect (fs : files) (path : list Z) : result image_info :=
  match fs !! path with
  | None => raise ImageError "no such file: %s" path
  | Some data =>
      let size := zlen data in
      if size =? 0 then raise ImageError "empty file" []
      else if MAX_IMAGE <? size
      then raise ImageError "%d bytes is larger than any UV-K5 image" [size]
      else if bool_decide (slice 0 4 data = ELF_MAGIC)
      then Ok (ImageInfo path Elf APP_OFFSET size None None)
      else match _vector_at data 0 with
           | None => raise ImageError "not a bootable image: no vector table at offset 0" []
           | Some (sp, reset) =>
               if reset <? FLASH_BASE + APP_OFFSET
               then Ok (ImageInfo path FullFlash 0 size (Some sp) (Some reset))
               else Ok (ImageInfo path Application APP_OFFSET size (Some sp) (Some reset))
           end
  end.

(** ** The image slot *)

(** [ImageSlot.current]. *)
Definition image_slot : Type := option image_info.

(** What [set] accepts: a path to detect, or an image already detected. *)
Inductive image_arg := ArgPath (path : list Z) | ArgInfo (i : image_info).

Definition slot_init (fs : files) (path : option (list Z)) : result image_slot :=
  match path with
  | Some p => if bool_decide (p = []) then Ok None else Some <$> detect fs p
  | None => Ok None
  end.
Definition slot_set (fs : files) (s : image_slot) (a : image_arg) : result (image_slot * image_info) :=
  i ← match a with ArgInfo i => Ok i | ArgPath p => detect fs p end;
  Ok (Some i, i).
Definition slot_clear (s : image_slot) : image_slot := None.
Definition slot_path (s : image_slot) : option (list Z) := ii_path <$> s.
Definition slot_app_offset (s : image_slot) : option Z := ii_app_offset <$> s.

(** ** Lemmas *)

(** The two words of a vector table. *)
Definition word (data : list Z) (off : Z) : Z := le_dec (slice off (off + 4) data).

Lemma unpack_words data off :
  0 <= off -> off + 8 <= zlen data ->
  unpack_from [fI; fI] data off = Ok (word data off, (word data (off + 4), tt)).
Proof.
  intros Ho Hl. unfold unpack_from. change (calcsize [fI; fI]) with 8.
  rewrite (proj2 (Z.leb_le _ _)) by lia. cbn [unpack unpack1 fwidth]. unfold word.
  assert (forall l : list Z, take 4 l = slice 0 4 l) as Ht by (intros; unfold slice; by rewrite drop_0).
  assert (drop 4 (slice off (off + 8) data) = slice (off + 4) (off + 8) data) as ->.
  { apply list_eq. intros k. rewrite lookup_drop, !lookup_slice by lia.
    repeat case_decide; try lia; [|done]. f_equal. lia. }
  rewrite !Ht, !slice_slice by lia.
  replace (off + 0) with off by lia. replace (off + 4 + 0) with (off + 4) by lia. done.
Qed.

Lemma vector_iff data sp reset :
  _vector_at data 0 = Some (sp, reset) <->
  8 <= zlen data /\ sp = word data 0 /\ reset = word data 4 /\
  SRAM_BASE < sp <= SRAM_TOP /\ FLASH_BASE <= reset < FLASH_BASE + zlen data.
Proof.
  unfold _vector_at. destruct (Z.ltb_spec (zlen data) (0 + 8)) as [|Hl]; [naive_solver lia|].
  rewrite unpack_words by lia. change (0 + 4) with 4.
  destruct (negb _) eqn:E1; [split; [done|]; intros (?&->&->&?&?); lia|].
  destruct (negb (_ && (word data 4 <? _))) eqn:E2; [split; [done|]; intros (?&->&->&?&?); lia|].
  split; [intros [= <- <-]|intros (?&->&->&?)]; [|done]. split_and!; lia.
Qed.

(** The kind a vector table's reset handler decides. *)
Definition kind_of (reset : Z) : image_kind :=
  if reset <? FLASH_BASE + APP_OFFSET then FullFlash else Application.
Definition offset_of (k : image_kind) : Z :=
  match k with FullFlash => 0 | Application | Elf => APP_OFFSET end.

(** What a file must be to boot, and as what. *)
Definition bootable (data : list Z) (k : image_kind) (sp reset : option Z) : Prop :=
  0 < zlen data <= MAX_IMAGE /\
  if decide (slice 0 4 data = ELF_MAGIC) then k = Elf /\ sp = None /\ reset = None
  else 8 <= zlen data /\ sp = Some (word data 0) /\ reset = Some (word data 4) /\
       SRAM_BASE < word data 0 <= SRAM_TOP /\
       FLASH_BASE <= word data 4 < FLASH_BASE + zlen data /\ k = kind_of (word data 4).

Lemma detect_ok_iff fs path i :
  detect fs path = Ok i <->
  exists data, fs !! path = Some data /\ bootable data (ii_kind i) (ii_sp i) (ii_reset i) /\
    ii_path i = path /\ ii_size i = zlen data /\ ii_app_offset i = offset_of (ii_kind i).
Proof.
  unfold detect, bootable. destruct (fs !! path) as [data|]; [|naive_solver].
  pose proof (zlen_nonneg data).
  destruct (Z.eqb_spec (zlen data) 0); [naive_solver lia|].
  destruct (Z.ltb_spec MAX_IMAGE (zlen data)); [naive_solver lia|].
  case_bool_decide as Hm.
  { split.
    - intros [= <-]. exists data. rewrite decide_True by done. cbn. repeat split; lia || done.
    - intros (d & [= <-] & [_ Hk] & Hp & Hs & Ho). rewrite decide_True in Hk by done.
      destruct i as [p k o s sp r]; cbn in *. destruct Hk as (-> & -> & ->). subst. done. }
  destruct (_vector_at data 0) as [[sp reset]|] eqn:Ev.
  - apply vector_iff in Ev as (Hl & -> & -> & Hsp & Hr).
    split.
    + intros Hi. exists data. rewrite decide_False by done. unfold kind_of.
      destruct (word data 4 <? _); injection Hi as <-; cbn; repeat split; lia || done.
    + intros (d & [= <-] & [_ Hk] & Hp & Hs & Ho). rewrite decide_False in Hk by done.
      destruct i as [p k o s sp r]; cbn in *. destruct Hk as (_ & -> & -> & _ & _ & ->). subst.
      unfold kind_of. by destruct (word data 4 <? _).
  - split; [done|]. intros (d & [= <-] & [_ Hk] & _). rewrite decide_False in Hk by done.
    destruct Hk as (Hl & _ & _ & Hsp & Hr & _).
    assert (_vector_at data 0 = Some (word data 0, word data 4)) as E by by apply vector_iff.
    congruence.
Qed.

Lemma detect_err fs path e : detect fs path = Raise e -> exn_cls e = ImageError.
Proof.
  unfold detect, raise. destruct (fs !! path); [|by intros [= <-]].
  repeat case_match; by intros [= <-].
Qed.

(** ** Properties *)

(** [detect] accepts exactly the bootable files: non-empty, at most 4 MB,
    and either an ELF or an image whose first word is a stack pointer in
    SRAM and whose second is a handler inside the image.  The kind is read
    off the handler's address, the loader offset off the kind, and every
    other file is refused with ImageError. *)
Theorem detect_spec fs path :
  match detect fs path with
  | Ok i => ii_path i = path /\ ii_app_offset i = offset_of (ii_kind i) /\
      exists data, fs !! path = Some data /\ ii_size i = zlen data /\
        bootable data (ii_kind i) (ii_sp i) (ii_reset i)
  | Raise e => exn_cls e = ImageError /\
      forall data k sp reset, fs !! path = Some data -> ~ bootable data k sp reset
  end.
Proof.
  destruct (detect fs path) as [i|e] eqn:E.
  - apply detect_ok_iff in E as (data & ? & ? & ? & ? & ?). eauto 8.
  - split; [by eapply detect_err|]. intros data k sp reset Hf Hb.
    assert (detect fs path = Ok (ImageInfo path k (offset_of k) (zlen data) sp reset)) as H.
    { apply detect_ok_iff. exists data. done. }
    congruence.
Qed.
