(* ===== verification/ElfTools.v ===== *)
(** The image converters [src/tools/bin2elf.py] (wrap a raw application image
    in a one-segment ELF) and [src/tools/elf2bin.py] (flatten an overlay
    app's allocated sections).  The specification of an ELF loader, which
    reads the program headers, is what the wrapped image is proved against;
    the flattened image is specified byte by byte. *)
From S2P Require Import Prelude Struct Image.

(** ** bin2elf *)

Definition APP_BASE_DEFAULT : Z := 0x08002800.
Definition EM_ARM : Z := 40.
Definition ET_EXEC : Z := 2.
Definition PT_LOAD : Z := 1.
Definition EF_ARM_EABI_VER5 : Z := 0x05000000.

Definition e_ident : list Z := (0x7f :: lit "ELF") ++ [1; 1; 1] ++ zrep 9 0.
Definition ehdr_fmt : list field :=
  [FStr 16; fH; fH; fI; fI; fI; fI; fI; fH; fH; fH; fH; fH; fH].
Definition phdr_fmt : list field := [fI; fI; fI; fI; fI; fI; fI; fI].

Definition build_elf (image : list Z) (base : Z) : result (list Z) :=
  if zlen image <? 8
  then raise SystemExit "image is too short to hold a vector table" []
  else
    '(sp, (reset, _)) ← unpack_from [fI; fI] image 0;
    if negb ((0x20000000 <=? sp) && (sp <=? 0x20004000))
    then raise SystemExit "initial SP 0x{sp:08x} is not in SRAM" [sp]
    else if (Z.land reset (Z.lnot 1) <? base) || (base + zlen image <=? Z.land reset (Z.lnot 1))
    then raise SystemExit "reset vector 0x{reset:08x} does not land inside the image" [reset; base]
    else
      let p_offset := Z.land base 0xFFFF in
      ehdr ← pack ehdr_fmt
        (e_ident, (ET_EXEC, (EM_ARM, (1, (reset, (52, (0, (EF_ARM_EABI_VER5,
          (52, (32, (1, (40, (0, (0, tt))))))))))))));
      phdr ← pack phdr_fmt
        (PT_LOAD, (p_offset, (base, (base, (zlen image, (zlen image, (5, (0x1000, tt))))))));
      let pad := zrep (p_offset - zlen ehdr - zlen phdr) 0 in
      Ok (ehdr ++ phdr ++ pad ++ image).

(** The specification of an ELF loader: the entry point and, for each
    PT_LOAD program header, the physical address and the file bytes that go
    there. *)
Definition elf_segment (elf : list Z) (off : Z) : result (list (Z * list Z)) :=
  '(typ, (p_offset, (_, (paddr, (filesz, (_, (_, (_, _)))))))) ← unpack_from phdr_fmt elf off;
  Ok (if typ =? PT_LOAD then [(paddr, slice p_offset (p_offset + filesz) elf)] else []).

Definition elf_load (elf : list Z) : result (Z * list (Z * list Z)) :=
  '(_, (_, (_, (_, (entry, (phoff, (_, (_, (_, (phentsize, (phnum, _))))))))))) ←
    unpack_from ehdr_fmt elf 0;
  segs ← foldM (fun acc i => s ← elf_segment elf (phoff + Z.of_nat i * phentsize); Ok (acc ++ s))
           [] (seq 0 (Z.to_nat phnum));
  Ok (entry, segs).

(** ** elf2bin *)

Definition SHT_NOBITS : Z := 8.
Definition SHF_ALLOC : Z := 0x2.
Definition shdr_fmt : list field := [fI; fI; fI; fI; fI; fI; fI; fI; fI; fI].

(** The tuples of [sections]: address, file offset, file size, memory size,
    type. *)
Record section := Sect {
  s_addr : Z; s_offset : Z; s_filesz : Z; s_memsz : Z; s_typ : Z
}.

(** What one section header adds to the list. *)
Definition keep_section (flags typ addr offset size : Z) : list section :=
  if typ =? SHT_NOBITS then [Sect addr offset 0 size typ]
  else if negb (Z.land flags SHF_ALLOC =? 0) && negb (size =? 0)
  then [Sect addr offset size size typ] else [].

Definition sections (blob : list Z) : result (option (list section)) :=
  if negb ((52 <=? zlen blob) && bool_decide (slice 0 4 blob = 0x7f :: lit "ELF")
           && bool_decide (slice 4 6 blob = [1; 1]))
  then raise SystemExit "not a 32-bit little-endian ELF" []
  else
    '(e_shoff, _) ← unpack_from [fI] blob 0x20;
    '(e_shentsize, (e_shnum, _)) ← unpack_from [fH; fH; fH] blob 0x2E;
    if (e_shoff =? 0) || (e_shnum =? 0) then Ok None
    else
      out ← foldM (fun out i =>
        '(_, (typ, (flags, (addr, (offset, (size, _)))))) ←
          unpack_from shdr_fmt blob (e_shoff + Z.of_nat i * e_shentsize);
        Ok (out ++ keep_section flags typ addr offset size)) [] (seq 0 (Z.to_nat e_shnum));
      Ok (match out with [] => None | _ => Some out end).

(** [min(...)] of a sequence that may be empty. *)
Definition min_of (l : list Z) : result Z :=
  match l with
  | [] => raise ValueError "min() iterable argument is empty" []
  | x :: l => Ok (foldl Z.min x l)
  end.
Definition max_of (l : list Z) : result Z :=
  match l with
  | [] => raise ValueError "max() iterable argument is empty" []
  | x :: l => Ok (foldl Z.max x l)
  end.

Definition has_content (s : section) : bool := negb (s_filesz s =? 0).

(** The loop over the sections: [out[addr - base:...] = blob[offset:...]]. *)
Definition place (blob : list Z) (base : Z) (out : list Z) (s : section) : list Z :=
  if has_content s
  then set_slice (s_addr s - base) (s_addr s - base + s_filesz s)
         (slice (s_offset s) (s_offset s + s_filesz s) blob) out
  else out.

(** [main], from the blob to the bytes it writes; the first component is the
    base address. *)
Definition flatten (blob : list Z) (min : option Z) : result (Z * list Z) :=
  secs ← sections blob;
  match secs with
  | None => raise SystemExit "no allocated sections; nothing to extract" []
  | Some secs =>
      base ← min_of (s_addr <$> filter (fun s => has_content s = true) secs);
      if match min with Some m => negb (base =? m) | None => false end
      then raise SystemExit "image starts at 0x%08X but the overlay VMA is 0x%08X" [base]
      else
        e ← max_of ((fun s => s_addr s + s_memsz s) <$> secs);
        Ok (base, foldl (place blob base) (zrep (e - base) 0) secs)
  end.

(** ** Wrapping *)

Lemma build_elf_inv image base elf :
  build_elf image base = Ok elf ->
  let reset := word image 4 in
  let p_offset := Z.land base 0xFFFF in
  8 <= zlen image /\ 0x20000000 <= word image 0 <= 0x20004000 /\
  base <= Z.land reset (Z.lnot 1) < base + zlen image /\
  exists ehdr phdr,
    pack ehdr_fmt (e_ident, (ET_EXEC, (EM_ARM, (1, (reset, (52, (0, (EF_ARM_EABI_VER5,
      (52, (32, (1, (40, (0, (0, tt)))))))))))))) = Ok ehdr /\
    pack phdr_fmt (PT_LOAD, (p_offset, (base, (base, (zlen image, (zlen image,
      (5, (0x1000, tt)))))))) = Ok phdr /\
    elf = ehdr ++ phdr ++ zrep (p_offset - 84) 0 ++ image.
Proof.
  unfold build_elf. destruct (Z.ltb_spec (zlen image) 8) as [|Hl]; [done|].
  rewrite unpack_words by lia. change (0 + 4) with 4. cbn [mbind result_bind].
  destruct (negb _) eqn:E1; [done|]. destruct (_ || _) eqn:E2; [done|].
  intros (ehdr & He & (phdr & Hp & [= <-])%bind_ok)%bind_ok.
  split; [done|]. split; [lia|]. split; [lia|]. exists ehdr, phdr.
  split; [done|]. split; [done|].
  rewrite (pack_zlen _ _ _ He), (pack_zlen _ _ _ Hp).
  change (calcsize ehdr_fmt) with 52. change (calcsize phdr_fmt) with 32.
  by replace (Z.land base 0xFFFF - 52 - 32) with (Z.land base 0xFFFF - 84) by lia.
Qed.

Lemma elf_load_built image base elf :
  build_elf image base = Ok elf ->
  elf_load elf = Ok (word image 4,
    [(base, slice (Z.land base 0xFFFF) (Z.land base 0xFFFF + zlen image) elf)]).
Proof.
  intros (Hl & Hsp & Hr & ehdr & phdr & He & Hp & ->)%build_elf_inv.
  pose proof (pack_zlen _ _ _ He) as Hze. pose proof (pack_zlen _ _ _ Hp) as Hzp.
  change (calcsize ehdr_fmt) with 52 in Hze. change (calcsize phdr_fmt) with 32 in Hzp.
  set (elf := ehdr ++ _). assert (84 <= zlen elf) as Hz.
  { unfold elf. rewrite !zlen_app.
    pose proof (zlen_nonneg (zrep (Z.land base 65535 - 84) 0)). pose proof (zlen_nonneg image). lia. }
  assert (unpack_from ehdr_fmt elf 0 = Ok (e_ident, (ET_EXEC, (EM_ARM, (1, (word image 4, (52, (0,
    (EF_ARM_EABI_VER5, (52, (32, (1, (40, (0, (0, tt))))))))))))))) as Eh.
  { apply unpack_from_slice; [lia| |].
    - change (0 + calcsize ehdr_fmt) with 52. unfold elf. rewrite slice_0_app by done. exact He.
    - eapply pack_ok_fits; [exact He|]. by vm_compute. }
  assert (elf_segment elf 52 = Ok [(base, slice (Z.land base 0xFFFF) (Z.land base 0xFFFF + zlen image) elf)])
    as Es.
  { assert (unpack_from phdr_fmt elf 52 = Ok (PT_LOAD, (Z.land base 0xFFFF, (base, (base,
      (zlen image, (zlen image, (5, (0x1000, tt))))))))) as Ep.
    { apply unpack_from_slice; [lia| |by eapply pack_ok_fits].
      change (52 + calcsize phdr_fmt) with 84. unfold elf.
      rewrite slice_app_r by lia. rewrite Hze. rewrite slice_0_app by lia. exact Hp. }
    unfold elf_segment. by rewrite Ep. }
  unfold elf_load. rewrite Eh. cbn [mbind result_bind].
  change (seq 0 (Z.to_nat 1)) with [0%nat]. cbn [foldM].
  change (52 + Z.of_nat 0 * 32) with 52. rewrite Es. done.
Qed.

Lemma land_u16 x : Z.land x 0xFFFF = x mod 2 ^ 16.
Proof. change 0xFFFF with (Z.ones 16). by apply Z.land_ones. Qed.

(** Where the image is in the file. *)
Lemma built_tail image base elf :
  build_elf image base = Ok elf ->
  let at_ := Z.max 84 (Z.land base 0xFFFF) in
  zlen elf = at_ + zlen image /\ slice at_ (at_ + zlen image) elf = image /\
  slice 0 4 elf = 0x7f :: lit "ELF".
Proof.
  intros (Hl & _ & _ & ehdr & phdr & He & Hp & ->)%build_elf_inv.
  pose proof (pack_zlen _ _ _ He) as Hze. pose proof (pack_zlen _ _ _ Hp) as Hzp.
  change (calcsize ehdr_fmt) with 52 in Hze. change (calcsize phdr_fmt) with 32 in Hzp.
  set (pad := zrep (Z.land base 0xFFFF - 84) 0). cbv zeta. set (m := Z.max 84 _).
  assert (zlen pad = m - 84) as Hpad by (unfold zlen, pad, zrep, m; rewrite length_replicate; lia).
  assert (84 <= m) by lia.
  split; [rewrite !zlen_app; lia|]. split.
  - rewrite !app_assoc. rewrite slice_app_r by (rewrite !zlen_app; lia).
    rewrite !zlen_app, Hze, Hzp, Hpad.
    replace (m - (52 + 32 + (m - 84))) with 0 by lia.
    replace (m + zlen image - (52 + 32 + (m - 84))) with (zlen image) by lia. by apply slice_all.
  - rewrite slice_app_l by lia. unfold ehdr_fmt in He.
    apply pack_cons_iff in He as (b1 & b2 & [= <-] & _ & ->). reflexivity.
Qed.

(** The ELF header as written, and what it leaves for elf2bin: no sections. *)
Definition header_bytes (reset : Z) : list Z :=
  e_ident ++ le_enc 2 ET_EXEC ++ le_enc 2 EM_ARM ++ le_enc 4 1 ++ le_enc 4 reset ++ le_enc 4 52 ++ le_enc 4 0 ++
  le_enc 4 EF_ARM_EABI_VER5 ++ le_enc 2 52 ++ le_enc 2 32 ++ le_enc 2 1 ++ le_enc 2 40 ++ le_enc 2 0 ++ le_enc 2 0.

Lemma built_header image base elf :
  build_elf image base = Ok elf -> exists tail, elf = header_bytes (word image 4) ++ tail.
Proof.
  intros (_ & _ & _ & ehdr & phdr & He & _ & ->)%build_elf_inv.
  assert (ehdr = header_bytes (word image 4)) as ->; [|by eexists].
  unfold ehdr_fmt in He. apply pack_cons_iff in He as (b & h & [= <-] & He & ->).
  repeat (apply pack_cons_iff in He as (? & ? & [_ ->]%pack1_int_iff & He & ->)). cbn [pack] in He.
  by injection He as <-.
Qed.

Lemma built_no_sections image base elf : build_elf image base = Ok elf -> sections elf = Ok None.
Proof.
  intros (tail & ->)%built_header. set (h := header_bytes _).
  assert (zlen h = 52) as Hz by reflexivity.
  assert (forall a b, 0 <= a -> b <= 52 -> slice a b (h ++ tail) = slice a b h) as Hs
    by (intros; apply slice_app_l; lia).
  assert (52 <= zlen (h ++ tail)) as Hl by (rewrite zlen_app; pose proof (zlen_nonneg tail); lia).
  unfold sections. rewrite (proj2 (Z.leb_le _ _)) by done. rewrite !Hs by lia.
  change (slice 0 4 h) with (0x7f :: lit "ELF"). change (slice 4 6 h) with [1; 1].
  rewrite !bool_decide_true by done. cbn [andb negb]. unfold unpack_from.
  change (0x20 + calcsize [fI]) with 36. change (0x2E + calcsize [fH; fH; fH]) with 52.
  rewrite !(proj2 (Z.leb_le _ (zlen (h ++ tail)))) by lia. rewrite !Hs by lia. reflexivity.
Qed.

(** A wrapped image loads where it was linked: for every base whose low
    sixteen bits leave room for the two headers (the default 0x08002800
    does), an ELF loader that follows the program headers of [build_elf]'s
    file places the image's bytes, all of them and nothing else, at the base,
    and starts at the reset vector, which is inside the image; and p_offset is
    congruent with p_vaddr modulo the segment alignment 0x1000. *)
Theorem build_elf_loads image base elf :
  84 <= Z.land base 0xFFFF -> build_elf image base = Ok elf ->
  elf_load elf = Ok (word image 4, [(base, image)]) /\
  base <= Z.land (word image 4) (Z.lnot 1) < base + zlen image /\
  (Z.land base 0xFFFF - base) mod 0x1000 = 0.
Proof.
  intros Hb He. rewrite (elf_load_built _ _ _ He).
  destruct (built_tail _ _ _ He) as (_ & Ht & _). rewrite Z.max_r in Ht by done. rewrite Ht.
  apply build_elf_inv in He as (_ & _ & Hr & _). split; [done|]. split; [done|].
  rewrite land_u16. rewrite (Z.div_mod base (2 ^ 16)) at 2 by done.
  replace (base mod 2 ^ 16 - (2 ^ 16 * (base / 2 ^ 16) + base mod 2 ^ 16))
    with (- (base / 2 ^ 16 * 16) * 0x1000) by lia.
  by apply Z.mod_mul.
Qed.

(** For a base that is a multiple of 64 KiB, such as the start of flash
    0x08000000, the file [build_elf] writes does not load the image: its
    p_offset is 0 while the image is at byte 84, so the loader places the ELF
    header itself at the base. *)
Theorem build_elf_aligned_base image base elf :
  Z.land base 0xFFFF = 0 -> build_elf image base = Ok elf ->
  slice 84 (84 + zlen image) elf = image /\
  exists seg, elf_load elf = Ok (word image 4, [(base, seg)]) /\
    slice 0 4 seg = 0x7f :: lit "ELF" /\ seg <> image.
Proof.
  intros Hb He. rewrite (elf_load_built _ _ _ He), Hb.
  destruct (built_tail _ _ _ He) as (_ & Ht & Hm). rewrite Hb in Ht.
  apply build_elf_inv in He as (Hl & Hsp & _ & _). split; [exact Ht|].
  eexists. split; [reflexivity|]. rewrite slice_slice by lia.
  change (0 + 0) with 0. change (0 + 4) with 4. split; [done|].
  intros Heq. unfold word in Hsp. change (0 + 4) with 4 in Hsp.
  assert (slice 0 4 image = 0x7f :: lit "ELF") as E.
  { rewrite <- Heq, slice_slice by lia. exact Hm. }
  rewrite E in Hsp. vm_compute in Hsp. by destruct Hsp.
Qed.

(** ** The two tools' view of an application image *)

Lemma clear_bit0 x : Z.land x (Z.lnot 1) = x / 2 * 2.
Proof.
  rewrite <- Z.ldiff_land. pose proof (Z.ldiff_ones_r x 1 ltac:(lia)) as H.
  change (Z.ones 1) with 1 in H. rewrite H.
  by rewrite Z.shiftl_mul_pow2, Z.shiftr_div_pow2 by lia.
Qed.
Lemma reset_even_le reset base : base mod 2 = 0 -> base <= reset -> base <= Z.land reset (Z.lnot 1).
Proof. intros. rewrite clear_bit0. Z.to_euclidean_division_equations. lia. Qed.
Lemma reset_even_lt reset : Z.land reset (Z.lnot 1) <= reset.
Proof. rewrite clear_bit0. Z.to_euclidean_division_equations. lia. Qed.

(** The fields of both headers fit for an image of at most 4 MB. *)
Lemma build_elf_ok image base :
  wf_bytes image -> 8 <= zlen image <= MAX_IMAGE -> 0 <= base < 2 ^ 32 ->
  0x20000000 <= word image 0 <= 0x20004000 ->
  base <= Z.land (word image 4) (Z.lnot 1) < base + zlen image ->
  exists elf, build_elf image base = Ok elf.
Proof.
  intros Hwf Hl Hb Hsp Hr. unfold MAX_IMAGE in Hl. unfold build_elf.
  rewrite (proj2 (Z.ltb_ge _ _)) by lia. rewrite unpack_words by lia. change (0 + 4) with 4.
  cbn [mbind result_bind]. destruct (negb _) eqn:E1; [lia|]. destruct (_ || _) eqn:E2; [lia|].
  assert (0 <= word image 4 < 2 ^ 32) as Hw.
  { unfold word. pose proof (le_dec_bound (slice 4 (4 + 4) image)) as Hd.
    rewrite zlen_slice in Hd by lia. apply Hd. auto with uvk5. }
  match goal with |- context [pack ehdr_fmt ?v] =>
    destruct (pack_fits ehdr_fmt v) as [ehdr ->] end.
  { cbn [fits fits1 ehdr_fmt fst snd]. change (256 ^ Z.of_nat 4) with (2 ^ 32).
    change (256 ^ Z.of_nat 2) with 65536. unfold ET_EXEC, EM_ARM, EF_ARM_EABI_VER5.
    change (2 ^ 32) with 4294967296 in *. repeat split; try lia; reflexivity. }
  cbn [mbind result_bind].
  match goal with |- context [pack phdr_fmt ?v] =>
    destruct (pack_fits phdr_fmt v) as [phdr ->] end; [|by eexists].
  cbn [fits fits1 phdr_fmt fst snd]. change (256 ^ Z.of_nat 4) with (2 ^ 32).
  unfold PT_LOAD. pose proof (land_u16 base) as Hu. pose proof (Z.mod_pos_bound base (2 ^ 16)).
  change (2 ^ 32) with 4294967296 in *. change (2 ^ 16) with 65536 in *.
  repeat split; try lia; reflexivity.
Qed.

(** The two tools agree in one direction: an image that [detect] calls
    an application is accepted by [bin2elf] at its default base, and the ELF
    it makes loads that image at 0x08002800. *)
Theorem detected_app_wraps fs path i image :
  fs !! path = Some image -> wf_bytes image ->
  detect fs path = Ok i -> ii_kind i = Application ->
  exists elf, build_elf image APP_BASE_DEFAULT = Ok elf /\
    elf_load elf = Ok (word image 4, [(APP_BASE_DEFAULT, image)]) /\
    ii_reset i = Some (word image 4).
Proof.
  intros Hf Hwf (d & Hd & (Hl & Hb) & _ & _ & _)%detect_ok_iff Hk.
  rewrite Hf in Hd. injection Hd as <-. case_decide as Hm; [destruct Hb as [Hb _]; congruence|].
  destruct Hb as (H8 & _ & Hrs & Hsp & Hr & Hkind). unfold kind_of in Hkind. rewrite Hk in Hkind.
  destruct (Z.ltb_spec (word image 4) (FLASH_BASE + APP_OFFSET)) as [|Hge]; [done|].
  pose proof (reset_even_le (word image 4) APP_BASE_DEFAULT eq_refl) as Hev.
  pose proof (reset_even_lt (word image 4)).
  unfold FLASH_BASE, APP_OFFSET, SRAM_BASE, SRAM_TOP, APP_BASE_DEFAULT in *.
  destruct (build_elf_ok image 0x08002800) as [elf He]; try lia; try done.
  exists elf. split; [done|]. split; [|done].
  rewrite (elf_load_built _ _ _ He). destruct (built_tail _ _ _ He) as (_ & Ht & _).
  change (Z.max 84 (Z.land 134227968 65535)) with (Z.land 0x08002800 0xFFFF) in Ht. by rewrite Ht.
Qed.

(** They disagree in the other: an application image that [bin2elf]
    accepts at its default base is refused by [detect] whenever its reset
    handler lies in its last 0x2800 bytes, because [detect] measures the
    handler's offset from the start of flash and not from 0x08002800.  No
    application image of 10 KB or less is detected at all. *)
Theorem late_reset_not_detected fs path image elf :
  fs !! path = Some image -> slice 0 4 image <> ELF_MAGIC ->
  build_elf image APP_BASE_DEFAULT = Ok elf ->
  zlen image - APP_OFFSET <= word image 4 - APP_BASE_DEFAULT \/ zlen image <= APP_OFFSET ->
  exists e, detect fs path = Raise e /\ exn_cls e = ImageError.
Proof.
  intros Hf Hm (Hl & Hsp & Hr & _)%build_elf_inv Hlate.
  destruct (detect fs path) as [i|e] eqn:E; [|exists e; split; [done|by eapply detect_err]].
  exfalso. apply detect_ok_iff in E as (d & Hd & (_ & Hb) & _).
  rewrite Hf in Hd. injection Hd as <-. rewrite decide_False in Hb by done.
  destruct Hb as (_ & _ & _ & _ & Hr' & _). pose proof (reset_even_lt (word image 4)).
  unfold APP_BASE_DEFAULT, FLASH_BASE, APP_OFFSET in *. lia.
Qed.

(** ** Flattening *)

(** What [sections] guarantees of its tuples. *)
Definition sane (s : section) : Prop :=
  0 <= s_addr s /\ 0 <= s_offset s /\ 0 <= s_memsz s /\
  (s_filesz s = 0 \/ s_filesz s = s_memsz s).

Lemma unpack_from_fits fs buf off v :
  wf_bytes buf -> 0 <= off -> unpack_from fs buf off = Ok v -> strs_exact fs v -> fits fs v.
Proof.
  intros Hwf Ho Hu Hs. unfold unpack_from in Hu.
  destruct (Z.leb_spec (off + calcsize fs) (zlen buf)); [|done]. injection Hu as <-.
  pose proof (calcsize_nonneg fs).
  eapply pack_ok_fits; [apply pack_unpack; [auto with uvk5|rewrite zlen_slice; lia]|done].
Qed.

Lemma sections_sane blob secs :
  wf_bytes blob -> sections blob = Ok (Some secs) -> Forall sane secs.
Proof.
  intros Hwf. unfold sections. destruct (negb _); [done|].
  intros ((shoff & []) & Hu1 & H)%bind_ok.
  apply bind_ok in H as ((entsize & shnum & third & []) & Hu2 & H).
  destruct (unpack_from_fits [fI] blob 0x20 (shoff, tt) Hwf ltac:(lia) Hu1 ltac:(done)) as [Hf1 _].
  destruct (unpack_from_fits [fH; fH; fH] blob 0x2E (entsize, (shnum, (third, tt))) Hwf
    ltac:(lia) Hu2 ltac:(done)) as [Hf2 _].
  cbn [fits1 fst snd] in Hf1, Hf2.
  destruct (_ || _); [done|]. apply bind_ok in H as (out & Hout & Hsome).
  assert (out = secs) as -> by (destruct out; congruence). clear Hsome.
  eapply (foldM_invariant _ (Forall sane)); [|by constructor|exact Hout].
  intros acc i acc' Hacc _ Hstep.
  apply bind_ok in Hstep as ((nm & typ & flags & addr & offset & size & rest) & Hu & [= <-]).
  apply Forall_app. split; [done|].
  apply (unpack_from_fits shdr_fmt blob _ (nm, (typ, (flags, (addr, (offset, (size, rest)))))))
    in Hu; [|done|lia|by destruct rest as (?&?&?&?&[])].
  cbn [fits fits1 shdr_fmt fst snd] in Hu. destruct Hu as (_ & _ & _ & Ha & Hoff & Hsz & _).
  unfold keep_section. case_match; [|case_match]; repeat constructor; cbn; lia.
Qed.

Lemma foldl_min_le l x : foldl Z.min x l <= x /\ Forall (fun y => foldl Z.min x l <= y) l.
Proof.
  revert x; induction l as [|y l IH]; intros x; simpl; [split; [lia|done]|].
  destruct (IH (Z.min x y)) as [H1 H2]. split; [lia|]. constructor; [lia|done].
Qed.
Lemma foldl_max_ge l x : x <= foldl Z.max x l /\ Forall (fun y => y <= foldl Z.max x l) l.
Proof.
  revert x; induction l as [|y l IH]; intros x; simpl; [split; [lia|done]|].
  destruct (IH (Z.max x y)) as [H1 H2]. split; [lia|]. constructor; [lia|done].
Qed.
Lemma min_of_le l m : min_of l = Ok m -> Forall (fun y => m <= y) l.
Proof. destruct l as [|x l]; [done|]. intros [= <-]. destruct (foldl_min_le l x). by constructor. Qed.
Lemma max_of_ge l m : max_of l = Ok m -> Forall (fun y => y <= m) l.
Proof. destruct l as [|x l]; [done|]. intros [= <-]. destruct (foldl_max_ge l x). by constructor. Qed.

(** A section that fits the output and the file. *)
Definition placeable (blob : list Z) (base e : Z) (s : section) : Prop :=
  has_content s = true ->
  base <= s_addr s /\ 0 <= s_offset s /\ 0 <= s_filesz s /\
  s_addr s + s_filesz s <= e /\ s_offset s + s_filesz s <= zlen blob.

(** The offset of an output byte within a section's content. *)
Definition within (base : Z) (s : section) (k : nat) : Prop :=
  has_content s = true /\ s_addr s - base <= Z.of_nat k < s_addr s - base + s_filesz s.

Definition apart (s1 s2 : section) : Prop :=
  has_content s1 = true -> has_content s2 = true ->
  s_addr s1 + s_filesz s1 <= s_addr s2 \/ s_addr s2 + s_filesz s2 <= s_addr s1.

Lemma place_one blob base e out s :
  placeable blob base e s -> zlen out = e - base ->
  zlen (place blob base out s) = e - base /\
  forall k, place blob base out s !! k =
    if decide (within base s k)
    then blob !! (Z.to_nat (s_offset s) + (k - Z.to_nat (s_addr s - base)))%nat
    else out !! k.
Proof.
  unfold placeable, place, within. intros Hp Ho. destruct (has_content s) eqn:Hc.
  - destruct (Hp eq_refl) as (H1 & H2 & H3 & H4 & H5).
    split; [rewrite zlen_set_slice; rewrite ?zlen_slice; lia|]. intros k.
    rewrite lookup_set_slice by (rewrite ?zlen_slice; lia).
    rewrite lookup_slice by lia. repeat case_decide; try lia; naive_solver lia.
  - split; [done|]. intros k. rewrite decide_False by naive_solver. done.
Qed.

Lemma place_all blob base e secs out :
  Forall (placeable blob base e) secs -> ForallOrdPairs apart secs -> zlen out = e - base ->
  let out' := foldl (place blob base) out secs in
  zlen out' = e - base /\
  (forall s k, s ∈ secs -> within base s k ->
     out' !! k = blob !! (Z.to_nat (s_offset s) + (k - Z.to_nat (s_addr s - base)))%nat) /\
  (forall k, (forall s, s ∈ secs -> ~ within base s k) -> out' !! k = out !! k).
Proof.
  intros Hp Hd. revert out. induction Hd as [|s secs Hs Hd IH]; intros out Ho; cbn [foldl].
  - split; [done|]. split; [by intros s k ?%elem_of_nil|done].
  - apply Forall_cons in Hp as [Hp1 Hp2].
    destruct (place_one blob base e out s Hp1 Ho) as [Ho1 Hl1].
    destruct (IH Hp2 _ Ho1) as (Hz & Hin & Hout). split; [done|]. split.
    + intros s' k [->|Hs']%elem_of_cons Hw; [|by apply Hin].
      rewrite Hout; [by rewrite Hl1, decide_True|].
      intros s2 Hs2 Hw2. rewrite Forall_forall in Hs. specialize (Hs s2 Hs2).
      destruct Hw as [Hc Hw], Hw2 as [Hc2 Hw2]. unfold apart in Hs. specialize (Hs Hc Hc2). lia.
    + intros k Hk. rewrite Hout, Hl1, decide_False; [done| |].
      * apply Hk. by left.
      * intros s' Hs'. apply Hk. by right.
Qed.

(** What [elf2bin] writes: when the allocated sections lie inside the
    file and do not overlap, every section with content appears at its
    address minus the base, byte for byte, every other byte (the gaps and
    .bss) is zero, nothing with content lies below the base, and the output
    ends where the last section, .bss included, ends.  A required start
    address is enforced. *)
Theorem flatten_sections blob min base out secs :
  wf_bytes blob -> sections blob = Ok (Some secs) -> flatten blob min = Ok (base, out) ->
  Forall (fun s => has_content s = true -> s_offset s + s_filesz s <= zlen blob) secs ->
  ForallOrdPairs apart secs ->
  (forall m, min = Some m -> base = m) /\
  (exists s, s ∈ secs /\ has_content s = true) /\
  Forall (fun s => has_content s = true -> base <= s_addr s) secs /\
  max_of ((fun s => s_addr s + s_memsz s) <$> secs) = Ok (base + zlen out) /\
  (forall s, s ∈ secs -> has_content s = true ->
     slice (s_addr s - base) (s_addr s - base + s_filesz s) out =
     slice (s_offset s) (s_offset s + s_filesz s) blob) /\
  (forall k, (k < length out)%nat -> (forall s, s ∈ secs -> ~ within base s k) -> out !! k = Some 0).
Proof.
  intros Hwf Hs Hf Hfile Hap. pose proof (sections_sane _ _ Hwf Hs) as Hsane.
  unfold flatten in Hf. rewrite Hs in Hf. cbn [mbind result_bind] in Hf.
  apply bind_ok in Hf as (b & Hb & Hf).
  destruct (match min with Some m => _ | None => _ end) eqn:Hmin; [done|].
  apply bind_ok in Hf as (e & He & [= <- <-]).
  pose proof (min_of_le _ _ Hb) as Hle. pose proof (max_of_ge _ _ He) as Hge.
  rewrite Forall_fmap in Hle, Hge. rewrite Forall_forall in Hle, Hge, Hsane, Hfile.
  assert (forall s, s ∈ secs -> has_content s = true -> b <= s_addr s) as Hlow.
  { intros s Hin Hc. apply (Hle s). by apply list_elem_of_filter. }
  assert (Forall (placeable blob b e) secs) as Hpl.
  { apply Forall_forall. intros s Hin Hc. destruct (Hsane s Hin) as (? & ? & ? & Hm).
    pose proof (Hge s Hin) as Hg. cbn in Hg. pose proof (Hfile s Hin Hc). pose proof (Hlow s Hin Hc).
    unfold has_content in Hc. lia. }
  assert (exists s, s ∈ secs /\ has_content s = true) as Hex.
  { destruct (filter (fun s => has_content s = true) secs) as [|s l] eqn:Ef; [done|].
    exists s. apply and_comm. apply (list_elem_of_filter (fun s => has_content s = true)). rewrite Ef. by left. }
  assert (b <= e) as Hbe.
  { destruct Hex as (s & Hin & Hc). pose proof (proj1 (Forall_forall _ _) Hpl s Hin Hc). lia. }
  assert (zlen (zrep (e - b) 0) = e - b) as Hz by (apply zlen_rep; lia).
  destruct (place_all blob b e secs _ Hpl Hap Hz) as (Hzl & Hin & Hout).
  split; [by destruct min as [m|]; [intros ? [= <-]; lia|]|]. split; [done|].
  split; [by apply Forall_forall|]. split; [rewrite Hzl, He; f_equal; lia|]. split.
  - intros s Hs' Hc. pose proof (proj1 (Forall_forall _ _) Hpl s Hs' Hc) as (? & ? & ? & ? & ?).
    apply list_eq. intros k. rewrite !lookup_slice by lia. case_decide; [|by rewrite decide_False by lia].
    rewrite decide_True by lia. rewrite (Hin s) by (done || (split; [done|lia])). f_equal. lia.
  - intros k Hk Hno. rewrite (Hout k Hno). unfold zrep. apply lookup_replicate_2.
    unfold zlen in Hzl. lia.
Qed.

(** ** Concrete images *)

Definition small_app : list Z :=
  [0x00; 0x40; 0x00; 0x20; 0x05; 0x28; 0x00; 0x08; 0xb0; 0xb5; 0x70; 0x47].
Definition small_boot : list Z :=
  [0x00; 0x40; 0x00; 0x20; 0x05; 0x00; 0x00; 0x08; 0xb0; 0xb5; 0x70; 0x47].
Definition large_app : list Z := small_app ++ zrep 0x3000 0.

Lemma build_elf_loads_witness :
  exists elf, build_elf small_app APP_BASE_DEFAULT = Ok elf /\
    elf_load elf = Ok (0x08002805, [(APP_BASE_DEFAULT, small_app)]).
Proof.
  destruct (build_elf_ok small_app APP_BASE_DEFAULT) as [elf E];
    [wf_tac|split; vm_compute; congruence|split; vm_compute; congruence
    |split; vm_compute; congruence|split; vm_compute; congruence|].
  exists elf. split; [exact E|].
  exact (proj1 (build_elf_loads small_app APP_BASE_DEFAULT elf
    ltac:(vm_compute; discriminate) E)).
Defined.

Lemma build_elf_aligned_base_witness :
  exists elf seg, build_elf small_boot FLASH_BASE = Ok elf /\
    elf_load elf = Ok (0x08000005, [(FLASH_BASE, seg)]) /\ seg <> small_boot.
Proof.
  destruct (build_elf_ok small_boot FLASH_BASE) as [elf E];
    [wf_tac|split; vm_compute; congruence|split; vm_compute; congruence
    |split; vm_compute; congruence|split; vm_compute; congruence|].
  destruct (build_elf_aligned_base small_boot FLASH_BASE elf eq_refl E) as (_ & seg & H1 & _ & H2).
  exists elf, seg. exact (conj E (conj H1 H2)).
Defined.

Lemma detected_app_wraps_witness :
  exists i elf, detect {[lit "a.bin" := large_app]} (lit "a.bin") = Ok i /\
    build_elf large_app APP_BASE_DEFAULT = Ok elf /\
    elf_load elf = Ok (0x08002805, [(APP_BASE_DEFAULT, large_app)]).
Proof.
  assert (detect {[lit "a.bin" := large_app]} (lit "a.bin") =
    Ok (ImageInfo (lit "a.bin") Application APP_OFFSET 0x300c (Some 0x20004000) (Some 0x08002805))) as E.
  { unfold detect. rewrite lookup_singleton_eq. vm_compute. reflexivity. }
  destruct (detected_app_wraps {[lit "a.bin" := large_app]} (lit "a.bin") _ large_app
    (lookup_singleton_eq _ _) ltac:(apply wf_bytes_app; split; [wf_tac|apply wf_bytes_rep; lia])
    E eq_refl) as (elf & H1 & H2 & _).
  eexists _, elf. exact (conj E (conj H1 H2)).
Defined.

Lemma late_reset_not_detected_witness :
  exists elf e, build_elf small_app APP_BASE_DEFAULT = Ok elf /\
    detect {[lit "a.bin" := small_app]} (lit "a.bin") = Raise e.
Proof.
  destruct (build_elf_ok small_app APP_BASE_DEFAULT) as [elf E];
    [wf_tac|split; vm_compute; congruence|split; vm_compute; congruence
    |split; vm_compute; congruence|split; vm_compute; congruence|].
  destruct (late_reset_not_detected {[lit "a.bin" := small_app]} (lit "a.bin") small_app elf
    (lookup_singleton_eq _ _) ltac:(vm_compute; discriminate) E
    ltac:(right; vm_compute; discriminate)) as (e & He & _).
  exists elf, e. exact (conj E He).
Defined.

(** An ELF with a four-byte .text at 0x20000280, two bytes of .data eight
    bytes on, and four bytes of .bss after it. *)
Definition sect_header (typ flags addr offset size : Z) : list Z :=
  zrep 4 0 ++ le_enc 4 typ ++ le_enc 4 flags ++ le_enc 4 addr ++ le_enc 4 offset
  ++ le_enc 4 size ++ zrep 16 0.
Definition overlay_elf : list Z :=
  e_ident ++ zrep 16 0 ++ le_enc 4 58 ++ zrep 10 0 ++ le_enc 2 40 ++ le_enc 2 3 ++ le_enc 2 0
  ++ [1; 2; 3; 4; 5; 6]
  ++ sect_header 1 6 0x20000280 52 4 ++ sect_header 1 3 0x20000288 56 2
  ++ sect_header SHT_NOBITS 3 0x2000028c 58 4.
Definition overlay_sections : list section :=
  [Sect 0x20000280 52 4 4 1; Sect 0x20000288 56 2 2 1; Sect 0x2000028c 58 0 4 8].

Lemma flatten_sections_witness :
  flatten overlay_elf (Some 0x20000280) =
    Ok (0x20000280, [1; 2; 3; 4; 0; 0; 0; 0; 5; 6; 0; 0; 0; 0; 0; 0]) /\
  max_of ((fun s => s_addr s + s_memsz s) <$> overlay_sections) = Ok 0x20000290.
Proof.
  assert (flatten overlay_elf (Some 0x20000280) =
    Ok (0x20000280, [1; 2; 3; 4; 0; 0; 0; 0; 5; 6; 0; 0; 0; 0; 0; 0])) as E
    by (vm_compute; reflexivity).
  split; [exact E|].
  destruct (flatten_sections overlay_elf (Some 0x20000280) _ _ overlay_sections
    ltac:(wf_tac) ltac:(vm_compute; reflexivity) E) as (_ & _ & _ & H & _).
  - repeat constructor; intros _; vm_compute; discriminate.
  - repeat constructor; unfold apart; cbn; intros; lia || discriminate.
  - exact H.
Defined.
