(* ===== verification/Logs.v ===== *)
(** The shared log of [src/tools/uvk5_logs.py]: rendering a line of serial,
    the bounded buffer, pumping a byte stream into it, and the polling
    client of webui's [/api/logs].  Theorems: the buffer is a numbered window
    on the history, and what a polling client receives. *)
From S2P Require Import Prelude Text.
From stdpp Require Import pretty sorting.
Open Scope Z_scope.

(** ** One line *)

(** [_TEXT_BYTES]. *)
Definition is_text_byte (b : Z) : bool := ((0x20 <=? b) && (b <? 0x7f)) || (b =? 9).

Definition is_eol (b : Z) : bool := (b =? 13) || (b =? 10).
Fixpoint drop_eol (s : list Z) : list Z :=
  match s with
  | c :: r => if is_eol c then drop_eol r else s
  | [] => []
  end.
(** [raw.rstrip(b"\r\n")]. *)
Definition rstrip_eol (raw : list Z) : list Z := reverse (drop_eol (reverse raw)).

Definition in_range (lo hi b : Z) : bool := (lo <=? b) && (b <=? hi).
Definition cont (b : Z) : Z := Z.land b 0x3f.

(** [body.decode("utf-8", "replace")]: an ill-formed sequence gives one
    U+FFFD for its longest prefix that could have begun a character. *)
Fixpoint decode_utf8 (s : list Z) : list Z :=
  match s with
  | [] => []
  | b :: r =>
      if b <? 0x80 then b :: decode_utf8 r
      else if in_range 0xc2 0xdf b then
        match r with
        | c :: r1 => if in_range 0x80 0xbf c
                     then Z.lor (Z.shiftl (Z.land b 0x1f) 6) (cont c) :: decode_utf8 r1
                     else 0xfffd :: decode_utf8 r
        | [] => [0xfffd]
        end
      else if in_range 0xe0 0xef b then
        match r with
        | c :: r1 =>
            if in_range (if b =? 0xe0 then 0xa0 else 0x80) (if b =? 0xed then 0x9f else 0xbf) c
            then match r1 with
                 | d :: r2 =>
                     if in_range 0x80 0xbf d
                     then Z.lor (Z.shiftl (Z.land b 0x0f) 12)
                            (Z.lor (Z.shiftl (cont c) 6) (cont d)) :: decode_utf8 r2
                     else 0xfffd :: decode_utf8 r1
                 | [] => [0xfffd]
                 end
            else 0xfffd :: decode_utf8 r
        | [] => [0xfffd]
        end
      else if in_range 0xf0 0xf4 b then
        match r with
        | c :: r1 =>
            if in_range (if b =? 0xf0 then 0x90 else 0x80) (if b =? 0xf4 then 0x8f else 0xbf) c
            then match r1 with
                 | d :: r2 =>
                     if in_range 0x80 0xbf d
                     then match r2 with
                          | e :: r3 =>
                              if in_range 0x80 0xbf e
                              then Z.lor (Z.shiftl (Z.land b 0x07) 18)
                                     (Z.lor (Z.shiftl (cont c) 12)
                                        (Z.lor (Z.shiftl (cont d) 6) (cont e))) :: decode_utf8 r3
                              else 0xfffd :: decode_utf8 r2
                          | [] => [0xfffd]
                          end
                     else 0xfffd :: decode_utf8 r1
                 | [] => [0xfffd]
                 end
            else 0xfffd :: decode_utf8 r
        | [] => [0xfffd]
        end
      else 0xfffd :: decode_utf8 r
  end.

Definition hex_digit (d : Z) : Z := if d <? 10 then 48 + d else 87 + d.
(** [b.hex(" ")]. *)
Fixpoint hex_spaced (b : list Z) : list Z :=
  match b with
  | [] => []
  | [x] => [hex_digit (x / 16); hex_digit (x mod 16)]
  | x :: b => hex_digit (x / 16) :: hex_digit (x mod 16) :: 32 :: hex_spaced b
  end.

Definition describe_line (raw : list Z) : list Z :=
  let body := rstrip_eol raw in
  if bool_decide (body = []) then []
  else
    let unprintable := zlen (filter (fun b => is_text_byte b = false) body) in
    if unprintable * 4 <=? zlen body then decode_utf8 body
    else
      let head := hex_spaced (slice 0 24 body) in
      let tail := if zlen body <=? 24 then []
                  else lit " " ++ [0x2026] ++ lit " +" ++ decimal (zlen body - 24) ++ lit " bytes" in
      lit "<binary " ++ decimal (zlen body) ++ lit " bytes> " ++ head ++ tail.

(** ** The buffer *)

Record entry := Entry {
  e_seq : Z; e_time : list Z; e_ip : option (list Z); e_source : list Z; e_text : list Z
}.

Record log_buffer := LogBuffer { lb_capacity : nat; lb_entries : list entry; lb_seq : Z }.

Definition log_init (capacity : nat) : log_buffer := LogBuffer capacity [] 0.

(** [deque(maxlen=capacity).append]: a full deque drops its oldest entry. *)
Definition deque_append (cap : nat) (d : list entry) (e : entry) : list entry :=
  drop (length d + 1 - cap) (d ++ [e]).

(** What a caller of [add] supplies, with the clock's reading. *)
Record line := Line { l_time : list Z; l_ip : option (list Z); l_source : list Z; l_text : list Z }.

Definition add (lb : log_buffer) (l : line) : log_buffer :=
  let seq := lb_seq lb + 1 in
  LogBuffer (lb_capacity lb)
    (deque_append (lb_capacity lb) (lb_entries lb)
       (Entry seq (l_time l) (l_ip l) (l_source l) (l_text l))) seq.

Definition cursor (lb : log_buffer) : Z := lb_seq lb.
Definition entries (lb : log_buffer) (since : Z) : list entry :=
  filter (fun e => since < e_seq e) (lb_entries lb).

(** [iter(stream.readline, b"")]: the lines of a byte stream, each with its
    newline. *)
Fixpoint readlines_aux (cur s : list Z) : list (list Z) :=
  match s with
  | [] => if bool_decide (cur = []) then [] else [cur]
  | c :: s => if c =? 10 then (cur ++ [c]) :: readlines_aux [] s else readlines_aux (cur ++ [c]) s
  end.
Definition readlines (s : list Z) : list (list Z) := readlines_aux [] s.

(** What [pump_stream] records of one raw line: its source and text. *)
Definition classify (default_source raw : list Z) : list Z * list Z :=
  if starts_with (lit "SERIAL ") raw
  then (lit "serial", describe_line (drop 7 raw))
  else (default_source, describe_line raw).

(** [now n] is the clock when the entry with number [n] is added. *)
Definition pump_line (now : Z -> list Z) (default_source : list Z) (lb : log_buffer) (raw : list Z) : log_buffer :=
  let '(source, text) := classify default_source raw in
  if bool_decide (text = []) then lb else add lb (Line (now (lb_seq lb + 1)) None source text).

Definition pump_stream (now : Z -> list Z) (default_source : list Z) (lb : log_buffer) (stream : list Z) : log_buffer :=
  foldl (pump_line now default_source) lb (readlines stream).

(** ** The polling client *)

(** A browser polling [/api/logs?since=cursor]: what it has been sent and
    the cursor it will ask from. *)
Record client := Client { c_cursor : Z; c_received : list entry }.

(** The two steps of [api_logs], each under the lock, and a writer. *)
Inductive event :=
| EvAdd (l : line)      (* any thread calls [add] *)
| EvEntries             (* the handler evaluates [log.entries(since=since)] *)
| EvCursor.             (* then [log.cursor()], and the reply is sent *)

(** The handler's state between its two steps. *)
Record world := World { w_log : log_buffer; w_client : client; w_pending : option (list entry) }.

Definition step (w : world) (ev : event) : world :=
  match ev with
  | EvAdd l => World (add (w_log w) l) (w_client w) (w_pending w)
  | EvEntries =>
      World (w_log w) (w_client w) (Some (entries (w_log w) (c_cursor (w_client w))))
  | EvCursor =>
      match w_pending w with
      | Some es =>
          World (w_log w) (Client (cursor (w_log w)) (c_received (w_client w) ++ es)) None
      | None => w
      end
  end.

Definition run (w : world) (evs : list event) : world := foldl step w evs.
Definition world_init (capacity : nat) : world := World (log_init capacity) (Client 0 []) None.

(** ** The window *)

(** The entries of a history of lines, numbered from [n + 1]. *)
Fixpoint numbered (n : Z) (ls : list line) : list entry :=
  match ls with
  | [] => []
  | l :: ls => Entry (n + 1) (l_time l) (l_ip l) (l_source l) (l_text l) :: numbered (n + 1) ls
  end.

Lemma numbered_app n ls1 ls2 :
  numbered n (ls1 ++ ls2) = numbered n ls1 ++ numbered (n + zlen ls1) ls2.
Proof.
  revert n; induction ls1 as [|l ls1 IH]; intros n; cbn [numbered app].
  - rewrite zlen_nil. by replace (n + 0) with n by lia.
  - rewrite IH, zlen_cons. by replace (n + 1 + zlen ls1) with (n + (1 + zlen ls1)) by lia.
Qed.
Lemma length_numbered n ls : length (numbered n ls) = length ls.
Proof. revert n; induction ls; intros n; simpl; [done|]. by f_equal. Qed.
Lemma drop_numbered n k ls :
  drop k (numbered n ls) = numbered (n + Z.of_nat k) (drop k ls).
Proof.
  revert n k; induction ls as [|l ls IH]; intros n [|k]; cbn [numbered drop]; try done.
  - by replace (n + Z.of_nat 0) with n by lia.
  - rewrite IH. f_equal. lia.
Qed.
Lemma numbered_gt n ls : Forall (fun e => n < e_seq e <= n + zlen ls) (numbered n ls).
Proof.
  revert n; induction ls as [|l ls IH]; intros n; cbn [numbered]; [constructor|].
  rewrite zlen_cons. pose proof (zlen_nonneg ls). constructor; [cbn; lia|].
  eapply Forall_impl; [apply IH|]. intros e. cbn. lia.
Qed.
Lemma filter_numbered n since ls :
  filter (fun e => since < e_seq e) (numbered n ls) = drop (Z.to_nat (since - n)) (numbered n ls).
Proof.
  revert n; induction ls as [|l ls IH]; intros n; cbn [numbered]; [by rewrite drop_nil|].
  rewrite filter_cons. cbn [e_seq]. case_decide as Hs.
  - rewrite IH. replace (Z.to_nat (since - (n + 1))) with 0%nat by lia.
    by replace (Z.to_nat (since - n)) with 0%nat by lia.
  - rewrite IH. replace (Z.to_nat (since - n)) with (S (Z.to_nat (since - (n + 1)))) by lia. done.
Qed.

(** After the lines [ls], the buffer is the last [cap] of them, numbered
    from 1. *)
Lemma adds_window cap ls :
  foldl add (log_init cap) ls = LogBuffer cap (drop (length ls - cap) (numbered 0 ls)) (zlen ls).
Proof.
  induction ls as [|l ls IH] using rev_ind; [done|].
  rewrite foldl_app. cbn [foldl]. rewrite IH. unfold add, deque_append.
  cbn [lb_capacity lb_entries lb_seq]. rewrite numbered_app, zlen_app. f_equal.
  rewrite length_drop, length_numbered, length_app. cbn [length numbered].
  rewrite Z.add_0_l. set (e := Entry _ _ _ _ _).
  pose proof (length_numbered 0 ls) as Hn.
  destruct (decide (length ls < cap)%nat).
  - replace (length ls - cap)%nat with 0%nat by lia. rewrite drop_0.
    replace (length ls - 0 + 1 - cap)%nat with 0%nat by lia.
    by replace (length ls + 1 - cap)%nat with 0%nat by lia.
  - replace (length ls - (length ls - cap) + 1 - cap)%nat with 1%nat by lia.
    destruct cap as [|cap].
    + rewrite !Nat.sub_0_r, (drop_ge (numbered 0 ls)) by lia. cbn [app drop].
      rewrite drop_ge; [done|]. rewrite length_app. cbn. lia.
    + rewrite !drop_app_le by (rewrite ?length_drop; lia). rewrite drop_drop.
      do 2 f_equal. lia.
Qed.

Lemma adds_seq lb ls : lb_seq (foldl add lb ls) = lb_seq lb + zlen ls.
Proof.
  revert lb; induction ls as [|l ls IH]; intros lb; cbn [foldl]; [rewrite zlen_nil; lia|].
  rewrite IH, zlen_cons. cbn. lia.
Qed.

(** ** Polling *)

(** A client that polls without a writer running inside its handler: the
    lines added between polls, poll after poll. *)
Definition polling (rounds : list (list line)) : list event :=
  concat (map (fun ls => map EvAdd ls ++ [EvEntries; EvCursor]) rounds).

(** What such a client can be sent: of each round, the lines the buffer still
    holds. *)
Fixpoint delivered (cap : nat) (n : Z) (rounds : list (list line)) : list entry :=
  match rounds with
  | [] => []
  | ls :: rounds => drop (length ls - cap) (numbered n ls) ++ delivered cap (n + zlen ls) rounds
  end.

Lemma run_adds w ls :
  run w (map EvAdd ls) = World (foldl add (w_log w) ls) (w_client w) (w_pending w).
Proof.
  revert w; induction ls as [|l ls IH]; intros w; [by destruct w|].
  unfold run in *. cbn [map foldl]. by rewrite IH.
Qed.

(** What a client that has seen [hist] is sent. *)
Lemma entries_since cap hist ls :
  entries (foldl add (log_init cap) (hist ++ ls)) (zlen hist) =
  drop (length ls - cap) (numbered (zlen hist) ls).
Proof.
  rewrite adds_window. unfold entries. cbn [lb_entries].
  rewrite drop_numbered, filter_numbered, drop_numbered, drop_drop.
  rewrite drop_numbered. rewrite length_app. unfold zlen.
  rewrite (drop_app_ge hist) by lia.
  f_equal; [lia|]. f_equal. lia.
Qed.

(** One round, from a log that holds the history [hist]. *)
Lemma run_round cap hist ls rec :
  run (World (foldl add (log_init cap) hist) (Client (zlen hist) rec) None)
      (map EvAdd ls ++ [EvEntries; EvCursor]) =
  World (foldl add (log_init cap) (hist ++ ls))
        (Client (zlen (hist ++ ls)) (rec ++ drop (length ls - cap) (numbered (zlen hist) ls))) None.
Proof.
  unfold run. rewrite foldl_app.
  change (foldl step ?w (map EvAdd ls)) with (run w (map EvAdd ls)). rewrite run_adds.
  cbn [foldl step w_log w_client w_pending c_cursor c_received]. rewrite <- foldl_app.
  rewrite entries_since. unfold cursor. by rewrite adds_window.
Qed.

Lemma run_polling cap hist rounds rec :
  run (World (foldl add (log_init cap) hist) (Client (zlen hist) rec) None) (polling rounds) =
  World (foldl add (log_init cap) (hist ++ concat rounds))
    (Client (zlen (hist ++ concat rounds)) (rec ++ delivered cap (zlen hist) rounds)) None.
Proof.
  revert hist rec; induction rounds as [|ls rounds IH]; intros hist rec.
  - cbn. by rewrite !app_nil_r.
  - unfold polling. cbn [map concat delivered]. unfold run. rewrite foldl_app.
    change (foldl step ?w (map EvAdd ls ++ _)) with (run w (map EvAdd ls ++ [EvEntries; EvCursor])).
    rewrite run_round. fold (polling rounds). fold (run (World (foldl add (log_init cap) (hist ++ ls))
      (Client (zlen (hist ++ ls)) (rec ++ drop (length ls - cap) (numbered (zlen hist) ls))) None)
      (polling rounds)).
    rewrite IH. rewrite <- !app_assoc. rewrite (zlen_app hist ls). reflexivity.
Qed.

Lemma delivered_all cap n rounds :
  Forall (fun ls => length ls <= cap)%nat rounds -> delivered cap n rounds = numbered n (concat rounds).
Proof.
  intros H. revert n. induction H as [|ls rounds Hl H IH]; intros n; cbn; [done|].
  replace (length ls - cap)%nat with 0%nat by lia. by rewrite drop_0, IH, numbered_app.
Qed.

Lemma delivered_sorted cap n rounds :
  StronglySorted (fun e e' => e_seq e < e_seq e') (delivered cap n rounds) /\
  Forall (fun e => n < e_seq e) (delivered cap n rounds).
Proof.
  assert (forall n ls, StronglySorted (fun e e' => e_seq e < e_seq e') (numbered n ls)) as Hn.
  { intros m ls. revert m. induction ls as [|l ls IH]; intros m; cbn [numbered]; [constructor|].
    constructor; [done|]. eapply Forall_impl; [apply numbered_gt|]. intros e. cbn. lia. }
  revert n; induction rounds as [|ls rounds IH]; intros n; cbn [delivered]; [by split; constructor|].
  destruct (IH (n + zlen ls)) as [IH1 IH2]. pose proof (zlen_nonneg ls).
  rewrite drop_numbered. set (k := (length ls - cap)%nat).
  pose proof (numbered_gt (n + Z.of_nat k) (drop k ls)) as Hg.
  assert (Z.of_nat k + zlen (drop k ls) = zlen ls) as Hk.
  { unfold zlen, k. rewrite length_drop. lia. }
  split.
  - apply StronglySorted_app. split; [|split; [apply Hn|done]].
    intros e e' He He'. rewrite Forall_forall in Hg, IH2.
    specialize (Hg e He). specialize (IH2 e' He'). lia.
  - apply Forall_app. split; eapply Forall_impl; [exact Hg| |exact IH2|]; intros e; cbn; lia.
Qed.

(** ** A writer inside the handler *)

Definition seqs_not (n : Z) (es : list entry) : Prop := Forall (fun e => e_seq e <> n) es.

(** Entry [n] is behind the client's cursor and has not been sent. *)
Definition skipped (n : Z) (w : world) : Prop :=
  n <= c_cursor (w_client w) /\ n <= lb_seq (w_log w) /\
  seqs_not n (c_received (w_client w)) /\
  match w_pending w with Some es => seqs_not n es | None => True end.

Lemma entries_gt lb since : Forall (fun e => since < e_seq e) (entries lb since).
Proof. apply Forall_forall. intros e [He _]%list_elem_of_filter. done. Qed.

Lemma entries_forall (P : entry -> Prop) lb since : Forall P (lb_entries lb) -> Forall P (entries lb since).
Proof. rewrite !Forall_forall. intros H e [_ He]%list_elem_of_filter. by apply H. Qed.

Lemma skipped_step n w ev : skipped n w -> skipped n (step w ev).
Proof.
  intros (Hc & Hs & Hr & Hp). destruct ev; unfold step.
  - repeat split; cbn; try done. unfold add. cbn. lia.
  - repeat split; cbn; try done. eapply Forall_impl; [apply entries_gt|]. intros e. cbn. lia.
  - destruct (w_pending w) as [es|] eqn:E; [|by repeat split; rewrite ?E].
    repeat split; cbn; try done. by apply Forall_app.
Qed.

Lemma skipped_run n w evs : skipped n w -> skipped n (run w evs).
Proof.
  unfold run. revert w; induction evs as [|ev evs IH]; intros w; cbn [foldl]; [done|].
  intros H. by apply IH, skipped_step.
Qed.

(** Nothing is numbered beyond the counter. *)
Definition numbers_ok (w : world) : Prop :=
  Forall (fun e => e_seq e <= lb_seq (w_log w)) (lb_entries (w_log w)) /\
  Forall (fun e => e_seq e <= lb_seq (w_log w)) (c_received (w_client w)) /\
  match w_pending w with
  | Some es => Forall (fun e => e_seq e <= lb_seq (w_log w)) es
  | None => True
  end.

Lemma numbers_ok_run cap evs : numbers_ok (run (world_init cap) evs).
Proof.
  unfold run. induction evs as [|ev evs IH] using rev_ind; [by repeat constructor|].
  rewrite foldl_app. cbn [foldl]. set (w := foldl _ _ evs) in *. destruct IH as (H1 & H2 & H3).
  assert (forall es, Forall (fun e => e_seq e <= lb_seq (w_log w)) es ->
    Forall (fun e => e_seq e <= lb_seq (w_log w) + 1) es) as Hup.
  { intros es He. eapply Forall_impl; [exact He|]. intros e. cbn. lia. }
  destruct ev; unfold step.
  - repeat split; cbn.
    + apply Forall_drop, Forall_app. split; [by apply Hup|]. repeat constructor. cbn. lia.
    + by apply Hup.
    + destruct (w_pending w); [by apply Hup|done].
  - repeat split; cbn; try done. by apply entries_forall.
  - destruct (w_pending w) as [es|] eqn:E; [|by repeat split; rewrite ?E].
    repeat split; cbn; try done. by apply Forall_app.
Qed.

(** ** Text lines *)

Definition text_line (s : list Z) : Prop := s <> [] /\ Forall (fun b => is_text_byte b = true) s.

Lemma rstrip_text s eol :
  text_line s -> Forall (fun b => is_eol b = true) eol -> rstrip_eol (s ++ eol) = s.
Proof.
  intros [Hne Hs] He. unfold rstrip_eol. rewrite reverse_app.
  apply Forall_reverse in He. induction He as [|c r Hc He IH]; cbn [app drop_eol].
  - destruct (reverse s) as [|c r] eqn:E.
    + by apply (f_equal reverse) in E; rewrite reverse_involutive in E.
    + apply Forall_reverse in Hs. rewrite E in Hs. apply Forall_cons in Hs as [Hc _].
      assert (is_eol c = false) as Hf by (unfold is_text_byte, is_eol in *; lia).
      cbn [drop_eol]. by rewrite Hf, <- E, reverse_involutive.
  - by rewrite Hc.
Qed.

Lemma decode_text s : Forall (fun b => is_text_byte b = true) s -> decode_utf8 s = s.
Proof.
  induction 1 as [|b s Hb Hs IH]; [done|]. cbn [decode_utf8].
  rewrite (proj2 (Z.ltb_lt b 0x80)) by (unfold is_text_byte in Hb; lia). by rewrite IH.
Qed.

Lemma describe_text s eol :
  text_line s -> Forall (fun b => is_eol b = true) eol -> describe_line (s ++ eol) = s.
Proof.
  intros Ht He. unfold describe_line. rewrite (rstrip_text s eol Ht He).
  destruct Ht as [Hne Hs]. rewrite bool_decide_eq_false_2 by done.
  assert (filter (fun b => is_text_byte b = false) s = []) as ->.
  { induction Hs as [|b s Hb Hs IH]; [done|]. rewrite filter_cons_False by congruence.
    destruct s; [done|]. by apply IH. }
  rewrite (@zlen_nil Z). rewrite (proj2 (Z.leb_le _ _)) by (pose proof (zlen_nonneg s); lia).
  by apply decode_text.
Qed.

Lemma readlines_aux_cons cur s rest :
  Forall (fun b => b <> 10) s ->
  readlines_aux cur (s ++ 10 :: rest) = (cur ++ s ++ [10]) :: readlines_aux [] rest.
Proof.
  intros Hs. revert cur. induction Hs as [|b s Hb Hs IH]; intros cur; cbn [app readlines_aux]; [done|].
  rewrite (proj2 (Z.eqb_neq b 10)) by done. rewrite IH. by rewrite <- app_assoc.
Qed.

Lemma readlines_cons s rest :
  Forall (fun b => b <> 10) s -> readlines (s ++ 10 :: rest) = (s ++ [10]) :: readlines rest.
Proof. apply (readlines_aux_cons []). Qed.

(** What the machine model prints: lines of text, the firmware's own tagged. *)
Definition tag (serial : bool) : list Z := if serial then lit "SERIAL " else [].
Definition printed (p : bool * list Z) : list Z := tag p.1 ++ p.2 ++ [13; 10].
Definition printable (p : bool * list Z) : Prop :=
  text_line p.2 /\ (p.1 = false -> starts_with (lit "SERIAL ") (p.2 ++ [13; 10]) = false).

(** What a stream leaves in the log, line by line: source and text. *)
Definition recorded (default_source stream : list Z) : list (list Z * list Z) :=
  List.filter (fun r => negb (bool_decide (r.2 = []))) (map (classify default_source) (readlines stream)).
(** The lines of the log, numbered after [n], with the time of each. *)
Fixpoint stamped (now : Z -> list Z) (n : Z) (rs : list (list Z * list Z)) : list line :=
  match rs with
  | [] => []
  | (source, text) :: rs => Line (now (n + 1)) None source text :: stamped now (n + 1) rs
  end.

Lemma pump_stream_adds now def lb stream :
  pump_stream now def lb stream = foldl add lb (stamped now (lb_seq lb) (recorded def stream)).
Proof.
  unfold pump_stream, recorded. generalize (readlines stream). intros raws. revert lb.
  induction raws as [|raw raws IH]; intros lb; [done|]. cbn [foldl map List.filter]. rewrite IH.
  unfold pump_line. destruct (classify def raw) as [source text]. cbn [snd]. by case_bool_decide.
Qed.
Lemma length_stamped now n rs : length (stamped now n rs) = length rs.
Proof. revert n; induction rs as [|[] rs IH]; intros n; cbn; by rewrite ?IH. Qed.

Lemma recorded_printed def p stream :
  printable p -> recorded def (printed p ++ stream) = (if p.1 then lit "serial" else def, p.2) :: recorded def stream.
Proof.
  destruct p as [serial s]. intros [Ht Htag]. cbn [fst snd] in *. unfold recorded.
  assert (Forall (fun b => b <> 10) s) as Hs10.
  { eapply Forall_impl; [exact (proj2 Ht)|]. intros b Hb ->. by vm_compute in Hb. }
  unfold printed. cbn [fst snd]. replace ((tag serial ++ s ++ [13; 10]) ++ stream)
    with ((tag serial ++ s ++ [13]) ++ 10 :: stream) by (rewrite <- !app_assoc; done).
  rewrite readlines_cons.
  2: { apply Forall_app. split; [destruct serial; repeat constructor; done|].
       apply Forall_app. split; [done|by repeat constructor]. }
  cbn [map]. rewrite <- !app_assoc. cbn [app].
  assert (classify def (tag serial ++ s ++ [13; 10]) = (if serial then lit "serial" else def, s)) as ->.
  { pose proof (describe_text s [13; 10] Ht ltac:(by repeat constructor)) as Hd. unfold classify. destruct serial; cbn [tag].
    - rewrite starts_with_app. change (drop 7 (lit "SERIAL " ++ s ++ [13; 10])) with (s ++ [13; 10]). by rewrite Hd.
    - cbn [app]. by rewrite (Htag eq_refl), Hd. }
  cbn [List.filter snd]. destruct Ht as [Hne _]. by rewrite bool_decide_eq_false_2.
Qed.
Lemma recorded_all def ps :
  Forall printable ps ->
  recorded def (concat (map printed ps)) = map (fun p : bool * list Z => (if p.1 then lit "serial" else def, p.2)) ps.
Proof.
  induction 1 as [|p ps Hp Hps IH]; [done|]. cbn [map concat]. by rewrite recorded_printed, IH.
Qed.

(** ** Properties *)

(** C26. Polling delivers each line exactly once: a client that polls with the
    cursor it was last given, no writer running inside its handler, is sent
    entries with strictly increasing numbers, of each interval the last
    [capacity] lines in order, and when no more than [capacity] lines fall
    between polls, exactly the whole history. *)
Theorem polling_exactly_once cap rounds :
  let w := run (world_init cap) (polling rounds) in
  c_received (w_client w) = delivered cap 0 rounds /\
  c_cursor (w_client w) = zlen (concat rounds) /\
  StronglySorted (fun e e' => e_seq e < e_seq e') (c_received (w_client w)) /\
  (Forall (fun ls => length ls <= cap)%nat rounds ->
     c_received (w_client w) = numbered 0 (concat rounds)).
Proof.
  pose proof (run_polling cap [] rounds []) as H. cbn [foldl app] in H.
  change (zlen []) with 0 in H. fold (world_init cap) in H. cbv zeta.
  unfold world_init in *. rewrite H. cbn [w_client c_received c_cursor].
  split; [done|]. split; [done|]. split; [apply delivered_sorted|]. apply delivered_all.
Qed.

(** The handler of [/api/logs] reads the entries and the cursor in two
    separate locked sections.  A line added between the two is behind the
    cursor the client is given and was not among its entries: whatever
    happens afterwards, the client never receives it. *)
Theorem logs_poll_race_loses_line cap before l after :
  let w := run (world_init cap) before in
  let n := lb_seq (w_log w) + 1 in
  let w' := run w ([EvEntries; EvAdd l; EvCursor] ++ after) in
  Forall (fun e => e_seq e <> n) (c_received (w_client w')).
Proof.
  intros w n w'. pose proof (numbers_ok_run cap before) as Hok. fold w in Hok.
  assert (skipped n (run w [EvEntries; EvAdd l; EvCursor])) as Hs.
  { destruct Hok as (H1 & H2 & H3). unfold run, skipped. cbn.
    split; [unfold cursor; cbn; lia|]. split; [cbn; lia|]. split; [|done].
    assert (forall es, Forall (fun e => e_seq e <= lb_seq (w_log w)) es -> seqs_not n es) as Hn.
    { intros es He. eapply Forall_impl; [exact He|]. intros e. cbn. unfold n. lia. }
    apply Forall_app. split; apply Hn; [exact H2|by apply entries_forall]. }
  apply (skipped_run n _ after) in Hs. unfold w', run in *. rewrite foldl_app. apply Hs.
Qed.

(** Pumping QEMU's output records one entry per line of text, in order,
    with the bytes unchanged, the lines the machine model tags "SERIAL " as
    the firmware's own and without the tag. *)
Theorem pump_stream_records now def lb (ps : list (bool * list Z)) :
  Forall printable ps ->
  pump_stream now def lb (concat (map printed ps)) =
  foldl add lb (stamped now (lb_seq lb) (map (fun p : bool * list Z => (if p.1 then lit "serial" else def, p.2)) ps)).
Proof. intros Hp. by rewrite pump_stream_adds, recorded_all. Qed.

Lemma pump_stream_records_witness :
  Forall printable [(true, lit "boot"); (false, lit "qemu: ok")] /\
  lb_entries (pump_stream (fun n => lit "12:00:0" ++ [48 + n]) (lit "qemu") (log_init 500)
    (lit "SERIAL boot" ++ [13; 10] ++ lit "qemu: ok" ++ [13; 10])) =
  [Entry 1 (lit "12:00:01") None (lit "serial") (lit "boot");
   Entry 2 (lit "12:00:02") None (lit "qemu") (lit "qemu: ok")].
Proof.
  assert (Forall printable [(true, lit "boot"); (false, lit "qemu: ok")]) as Hp.
  { repeat constructor; try discriminate; intros _; reflexivity. }
  split; [exact Hp|].
  pose proof (pump_stream_records (fun n => lit "12:00:0" ++ [48 + n]) (lit "qemu") (log_init 500) _ Hp) as H.
  exact (f_equal lb_entries H).
Defined.
