(* ===== verification/Drain.v ===== *)
(** QEMU's standard error, as [_start_stderr_pump] of
    [src/tools/uvk5_supervisor.py] drains it into the log: QEMU, the pipe
    between the two processes, and the drain thread with the buffer of its
    [readline], as a step relation.  A write to a full pipe blocks QEMU, and a
    blocked QEMU does not answer on QMP either. *)
From S2P Require Import Prelude Text Logs.
Open Scope Z_scope.

(** ** The processes *)

(** The drain thread: running [pump_stream], or over. *)
Inductive thread := Draining | Over.

(** What QEMU has yet to print, whether it has exited, the bytes in the pipe,
    those [readline] holds, the log, and the thread. *)
Record drain := Drain {
  dr_todo : list Z; dr_exited : bool; dr_pipe : list Z; dr_held : list Z; dr_log : log_buffer; dr_thread : thread
}.

(** [_start_stderr_pump]: with no pipe nothing starts; the thread returns at
    once when there is no log. *)
Definition _start_stderr_pump (stderr log : bool) : bool * option thread :=
  if negb stderr then (false, None) else (true, Some (if log then Draining else Over)).

Section steps.
Variable capacity : nat.                  (* of the pipe: 64 KB *)
Variable adds : list Z -> bool.           (* whether the log takes the line, or throws *)
Variable now : Z -> list Z.               (* the clock, by the number of the entry *)
Variable default_source : list Z.

(** [raw] is what [stream.readline] returned; [except Exception: pass] is
    around the whole of [pump_stream]. *)
Definition handle_line (raw : list Z) (s : drain) (rest : list Z) : drain :=
  if adds raw
  then Drain (dr_todo s) (dr_exited s) (dr_pipe s) rest (pump_line now default_source (dr_log s) raw) (dr_thread s)
  else Drain (dr_todo s) (dr_exited s) (dr_pipe s) rest (dr_log s) Over.

Inductive step : drain -> drain -> Prop :=
(* QEMU prints what fits *)
| StepPrint todo out pipe held lb th x :
    out <> [] -> (length pipe + length out <= capacity)%nat ->
    step (Drain (out ++ todo) x pipe held lb th) (Drain todo x (pipe ++ out) held lb th)
| StepExit pipe held lb th :
    step (Drain [] false pipe held lb th) (Drain [] true pipe held lb th)
(* [readline] holds no line yet and reads some of the pipe *)
| StepFill todo x got pipe held lb :
    10 ∉ held -> got <> [] ->
    step (Drain todo x (got ++ pipe) held lb Draining) (Drain todo x pipe (held ++ got) lb Draining)
(* it returns a line *)
| StepLine todo x pipe l held lb :
    10 ∉ l ->
    step (Drain todo x pipe (l ++ 10 :: held) lb Draining)
         (handle_line (l ++ [10]) (Drain todo x pipe (l ++ 10 :: held) lb Draining) held)
(* it returns what is left at the end *)
| StepLast held lb :
    held <> [] -> 10 ∉ held ->
    step (Drain [] true [] held lb Draining) (handle_line held (Drain [] true [] held lb Draining) [])
| StepEnd lb :
    step (Drain [] true [] [] lb Draining) (Drain [] true [] [] lb Over).

(** A QEMU that will print [out], with the thread as it was started. *)
Definition started (out : list Z) (lb : log_buffer) (th : thread) : drain := Drain out false [] [] lb th.
End steps.

(** ** The drain at work *)

Lemma pump_stream_line now src lb l rest :
  10 ∉ l -> pump_stream now src lb (l ++ 10 :: rest) = pump_stream now src (pump_line now src lb (l ++ [10])) rest.
Proof.
  intros Hl. unfold pump_stream. rewrite readlines_cons; [done|].
  apply Forall_forall. by intros b Hb ->.
Qed.

Lemma readlines_last cur l : 10 ∉ l -> readlines_aux cur l = if bool_decide (cur ++ l = []) then [] else [cur ++ l].
Proof.
  revert cur; induction l as [|b l IH]; intros cur Hl; cbn [readlines_aux]; [by rewrite app_nil_r|].
  apply not_elem_of_cons in Hl as [Hb Hl]. rewrite (proj2 (Z.eqb_neq b 10)) by done.
  rewrite IH by done. by rewrite <- app_assoc.
Qed.

Lemma pump_stream_last now src lb l : 10 ∉ l -> l <> [] -> pump_stream now src lb l = pump_line now src lb l.
Proof.
  intros Hl Hne. unfold pump_stream, readlines. rewrite readlines_last by done. cbn [app].
  by rewrite bool_decide_eq_false_2.
Qed.

Lemma split_line l : 10 ∈ l -> exists a b, l = a ++ 10 :: b /\ 10 ∉ a.
Proof. intros Hl. apply list_elem_of_split_l in Hl as (a & b & -> & Ha). by exists a, b. Qed.

(** Everything still to be printed, read or handled, in bytes. *)
Definition work (s : drain) : nat :=
  3 * length (dr_todo s) + 2 * length (dr_pipe s) + length (dr_held s)
  + (if dr_exited s then 0 else 1) + (match dr_thread s with Draining => 1 | Over => 0 end).

Section draining.
Variable capacity : nat.
Variables (now : Z -> list Z) (default_source : list Z).
Hypothesis capacity_pos : (0 < capacity)%nat.

Definition total (raw : list Z) : bool := true.

(** Whatever is in flight, the log will be the one of the whole output. *)
Definition on_the_way (lb : log_buffer) (s : drain) : Prop :=
  (dr_exited s = true -> dr_todo s = []) /\
  match dr_thread s with
  | Draining => pump_stream now default_source (dr_log s) (dr_held s ++ dr_pipe s ++ dr_todo s) = lb
  | Over => dr_todo s = [] /\ dr_exited s = true /\ dr_log s = lb
  end.

Lemma on_the_way_step lb s s' :
  on_the_way lb s -> step capacity total now default_source s s' -> on_the_way lb s' /\ (work s' < work s)%nat.
Proof.
  intros [Hx Hth] Hs. unfold on_the_way, work, total in *.
  inversion Hs as [todo out pipe held l th x Hne Hfit|pipe held l th|todo x got pipe held l Hn Hne
    |todo x pipe l held l0 Hn|held l Hne Hn|l]; subst; cbn -[pump_stream pump_line] in *; rewrite ?length_app; cbn [length].
  - split; [|destruct out; cbn [length]; [done|lia]]. split.
    + intros Hxx. by apply app_nil in Hx as [-> ->].
    + destruct th; [by rewrite <- app_assoc|]. destruct Hth as (Ht & ? & ?). by apply app_nil in Ht as [-> ->].
  - split; [|lia]. split; [done|]. destruct th; [done|]. by destruct Hth as (_ & ? & _).
  - split; [|destruct got; cbn [length]; [done|lia]]. split; [done|]. by rewrite <- !app_assoc in *.
  - split; [|lia]. split; [done|]. rewrite <- app_assoc in Hth. cbn [app] in Hth.
    by rewrite pump_stream_line in Hth.
  - split; [|destruct held; cbn [length]; [done|lia]]. split; [done|].
    rewrite !app_nil_r in *. by rewrite pump_stream_last in Hth.
  - split; [|lia]. done.
Qed.

Lemma on_the_way_live lb s :
  on_the_way lb s ->
  (dr_todo s = [] /\ dr_exited s = true /\ dr_log s = lb) \/
  exists s', step capacity total now default_source s s'.
Proof.
  destruct s as [todo x pipe held l th]. intros [Hx Hth]. cbn in *.
  destruct th; [right|left; naive_solver].
  destruct (decide (10 ∈ held)) as [(a & b & -> & Ha)%split_line|Hheld].
  { eexists. by apply StepLine. }
  destruct pipe as [|b pipe].
  - destruct todo as [|b todo].
    + destruct x; [|eexists; apply StepExit].
      destruct held; eexists; [apply StepEnd|by apply StepLast].
    + eexists. apply (StepPrint _ _ _ _ todo [b]); [done|]. cbn. lia.
  - eexists. by apply (StepFill _ _ _ _ todo x (b :: pipe) []) || by apply (StepFill _ _ _ _ todo x [b] pipe).
Qed.

(** C11. QEMU is never stuck on its standard error while the drain runs: with
    a log that takes what it is given and no other thread logging meanwhile,
    whatever the interleaving of QEMU's writes and the thread's reads, however
    much QEMU prints and however small the pipe, QEMU gets everything printed
    and exits.  The log, empty before, then holds the lines of the output that
    are not blank, in order, numbered from 1, each with its own time - the
    last of them, as many as its capacity, if there are more.  For output as
    the machine model prints it, lines of text some of which are tagged as the
    firmware's, those are exactly the texts, without the tag and with the
    source it says. *)
Theorem drain_lets_qemu_run out cap th :
  _start_stderr_pump true true = (true, Some th) ->
  inevitably (step capacity total now default_source)
    (fun s => dr_todo s = [] /\ dr_exited s = true /\
       exists lines, lb_entries (dr_log s) = drop (length lines - cap) (numbered 0 (stamped now 0 lines)) /\
         cursor (dr_log s) = zlen lines /\
         lines = List.filter (fun r => negb (bool_decide (r.2 = []))) (map (classify default_source) (readlines out)) /\
         forall ps, Forall printable ps -> out = concat (map printed ps) ->
           lines = map (fun p : bool * list Z => (if p.1 then lit "serial" else default_source, p.2)) ps)
    (started out (log_init cap) th).
Proof.
  intros [= <-]. eapply inevitably_weaken.
  2: { apply (inevitably_measure _ (on_the_way (pump_stream now default_source (log_init cap) out))
         (fun s => dr_todo s = [] /\ dr_exited s = true /\ dr_log s = pump_stream now default_source (log_init cap) out) work);
         [apply on_the_way_live|apply on_the_way_step|done]. }
  intros s (Ht & Hx & ->). split; [exact Ht|]. split; [exact Hx|]. exists (recorded default_source out).
  rewrite pump_stream_adds, adds_window. cbn [lb_entries lb_seq log_init]. rewrite length_stamped.
  split; [done|]. split; [unfold cursor, zlen; cbn [lb_seq]; by rewrite length_stamped|]. split; [done|].
  intros ps Hp ->. by apply recorded_all.
Qed.

End draining.

(** ** No drain *)

Definition stuck (capacity : nat) (adds : list Z -> bool) (now : Z -> list Z) (src : list Z) (s : drain) : Prop :=
  dr_todo s <> [] /\ ~ exists s', step capacity adds now src s s'.

Definition over_full (capacity : nat) (s : drain) : Prop :=
  dr_thread s = Over /\ (length (dr_pipe s) <= capacity < length (dr_pipe s) + length (dr_todo s))%nat.

Lemma over_step capacity adds now src s s' :
  over_full capacity s -> step capacity adds now src s s' -> over_full capacity s' /\ (work s' < work s)%nat.
Proof.
  unfold over_full, work. intros [Hth Hl] Hs.
  inversion Hs as [todo out pipe held l th x Hne Hfit| | | | |]; subst; cbn in *; try done; try lia.
  subst th. rewrite !length_app in *. destruct out; [done|]. cbn [length] in *. split; [split; [done|lia]|lia].
Qed.

(** Once the thread is over, QEMU prints what the pipe still takes, and
    hangs. *)
Lemma over_blocks capacity adds now src s :
  over_full capacity s -> inevitably (step capacity adds now src) (stuck capacity adds now src) s.
Proof.
  apply (inevitably_measure _ (over_full capacity) _ work); [|by apply over_step].
  clear. intros [todo x pipe held l th] [Hth Hl]. cbn in *. subst th. destruct todo as [|b todo]; cbn [length] in *; [lia|].
  destruct (decide (length pipe < capacity)%nat) as [Hlt|Hge].
  - right. eexists. apply (StepPrint _ _ _ _ todo [b]); [done|]. cbn. lia.
  - left. split; [done|]. intros [s' Hs]. inversion Hs; subst.
    match goal with H : ?out <> [] |- _ => destruct out; [done|cbn [length] in *; lia] end.
Qed.

(** Without a log nothing is drained, though [_start_stderr_pump] says it
    is draining: a QEMU that prints more than the pipe holds ends up hung with
    output left to print, on every schedule. *)
Theorem without_log_qemu_hangs capacity adds now src out lb th :
  _start_stderr_pump true false = (true, Some th) -> (capacity < length out)%nat ->
  inevitably (step capacity adds now src) (stuck capacity adds now src) (started out lb th).
Proof. intros [= <-] Hl. apply over_blocks. split; [done|]. cbn. lia. Qed.

(** The thread before it has seen a line end. *)
Definition before_line (capacity : nat) (l out : list Z) (s : drain) : Prop :=
  dr_thread s = Draining /\ dr_exited s = false /\ dr_held s ++ dr_pipe s ++ dr_todo s = out /\
  (length (dr_pipe s) <= capacity)%nat /\ (length (dr_held s) <= length l + 1 + capacity)%nat.

Lemma first_line a b (l rest : list Z) :
  10 ∉ a -> 10 ∉ l -> a ++ 10 :: b = l ++ 10 :: rest -> a = l /\ b = rest.
Proof.
  revert l; induction a as [|x a IH]; intros [|y l] Ha Hl H; cbn in *; simplify_eq;
    rewrite ?not_elem_of_cons in *; naive_solver.
Qed.

Lemma unfinished_line (h t l rest : list Z) : 10 ∉ h -> h ++ t = l ++ 10 :: rest -> (length h <= length l)%nat.
Proof.
  revert l; induction h as [|x h IH]; intros [|y l] Hh H; cbn in *; simplify_eq; rewrite ?not_elem_of_cons in *; try lia.
  assert (length h <= length l)%nat by (apply IH; naive_solver). lia.
Qed.

Lemma before_line_step capacity adds now src l rest s s' :
  10 ∉ l -> adds (l ++ [10]) = false -> (2 * capacity < length rest)%nat ->
  before_line capacity l (l ++ 10 :: rest) s -> step capacity adds now src s s' ->
  (before_line capacity l (l ++ 10 :: rest) s' \/ over_full capacity s') /\ (work s' < work s)%nat.
Proof.
  intros Hl Hadds Hrest (Hth & Hx & Hout & Hp & Hh) Hs. unfold before_line, over_full, work, handle_line.
  inversion Hs as [todo out pipe held lg th x Hne Hfit|pipe held lg th|todo x got pipe held lg Hn Hne
    |todo x pipe a held lg Hn|held lg Hne Hn|lg]; subst; cbn -[app] in *; try done; subst.
  - rewrite !length_app. destruct out; [done|]. cbn [length] in *. split; [left|lia].
    split; [done|]. split; [done|]. split; [by rewrite <- !app_assoc in *|]. lia.
  - apply (f_equal length) in Hout. rewrite !length_app in Hout. cbn [length] in Hout. lia.
  - pose proof (unfinished_line held (got ++ pipe ++ todo) l rest Hn) as Hlen.
    rewrite <- !app_assoc in Hout. specialize (Hlen Hout).
    rewrite !length_app in *. destruct got; [done|]. cbn [length] in *. split; [left|lia].
    split; [done|]. split; [done|]. split; [by rewrite <- !app_assoc|]. lia.
  - rewrite <- app_assoc in Hout. cbn [app] in Hout. apply first_line in Hout as [-> Hr]; [|done..].
    unfold handle_line. rewrite Hadds. cbn [dr_thread dr_pipe dr_todo dr_held dr_exited dr_log]. apply (f_equal length) in Hr.
    rewrite !length_app in *. cbn [length] in *. split; [right; split; [done|]|]; lia.
Qed.

(** What the log throws ends the drain for good: the exception is swallowed,
    but around the whole stream.  When the log refuses the first line and
    much more follows, QEMU ends up hung, which the comment of
    [_start_stderr_pump] says must not happen. *)
Theorem throwing_log_stops_drain capacity adds now src l rest lb :
  (0 < capacity)%nat -> 10 ∉ l -> adds (l ++ [10]) = false -> (2 * capacity < length rest)%nat ->
  inevitably (step capacity adds now src) (stuck capacity adds now src)
    (started (l ++ 10 :: rest) lb Draining).
Proof.
  intros Hc Hl Hadds Hrest.
  apply (inevitably_trans _ (over_full capacity)); [|intros s; apply over_blocks].
  apply (inevitably_measure _ (fun s => before_line capacity l (l ++ 10 :: rest) s \/ over_full capacity s) _ work).
  - intros s [Hs|Hs]; [right|by left]. destruct s as [todo x pipe held lg th].
    destruct Hs as (Hth & Hx & Hout & Hp & Hh). cbn in *. subst th x.
    destruct (decide (10 ∈ held)) as [(a & b & -> & Ha)%split_line|Hheld]; [eexists; by apply StepLine|].
    destruct pipe as [|c pipe].
    + destruct todo as [|c todo]; [eexists; apply StepExit|].
      eexists. apply (StepPrint _ _ _ _ todo [c]); [done|]. cbn. lia.
    + eexists. by apply (StepFill _ _ _ _ todo false [c] pipe).
  - intros s s' [Hs|Hs] Hstep; [by eapply before_line_step|].
    destruct (over_step _ _ _ _ _ _ Hs Hstep). by split; [right|].
  - left. repeat split; cbn; lia.
Qed.

(** ** Concrete pipes *)

Definition boot_lines : list Z := lit "SERIAL boot" ++ [13; 10] ++ lit "qemu: ok" ++ [10].
Definition noon (n : Z) : list Z := lit "12:00:0" ++ [48 + n].

(** A pipe of four bytes is enough for twenty-two; a log of one keeps the
    last line. *)
Lemma drain_lets_qemu_run_witness :
  inevitably (step 4 total noon (lit "qemu"))
    (fun s => dr_todo s = [] /\ lb_entries (dr_log s) =
       [Entry 1 (lit "12:00:01") None (lit "serial") (lit "boot"); Entry 2 (lit "12:00:02") None (lit "qemu") (lit "qemu: ok")])
    (started boot_lines (log_init 500) Draining) /\
  inevitably (step 4 total noon (lit "qemu"))
    (fun s => lb_entries (dr_log s) = [Entry 2 (lit "12:00:02") None (lit "qemu") (lit "qemu: ok")])
    (started boot_lines (log_init 1) Draining).
Proof.
  split; refine (inevitably_weaken _ _ _ _ _ (drain_lets_qemu_run 4 noon (lit "qemu") ltac:(lia) boot_lines _
    Draining eq_refl)).
  - intros s (H & _ & lines & -> & _ & -> & _). split; [exact H|vm_compute; reflexivity].
  - intros s (_ & _ & lines & -> & _ & -> & _). vm_compute. reflexivity.
Defined.

Lemma without_log_qemu_hangs_witness :
  inevitably (step 4 total noon (lit "qemu")) (stuck 4 total noon (lit "qemu"))
    (started boot_lines (log_init 500) Over).
Proof.
  exact (without_log_qemu_hangs 4 total noon (lit "qemu") boot_lines (log_init 500) Over eq_refl
    ltac:(vm_compute; lia)).
Defined.

Lemma throwing_log_stops_drain_witness :
  inevitably (step 4 (fun raw => negb (bool_decide (raw = lit "x" ++ [10]))) noon (lit "qemu"))
    (stuck 4 (fun raw => negb (bool_decide (raw = lit "x" ++ [10]))) noon (lit "qemu"))
    (started (lit "x" ++ 10 :: boot_lines) (log_init 500) Draining).
Proof.
  apply throwing_log_stops_drain; [lia| |reflexivity|vm_compute; lia].
  apply (bool_decide_unpack (10 ∉ lit "x")). reflexivity.
Defined.
