(* ===== verification/Endpoint.v ===== *)
(** Endpoint strings: [src/tools/uvk5_socket.py] ([connect], [can_use_unix], the strings of
    [listen] and [server_endpoint]), [qmp_argument] and [wait_for_socket] of
    [src/tools/uvk5_supervisor.py], [open_transport]'s test in
    [src/tools/uvk5_serial_flash.py], and the constructor of
    [src/tools/uvk5_qmp.py]'s client.  What the operating system answers to a
    connection attempt is an argument. *)
From S2P Require Import Prelude Text.
From stdpp Require Import pretty.
Open Scope Z_scope.

(** ** Strings *)

Definition COLON : Z := 58.
Definition COMMA : Z := 44.

(** [s.partition(c)]: head and tail around the first [c], the tail empty
    when there is none. *)
Fixpoint partition (c : Z) (s : list Z) : list Z * list Z :=
  match s with
  | [] => ([], [])
  | x :: s => if x =? c then ([], s) else let '(h, t) := partition c s in (x :: h, t)
  end.

(** [s.rpartition(c)]: around the last [c]; with none, the head is empty and
    the tail is [s]. *)
Definition rpartition (c : Z) (s : list Z) : list Z * list Z :=
  if bool_decide (c ∈ s)
  then let '(t, h) := partition c (reverse s) in (reverse h, reverse t)
  else ([], s).

Definition is_digit (c : Z) : bool := (48 <=? c) && (c <=? 57).
(** [s.isdigit()] of an ASCII string. *)
Definition isdigit (s : list Z) : bool := negb (bool_decide (s = [])) && forallb is_digit s.

(** The digits of [int(s)], a single underscore allowed between two. *)
Fixpoint int_digits (acc : Z) (after_digit : bool) (s : list Z) : option Z :=
  match s with
  | [] => if after_digit then Some acc else None
  | c :: s => if is_digit c then int_digits (acc * 10 + (c - 48)) true s
              else if (c =? 95) && after_digit then int_digits acc false s else None
  end.
Definition is_blank (c : Z) : bool := ((9 <=? c) && (c <=? 13)) || ((28 <=? c) && (c <=? 32)).
Fixpoint skip_blank (s : list Z) : list Z :=
  match s with c :: r => if is_blank c then skip_blank r else s | [] => [] end.
(** [int(s)] of an ASCII string: blanks around, an optional sign, digits. *)
Definition int_of (s : list Z) : result Z :=
  let s := reverse (skip_blank (reverse (skip_blank s))) in
  let '(neg, ds) := match s with
                    | 45 :: r => (true, r)
                    | 43 :: r => (false, r)
                    | _ => (false, s)
                    end in
  match int_digits 0 false ds with
  | Some n => Ok (if neg : bool then - n else n)
  | None => raise ValueError "invalid literal for int() with base 10: %r" s
  end.

(** ** Endpoints *)

(** Where a connection attempt goes. *)
Inductive target := Unix (path : list Z) | Tcp (host : list Z) (port : Z).

#[export] Instance target_eq_dec : EqDecision target.
Proof. solve_decision. Defined.

(** The two places that recognise a bare host:port. *)
Definition is_tcp (endpoint : list Z) : bool :=
  let '(host, port) := rpartition COLON endpoint in
  negb (bool_decide (host = [])) && isdigit port.

Definition server_suffix : list Z := lit ",server=on,wait=off".

Definition qmp_argument (endpoint : list Z) : list Z :=
  let '(host, port) := rpartition COLON endpoint in
  if negb (bool_decide (host = [])) && isdigit port
  then lit "tcp:" ++ host ++ [COLON] ++ port ++ server_suffix
  else lit "unix:" ++ endpoint ++ server_suffix.

(** The target of one attempt of [uvk5_socket.connect]. *)
Definition connect_target (endpoint : list Z) : result target :=
  let '(kind, rest) := partition COLON endpoint in
  let '(kind, rest) :=
    if bool_decide (kind = lit "unix") || bool_decide (kind = lit "tcp")
    then (kind, rest) else (lit "tcp", endpoint) in
  if bool_decide (kind = lit "unix")
  then Ok (Unix (partition COMMA rest).1)
  else
    let '(host, port) := rpartition COLON (partition COMMA rest).1 in
    p ← int_of port;
    Ok (Tcp host p).

(** [uvk5_socket.connect]: [accepts] says of each attempt before the deadline
    whether the system accepted it; a refused one raises OSError inside the
    loop and is retried.  A ValueError is not caught. *)
Fixpoint connect (endpoint : list Z) (accepts : list bool) : result target :=
  match accepts with
  | [] => raise OSError "could not connect to %s: %s" []
  | ok :: accepts =>
      t ← connect_target endpoint;
      if ok : bool then Ok t else connect endpoint accepts
  end.

(** [listen]: the endpoint it hands to QEMU, with unix sockets or without. *)
Definition listen_endpoint (unix_ok : bool) (dir name : list Z) (port : Z) : list Z :=
  if unix_ok then lit "unix:" ++ dir ++ lit "/" ++ name ++ lit ".sock"
  else lit "tcp:127.0.0.1:" ++ decimal port.
Definition server_endpoint (unix_ok : bool) (dir name : list Z) (port : Z) : list Z :=
  listen_endpoint unix_ok dir name port ++ server_suffix.

(** [can_use_unix]: [names] is what there is in the file system; making the
    socket and binding it are the system's, [probe_dir] the directory
    [mkdtemp] made.  The two removals ignore what goes wrong. *)
Definition below (dir name : list Z) : bool :=
  bool_decide (take (length dir + 1) name = dir ++ lit "/").
Definition unlink (path : list Z) (names : gset (list Z)) : gset (list Z) := names ∖ {[path]}.
Definition rmdir (dir : list Z) (names : gset (list Z)) : gset (list Z) :=
  if existsb (below dir) (elements names) then names else names ∖ {[dir]}.
Definition can_use_unix (have_unix : bool) (probe_dir : list Z) (socket_ok bind_ok : bool) (names : gset (list Z))
    : gset (list Z) * bool :=
  if negb have_unix then (names, false) else
  let names := {[probe_dir]} ∪ names in
  let path := probe_dir ++ lit "/" ++ lit "probe.sock" in
  let bound := socket_ok && bind_ok in
  let names := if bound : bool then {[path]} ∪ names else names in
  (rmdir probe_dir (unlink path names), bound).

(** What [wait_for_socket] probes, and its answer when [up] says of each
    probe before the deadline whether something was listening. *)
Definition wait_target (path : list Z) : result target :=
  let '(host, port) := rpartition COLON path in
  if negb (bool_decide (host = [])) && isdigit port
  then p ← int_of port; Ok (Tcp host p) else Ok (Unix path).
Definition wait_for_socket (path : list Z) (up : list bool) : result bool :=
  _ ← wait_target path; Ok (existsb id up).

(** [QmpClient.__init__] up to the socket: an OSError becomes a RuntimeError
    that says how to start the emulator; nothing else is caught. *)
Definition qmp_open (path : list Z) (accepts : list bool) : result target :=
  match connect path accepts with
  | Raise e => if bool_decide (exn_cls e = OSError)
               then raise RuntimeError "cannot reach the emulator at {path}: {exc}" []
               else Raise e
  | r => r
  end.

(** The [connect] closure webui's [main] gives the supervisor. *)
Definition webui_connect (qmp : list Z) (up accepts : list bool) : result target :=
  appeared ← wait_for_socket qmp up;
  if negb appeared then raise RuntimeError "QMP socket never appeared at {args.qmp}" []
  else qmp_open qmp accepts.

(** [DEFAULT_QMP], and webui's default of --qmp. *)
Definition DEFAULT_QMP : list Z := lit "/tmp/uvk5-qmp.sock".

(** What [open_transport] of the serial flasher decides from its endpoint:
    a socket target, or a serial port. *)
Definition transport_target (endpoint : list Z) : result (list Z + target) :=
  let '(host, port) := rpartition COLON endpoint in
  if negb (bool_decide (host = [])) && isdigit port
  then p ← int_of port; Ok (inr (Tcp host p)) else Ok (inl endpoint).

(** [open_transport]: a refused socket raises SystemExit at the deadline, and
    a name that is no host:port is opened as a serial port. *)
Definition open_transport (endpoint : list Z) (accepts : list bool) : result (list Z + target) :=
  t ← transport_target endpoint;
  match t with
  | inr _ => if existsb id accepts then Ok t else raise SystemExit "no connection to %s" []
  | inl _ => Ok t
  end.

(** ** Lemmas *)

Lemma int_digits_pretty x : x <> 0%N -> forall s b,
  int_digits 0 b (lit (pretty_N_go x s)) = int_digits (Z.of_N x) true (lit s).
Proof.
  induction (N.lt_wf_0 x) as [x _ IH]. intros Hx s b. rewrite pretty_N_go_step by lia.
  assert (forall r, (r < 10)%N -> forall acc b s,
    int_digits acc b (lit (String (pretty_N_char r) s)) = int_digits (acc * 10 + Z.of_N r) true (lit s)) as Hd.
  { intros r Hr acc b' s'.
    assert (r = 0 \/ r = 1 \/ r = 2 \/ r = 3 \/ r = 4 \/ r = 5 \/ r = 6 \/ r = 7 \/ r = 8 \/ r = 9)%N as Hc by lia.
    destruct Hc as [->|[->|[->|[->|[->|[->|[->|[->|[->| ->]]]]]]]]]; reflexivity. }
  pose proof (N.mod_lt x 10). pose proof (N.div_mod x 10).
  destruct (N.eq_dec (N.div x 10) 0%N) as [E|E].
  - rewrite E,  pretty_N_go_0, Hd by lia. f_equal. lia.
  - rewrite IH; [|apply N.div_lt; lia|exact E]. rewrite Hd by lia. f_equal. lia.
Qed.

Lemma int_digits_decimal (n : Z) : (0 <= n)%Z -> int_digits 0 false (decimal n) = Some n.
Proof.
  intros Hn. unfold decimal. rewrite (proj2 (Z.ltb_ge n 0)) by done. unfold pretty, pretty_N.
  destruct (decide (Z.to_N n = 0%N)) as [E|E].
  - assert (n = 0) as -> by lia. reflexivity.
  - rewrite int_digits_pretty by done. cbn. f_equal. lia.
Qed.

Lemma digits_pretty_go x : forall s,
  forallb is_digit (lit s) = true -> forallb is_digit (lit (pretty_N_go x s)) = true.
Proof.
  induction (N.lt_wf_0 x) as [x _ IH]. intros s Hs. destruct (decide (x = 0%N)) as [->|Hx]; [by rewrite pretty_N_go_0|].
  rewrite pretty_N_go_step by lia. apply IH; [apply N.div_lt; lia|].
  assert (forall r, (r < 10)%N -> is_digit (Z.of_nat (Ascii.nat_of_ascii (pretty_N_char r))) = true) as Hd.
  { intros r Hr.
    assert (r = 0 \/ r = 1 \/ r = 2 \/ r = 3 \/ r = 4 \/ r = 5 \/ r = 6 \/ r = 7 \/ r = 8 \/ r = 9)%N as Hc by lia.
    destruct Hc as [->|[->|[->|[->|[->|[->|[->|[->|[->| ->]]]]]]]]]; reflexivity. }
  cbn [lit forallb]. apply andb_true_intro. split; [|exact Hs]. apply Hd. apply N.mod_lt. lia.
Qed.

Lemma isdigit_decimal n : 0 <= n -> isdigit (decimal n) = true.
Proof.
  intros Hn. pose proof (int_digits_decimal n Hn) as Hi. unfold isdigit.
  rewrite bool_decide_eq_false_2 by (intros E; by rewrite E in Hi). cbn [negb andb].
  unfold decimal. rewrite (proj2 (Z.ltb_ge n 0)) by done. unfold pretty, pretty_N.
  case_decide; [reflexivity|]. by apply digits_pretty_go.
Qed.

Lemma partition_notin c s : c ∉ s -> partition c s = (s, []).
Proof.
  induction s as [|x s IH]; [done|]. intros [Hx Hs]%not_elem_of_cons. cbn [partition].
  rewrite (proj2 (Z.eqb_neq x c)) by done. by rewrite IH.
Qed.
Lemma partition_app c h t : c ∉ h -> partition c (h ++ c :: t) = (h, t).
Proof.
  induction h as [|x h IH]; intros Hh; cbn [app partition]; [by rewrite Z.eqb_refl|].
  apply not_elem_of_cons in Hh as [Hx Hh]. rewrite (proj2 (Z.eqb_neq x c)) by done. by rewrite IH.
Qed.
Lemma partition_head c h t : (partition c (h ++ c :: t)).1 = (partition c h).1.
Proof.
  induction h as [|x h IH]; cbn [app partition]; [by rewrite Z.eqb_refl|].
  destruct (x =? c); [done|]. destruct (partition c (h ++ c :: t)), (partition c h). cbn in *. by rewrite IH.
Qed.
Lemma rpartition_app c h t : c ∉ t -> rpartition c (h ++ c :: t) = (h, t).
Proof.
  intros Ht. unfold rpartition. rewrite bool_decide_eq_true_2 by set_solver.
  rewrite reverse_app, reverse_cons, <- app_assoc. cbn [app].
  rewrite partition_app by (by rewrite elem_of_reverse). by rewrite !reverse_involutive.
Qed.

Lemma forallb_iff {A} (f : A -> bool) l : forallb f l = true <-> Forall (fun x => f x = true) l.
Proof.
  induction l as [|x l IH]; cbn; [split; [constructor|done]|].
  rewrite andb_true_iff, IH, Forall_cons. done.
Qed.

Lemma digits_notin c s : is_digit c = false -> forallb is_digit s = true -> c ∉ s.
Proof.
  intros Hc Hs Hin. apply forallb_iff in Hs. rewrite Forall_forall in Hs.
  specialize (Hs c Hin). congruence.
Qed.

Lemma int_digits_ok s acc b :
  forallb is_digit s = true -> b = true \/ s <> [] -> exists p, int_digits acc b s = Some p.
Proof.
  revert acc b; induction s as [|c s IH]; intros acc b Hs Hb; cbn [int_digits].
  - destruct Hb as [->|]; [by eexists|done].
  - cbn in Hs. apply andb_prop in Hs as [-> Hs]. apply IH; [done|by left].
Qed.

Lemma skip_blank_digit c s : is_digit c = true -> skip_blank (c :: s) = c :: s.
Proof.
  intros Hc. cbn. assert (is_blank c = false) as ->; [|done].
  unfold is_digit, is_blank in *. lia.
Qed.

Lemma skip_blank_last s c : is_blank c = false -> exists s', skip_blank (s ++ [c]) = s' ++ [c].
Proof.
  intros Hc. induction s as [|x s [s' IH]]; cbn [app skip_blank].
  - rewrite Hc. by exists [].
  - destruct (is_blank x); [by exists s'|by exists (x :: s)].
Qed.

Lemma int_of_digits s : isdigit s = true -> exists p, int_of s = Ok p.
Proof.
  unfold isdigit. intros [Hne Hs]%andb_prop.
  assert (s <> []) as Hne' by (intros ->; done). clear Hne.
  unfold int_of. assert (skip_blank s = s) as ->.
  { destruct s as [|c s]; [done|]. apply skip_blank_digit. cbn in Hs. by apply andb_prop in Hs as [? _]. }
  assert (skip_blank (reverse s) = reverse s) as ->.
  { assert (forallb is_digit (reverse s) = true) as Hr.
    { apply forallb_iff. apply Forall_reverse. by apply forallb_iff. }
    destruct (reverse s) as [|c r]; [done|]. apply skip_blank_digit. cbn in Hr. by apply andb_prop in Hr as [? _]. }
  rewrite reverse_involutive.
  assert (match s with 45 :: r => (true, r) | 43 :: r => (false, r) | _ => (false, s) end = (false, s)) as ->.
  { destruct s as [|c s]; [done|]. cbn in Hs. apply andb_prop in Hs as [Hc _].
    unfold is_digit in Hc. repeat case_match; try done; lia. }
  destruct (int_digits_ok s 0 false Hs) as [p ->]; [by right|]. by exists p.
Qed.

(** A string that begins with a slash is no integer. *)
Lemma int_of_slash s : exists e, int_of (47 :: s) = Raise e /\ exn_cls e = ValueError.
Proof.
  unfold int_of. assert (skip_blank (47 :: s) = 47 :: s) as -> by done.
  rewrite reverse_cons. destruct (skip_blank_last (reverse s) 47 eq_refl) as [s' ->].
  rewrite reverse_app. cbn. by eexists.
Qed.

(** ** Properties *)

(** Every part of the system means the same thing by "host:port": the
    supervisor's probe, the QMP client and the serial transport all go to
    that host and port, and so does a client that is given the listening
    argument QEMU was started with. *)
Theorem host_port_agrees host port :
  host <> [] -> COMMA ∉ host -> isdigit port = true ->
  (partition COLON host).1 <> lit "unix" -> (partition COLON host).1 <> lit "tcp" ->
  let e := host ++ COLON :: port in
  exists p, int_of port = Ok p /\
    connect_target e = Ok (Tcp host p) /\ connect_target (qmp_argument e) = Ok (Tcp host p) /\
    wait_target e = Ok (Tcp host p) /\ transport_target e = Ok (inr (Tcp host p)) /\
    qmp_argument e = lit "tcp:" ++ e ++ server_suffix.
Proof.
  intros Hh Hc Hp Hu Ht e. destruct (int_of_digits port Hp) as [p Hi]. exists p. split; [done|].
  pose proof Hp as Hd. unfold isdigit in Hd. apply andb_prop in Hd as [_ Hd].
  assert (COLON ∉ port) as Hcol by (by apply digits_notin).
  assert (COMMA ∉ port) as Hcom by (by apply digits_notin).
  assert (COMMA ∉ e) as Hce by (unfold e; rewrite elem_of_app, elem_of_cons; naive_solver).
  assert (rpartition COLON e = (host, port)) as Hr by by apply rpartition_app.
  assert (qmp_argument e = lit "tcp:" ++ e ++ server_suffix) as Hq.
  { unfold qmp_argument. rewrite Hr, bool_decide_eq_false_2, Hp by done. cbn [negb andb].
    unfold e. by rewrite <- !app_assoc. }
  split; [|split; [|split; [|split; [|exact Hq]]]].
  - unfold connect_target. destruct (partition COLON e) as [kind rest] eqn:Ep.
    pose proof (partition_head COLON host port) as Hph. fold e in Hph. rewrite Ep in Hph.
    cbn [fst] in Hph. subst kind.
    rewrite !bool_decide_eq_false_2 by done. cbn [orb].
    rewrite (bool_decide_eq_false_2 (lit "tcp" = lit "unix")) by done.
    rewrite (partition_notin COMMA e) by done. cbn [fst]. by rewrite Hr, Hi.
  - rewrite Hq. unfold connect_target.
    change (lit "tcp:" ++ e ++ server_suffix) with (lit "tcp" ++ COLON :: (e ++ server_suffix)).
    rewrite partition_app by (vm_compute; set_solver).
    change (bool_decide (lit "tcp" = lit "unix") || bool_decide (lit "tcp" = lit "tcp")) with true.
    cbn [orb]. change (bool_decide (lit "tcp" = lit "unix")) with false.
    change server_suffix with (COMMA :: lit "server=on,wait=off").
    rewrite partition_app by done. cbn [fst]. by rewrite Hr, Hi.
  - unfold wait_target. rewrite Hr, bool_decide_eq_false_2, Hp by done. cbn. by rewrite Hi.
  - unfold transport_target. rewrite Hr, bool_decide_eq_false_2, Hp by done. cbn. by rewrite Hi.
Qed.

Lemma slash_target path :
  COLON ∉ path -> exists e, connect_target (47 :: path) = Raise e /\ exn_cls e = ValueError.
Proof.
  intros Hp. unfold connect_target.
  assert (COLON ∉ 47 :: path) as Hc by (apply not_elem_of_cons; split; done).
  rewrite partition_notin by done.
  change (bool_decide (47 :: path = lit "unix") || bool_decide (47 :: path = lit "tcp")) with false.
  cbn [orb]. change (bool_decide (lit "tcp" = lit "unix")) with false.
  assert ((partition COMMA (47 :: path)).1 = 47 :: (partition COMMA path).1) as ->.
  { cbn. by destruct (partition COMMA path). }
  assert (COLON ∉ 47 :: (partition COMMA path).1) as Hc'.
  { apply not_elem_of_cons. split; [done|]. intros Hin. apply Hp. clear Hc Hp.
    induction path as [|x path IH]; [done|]. cbn in Hin. destruct (x =? COMMA); [by apply elem_of_nil in Hin|].
    destruct (partition COMMA path) as [h t]. cbn in *. set_solver. }
  unfold rpartition. rewrite bool_decide_eq_false_2 by done.
  destruct (int_of_slash (partition COMMA path).1) as (e & -> & He). by exists e.
Qed.

(** A bare unix path, the documented form of a QMP endpoint and the
    default of the web server, cannot be connected to: the probe looks for
    the socket at that path, but the client reads the path as host:port and
    fails with ValueError on every attempt that is made, whatever is
    listening. *)
Theorem bare_unix_path_unconnectable path accepts :
  COLON ∉ path -> accepts <> [] ->
  wait_target (47 :: path) = Ok (Unix (47 :: path)) /\
  exists e, qmp_open (47 :: path) accepts = Raise e /\ exn_cls e = ValueError.
Proof.
  intros Hp Ha. assert (COLON ∉ 47 :: path) as Hc by (apply not_elem_of_cons; split; done). split.
  - unfold wait_target, rpartition. by rewrite bool_decide_eq_false_2.
  - destruct (slash_target path Hp) as (e & He & Hcls). destruct accepts as [|ok accepts]; [done|].
    exists e. split; [|done]. unfold qmp_open. cbn [connect]. rewrite He. cbn [mbind result_bind].
    rewrite bool_decide_eq_false_2; [done|]. rewrite Hcls. done.
Qed.

Lemma host_port_agrees_witness :
  connect_target (lit "127.0.0.1:4444") = Ok (Tcp (lit "127.0.0.1") 4444) /\
  qmp_argument (lit "127.0.0.1:4444") = lit "tcp:127.0.0.1:4444,server=on,wait=off".
Proof.
  destruct (host_port_agrees (lit "127.0.0.1") (lit "4444")) as (p & Hp & H1 & _ & _ & _ & H2);
    [discriminate|vm_compute; set_solver|reflexivity|discriminate|discriminate|].
  vm_compute in Hp. injection Hp as <-. exact (conj H1 H2).
Defined.

Lemma bare_unix_path_unconnectable_witness :
  exists e, webui_connect DEFAULT_QMP [true] [true; true] = Raise e /\ exn_cls e = ValueError.
Proof.
  destruct (bare_unix_path_unconnectable (lit "tmp/uvk5-qmp.sock") [true; true]) as (H1 & e & H2 & H3);
    [vm_compute; set_solver|discriminate|].
  exists e. split; [|exact H3]. unfold webui_connect, wait_for_socket.
  change DEFAULT_QMP with (47 :: lit "tmp/uvk5-qmp.sock"). rewrite H1. exact H2.
Defined.

(** ** The probe for unix sockets *)

Lemma below_self dir : below dir dir = false.
Proof.
  unfold below. apply bool_decide_eq_false_2. intros E. apply (f_equal length) in E.
  rewrite length_take, length_app in E. change (length (lit "/")) with 1%nat in E. lia.
Qed.

(** It answers whether a socket could be bound, and leaves the file system as
    it found it, whichever step fails: the directory is empty again when it
    is removed. *)
Theorem can_use_unix_leaves_nothing have_unix probe_dir socket_ok bind_ok names :
  probe_dir ∉ names -> (forall n, n ∈ names -> below probe_dir n = false) ->
  can_use_unix have_unix probe_dir socket_ok bind_ok names = (names, have_unix && socket_ok && bind_ok).
Proof.
  intros Hd Hb. unfold can_use_unix. destruct have_unix; [|done]. cbn [negb andb].
  set (path := probe_dir ++ _ ++ _).
  assert (path ∉ {[probe_dir]} ∪ names) as Hp.
  { assert (below probe_dir path = true) as Hbp.
    { unfold below, path. rewrite app_assoc, take_app_length'; [by apply bool_decide_eq_true_2|by rewrite length_app]. }
    rewrite elem_of_union, elem_of_singleton. intros [E|E]; [rewrite E, below_self in Hbp; done|].
    by rewrite (Hb _ E) in Hbp. }
  assert (unlink path (if socket_ok && bind_ok then {[path]} ∪ ({[probe_dir]} ∪ names) else {[probe_dir]} ∪ names)
    = {[probe_dir]} ∪ names) as -> by (unfold unlink; destruct (socket_ok && bind_ok); set_solver).
  unfold rmdir. destruct (existsb _ _) eqn:E; [exfalso|f_equal; set_solver].
  apply existsb_exists in E as (n & Hn & Hbn). apply list_elem_of_In, elem_of_elements in Hn.
  apply elem_of_union in Hn as [->%elem_of_singleton|Hn]; [by rewrite below_self in Hbn|by rewrite (Hb n Hn) in Hbn].
Qed.

(** ** What the slot tool connects to *)

(** The slot tool's --endpoint is said to take a unix socket; what has no
    colon is opened as a serial port. *)
Theorem unix_socket_taken_for_port path accepts :
  COLON ∉ path -> open_transport path accepts = Ok (inl path).
Proof.
  intros Hc. unfold open_transport, transport_target, rpartition. by rewrite bool_decide_eq_false_2.
Qed.
