(* ===== verification/Paths.v ===== *)
(** Paths as the tools build them, and the order of strings: [os.path.join],
    [pathlib.Path] written out, [Path.parent], and [sorted]. *)
From S2P Require Import Prelude Text Endpoint.
From stdpp Require Import sorting.
Open Scope Z_scope.

Definition SLASH : Z := 47.

(** [os.path.join] of a directory and a relative name. *)
Definition slash (dir name : list Z) : list Z :=
  match last dir with
  | None => name
  | Some c => if c =? SLASH then dir ++ name else dir ++ [SLASH] ++ name
  end.

(** [str(pathlib.Path(s))]: empty and dot components go, and so does a slash
    at the end; two slashes in front stay two. *)
Definition root_of (s : list Z) : list Z :=
  if bool_decide (take 1 s = [SLASH])
  then if bool_decide (take 2 s = [SLASH; SLASH]) && negb (bool_decide (take 3 s = [SLASH; SLASH; SLASH]))
       then [SLASH; SLASH] else [SLASH]
  else [].
Definition path_str (s : list Z) : list Z :=
  let parts := List.filter (fun c => negb (bool_decide (c = []) || bool_decide (c = [46]))) (split_on SLASH s) in
  match root_of s ++ Text.join [SLASH] parts with [] => [46] | p => p end.

(** [Path.parent] of an absolute path. *)
Definition parent (s : list Z) : list Z :=
  match (rpartition SLASH s).1 with [] => [SLASH] | d => d end.
(** [Path / name]. *)
Definition child (dir name : list Z) : list Z := path_str (slash dir name).

(** [sorted] of strings: by code points. *)
Fixpoint str_le (a b : list Z) : bool :=
  match a, b with
  | [], _ => true
  | _ :: _, [] => false
  | x :: a, y :: b => (x <? y) || ((x =? y) && str_le a b)
  end.
Definition str_le_rel (a b : list Z) : Prop := str_le a b = true.
#[export] Instance str_le_dec : RelDecision str_le_rel := fun a b => bool_eq_dec (str_le a b) true.

Definition sorted (l : list (list Z)) : list (list Z) := merge_sort str_le_rel l.

(** ** The order *)

Lemma str_le_total a b : str_le a b = true \/ str_le b a = true.
Proof.
  revert b. induction a as [|x a IH]; intros [|y b]; cbn; [by left|by left|by right|].
  destruct (Z.lt_trichotomy x y) as [H|[->|H]].
  - left. by rewrite (proj2 (Z.ltb_lt _ _) H).
  - rewrite Z.ltb_irrefl, Z.eqb_refl. cbn. apply IH.
  - right. by rewrite (proj2 (Z.ltb_lt _ _) H).
Qed.
Lemma str_le_trans a b c : str_le a b = true -> str_le b c = true -> str_le a c = true.
Proof.
  revert b c. induction a as [|x a IH]; intros [|y b] [|z c]; cbn; try done.
  rewrite !orb_true_iff, !andb_true_iff, !Z.ltb_lt, !Z.eqb_eq.
  intros [H1|[-> H1]] [H2|[-> H2]]; [left; lia|left; lia|left; lia|right; eauto].
Qed.
#[export] Instance str_le_total' : Total str_le_rel.
Proof. intros a b. apply str_le_total. Qed.
#[export] Instance str_le_trans' : Transitive str_le_rel.
Proof. intros a b c. apply str_le_trans. Qed.

(** The first of [sorted] is the least. *)
Lemma sorted_head l h t : sorted l = h :: t -> h ∈ l /\ forall x, x ∈ l -> str_le h x = true.
Proof.
  intros E. pose proof (merge_sort_Permutation str_le_rel l) as Hp.
  pose proof (StronglySorted_merge_sort str_le_rel l) as Hs. unfold sorted in E. rewrite E in Hp, Hs.
  split; [rewrite <- Hp; by left|]. intros x Hx. rewrite <- Hp in Hx. inversion Hs; subst.
  apply elem_of_cons in Hx as [->|Hx]; [destruct (str_le_total h h); done|].
  match goal with H : Forall _ _ |- _ => rewrite Forall_forall in H; by apply H end.
Qed.
Lemma sorted_nil l : sorted l = [] -> l = [].
Proof.
  intros E. pose proof (merge_sort_Permutation str_le_rel l) as Hp. unfold sorted in E. rewrite E in Hp.
  by apply Permutation_nil in Hp.
Qed.


(** ** Paths in normal form *)

(** An absolute path written without empty and dot components. *)
Definition part_ok (c : list Z) : Prop := c <> [] /\ c <> [46] /\ SLASH ∉ c.
Definition tidy (s : list Z) : Prop :=
  exists parts, parts <> [] /\ Forall part_ok parts /\ s = SLASH :: Text.join [SLASH] parts.

Lemma join_ne c parts : Forall part_ok parts -> parts <> [] -> exists x r, Text.join [c] parts = x :: r /\ x <> SLASH.
Proof.
  intros [|a parts' (Ha & _ & Hs) _] Hne; [done|]. destruct a as [|x a]; [done|].
  apply not_elem_of_cons in Hs as [Hx _]. destruct parts'; cbn; by eexists _, _.
Qed.

Lemma path_str_tidy s : tidy s -> path_str s = s.
Proof.
  intros (parts & Hne & Hp & ->). destruct (join_ne SLASH parts Hp Hne) as (x & r & E & Hx).
  unfold path_str. assert (split_on SLASH (SLASH :: Text.join [SLASH] parts) = [] :: parts) as ->.
  { cbn [split_on]. rewrite Z.eqb_refl. f_equal. apply split_join; [done|].
    eapply Forall_impl; [exact Hp|]. by intros c (_ & _ & ?). }
  cbn [List.filter bool_decide]. rewrite bool_decide_eq_true_2 by done. cbn [orb negb].
  assert (List.filter (fun c => negb (bool_decide (c = []) || bool_decide (c = [46]))) parts = parts) as ->.
  { clear E Hne. induction Hp as [|c parts (H1 & H2 & _) Hp IH]; [done|]. cbn [List.filter].
    rewrite !bool_decide_eq_false_2 by done. cbn. by rewrite IH. }
  rewrite E. unfold root_of. cbn [take]. rewrite bool_decide_eq_true_2 by done.
  by rewrite bool_decide_eq_false_2 by congruence.
Qed.

Lemma join_snoc c parts q : parts <> [] -> Text.join [c] (parts ++ [q]) = Text.join [c] parts ++ [c] ++ q.
Proof.
  induction parts as [|p parts IH]; intros Hne; [done|]. destruct parts as [|p' parts]; [done|].
  change (p ++ [c] ++ Text.join [c] ((p' :: parts) ++ [q]) =
          (p ++ [c] ++ Text.join [c] (p' :: parts)) ++ [c] ++ q).
  rewrite IH by done. by rewrite <- !app_assoc.
Qed.

Lemma tidy_last s : tidy s -> exists x, last s = Some x /\ x <> SLASH.
Proof.
  intros (parts & Hne & Hp & ->). destruct (exists_last Hne) as (front & q & ->).
  apply Forall_app in Hp as [_ [(Hq & _ & Hs) _]%Forall_cons].
  destruct (exists_last Hq) as (q0 & x & ->). exists x.
  assert (x <> SLASH) as Hx by (intros ->; apply Hs; set_solver). split; [|done].
  destruct front as [|a front].
  - cbn [app Text.join]. rewrite app_comm_cons. apply last_snoc.
  - rewrite join_snoc by done. rewrite !app_assoc, app_comm_cons. apply last_snoc.
Qed.

Lemma tidy_slash s n : tidy s -> part_ok n -> tidy (slash s n) /\ slash s n = s ++ SLASH :: n.
Proof.
  intros Ht Hn. destruct (tidy_last s Ht) as (x & Hx & Hns). unfold slash. rewrite Hx.
  rewrite (proj2 (Z.eqb_neq x SLASH)) by done. split; [|done].
  destruct Ht as (parts & Hne & Hp & ->). exists (parts ++ [n]). split; [by destruct parts|].
  split; [apply Forall_app; split; [exact Hp|by apply Forall_singleton]|]. by rewrite join_snoc.
Qed.

Lemma part_ok_lit s : s <> [] -> s <> [46] -> forallb (fun c => negb (c =? SLASH)) s = true -> part_ok s.
Proof.
  intros H1 H2 H3. split; [done|]. split; [done|]. intros Hin. apply forallb_iff in H3. rewrite Forall_forall in H3.
  specialize (H3 _ Hin). by rewrite Z.eqb_refl in H3.
Qed.

