(* ===== verification/MakeFlash.v ===== *)
(** The flash image builder [src/tools/make_flash.py]: UF2 files and raw blobs
    laid over erased flash with the calibration block, as a list of writes,
    and the bytes the finished image holds. *)
From S2P Require Import Prelude Struct Endpoint Image.

Definition FLASH_SIZE : Z := 2 * 1024 * 1024.
Definition CALIBRATION_ADDR : Z := 0x010000.
Definition CALIBRATION_SIZE : Z := 512.
Definition UF2_MAGIC0 : Z := 0x0A324655.
Definition UF2_MAGIC1 : Z := 0x9E5D5157.
Definition UF2_MAGIC_END : Z := 0x0AB16F30.

Definition uf2_fmt : list field := [fI; fI; fI; fI; fI; fI; fI; fI].

(** The body of the loop of [apply_uf2], for block [n] at [n * 512]. *)
Definition uf2_block (data image : list Z) (n : Z) : result (list Z) :=
  let i := n * 512 in
  '(m0, (m1, (_, (addr, (plen, _))))) ← unpack_from uf2_fmt data i;
  '(mend, _) ← unpack_from [fI] data (i + 508);
  if negb (m0 =? UF2_MAGIC0) || negb (m1 =? UF2_MAGIC1) || negb (mend =? UF2_MAGIC_END)
  then raise SystemExit "%s: bad UF2 magic at block %d" [n]
  else if 476 <? plen then raise SystemExit "%s: block %d claims %d payload bytes" [n; plen]
  else
    let e := addr + plen in
    if zlen image <? e
    then raise SystemExit "%s: block %d writes 0x%x..0x%x, past the end of the %d-byte flash"
           [n; addr; e; zlen image]
    else Ok (set_slice addr e (slice (i + 32) (i + 32 + plen) data) image).

Definition apply_uf2 (image data : list Z) : result (list Z) :=
  if negb (zlen data mod 512 =? 0)
  then raise SystemExit "%s: not a UF2 image (size is not a multiple of 512)" []
  else foldM (uf2_block data) image (zrange (zlen data / 512)).

(** [l[i:j] = d] for any integers: a negative index counts from the end. *)
Definition py_set_slice (i j : Z) (d l : list Z) : list Z :=
  let norm k := if k <? 0 then Z.max 0 (k + zlen l) else k in
  set_slice (norm i) (norm j) d l.

Definition apply_blob (image : list Z) (addr : Z) (data : list Z) : result (list Z) :=
  let e := addr + zlen data in
  if zlen image <? e then raise SystemExit "%s: 0x%x..0x%x does not fit in flash" [addr; e]
  else Ok (py_set_slice addr e data image).

(** The value of a digit, of any base up to sixteen. *)
Definition digit_of (c : Z) : option Z :=
  if is_digit c then Some (c - 48)
  else if (97 <=? c) && (c <=? 102) then Some (c - 87)
  else if (65 <=? c) && (c <=? 70) then Some (c - 55)
  else None.

(** Digits of a base, a single underscore allowed before each. *)
Fixpoint int_base (base acc : Z) (may_score : bool) (s : list Z) : option Z :=
  match s with
  | [] => Some acc
  | c :: s =>
      match digit_of c with
      | Some v => if v <? base then match s with
                                    | [] => Some (acc * base + v)
                                    | _ => int_base base (acc * base + v) true s
                                    end
                  else None
      | None => if (c =? 95) && may_score then
                  match s with [] => None | _ => int_base base acc false s end
                else None
      end
  end.

(** [int(s, 0)] of an ASCII string: blanks, a sign, a base prefix. *)
Definition int_auto (s : list Z) : result Z :=
  let s := reverse (skip_blank (reverse (skip_blank s))) in
  let '(neg, ds) := match s with
                    | 45 :: r => (true, r)
                    | 43 :: r => (false, r)
                    | _ => (false, s)
                    end in
  let v := match ds with
           | [] => None
           | 48 :: p :: r =>
               if (p =? 120) || (p =? 88) then match r with [] => None | _ => int_base 16 0 true r end
               else if (p =? 111) || (p =? 79) then match r with [] => None | _ => int_base 8 0 true r end
               else if (p =? 98) || (p =? 66) then match r with [] => None | _ => int_base 2 0 true r end
               else match int_base 10 0 false ds with Some 0 => Some 0 | _ => None end
           | _ => int_base 10 0 false ds
           end in
  match v with
  | Some n => Ok (if neg : bool then - n else n)
  | None => raise ValueError "invalid literal for int() with base 0: %r" s
  end.

(** [path.suffix.lower()]: the file name from its last dot, unless that dot
    is first or last.  No other letter lowers to one of ".uf2". *)
Definition suffix_lower (path : list Z) : list Z :=
  let name := basename path in
  let '(h, t) := rpartition 46 name in
  if bool_decide (h = []) || bool_decide (t = []) then []
  else map (fun c => if (65 <=? c) && (c <=? 90) then c + 32 else c) (46 :: t).

(** The body of [main]'s loop over the --blob options. *)
Definition place_blob (fs : files) (image : list Z) (spec : list Z) : result (list Z) :=
  if negb (bool_decide (COLON ∈ spec)) then raise SystemExit "--blob wants ADDR:FILE, got %r" []
  else
    let '(addr_text, path) := partition COLON spec in
    match fs !! path with
    | None => raise SystemExit "--blob file not found: %s" []
    | Some data =>
        if bool_decide (suffix_lower path = lit ".uf2") then apply_uf2 image data
        else addr ← int_auto addr_text; apply_blob image addr data
    end.

Definition erased : list Z := zrep FLASH_SIZE 0xff.

(** [main], after its arguments: the file system with the image written. *)
Definition main (fs : files) (calibration out : list Z) (blobs : list (list Z)) : result files :=
  match fs !! calibration with
  | None => raise SystemExit "calibration dump not found: %s" []
  | Some cal =>
      let image := set_slice CALIBRATION_ADDR (CALIBRATION_ADDR + zlen cal) cal erased in
      image ← foldM (place_blob fs) image blobs;
      Ok (<[out := image]> fs)
  end.

(** ** Images as lists of writes *)

Definition flash_write : Type := Z * list Z.

(** The write lies inside a flash of [n] bytes. *)
Definition write_fits (n : Z) (w : flash_write) : Prop := 0 <= w.1 /\ w.1 + zlen w.2 <= n.

Definition apply_write (image : list Z) (w : flash_write) : list Z :=
  set_slice w.1 (w.1 + zlen w.2) w.2 image.

Definition apply_writes (image : list Z) (ws : list flash_write) : list Z := foldl apply_write image ws.

(** The byte the writes leave at [k], if one of them covers it. *)
Definition last_write (ws : list flash_write) (k : nat) : option Z :=
  foldl (fun acc w => if decide (w.1 <= Z.of_nat k < w.1 + zlen w.2)
                      then w.2 !! (k - Z.to_nat w.1)%nat else acc) None ws.

Lemma zlen_apply_writes n image ws :
  zlen image = n -> Forall (write_fits n) ws -> zlen (apply_writes image ws) = n.
Proof.
  intros Hn Hw. revert image Hn.
  induction Hw as [|[a d] ws [Ha Hd] Hw IH]; intros image Hn; cbn [apply_writes foldl]; [done|].
  cbn [fst snd] in *. apply IH. unfold apply_write. cbn [fst snd]. rewrite zlen_set_slice; lia.
Qed.

Lemma lookup_apply_writes n image ws k :
  zlen image = n -> Forall (write_fits n) ws ->
  apply_writes image ws !! k =
    match last_write ws k with Some b => Some b | None => image !! k end.
Proof.
  intros Hn. induction ws as [|w ws IH] using rev_ind; intros Hw; [done|].
  apply Forall_app in Hw as [Hws [Hw _]%Forall_cons].
  unfold apply_writes, last_write. rewrite !foldl_app. cbn [foldl].
  fold (apply_writes image ws) (last_write ws k).
  unfold apply_write at 1. destruct Hw as [Ha Hd].
  rewrite lookup_set_slice; [|done|done|by rewrite (zlen_apply_writes n)].
  case_decide as Hk; [|by apply IH].
  destruct (lookup_lt_is_Some_2 w.2 (k - Z.to_nat w.1)) as [b ->]; [|done]. unfold zlen in Hk. lia.
Qed.

(** ** UF2 files *)

(** The write a UF2 block asks for, when the block is valid. *)
Definition uf2_write (data : list Z) (n : Z) : option flash_write :=
  let i := n * 512 in
  match unpack_from uf2_fmt data i, unpack_from [fI] data (i + 508) with
  | Ok (m0, (m1, (_, (addr, (plen, _))))), Ok (mend, _) =>
      if (m0 =? UF2_MAGIC0) && (m1 =? UF2_MAGIC1) && (mend =? UF2_MAGIC_END) && (plen <=? 476)
      then Some (addr, slice (i + 32) (i + 32 + plen) data) else None
  | _, _ => None
  end.

Definition uf2_writes (data : list Z) : option (list flash_write) :=
  if zlen data mod 512 =? 0 then mapM (uf2_write data) (zrange (zlen data / 512)) else None.

Lemma uf2_write_fields data n w :
  wf_bytes data -> 0 <= n -> n * 512 + 512 <= zlen data ->
  uf2_write data n = Some w ->
  exists m0 m1 fl no num fam mend,
    unpack_from uf2_fmt data (n * 512) = Ok (m0, (m1, (fl, (w.1, (zlen w.2, (no, (num, (fam, tt)))))))) /\
    unpack_from [fI] data (n * 512 + 508) = Ok (mend, tt) /\
    m0 = UF2_MAGIC0 /\ m1 = UF2_MAGIC1 /\ mend = UF2_MAGIC_END /\
    0 <= w.1 /\ zlen w.2 <= 476 /\ w.2 = slice (n * 512 + 32) (n * 512 + 32 + zlen w.2) data.
Proof.
  intros Hwf Hn Hl. unfold uf2_write, unpack_from.
  change (calcsize uf2_fmt) with 32. change (calcsize [fI]) with 4.
  rewrite !(proj2 (Z.leb_le _ _)) by lia. cbn -[slice Z.add Z.mul].
  set (b := slice (n * 512) (n * 512 + 32) data).
  assert (wf_bytes b) as Hb by (by apply wf_bytes_slice).
  assert (forall k, 0 <= le_dec (take 4 (drop k b))) as Hpos
    by (intros k; by apply le_dec_nonneg, Forall_take, Forall_drop).
  rewrite !drop_drop. cbn [Nat.add].
  destruct (_ && _) eqn:E; [|done]. intros [= <-]. cbn [fst snd].
  pose proof (Hpos 12%nat). pose proof (Hpos 16%nat).
  assert (zlen (slice (n * 512 + 32) (n * 512 + 32 + le_dec (take 4 (drop 16 b))) data)
          = le_dec (take 4 (drop 16 b))) as Hz by (rewrite zlen_slice; lia).
  rewrite Hz. do 7 eexists. split; [reflexivity|]. split; [reflexivity|]. split_and!; try done; lia.
Qed.

Lemma uf2_block_iff data image n image' :
  wf_bytes data -> 0 <= n -> n * 512 + 512 <= zlen data ->
  uf2_block data image n = Ok image' <->
  exists w, uf2_write data n = Some w /\ write_fits (zlen image) w /\ image' = apply_write image w.
Proof.
  intros Hwf Hn Hl. split.
  - intros H. assert (exists w, uf2_write data n = Some w) as [w Hw].
    { unfold uf2_block, uf2_write in *.
      destruct (unpack_from uf2_fmt data (n * 512)) as [(m0 & m1 & fl & addr & plen & rest)|]; [|done].
      destruct (unpack_from [fI] data (n * 512 + 508)) as [(mend & [])|]; [|done].
      cbn [mbind result_bind] in H.
      destruct (m0 =? UF2_MAGIC0), (m1 =? UF2_MAGIC1), (mend =? UF2_MAGIC_END); cbn [negb orb] in H; try done.
      destruct (Z.ltb_spec 476 plen); [done|].
      rewrite (proj2 (Z.leb_le _ _)) by lia. by eexists. }
    exists w. split; [done|].
    destruct (uf2_write_fields data n w Hwf Hn Hl Hw)
      as (m0 & m1 & fl & no & num & fam & mend & E1 & E2 & -> & -> & -> & Ha & Hp & Hs).
    unfold uf2_block in H. rewrite E1, E2 in H. cbn [mbind result_bind] in H.
    rewrite !Z.eqb_refl in H. cbn [negb orb] in H.
    rewrite (proj2 (Z.ltb_ge _ _) Hp), <- Hs in H.
    destruct (Z.ltb_spec (zlen image) (w.1 + zlen w.2)); [done|]. by injection H as <-.
  - intros (w & Hw & [Ha Hf] & ->).
    destruct (uf2_write_fields data n w Hwf Hn Hl Hw)
      as (m0 & m1 & fl & no & num & fam & mend & E1 & E2 & -> & -> & -> & _ & Hp & Hs).
    unfold uf2_block. rewrite E1, E2. cbn [mbind result_bind].
    rewrite !Z.eqb_refl. cbn [negb orb].
    rewrite (proj2 (Z.ltb_ge _ _) Hp), <- Hs. by rewrite (proj2 (Z.ltb_ge _ _) Hf).
Qed.

(** A loop of writes, each computed from its index: all of them or an error. *)
Lemma foldM_writes (step : list Z -> Z -> result (list Z)) (wr : Z -> option flash_write) ns :
  (forall image n image', n ∈ ns -> step image n = Ok image' <->
     exists w, wr n = Some w /\ write_fits (zlen image) w /\ image' = apply_write image w) ->
  forall image image', foldM step image ns = Ok image' <->
    exists ws, mapM wr ns = Some ws /\ Forall (write_fits (zlen image)) ws /\
      image' = apply_writes image ws.
Proof.
  induction ns as [|n ns IH]; intros Hs image image'; cbn [foldM].
  - split; [intros [= <-]; by exists []|]. intros (ws & [= <-] & _ & ->). done.
  - assert (forall w, write_fits (zlen image) w -> zlen (apply_write image w) = zlen image) as Hz.
    { intros [a d] [Ha Hd]. apply zlen_set_slice; done. }
    rewrite bind_ok. split.
    + intros (i1 & (w & Hw & Hf & ->)%Hs & H2); [|by left].
      apply IH in H2 as (ws & Hm & Hfs & ->); [|intros; apply Hs; by right].
      rewrite Hz in Hfs by done. exists (w :: ws).
      split; [cbn; by rewrite Hw; cbn; rewrite Hm|]. split; [by constructor|done].
    + intros (ws & Hm & Hfs & ->).
      apply mapM_Some in Hm. inversion Hm as [|? w ? ws' Hw Hws]; subst.
      apply Forall_cons in Hfs as [Hf Hfs]. exists (apply_write image w). split.
      * apply Hs; [by left|]. by exists w.
      * apply IH; [intros; apply Hs; by right|]. exists ws'. rewrite Hz by done.
        split; [by apply mapM_Some|done].
Qed.

Lemma apply_uf2_iff image data image' :
  wf_bytes data ->
  apply_uf2 image data = Ok image' <->
  exists ws, uf2_writes data = Some ws /\ Forall (write_fits (zlen image)) ws /\
    image' = apply_writes image ws.
Proof.
  intros Hwf. unfold apply_uf2, uf2_writes.
  destruct (Z.eqb_spec (zlen data mod 512) 0) as [Hm|Hm]; cbn [negb].
  - apply foldM_writes. intros i n i' Hn%elem_of_zrange.
    pose proof (Z.div_mod (zlen data) 512). apply uf2_block_iff; [done|lia|lia].
  - unfold raise. split; [done|]. by intros (ws & ? & _).
Qed.

(** ** The whole image *)

(** The writes a --blob option asks for: those of a UF2 file, or one at its
    address. *)
Definition spec_writes (fs : files) (spec : list Z) : option (list flash_write) :=
  if bool_decide (COLON ∈ spec) then
    let '(addr_text, path) := partition COLON spec in
    match fs !! path with
    | None => None
    | Some data =>
        if bool_decide (suffix_lower path = lit ".uf2") then uf2_writes data
        else match int_auto addr_text with
             | Ok addr => Some [(addr, data)]
             | Raise _ => None
             end
    end
  else None.

Definition addresses_nonneg (blobs : list (list Z)) : Prop :=
  Forall (fun spec => forall a, int_auto (partition COLON spec).1 = Ok a -> 0 <= a) blobs.

Definition wf_files (fs : files) : Prop := map_Forall (fun _ d => wf_bytes d) fs.
#[export] Instance wf_files_dec fs : Decision (wf_files fs).
Proof. unfold wf_files. apply _. Defined.

Lemma apply_blob_iff image addr data image' :
  0 <= addr ->
  apply_blob image addr data = Ok image' <->
  write_fits (zlen image) (addr, data) /\ image' = apply_write image (addr, data).
Proof.
  intros Ha. unfold apply_blob, py_set_slice, write_fits, apply_write. cbn [fst snd].
  pose proof (zlen_nonneg data). rewrite !(proj2 (Z.ltb_ge _ 0)) by lia.
  unfold raise. destruct (Z.ltb_spec (zlen image) (addr + zlen data)); naive_solver lia.
Qed.

Lemma place_blob_iff fs image spec image' :
  wf_files fs -> (forall a, int_auto (partition COLON spec).1 = Ok a -> 0 <= a) ->
  place_blob fs image spec = Ok image' <->
  exists ws, spec_writes fs spec = Some ws /\ Forall (write_fits (zlen image)) ws /\
    image' = apply_writes image ws.
Proof.
  intros Hfs Ha. unfold place_blob, spec_writes.
  destruct (bool_decide (COLON ∈ spec)); cbn [negb]; [|unfold raise; naive_solver].
  destruct (partition COLON spec) as [addr_text path]. cbn [fst] in Ha.
  destruct (fs !! path) as [data|] eqn:Ed; [|unfold raise; naive_solver].
  destruct (bool_decide (suffix_lower path = lit ".uf2")).
  - apply apply_uf2_iff. by apply (Hfs path).
  - destruct (int_auto addr_text) as [addr|e]; cbn [mbind result_bind]; [|naive_solver].
    rewrite apply_blob_iff by auto. split.
    + intros [Hf ->]. exists [(addr, data)]. split; [done|]. split; [by apply Forall_singleton|done].
    + intros (ws & [= <-] & [Hf _]%Forall_cons & ->). exact (conj Hf eq_refl).
Qed.

Lemma place_blobs_iff fs blobs :
  wf_files fs -> addresses_nonneg blobs -> forall image image',
  foldM (place_blob fs) image blobs = Ok image' <->
  exists wss, mapM (spec_writes fs) blobs = Some wss /\
    Forall (write_fits (zlen image)) (concat wss) /\ image' = apply_writes image (concat wss).
Proof.
  intros Hfs. induction 1 as [|spec blobs Ha Hb IH]; intros image image'; cbn [foldM].
  - split; [intros [= <-]; by exists []|]. by intros (? & [= <-] & _ & ->).
  - rewrite bind_ok. split.
    + intros (i1 & (ws & Hw & Hf & ->)%place_blob_iff & (wss & Hm & Hfs' & ->)%IH); try done.
      rewrite (zlen_apply_writes _ _ _ eq_refl Hf) in Hfs'. exists (ws :: wss).
      split; [cbn; by rewrite Hw; cbn; rewrite Hm|]. cbn [concat].
      split; [by apply Forall_app|]. unfold apply_writes. by rewrite foldl_app.
    + intros (wss & Hm & Hf & ->). apply mapM_Some in Hm.
      inversion Hm as [|? ws ? wss' Hw Hws]; subst. cbn [concat] in *.
      apply Forall_app in Hf as [Hf1 Hf2]. exists (apply_writes image ws). split.
      * apply place_blob_iff; [done|done|]. by exists ws.
      * apply IH. exists wss'. rewrite (zlen_apply_writes _ _ _ eq_refl Hf1).
        split; [by apply mapM_Some|]. split; [done|]. unfold apply_writes. by rewrite foldl_app.
Qed.

Lemma zlen_erased : zlen erased = FLASH_SIZE.
Proof. apply zlen_rep. vm_compute. discriminate. Qed.

Lemma apply_writes_one image w : apply_writes image [w] = apply_write image w.
Proof. reflexivity. Qed.
Lemma apply_writes_cons image w ws : apply_writes image (w :: ws) = apply_writes (apply_write image w) ws.
Proof. reflexivity. Qed.
Lemma calibrated_image cal image :
  set_slice CALIBRATION_ADDR (CALIBRATION_ADDR + zlen cal) cal image = apply_write image (CALIBRATION_ADDR, cal).
Proof. unfold apply_write. cbn [fst snd]. reflexivity. Qed.

Lemma flash_image_bytes ws :
  Forall (write_fits FLASH_SIZE) ws ->
  zlen (apply_writes erased ws) = FLASH_SIZE /\
  forall k, Z.of_nat k < FLASH_SIZE ->
    apply_writes erased ws !! k = Some (default 0xff (last_write ws k)).
Proof.
  intros Hw. split; [exact (zlen_apply_writes _ _ _ zlen_erased Hw)|]. intros k Hk.
  rewrite (lookup_apply_writes _ _ _ k zlen_erased Hw).
  destruct (last_write ws k); [reflexivity|]. unfold erased, zrep.
  rewrite lookup_replicate_2; [reflexivity|lia].
Qed.

(** C22. The flash image [main] writes, for a calibration file that fits and
    addresses that are not negative: [main] succeeds exactly when every --blob
    names a file, parses, and all the writes they ask for, the blocks of UF2
    files at their own addresses and the others at the given one, lie inside
    the 2 MB.  The image is then exactly 2 MB, every byte is the one the last
    write covering it put there, and is erased otherwise; nothing but the
    output file changes. *)
Theorem make_flash_bytes fs calibration out blobs cal fs' :
  wf_files fs -> addresses_nonneg blobs -> fs !! calibration = Some cal ->
  CALIBRATION_ADDR + zlen cal <= FLASH_SIZE ->
  main fs calibration out blobs = Ok fs' <->
  exists wss image, mapM (spec_writes fs) blobs = Some wss /\
    Forall (write_fits FLASH_SIZE) (concat wss) /\
    fs' = <[out := image]> fs /\ zlen image = FLASH_SIZE /\
    forall k, Z.of_nat k < FLASH_SIZE ->
      image !! k = Some (default 0xff (last_write ((CALIBRATION_ADDR, cal) :: concat wss) k)).
Proof.
  intros Hfs Ha Hc Hl. unfold main. rewrite Hc, bind_ok.
  assert (write_fits FLASH_SIZE (CALIBRATION_ADDR, cal)) as Hcal by (split; [done|exact Hl]).
  pose proof zlen_erased as Hz.
  rewrite calibrated_image.
  assert (zlen (apply_write erased (CALIBRATION_ADDR, cal)) = FLASH_SIZE) as Hz1.
  { rewrite <- apply_writes_one. apply zlen_apply_writes; [exact Hz|by constructor]. }
  setoid_rewrite place_blobs_iff; [|done..]. rewrite Hz1.
  set (c := (CALIBRATION_ADDR, cal)) in *.
  assert (forall wss, Forall (write_fits FLASH_SIZE) (concat wss) ->
    Forall (write_fits FLASH_SIZE) (c :: concat wss)) as Hcons by (intros; by constructor).
  split.
  - intros (image & (wss & Hm & Hw & ->) & [= <-]).
    destruct (flash_image_bytes _ (Hcons _ Hw)) as [Hlen Hby].
    rewrite <- apply_writes_cons. exists wss, (apply_writes erased (c :: concat wss)).
    exact (conj Hm (conj Hw (conj eq_refl (conj Hlen Hby)))).
  - intros (wss & image & Hm & Hw & -> & Hlen & Hby).
    destruct (flash_image_bytes _ (Hcons _ Hw)) as [Hlen' Hby'].
    exists (apply_writes erased (c :: concat wss)).
    split; [exists wss; exact (conj Hm (conj Hw (apply_writes_cons erased c _)))|]. do 2 f_equal. apply list_eq. intros k.
    destruct (decide (Z.of_nat k < FLASH_SIZE)) as [Hk|Hk]; [by rewrite Hby', Hby|].
    unfold zlen in Hlen, Hlen'. rewrite !lookup_ge_None_2 by lia. reflexivity.
Qed.

(** ** The UF2 format *)

(** A UF2 block carrying [w], as the format defines it. *)
Definition uf2_encode (w : flash_write) : list Z :=
  (le_enc 4 UF2_MAGIC0 ++ le_enc 4 UF2_MAGIC1 ++ le_enc 4 0 ++ le_enc 4 w.1 ++ le_enc 4 (zlen w.2)
    ++ le_enc 4 0 ++ le_enc 4 0 ++ le_enc 4 0)
  ++ w.2 ++ zrep (476 - zlen w.2) 0 ++ le_enc 4 UF2_MAGIC_END.

Definition uf2_fits (w : flash_write) : Prop := 0 <= w.1 < 2 ^ 32 /\ zlen w.2 <= 476.

Lemma zlen_uf2_encode w : uf2_fits w -> zlen (uf2_encode w) = 512.
Proof.
  intros [_ Hl]. unfold uf2_encode. pose proof (zlen_nonneg w.2).
  rewrite !zlen_app, zlen_rep, !zlen_le_enc by lia. lia.
Qed.

Lemma uf2_header_unpack w :
  uf2_fits w ->
  let vals := (UF2_MAGIC0, (UF2_MAGIC1, (0, (w.1, (zlen w.2, (0, (0, (0, tt)))))))) in
  fits uf2_fmt vals /\
  pack uf2_fmt vals = Ok (slice 0 32 (uf2_encode w)).
Proof.
  intros [Ha Hl] vals. pose proof (zlen_nonneg w.2).
  assert (0 <= zlen w.2 < 256 ^ Z.of_nat 4) as Hlen by (change (256 ^ Z.of_nat 4) with 4294967296; lia).
  assert (0 <= w.1 < 256 ^ Z.of_nat 4) as Haddr by exact Ha.
  split.
  - cbn [fits fits1 vals fst snd uf2_fmt].
    refine (conj _ (conj _ (conj _ (conj Haddr (conj Hlen (conj _ (conj _ (conj _ I)))))))); range_tac.
  - unfold uf2_encode. rewrite slice_0_app by (by rewrite !zlen_app, !zlen_le_enc).
    rewrite <- (app_nil_r (le_enc 4 0)) at 4.
    repeat apply pack_cons_int; try exact Haddr; try exact Hlen; range_tac.
Qed.

Lemma uf2_write_encoded pre w post n :
  uf2_fits w -> zlen pre = n * 512 -> uf2_write (pre ++ uf2_encode w ++ post) n = Some w.
Proof.
  intros Hw Hn. destruct (uf2_header_unpack w Hw) as [Hfit Hpack].
  pose proof (zlen_uf2_encode w Hw) as Hz. destruct Hw as [Ha Hl].
  pose proof (zlen_nonneg pre). pose proof (zlen_nonneg post). pose proof (zlen_nonneg w.2).
  assert (forall i j, 0 <= i <= j -> j <= 512 ->
    slice (n * 512 + i) (n * 512 + j) (pre ++ uf2_encode w ++ post) = slice i j (uf2_encode w)) as Hs.
  { intros i j Hi Hj. rewrite slice_app_r by lia. rewrite slice_app_l by lia. f_equal; lia. }
  unfold uf2_write.
  assert (unpack_from uf2_fmt (pre ++ uf2_encode w ++ post) (n * 512) =
    Ok (UF2_MAGIC0, (UF2_MAGIC1, (0, (w.1, (zlen w.2, (0, (0, (0, tt))))))))) as ->.
  { apply unpack_from_slice; [split; [lia|rewrite !zlen_app; lia]| |exact Hfit].
    pose proof (Hs 0 32 ltac:(lia) ltac:(lia)) as Hs0. rewrite Z.add_0_r in Hs0.
    change (calcsize uf2_fmt) with 32. rewrite Hs0. exact Hpack. }
  assert (unpack_from [fI] (pre ++ uf2_encode w ++ post) (n * 512 + 508) = Ok (UF2_MAGIC_END, tt)) as ->.
  { apply unpack_from_slice; [split; [lia|rewrite !zlen_app; lia]| |cbn [fits fits1 fst snd]; split; [range_tac|exact I]].
    change (calcsize [fI]) with 4. replace (n * 512 + 508 + 4) with (n * 512 + 512) by lia.
    rewrite Hs by lia.
    assert (slice 508 512 (uf2_encode w) = le_enc 4 UF2_MAGIC_END) as ->; [|by apply pack_int_iff].
    unfold uf2_encode. rewrite !app_assoc.
    match goal with |- slice _ _ (?p ++ _) = _ => assert (zlen p = 508) as Hp end.
    { rewrite !zlen_app, zlen_rep, !zlen_le_enc by lia. lia. }
    rewrite slice_app_r by lia. rewrite Hp. done. }
  rewrite !Z.eqb_refl. rewrite (proj2 (Z.leb_le _ _) Hl). cbn [andb].
  replace (n * 512 + 32 + zlen w.2) with (n * 512 + (32 + zlen w.2)) by lia. rewrite Hs by lia.
  unfold uf2_encode. rewrite slice_app_r by (by rewrite !zlen_app, !zlen_le_enc).
  match goal with |- context [slice (_ - zlen ?p)] => assert (zlen p = 32) as -> by
    (by rewrite !zlen_app, !zlen_le_enc) end.
  rewrite slice_0_app by lia. by destruct w.
Qed.

Lemma uf2_writes_encoded pre ws k :
  Forall uf2_fits ws -> zlen pre = Z.of_nat k * 512 ->
  mapM (uf2_write (pre ++ concat (map uf2_encode ws))) (map Z.of_nat (seq k (length ws))) = Some ws.
Proof.
  intros Hws. revert pre k. induction Hws as [|w ws Hw Hws IH]; intros pre k Hk; [done|].
  cbn [map concat length seq]. apply mapM_Some. constructor; [by apply uf2_write_encoded|].
  apply mapM_Some. rewrite app_assoc. apply IH.
  rewrite zlen_app, zlen_uf2_encode by done. lia.
Qed.

Lemma zlen_uf2_file ws : Forall uf2_fits ws -> zlen (concat (map uf2_encode ws)) = zlen ws * 512.
Proof.
  induction 1 as [|w ws Hw Hws IH]; [done|]. cbn [map concat].
  rewrite zlen_app, zlen_uf2_encode, IH, zlen_cons by done. lia.
Qed.

(** Decoding a UF2 file gives back the blocks it was made of: applying
    the encoding of any list of blocks that lie in the flash writes each
    block's payload at its own address, in order, and nothing else. *)
Theorem uf2_roundtrip image ws :
  wf_bytes (concat (map uf2_encode ws)) ->
  Forall (fun w => uf2_fits w /\ write_fits (zlen image) w) ws ->
  apply_uf2 image (concat (map uf2_encode ws)) = Ok (apply_writes image ws).
Proof.
  intros Hwf [Hu Hf]%Forall_and. apply apply_uf2_iff; [done|]. exists ws. split; [|done].
  unfold uf2_writes, zrange. rewrite zlen_uf2_file by done.
  rewrite Z.mod_mul, Z.div_mul by done. cbn [Z.eqb].
  change (zlen ws) with (Z.of_nat (length ws)). rewrite Nat2Z.id.
  apply (uf2_writes_encoded [] ws 0 Hu). done.
Qed.

(** ** Examples *)

Definition uf2_file : list Z := uf2_encode (0xA0000, [9; 8; 7]).
Definition assets : files :=
  {[lit "calibration.bin" := [1; 2; 3]; lit "pack.uf2" := uf2_file; lit "font.bin" := [5; 6]]}.
Definition blobs0 : list (list Z) := map lit ["0:pack.uf2"; "0xA0001:font.bin"]%string.

Lemma make_flash_bytes_witness :
  exists image, main assets (lit "calibration.bin") (lit "flash.img") blobs0
      = Ok (<[lit "flash.img" := image]> assets) /\
    image !! Z.to_nat 0x10001 = Some 2 /\ image !! Z.to_nat 0xA0000 = Some 9 /\
    image !! Z.to_nat 0xA0001 = Some 5.
Proof.
  assert (Forall (write_fits FLASH_SIZE)
    [(CALIBRATION_ADDR, [1; 2; 3]); (0xA0000, [9; 8; 7]); (0xA0001, [5; 6])]) as Hw
    by (repeat constructor; vm_compute; discriminate).
  destruct (flash_image_bytes _ Hw) as [Hlen Hby].
  eexists. split.
  - apply (make_flash_bytes assets (lit "calibration.bin") (lit "flash.img") blobs0 [1; 2; 3]).
    + refine (bool_decide_unpack _ _). vm_compute. exact I.
    + repeat constructor; intros a; vm_compute; intros [= <-]; discriminate.
    + vm_compute. reflexivity.
    + vm_compute. discriminate.
    + exists [[(0xA0000, [9; 8; 7])]; [(0xA0001, [5; 6])]]. eexists.
      split; [vm_compute; reflexivity|]. split; [exact (Forall_inv_tail Hw)|].
      exact (conj eq_refl (conj Hlen Hby)).
  - rewrite !Hby by (rewrite Z2Nat.id; [vm_compute; reflexivity|discriminate]).
    split_and!; vm_compute; reflexivity.
Defined.

Lemma uf2_roundtrip_witness :
  apply_uf2 (zrep 8 0xff) (concat (map uf2_encode [(1, [9; 8; 7]); (2, [6])]))
    = Ok (apply_writes (zrep 8 0xff) [(1, [9; 8; 7]); (2, [6])]).
Proof.
  apply uf2_roundtrip; [refine (bool_decide_unpack _ _); vm_compute; exact I|].
  repeat constructor; vm_compute; first [discriminate|reflexivity].
Defined.

(** [apply_blob] checks only the end of a blob against the flash, so an
    address below zero passes: Python then counts the slice from the end of
    the image, and a blob of four bytes at -4 is inserted before the last
    four bytes instead of replacing them.  The image that is written has four
    bytes too many, and no error is reported. *)
Theorem negative_blob_address_grows :
  int_auto (lit "-4") = Ok (-4) /\
  apply_blob (zrep 8 0xff) (-4) [1; 2; 3; 4] = Ok (zrep 4 0xff ++ [1; 2; 3; 4] ++ zrep 4 0xff).
Proof. split; vm_compute; reflexivity. Qed.
