(* ===== verification/Lcd.v ===== *)
(** The display of [src/tools/uvk5_lcd.py]: the pixels of the controller's
    pages, the PNG they are encoded in, and the [FrameGrabber] that reads them
    from a running guest, which may change between two commands.
    [screenshot.py] has the same [unpack] and the same PNG writer. *)
From S2P Require Import Prelude Struct Endpoint MakeFlash.

Definition LCD_WIDTH : Z := 128.
Definition STATUS_ROWS : Z := 1.
Definition FRAME_ROWS : Z := 7.
Definition TOTAL_ROWS : Z := STATUS_ROWS + FRAME_ROWS.
Definition LCD_HEIGHT : Z := TOTAL_ROWS * 8.
Definition FRAME_BYTES : Z := FRAME_ROWS * LCD_WIDTH.
Definition STATUS_BYTES : Z := LCD_WIDTH.

Abbreviation grid := (list (list Z)) (only parsing).

(** [pixels[y][x] = 1]. *)
Definition light (pixels : grid) (y x : Z) : grid := alter (<[Z.to_nat x := 1]>) (Z.to_nat y) pixels.

(** The innermost loop, over the bits of one byte. *)
Definition unpack_byte (page col byte : Z) (pixels : grid) : grid :=
  foldl (fun pixels bit => if Z.land byte (Z.shiftl 1 bit) =? 0 then pixels
                           else light pixels (page * 8 + bit) col)
    pixels (zrange 8).

(** The source of a page: [status] for the first, a slice of [frame] for
    the others. *)
Definition page_source (status frame : list Z) (page : Z) : list Z :=
  if page =? 0 then status else slice ((page - 1) * LCD_WIDTH) (page * LCD_WIDTH) frame.

Definition unpack_column (src : list Z) (page : Z) (pixels : grid) (col : Z) : result grid :=
  match src !! Z.to_nat col with
  | Some byte => Ok (unpack_byte page col byte pixels)
  | None => raise IndexError "index out of range" []
  end.

Definition unpack_page (status frame : list Z) (pixels : grid) (page : Z) : result grid :=
  foldM (unpack_column (page_source status frame page) page) pixels (zrange LCD_WIDTH).

Definition dark : grid := zrep LCD_HEIGHT (zrep LCD_WIDTH 0).

Definition unpack (status frame : list Z) : result grid :=
  foldM (unpack_page status frame) dark (zrange TOTAL_ROWS).

(** ** PNG *)

Definition png_signature : list Z := [0x89] ++ lit "PNG" ++ [0x0d; 0x0a; 0x1a; 0x0a].

(** [struct.pack(">I", n)]. *)
Definition be32 (n : Z) : result (list Z) := pack [FBig 4] (n, tt).

Definition chunk (tag payload : list Z) : result (list Z) :=
  len ← be32 (zlen payload);
  crc ← be32 (Z.land (crc32 (tag ++ payload)) 0xFFFFFFFF);
  Ok (len ++ tag ++ payload ++ crc).

(** Dark on light: a pixel that is on is black. *)
Definition shade (value : Z) : Z := if value =? 0 then 0xFF else 0x00.

(** A row of pixels, each repeated [scale] times. *)
Definition png_line (scale : Z) (row : list Z) : list Z :=
  concat (map (fun value => zrep scale (shade value)) row).

(** The bytes before compression: every line [scale] times, behind a filter
    byte. *)
Definition png_raw (scale : Z) (pixels : grid) : list Z :=
  concat (map (fun row => concat (zrep scale (0 :: png_line scale row))) pixels).

Section png.
(** [zlib.compress(_, 6)]. *)
Context (compress : list Z -> list Z).

Definition ihdr (width height : Z) : result (list Z) :=
  pack [FBig 4; FBig 4; FInt 1; FInt 1; FInt 1; FInt 1; FInt 1]
    (width, (height, (8, (0, (0, (0, (0, tt))))))).

Definition encode_png (pixels : grid) (scale : Z) : result (list Z) :=
  header ← ihdr (LCD_WIDTH * scale) (LCD_HEIGHT * scale);
  c1 ← chunk (lit "IHDR") header;
  c2 ← chunk (lit "IDAT") (compress (png_raw scale pixels));
  c3 ← chunk (lit "IEND") [];
  Ok (png_signature ++ c1 ++ c2 ++ c3).
End png.

(** [write_text] of screenshot.py, one character per two pixel rows: the four
    block elements by (lower, upper), as their code points. *)
Definition write_text (pixels : grid) : list (list Z) :=
  map (fun k =>
    map (fun x =>
      let at_ y := default 0 (pixels !! Z.to_nat y ≫= (.!! Z.to_nat x)) in
      let top := at_ (2 * k) in
      let bottom := if 2 * k + 1 <? LCD_HEIGHT then at_ (2 * k + 1) else 0 in
      nth (Z.to_nat (Z.lor top (Z.shiftl bottom 1))) [0x20; 0x2580; 0x2584; 0x2588] 0)
      (zrange LCD_WIDTH))
    (zrange (LCD_HEIGHT / 2)).

(** [write_png] of screenshot.py: the bytes it writes; its compression level
    is another. *)
Definition write_png (compress9 : list Z -> list Z) (pixels : grid) (scale : Z) : result (list Z) :=
  encode_png compress9 pixels scale.

(** [lit = sum(sum(row) for row in pixels)]. *)
Definition lit_count (pixels : grid) : Z := foldr (fun row n => foldr Z.add 0 row + n) 0 pixels.

(** [s.split()] of an ASCII string, [word] being the word so far. *)
Fixpoint words (word s : list Z) : list (list Z) :=
  match s with
  | [] => if bool_decide (word = []) then [] else [word]
  | c :: s => if is_blank c
              then if bool_decide (word = []) then words [] s else word :: words [] s
              else words (word ++ [c]) s
  end.

(** [out.splitlines()]; an empty line at the end changes nothing here. *)
Fixpoint lines_of (line s : list Z) : list (list Z) :=
  match s with
  | [] => [line]
  | c :: s => if ((10 <=? c) && (c <=? 13)) || ((28 <=? c) && (c <=? 30))
              then line :: lines_of [] s else lines_of (line ++ [c]) s
  end.

(** [int(s, 16)] of a word. *)
Definition int_hex (s : list Z) : result Z :=
  let '(neg, ds) := match s with
                    | 45 :: r => (true, r)
                    | 43 :: r => (false, r)
                    | _ => (false, s)
                    end in
  let v := match ds with
           | [] => None
           | 48 :: p :: r =>
               if (p =? 120) || (p =? 88) then match r with [] => None | _ => int_base 16 0 true r end
               else int_base 16 0 false ds
           | _ => int_base 16 0 false ds
           end in
  match v with
  | Some n => Ok (if neg : bool then - n else n)
  | None => raise ValueError "invalid literal for int() with base 16: %r" s
  end.

(** [symbol_address]: [nm] is what the host's nm printed, when it succeeded,
    and [container] what the toolchain in the build container prints. *)
Definition symbol_address (nm : option (list Z)) (container : list Z) (name : list Z) : result Z :=
  let out := default container nm in
  foldr (fun line next =>
           match words [] line with
           | [addr; _; n] => if bool_decide (n = name) then int_hex addr else next
           | _ => next
           end)
    (raise SystemExit "symbol %s not found in %s" name) (lines_of [] out).

(** [read_memory]: [dump] is the file gdb leaves, if it leaves one. *)
Definition read_memory (dump : Z -> Z -> option (list Z)) (address length : Z) : result (list Z) :=
  match dump address length with
  | None => raise SystemExit "gdb produced no dump. Is the emulator running with -gdb?" []
  | Some data =>
      if zlen data <? length then raise SystemExit "short read: %d of %d bytes" [zlen data; length]
      else Ok (slice 0 length data)
  end.

(** [main] of screenshot.py, after its arguments: the file it writes, the
    count it prints and the text.  [elf] is whether --elf was given, and then
    what nm and the container print for it. *)
Definition screenshot (dump : Z -> Z -> option (list Z)) (compress9 : list Z -> list Z)
    (frame_addr status_addr : option Z) (elf : option (option (list Z) * list Z)) (scale : Z)
  : result (list Z * Z * list (list Z)) :=
  '(fa, sa) ← match frame_addr, status_addr, elf with
              | Some fa, Some sa, _ => Ok (fa, sa)
              | _, _, Some (nm, container) =>
                  fa ← symbol_address nm container (lit "gFrameBuffer");
                  sa ← symbol_address nm container (lit "gStatusLine");
                  Ok (fa, sa)
              | _, _, None =>
                  raise SystemExit "pass either --elf or both --frame-addr and --status-addr" []
              end;
  frame ← read_memory dump fa (FRAME_ROWS * LCD_WIDTH);
  status ← read_memory dump sa LCD_WIDTH;
  pixels ← unpack status frame;
  png ← write_png compress9 pixels scale;
  Ok (png, lit_count pixels, write_text pixels).

Example symbol_address_nm :
  symbol_address None (lit "0000 t a" ++ [10] ++ lit "200012BE b gFrameBuffer" ++ [10]) (lit "gFrameBuffer")
    = Ok 0x200012BE.
Proof. reflexivity. Qed.

(** ** Reading the screen of a guest *)

(** What one QMP command can read: the panel's properties, when the machine
    has the panel model, and memory from an address on. *)
Record panel := Panel {
  pn_gram : list Z;          (* the text of the property: hexadecimal *)
  pn_invert : bool;
  pn_contrast : Z;
  pn_display_on : bool
}.
Record snapshot := Snapshot { sn_panel : option panel; sn_mem : Z -> list Z }.

(** The guest at each command: [None] once the connection is dead. *)
Definition guest : Type := nat -> option snapshot.

(** [bytes.fromhex]: two digits a byte, blanks between bytes. *)
Definition hex_value (c : Z) : option Z :=
  if (48 <=? c) && (c <=? 57) then Some (c - 48)
  else if (97 <=? c) && (c <=? 102) then Some (c - 87)
  else if (65 <=? c) && (c <=? 70) then Some (c - 55)
  else None.
Fixpoint fromhex (s : list Z) : result (list Z) :=
  match s with
  | [] => Ok []
  | c :: s =>
      if (c =? 32) || ((9 <=? c) && (c <=? 13)) then fromhex s
      else match s with
           | d :: s => match hex_value c, hex_value d with
                       | Some a, Some b => r ← fromhex s; Ok (a * 16 + b :: r)
                       | _, _ => raise ValueError "non-hexadecimal number found in fromhex() arg" []
                       end
           | [] => raise ValueError "non-hexadecimal number found in fromhex() arg" []
           end
  end.

(** A method of the grabber: the commands it has issued so far, and what it
    returns or raises. *)
Definition G (A : Type) : Type := nat -> nat * result A.
#[export] Instance G_ret : MRet G := fun _ a t => (t, Ok a).
#[export] Instance G_bind : MBind G := fun _ _ f m t =>
  match m t with
  | (t, Ok a) => f a t
  | (t, Raise e) => (t, Raise e)
  end.
Definition lift {A} (r : result A) : G A := fun t => (t, r).
(** [try: m except Exception: h]. *)
Definition attempt {A} (m : G A) (h : exn -> G A) : G A := fun t =>
  match m t with
  | (t, Raise e) => if is_exception e then h e t else (t, Raise e)
  | r => r
  end.

Section grabber.
Context (g : guest).

(** One [client.command]. *)
Definition command {A} (f : snapshot -> result A) : G A := fun t =>
  (S t, match g t with
        | Some s => f s
        | None => raise RuntimeError "QMP connection closed" []
        end).

(** [qom-get] on the panel. *)
Definition qom_get {A} (f : panel -> A) : G A :=
  command (fun s => match sn_panel s with
                    | Some p => Ok (f p)
                    | None => raise RuntimeError "QMP qom-get failed: %s" []
                    end).

Definition memsave (addr size : Z) : G (list Z) :=
  command (fun s => Ok (take (Z.to_nat size) (sn_mem s addr))).

(** [raw]: the two files it reads back are those the two commands wrote. *)
Definition raw (frame_addr status_addr : Z) : G (list Z * list Z) :=
  frame ← memsave frame_addr FRAME_BYTES;
  status ← memsave status_addr STATUS_BYTES;
  mret (status, frame).

Definition panel_state : G (bool * Z * bool) :=
  attempt (invert ← qom_get pn_invert;
           contrast ← qom_get pn_contrast;
           display_on ← qom_get pn_display_on;
           mret (invert, contrast, display_on))
    (fun _ => mret (false, 0, true)).

Definition panel_gram : G (list Z) := hexed ← qom_get pn_gram; lift (fromhex hexed).

Definition invert_pixels (pixels : grid) : grid := map (map (fun value => 1 - value)) pixels.

Definition _apply_panel (pixels : grid) : G grid :=
  '(invert, _, _) ← panel_state;
  mret (if invert : bool then invert_pixels pixels else pixels).

Definition panel_pixels : G grid :=
  gram ← panel_gram;
  if negb (zlen gram =? TOTAL_ROWS * LCD_WIDTH)
  then lift (raise ValueError "panel GRAM is %d bytes, expected %d"
               [zlen gram; TOTAL_ROWS * LCD_WIDTH])
  else pixels ← lift (unpack (slice 0 STATUS_BYTES gram) (drop (Z.to_nat STATUS_BYTES) gram));
       _apply_panel pixels.

Definition panel_png (compress : list Z -> list Z) (scale : Z) : G (list Z) :=
  pixels ← panel_pixels; lift (encode_png compress pixels scale).

Definition png (compress : list Z -> list Z) (frame_addr status_addr scale : Z) : G (list Z) :=
  '(status, frame) ← raw frame_addr status_addr;
  pixels ← lift (unpack status frame);
  pixels ← _apply_panel pixels;
  lift (encode_png compress pixels scale).
End grabber.

(** ** What [unpack] draws *)

(** The pixel at row [y], column [x], as the display shows it. *)
Definition lit_at (status frame : list Z) (y x : Z) : bool :=
  Z.testbit (nth (Z.to_nat x) (page_source status frame (y / 8)) 0) (y mod 8).

(** The grid is the screen's size and exactly the pixels of [P] are dark. *)
Definition drawn (P : Z -> Z -> bool) (pixels : grid) : Prop :=
  zlen pixels = LCD_HEIGHT /\
  forall y row, pixels !! y = Some row ->
    zlen row = LCD_WIDTH /\
    forall x v, row !! x = Some v -> v = if P (Z.of_nat y) (Z.of_nat x) then 1 else 0.

Lemma drawn_ext (P Q : Z -> Z -> bool) pixels :
  (forall y x, 0 <= y < LCD_HEIGHT -> 0 <= x < LCD_WIDTH -> P y x = Q y x) ->
  drawn P pixels -> drawn Q pixels.
Proof.
  intros HPQ [Hl Hp]. split; [done|]. intros y row Hy. destruct (Hp y row Hy) as [Hw Hr].
  split; [done|]. intros x v Hx. rewrite <- HPQ; [by apply Hr| |].
  - apply lookup_lt_Some in Hy. unfold zlen in Hl. lia.
  - apply lookup_lt_Some in Hx. unfold zlen in Hw. lia.
Qed.

Lemma drawn_dark : drawn (fun _ _ => false) dark.
Proof.
  split; [done|]. intros y row Hy. unfold dark, zrep in Hy.
  apply lookup_replicate in Hy as [-> _]. split; [done|].
  intros x v [-> _]%lookup_replicate. done.
Qed.

Lemma drawn_light P pixels y x :
  0 <= y -> 0 <= x -> drawn P pixels ->
  drawn (fun y' x' => P y' x' || ((y' =? y) && (x' =? x))) (light pixels y x).
Proof.
  intros Hy Hx [Hl Hp]. unfold light. split.
  - unfold zlen in *. by rewrite length_alter.
  - intros y' row' Hr'. destruct (decide (Z.to_nat y = y')) as [<-|Hne].
    + rewrite list_lookup_alter_eq in Hr'. destruct (pixels !! Z.to_nat y) as [row|] eqn:E; [|done].
      injection Hr' as <-. destruct (Hp _ _ E) as [Hw Hr].
      split; [unfold zlen in *; by rewrite length_insert|]. intros x' v.
      rewrite (proj2 (Z.eqb_eq _ y)) by lia. cbn [andb].
      destruct (decide (Z.to_nat x = x')) as [<-|Hne].
      * intros Hv. rewrite (proj2 (Z.eqb_eq _ x)), orb_true_r by lia.
        destruct (decide (Z.to_nat x < length row)%nat) as [Hlt|Hge].
        { rewrite list_lookup_insert_eq in Hv by done. by injection Hv as <-. }
        { rewrite list_insert_ge in Hv by lia. apply lookup_lt_Some in Hv. lia. }
      * rewrite list_lookup_insert_ne by done. rewrite (proj2 (Z.eqb_neq _ x)), orb_false_r by lia.
        apply Hr.
    + rewrite list_lookup_alter_ne in Hr' by done.
      rewrite (proj2 (Z.eqb_neq _ y)) by lia. destruct (Hp _ _ Hr') as [Hw Hr].
      split; [done|]. intros x' v Hv. cbn [andb]. rewrite orb_false_r. by apply Hr.
Qed.

(** A loop whose every round adds its own pixels adds them all. *)
Lemma drawn_loop {A} (f : grid -> A -> result grid) (Q : A -> Z -> Z -> bool) l :
  (forall P pixels a, a ∈ l -> drawn P pixels ->
     exists pixels', f pixels a = Ok pixels' /\ drawn (fun y x => P y x || Q a y x) pixels') ->
  forall P pixels, drawn P pixels ->
  exists pixels', foldM f pixels l = Ok pixels' /\
    drawn (fun y x => P y x || existsb (fun a => Q a y x) l) pixels'.
Proof.
  induction l as [|a l IH]; intros Hf P pixels Hp; cbn [foldM existsb].
  - exists pixels. split; [done|]. eapply drawn_ext; [|exact Hp]. intros. by rewrite orb_false_r.
  - destruct (Hf P pixels a) as (p1 & -> & Hp1); [by left|done|]. cbn [mbind result_bind].
    destruct (IH ltac:(intros; apply Hf; [by right|done]) _ _ Hp1) as (p2 & -> & Hp2).
    exists p2. split; [done|]. eapply drawn_ext; [|exact Hp2]. intros. by rewrite orb_assoc.
Qed.

Lemma land_bit byte bit : 0 <= bit -> (Z.land byte (Z.shiftl 1 bit) =? 0) = negb (Z.testbit byte bit).
Proof.
  intros Hb. rewrite Z.shiftl_1_l. destruct (Z.testbit byte bit) eqn:E; cbn [negb].
  - apply Z.eqb_neq. intros H0. assert (Z.testbit (Z.land byte (2 ^ bit)) bit = true) as H1.
    { rewrite Z.land_spec, E, Z.pow2_bits_true by done. done. }
    by rewrite H0, Z.bits_0 in H1.
  - apply Z.eqb_eq. apply Z.bits_inj'. intros n Hn. rewrite Z.land_spec, Z.bits_0.
    destruct (Z.eq_dec n bit) as [->|]; [by rewrite E|].
    rewrite Z.pow2_bits_false by lia. by rewrite andb_false_r.
Qed.

Lemma drawn_byte P pixels page col byte :
  0 <= page -> 0 <= col -> drawn P pixels ->
  drawn (fun y x => P y x || existsb (fun bit => Z.testbit byte bit && ((y =? page * 8 + bit) && (x =? col)))
                              (zrange 8))
    (unpack_byte page col byte pixels).
Proof.
  intros Hpage Hcol. unfold unpack_byte.
  assert (Forall (fun bit => 0 <= bit) (zrange 8)) as Hbits
    by (apply Forall_forall; intros b Hb%elem_of_zrange; lia).
  revert P pixels. induction Hbits as [|bit bits Hb Hbits IH]; intros P pixels Hp; cbn [foldl existsb].
  - eapply drawn_ext; [|exact Hp]. intros. by rewrite orb_false_r.
  - rewrite land_bit by done. destruct (Z.testbit byte bit); cbn [negb andb].
    + eapply drawn_ext; [|apply IH, drawn_light, Hp; lia]. intros. cbn beta. by rewrite orb_assoc.
    + by apply IH.
Qed.

Lemma drawn_page P pixels status frame page :
  0 <= page -> LCD_WIDTH <= zlen (page_source status frame page) -> drawn P pixels ->
  exists pixels', unpack_page status frame pixels page = Ok pixels' /\
    drawn (fun y x => P y x || ((y / 8 =? page) && lit_at status frame y x)) pixels'.
Proof.
  intros Hpage Hw Hp. unfold unpack_page. unfold LCD_WIDTH in Hw.
  set (src := page_source status frame page) in *.
  edestruct (drawn_loop (unpack_column src page)
    (fun col y x => existsb (fun bit => Z.testbit (nth (Z.to_nat col) src 0) bit &&
                        ((y =? page * 8 + bit) && (x =? col))) (zrange 8)) (zrange LCD_WIDTH))
    as (p' & Hl & Hd); [|exact Hp|].
  { intros Q px col Hcol%elem_of_zrange Hq. unfold unpack_column, LCD_WIDTH, zlen in *.
    destruct (lookup_lt_is_Some_2 src (Z.to_nat col)) as [byte Hb]; [lia|]. rewrite Hb.
    eexists. split; [done|]. rewrite (nth_lookup_Some _ _ 0 _ Hb). apply drawn_byte; [done|lia|done]. }
  exists p'. split; [done|]. eapply drawn_ext; [|exact Hd]. intros y x Hy Hx. cbn beta. f_equal.
  pose proof (Z.div_mod y 8). pose proof (Z.mod_pos_bound y 8).
  apply eq_iff_eq_true. rewrite existsb_exists. setoid_rewrite existsb_exists.
  unfold lit_at. rewrite andb_true_iff, Z.eqb_eq. split.
  - intros (col & _ & bit & Hb & [Ht [->%Z.eqb_eq ->%Z.eqb_eq]%andb_prop]%andb_prop).
    apply list_elem_of_In, elem_of_zrange in Hb.
    rewrite (Z.mul_comm page), Z.add_comm, Z.mul_comm, Z.div_add, Z.mod_add, Z.div_small, Z.mod_small by lia.
    split; [done|]. exact Ht.
  - intros [Hpg Ht]. exists x. split.
    + apply list_elem_of_In, elem_of_zrange. exact Hx.
    + exists (y mod 8). split; [apply list_elem_of_In, elem_of_zrange; lia|].
      rewrite Hpg in Ht. fold src in Ht. rewrite Ht, Z.eqb_refl.
      rewrite (proj2 (Z.eqb_eq y _)) by lia. done.
Qed.

(** [unpack] turns the controller's pages into the picture: given at
    least one page of status line and seven of frame it never fails, the grid
    is 64 rows of 128, and the pixel at row y and column x is bit y mod 8 of
    byte x of page y / 8, whatever the bytes are. *)
Theorem unpack_draws status frame :
  STATUS_BYTES <= zlen status -> FRAME_BYTES <= zlen frame ->
  exists pixels, unpack status frame = Ok pixels /\ drawn (lit_at status frame) pixels.
Proof.
  intros Hs Hf. unfold unpack. unfold STATUS_BYTES, FRAME_BYTES, FRAME_ROWS, LCD_WIDTH in *.
  edestruct (drawn_loop (unpack_page status frame) (fun page y x => (y / 8 =? page) && lit_at status frame y x)
    (zrange TOTAL_ROWS)) as (p & Hp & Hd); [|exact drawn_dark|].
  - intros P px page Hpg%elem_of_zrange Hd. apply drawn_page; [lia| |done].
    unfold page_source, TOTAL_ROWS, STATUS_ROWS, FRAME_ROWS, LCD_WIDTH in *.
    destruct (Z.eqb_spec page 0); [done|]. rewrite zlen_slice; lia.
  - exists p. split; [done|]. eapply drawn_ext; [|exact Hd]. intros y x Hy Hx. cbn [orb].
    unfold LCD_HEIGHT, TOTAL_ROWS, STATUS_ROWS, FRAME_ROWS in *.
    apply eq_iff_eq_true. rewrite existsb_exists. split.
    + intros (page & _ & [_ Hl]%andb_prop). done.
    + intros Hl. exists (y / 8). rewrite Z.eqb_refl, Hl. split; [|done].
      apply list_elem_of_In, elem_of_zrange. pose proof (Z.div_mod y 8). pose proof (Z.mod_pos_bound y 8). lia.
Qed.

(** ** A PNG reader *)

(** One chunk of a PNG file: its tag, its payload and what follows, when the
    checksum holds. *)
Definition read_chunk (b : list Z) : option (list Z * list Z * list Z) :=
  let len := be_dec (take 4 b) in
  let tag := slice 4 8 b in
  let payload := slice 8 (8 + len) b in
  if (12 + len <=? zlen b) && (be_dec (slice (8 + len) (12 + len) b) =? crc32 (tag ++ payload))
  then Some (tag, payload, drop (Z.to_nat (12 + len)) b) else None.

(** The lines of an 8-bit greyscale image, every one with filter type 0. *)
Fixpoint read_lines (height : nat) (width : nat) (b : list Z) : option (list (list Z)) :=
  match height with
  | O => if bool_decide (b = []) then Some [] else None
  | S height =>
      match b with
      | 0 :: b => if (width <=? length b)%nat
                  then (take width b ::.) <$> read_lines height width (drop width b) else None
      | _ => None
      end
  end.

(** Width, height and lines of an 8-bit greyscale PNG of one IDAT chunk. *)
Definition png_decode (decompress : list Z -> option (list Z)) (b : list Z)
  : option (Z * Z * list (list Z)) :=
  if starts_with png_signature b then
    match read_chunk (drop 8 b) with
    | Some (t1, header, b) =>
        let '(w, (h, (depth, (colour, (comp, (filt, (lace, _))))))) :=
          Struct.unpack [FBig 4; FBig 4; FInt 1; FInt 1; FInt 1; FInt 1; FInt 1] header in
        if bool_decide (t1 = lit "IHDR" /\ zlen header = 13 /\ depth = 8 /\ colour = 0 /\ comp = 0
                        /\ filt = 0 /\ lace = 0) then
          match read_chunk b with
          | Some (t2, data, b) =>
              if bool_decide (t2 = lit "IDAT" /\ read_chunk b = Some (lit "IEND", [], [])) then
                data ← decompress data;
                lines ← read_lines (Z.to_nat h) (Z.to_nat w) data;
                Some (w, h, lines)
              else None
          | None => None
          end
        else None
    | None => None
    end
  else None.

Lemma be32_ok n : 0 <= n < 2 ^ 32 -> be32 n = Ok (be_enc 4 n).
Proof.
  intros Hn. unfold be32. apply pack_cons_iff. exists (be_enc 4 n), []. split; [|by rewrite app_nil_r].
  cbn [pack1]. rewrite (proj2 (Z.leb_le 0 n)) by lia.
  rewrite (proj2 (Z.ltb_lt _ _)); [done|]. exact (proj2 Hn).
Qed.

Lemma zlen_be_enc n v : zlen (be_enc n v) = Z.of_nat n.
Proof. unfold zlen. by rewrite length_be_enc. Qed.

Definition chunk_bytes (tag payload : list Z) : list Z :=
  be_enc 4 (zlen payload) ++ tag ++ payload ++ be_enc 4 (crc32 (tag ++ payload)).

Lemma chunk_ok tag payload :
  zlen payload < 2 ^ 32 -> wf_bytes (tag ++ payload) ->
  chunk tag payload = Ok (chunk_bytes tag payload).
Proof.
  intros Hl Hwf. unfold chunk. pose proof (zlen_nonneg payload).
  pose proof (crc32_bound _ Hwf) as Hc.
  assert (Z.land (crc32 (tag ++ payload)) 0xFFFFFFFF = crc32 (tag ++ payload)) as ->.
  { change 0xFFFFFFFF with (Z.ones 32). rewrite Z.land_ones by lia. by apply Z.mod_small. }
  rewrite be32_ok by lia. cbn [mbind result_bind]. by rewrite be32_ok.
Qed.

Lemma read_chunk_bytes tag payload rest :
  zlen tag = 4 -> zlen payload < 2 ^ 32 -> wf_bytes (tag ++ payload) ->
  read_chunk (chunk_bytes tag payload ++ rest) = Some (tag, payload, rest).
Proof.
  intros Ht Hl Hwf. unfold read_chunk, chunk_bytes. pose proof (zlen_nonneg payload).
  pose proof (crc32_bound _ Hwf) as Hc. pose proof (zlen_nonneg rest).
  set (crc := be_enc 4 (crc32 (tag ++ payload))).
  assert (zlen crc = 4) as Hzc by apply zlen_be_enc.
  rewrite <- !app_assoc.
  assert (be_dec (take 4 (be_enc 4 (zlen payload) ++ tag ++ payload ++ crc ++ rest)) = zlen payload) as ->.
  { rewrite take_app_length' by (by rewrite length_be_enc). apply be_dec_enc.
    change (256 ^ Z.of_nat 4) with (2 ^ 32). lia. }
  pose proof (zlen_be_enc 4 (zlen payload)) as Hzl. change (Z.of_nat 4) with 4 in Hzl.
  assert (slice 4 8 (be_enc 4 (zlen payload) ++ tag ++ payload ++ crc ++ rest) = tag) as ->.
  { rewrite slice_app_r by lia. rewrite Hzl. apply slice_0_app. lia. }
  assert (slice 8 (8 + zlen payload) (be_enc 4 (zlen payload) ++ tag ++ payload ++ crc ++ rest) = payload) as ->.
  { rewrite !slice_app_r by lia. rewrite Hzl, Ht. change (8 - 4 - 4) with 0. apply slice_0_app. lia. }
  assert (slice (8 + zlen payload) (12 + zlen payload) (be_enc 4 (zlen payload) ++ tag ++ payload ++ crc ++ rest) = crc) as ->.
  { rewrite !slice_app_r by lia. rewrite Hzl, Ht.
    replace (8 + zlen payload - 4 - 4 - zlen payload) with 0 by lia. apply slice_0_app. lia. }
  rewrite (proj2 (Z.leb_le _ _)) by (rewrite !zlen_app; lia).
  unfold crc at 1. rewrite be_dec_enc by exact Hc. rewrite Z.eqb_refl. cbn [andb]. do 2 f_equal.
  rewrite !app_assoc. apply drop_app_length'. unfold zlen in *. rewrite !length_app. lia.
Qed.

(** ** Scaled lines *)

Lemma length_concat_uniform {A} (ls : list (list A)) n :
  Forall (fun l => length l = n) ls -> length (concat ls) = (length ls * n)%nat.
Proof. induction 1 as [|l ls Hl Hls IH]; cbn [concat length]; [done|]. rewrite length_app. lia. Qed.

Lemma lookup_concat_uniform {A} (ls : list (list A)) n q r :
  Forall (fun l => length l = n) ls -> (r < n)%nat ->
  concat ls !! (q * n + r)%nat = ls !! q ≫= (.!! r).
Proof.
  intros Hls Hr. revert q. induction Hls as [|l ls Hl Hls IH]; intros q; cbn [concat]; [done|].
  destruct q as [|q].
  - rewrite lookup_app_l by lia. done.
  - rewrite lookup_app_r by lia. cbn [lookup list_lookup]. rewrite <- IH. f_equal. lia.
Qed.

Lemma png_line_uniform scale row :
  Forall (fun l => length l = Z.to_nat scale) (map (fun value => zrep scale (shade value)) row).
Proof. apply Forall_map, Forall_true. intros v. unfold zrep. by rewrite length_replicate. Qed.

Lemma png_line_length scale row : length (png_line scale row) = (length row * Z.to_nat scale)%nat.
Proof.
  unfold png_line. rewrite (length_concat_uniform _ _ (png_line_uniform scale row)).
  by rewrite length_map.
Qed.

Lemma png_line_lookup scale row x :
  1 <= scale -> png_line scale row !! x = shade <$> row !! (x / Z.to_nat scale)%nat.
Proof.
  intros Hs. pose proof (Nat.div_mod x (Z.to_nat scale)) as Hx.
  pose proof (Nat.mod_upper_bound x (Z.to_nat scale)) as Hr.
  rewrite Hx at 1 by lia. rewrite Nat.mul_comm. unfold png_line.
  rewrite (lookup_concat_uniform _ _ _ _ (png_line_uniform scale row)) by lia.
  rewrite list_lookup_fmap. destruct (row !! _); cbn; [|done].
  unfold zrep. apply lookup_replicate_2. lia.
Qed.

(** The lines [encode_png] compresses. *)
Definition scaled_lines (scale : Z) (pixels : grid) : grid :=
  concat (map (fun row => zrep scale (png_line scale row)) pixels).

Lemma png_raw_lines scale pixels :
  png_raw scale pixels = concat (map (cons 0) (scaled_lines scale pixels)).
Proof.
  unfold png_raw, scaled_lines. induction pixels as [|row pixels IH]; [done|].
  cbn [map concat]. rewrite map_app, concat_app, IH. f_equal.
  unfold zrep. generalize (Z.to_nat scale). intros n.
  induction n as [|n IHn]; cbn [replicate map concat]; [done|]. by rewrite IHn.
Qed.

Lemma scaled_lines_uniform scale pixels :
  Forall (fun l => length l = Z.to_nat scale) (map (fun row => zrep scale (png_line scale row)) pixels).
Proof. apply Forall_map, Forall_true. intros v. unfold zrep. by rewrite length_replicate. Qed.

Lemma scaled_lines_lookup scale pixels y :
  1 <= scale ->
  scaled_lines scale pixels !! y = png_line scale <$> pixels !! (y / Z.to_nat scale)%nat.
Proof.
  intros Hs. pose proof (Nat.div_mod y (Z.to_nat scale)) as Hy.
  pose proof (Nat.mod_upper_bound y (Z.to_nat scale)) as Hr.
  rewrite Hy at 1 by lia. rewrite Nat.mul_comm. unfold scaled_lines.
  rewrite (lookup_concat_uniform _ _ _ _ (scaled_lines_uniform scale pixels)) by lia.
  rewrite list_lookup_fmap. destruct (pixels !! _); cbn; [|done].
  unfold zrep. apply lookup_replicate_2. lia.
Qed.

Lemma read_lines_concat w ls :
  Forall (fun l => length l = w) ls -> read_lines (length ls) w (concat (map (cons 0) ls)) = Some ls.
Proof.
  induction 1 as [|l ls Hl Hls IH]; cbn [length map concat read_lines]; [done|].
  cbn [app]. rewrite length_app, (proj2 (Nat.leb_le _ _)) by lia.
  rewrite take_app_length', drop_app_length' by done. by rewrite IH.
Qed.

Lemma scaled_lines_width P scale pixels :
  drawn P pixels ->
  Forall (fun l => length l = Z.to_nat (LCD_WIDTH * scale)) (scaled_lines scale pixels).
Proof.
  intros [_ Hp]. unfold scaled_lines. apply Forall_concat, Forall_map.
  apply Forall_lookup. intros y row Hy. destruct (Hp y row Hy) as [Hw _].
  unfold zrep. apply Forall_replicate. rewrite png_line_length. unfold zlen, LCD_WIDTH in *. lia.
Qed.

(** ** A steady screen *)

(** The text of the panel's memory, as the machine prints it. *)
Definition hex_digit (d : Z) : Z := if d <? 10 then 48 + d else 87 + d.
Definition hex_text (b : list Z) : list Z := concat (map (fun x => [hex_digit (x / 16); hex_digit (x mod 16)]) b).

Lemma hex_digit_value d :
  0 <= d < 16 ->
  hex_value (hex_digit d) = Some d /\
  ((hex_digit d =? 32) || ((9 <=? hex_digit d) && (hex_digit d <=? 13))) = false.
Proof.
  assert (Forall (fun d => hex_value (hex_digit d) = Some d /\
    ((hex_digit d =? 32) || ((9 <=? hex_digit d) && (hex_digit d <=? 13))) = false) (zrange 16)) as H
    by (repeat (constructor; [split; reflexivity|]); constructor).
  intros Hd. rewrite Forall_forall in H. by apply H, elem_of_zrange.
Qed.

Lemma fromhex_hex_text b : wf_bytes b -> fromhex (hex_text b) = Ok b.
Proof.
  induction 1 as [|x b Hx Hb IH]; [done|]. unfold hex_text in *. cbn [map concat app].
  pose proof (Z.div_mod x 16). pose proof (Z.mod_pos_bound x 16).
  destruct (hex_digit_value (x / 16)) as [H1 H2]; [lia|].
  destruct (hex_digit_value (x mod 16)) as [H3 _]; [lia|].
  cbn [fromhex]. rewrite H2, H1, H3, IH. cbn [mbind result_bind]. do 2 f_equal. lia.
Qed.

Lemma G_bind_ok {A B} (m : G A) (f : A -> G B) t t' a :
  m t = (t', Ok a) -> (m ≫= f) t = f a t'.
Proof. unfold mbind, G_bind. by intros ->. Qed.

Lemma drawn_invert P pixels : drawn P pixels -> drawn (fun y x => negb (P y x)) (invert_pixels pixels).
Proof.
  intros [Hl Hp]. unfold invert_pixels. split; [by rewrite zlen_map|].
  intros y row Hy. rewrite list_lookup_fmap in Hy. destruct (pixels !! y) as [r|] eqn:E; [|done].
  injection Hy as <-. destruct (Hp y r E) as [Hw Hv]. split; [by rewrite zlen_map|].
  intros x v Hx. rewrite list_lookup_fmap in Hx. destruct (r !! x) as [u|] eqn:Eu; [|done].
  injection Hx as <-. rewrite (Hv x u Eu). by destruct (P _ _).
Qed.

(** The halves of the controller's memory. *)
Definition gram_status (gram : list Z) : list Z := slice 0 STATUS_BYTES gram.
Definition gram_frame (gram : list Z) : list Z := drop (Z.to_nat STATUS_BYTES) gram.

(** The picture a panel shows: its memory, inverted when it says so. *)
Definition panel_shows (gram : list Z) (invert : bool) (y x : Z) : bool :=
  xorb invert (lit_at (gram_status gram) (gram_frame gram) y x).

Lemma unpack_gram gram :
  zlen gram = 1024 ->
  exists pixels, unpack (gram_status gram) (gram_frame gram) = Ok pixels /\
    drawn (lit_at (gram_status gram) (gram_frame gram)) pixels.
Proof.
  intros Hl. apply unpack_draws; unfold gram_status, gram_frame, STATUS_BYTES, FRAME_BYTES, FRAME_ROWS, LCD_WIDTH.
  - rewrite zlen_slice; lia.
  - unfold zlen in *. rewrite length_drop. lia.
Qed.

Section reading.
Context (g : guest) (gram : list Z).
Hypothesis Hwf : wf_bytes gram.
Hypothesis Hlen : zlen gram = 1024.

Lemma qom_get_ok {A} (f : panel -> A) t s p :
  g t = Some s -> sn_panel s = Some p -> qom_get g f t = (S t, Ok (f p)).
Proof. intros Hg Hp. unfold qom_get, command. by rewrite Hg, Hp. Qed.

Lemma panel_gram_ok t s p :
  g t = Some s -> sn_panel s = Some p -> pn_gram p = hex_text gram ->
  panel_gram g t = (S t, Ok gram).
Proof.
  intros Hg Hp Hgr. unfold panel_gram. rewrite (G_bind_ok _ _ _ _ _ (qom_get_ok pn_gram t s p Hg Hp)).
  unfold lift. by rewrite Hgr, fromhex_hex_text.
Qed.

(** Reading the pixels takes four commands; the memory is the one at the
    first, the inversion the one at the second. *)
Lemma panel_pixels_ok t (ps : nat -> panel) :
  (forall k, exists s, g (t + k)%nat = Some s /\ sn_panel s = Some (ps k)) ->
  pn_gram (ps 0%nat) = hex_text gram ->
  exists pixels, panel_pixels g t = (t + 4, Ok pixels)%nat /\
    drawn (panel_shows gram (pn_invert (ps 1%nat))) pixels.
Proof.
  intros Hg Hgr. destruct (unpack_gram gram Hlen) as (px & Hpx & Hd).
  destruct (Hg 0%nat) as (s0 & G0 & P0). destruct (Hg 1%nat) as (s1 & G1 & P1).
  destruct (Hg 2%nat) as (s2 & G2 & P2). destruct (Hg 3%nat) as (s3 & G3 & P3).
  rewrite Nat.add_0_r in G0.
  replace (t + 1)%nat with (S t) in G1 by lia. replace (t + 2)%nat with (S (S t)) in G2 by lia.
  replace (t + 3)%nat with (S (S (S t))) in G3 by lia. replace (t + 4)%nat with (S (S (S (S t)))) by lia.
  unfold panel_pixels. rewrite (G_bind_ok _ _ _ _ _ (panel_gram_ok t s0 _ G0 P0 Hgr)).
  rewrite Hlen. change (negb (1024 =? TOTAL_ROWS * LCD_WIDTH)) with false. cbv iota.
  fold (gram_status gram) (gram_frame gram). rewrite Hpx.
  rewrite (G_bind_ok (lift _) _ _ (S t) px eq_refl). unfold _apply_panel.
  assert (panel_state g (S t) = (S (S (S (S t))),
    Ok (pn_invert (ps 1%nat), pn_contrast (ps 2%nat), pn_display_on (ps 3%nat)))) as Hst.
  { unfold panel_state, attempt.
    rewrite (G_bind_ok _ _ _ _ _ (qom_get_ok pn_invert _ _ _ G1 P1)).
    rewrite (G_bind_ok _ _ _ _ _ (qom_get_ok pn_contrast _ _ _ G2 P2)).
    rewrite (G_bind_ok _ _ _ _ _ (qom_get_ok pn_display_on _ _ _ G3 P3)). done. }
  rewrite (G_bind_ok _ _ _ _ _ Hst). eexists. split; [reflexivity|].
  unfold panel_shows. destruct (pn_invert (ps 1%nat)); [by apply drawn_invert|done].
Qed.
End reading.

(** ** Every picture is a screen *)

(** Sixty-four rows of a hundred and twenty-eight zeros and ones. *)
Definition is_screen (pixels : grid) : Prop :=
  zlen pixels = LCD_HEIGHT /\
  Forall (fun row => zlen row = LCD_WIDTH /\ Forall (fun v => v = 0 \/ v = 1) row) pixels.

Lemma is_screen_dark : is_screen dark.
Proof. split; [done|]. apply Forall_replicate. split; [done|]. apply Forall_replicate. by left. Qed.

Lemma is_screen_light pixels y x : is_screen pixels -> is_screen (light pixels y x).
Proof.
  intros [Hl Hp]. split; [unfold light, zlen in *; by rewrite length_alter|].
  apply Forall_alter; [done|]. intros row _ [Hw Hr]. split; [unfold zlen in *; by rewrite length_insert|].
  apply Forall_insert; [done|by right].
Qed.

Lemma is_screen_invert pixels : is_screen pixels -> is_screen (invert_pixels pixels).
Proof.
  intros [Hl Hp]. split; [by unfold invert_pixels; rewrite zlen_map|]. apply Forall_map.
  eapply Forall_impl; [exact Hp|]. intros row [Hw Hr]. split; [by rewrite zlen_map|]. apply Forall_map.
  eapply Forall_impl; [exact Hr|]. intros v [->| ->]; [by right|by left].
Qed.

Lemma is_screen_unpack status frame pixels : unpack status frame = Ok pixels -> is_screen pixels.
Proof.
  apply foldM_invariant; [|exact is_screen_dark]. intros p page p' Hp _. apply foldM_invariant; [|exact Hp].
  clear p p' Hp. intros p col p' Hp _. unfold unpack_column. destruct (_ !! _) as [byte|]; [|done].
  intros [= <-]. unfold unpack_byte. generalize (zrange 8). intros bits. revert p Hp.
  induction bits as [|bit bits IH]; intros p Hp; [done|]. cbn [foldl]. apply IH.
  case_match; [done|by apply is_screen_light].
Qed.

Lemma G_bind_inv {A B} (m : G A) (f : A -> G B) t t' b :
  (m ≫= f) t = (t', Ok b) -> exists t1 a, m t = (t1, Ok a) /\ f a t1 = (t', Ok b).
Proof. unfold mbind, G_bind. destruct (m t) as [t1 [a|e]]; [|done]. eauto. Qed.

Lemma is_screen_apply g pixels t t' pixels' :
  is_screen pixels -> _apply_panel g pixels t = (t', Ok pixels') -> is_screen pixels'.
Proof.
  intros Hp. unfold _apply_panel. intros (t1 & [[invert contrast] display_on] & _ & E)%G_bind_inv.
  injection E as _ <-. destruct invert; [by apply is_screen_invert|done].
Qed.

(** C32. Every picture is a screen.  Whatever bytes the guest's memory and its
    display controller hold, and however they change between two commands, a
    picture the grabber returns - from the controller or from guest RAM - is
    sixty-four rows of a hundred and twenty-eight zeros and ones, and its text
    rendering is thirty-two lines of a hundred and twenty-eight block
    characters. *)
Theorem pictures_are_screens g :
  (forall t t' pixels, panel_pixels g t = (t', Ok pixels) -> is_screen pixels) /\
  (forall status frame pixels t t' pixels', unpack status frame = Ok pixels ->
     _apply_panel g pixels t = (t', Ok pixels') -> is_screen pixels') /\
  (forall pixels, is_screen pixels -> zlen (write_text pixels) = 32 /\
     Forall (fun line => zlen line = LCD_WIDTH /\ Forall (.∈ [0x20; 0x2580; 0x2584; 0x2588]) line)
       (write_text pixels)).
Proof.
  split; [|split].
  - intros t t' pixels. unfold panel_pixels. intros (t1 & gram & _ & E)%G_bind_inv.
    destruct (negb _); [done|]. apply G_bind_inv in E as (t2 & px & Hu & E). unfold lift in Hu.
    injection Hu as _ Hu. apply is_screen_unpack in Hu. by eapply is_screen_apply.
  - intros status frame pixels t t' pixels' Hu%is_screen_unpack. by apply is_screen_apply.
  - intros pixels [_ Hp]. split; [unfold write_text; by rewrite zlen_map|]. apply Forall_map, Forall_forall.
    intros k _. split; [by rewrite zlen_map|]. apply Forall_map, Forall_forall. intros x _.
    set (at_ := fun y => default 0 (pixels !! Z.to_nat y ≫= (.!! Z.to_nat x))).
    assert (forall y, at_ y = 0 \/ at_ y = 1) as Hat.
    { intros y. unfold at_. destruct (pixels !! Z.to_nat y) as [row|] eqn:Hy; [|by left].
      cbn [mbind option_bind]. destruct (row !! Z.to_nat x) as [v|] eqn:Hx; [|by left]. cbn [default].
      rewrite Forall_forall in Hp. apply list_elem_of_lookup_2 in Hy, Hx.
      destruct (Hp row Hy) as [_ Hr]. rewrite Forall_forall in Hr. by apply Hr. }
    change (nth (Z.to_nat (Z.lor (at_ (2 * k)) (Z.shiftl (if 2 * k + 1 <? LCD_HEIGHT then at_ (2 * k + 1) else 0) 1)))
              [0x20; 0x2580; 0x2584; 0x2588] 0 ∈ [0x20; 0x2580; 0x2584; 0x2588]).
    assert ((if 2 * k + 1 <? LCD_HEIGHT then at_ (2 * k + 1) else 0) = 0 \/
            (if 2 * k + 1 <? LCD_HEIGHT then at_ (2 * k + 1) else 0) = 1) as Hb
      by (destruct (_ <? _); [apply Hat|by left]).
    destruct (Hat (2 * k)) as [-> | ->], Hb as [-> | ->]; vm_compute; set_solver.
Qed.

Definition ihdr_fmt : list field := [FBig 4; FBig 4; FInt 1; FInt 1; FInt 1; FInt 1; FInt 1].

Lemma ihdr_ok w h :
  0 <= w < 2 ^ 32 -> 0 <= h < 2 ^ 32 ->
  exists b, ihdr w h = Ok b /\ zlen b = 13 /\ wf_bytes b /\
    Struct.unpack ihdr_fmt b = (w, (h, (8, (0, (0, (0, (0, tt))))))).
Proof.
  intros Hw Hh.
  assert (fits ihdr_fmt (w, (h, (8, (0, (0, (0, (0, tt)))))))) as Hf.
  { cbn [fits fits1 fst snd ihdr_fmt].
    refine (conj Hw (conj Hh (conj _ (conj _ (conj _ (conj _ (conj _ I))))))); range_tac. }
  destruct (pack_fits _ _ Hf) as [b Hb]. exists b.
  split; [exact Hb|]. split; [exact (pack_zlen _ _ _ Hb)|].
  split; [|exact (unpack_pack _ _ _ Hf Hb)].
  unfold ihdr_fmt in Hb.
  apply pack_cons_iff in Hb as (b1 & h1 & H1 & Hb & ->).
  apply pack_cons_iff in Hb as (b2 & h2 & H2 & Hb & ->).
  assert (wf_bytes h2) as Hw2 by (vm_compute in Hb; injection Hb as <-; repeat constructor; done).
  assert (forall v b, pack1 (FBig 4) v = Ok b -> wf_bytes b) as Hbig.
  { intros v b. cbn [pack1]. destruct (_ && _); [|done]. intros [= <-]. unfold be_enc.
    apply Forall_reverse, wf_le_enc. }
  apply wf_bytes_app. split; [by eapply Hbig|]. apply wf_bytes_app. split; [by eapply Hbig|done].
Qed.

Lemma zlen_scaled_lines P scale pixels :
  1 <= scale -> drawn P pixels -> length (scaled_lines scale pixels) = Z.to_nat (LCD_HEIGHT * scale).
Proof.
  intros Hs [Hl _]. unfold scaled_lines.
  rewrite (length_concat_uniform _ _ (scaled_lines_uniform scale pixels)), length_map.
  unfold zlen, LCD_HEIGHT, TOTAL_ROWS, STATUS_ROWS, FRAME_ROWS in *. lia.
Qed.

(** The pixels of the picture, scaled. *)
Lemma scaled_lines_pixel P scale pixels y x :
  1 <= scale -> drawn P pixels -> 0 <= y < LCD_HEIGHT * scale -> 0 <= x < LCD_WIDTH * scale ->
  scaled_lines scale pixels !! Z.to_nat y ≫= (.!! Z.to_nat x) =
    Some (if P (y / scale) (x / scale) then 0x00 else 0xFF).
Proof.
  intros Hs [Hl Hp] Hy Hx. rewrite scaled_lines_lookup by done.
  rewrite <- Z2Nat.inj_div by lia.
  assert (0 <= y / scale < LCD_HEIGHT) as Hy'
    by (split; [apply Z.div_pos; lia|apply Z.div_lt_upper_bound; lia]).
  assert (0 <= x / scale < LCD_WIDTH) as Hx'
    by (split; [apply Z.div_pos; lia|apply Z.div_lt_upper_bound; lia]).
  destruct (lookup_lt_is_Some_2 pixels (Z.to_nat (y / scale))) as [row Er]; [unfold zlen in Hl; lia|].
  rewrite Er. cbn [fmap option_fmap option_map mbind option_bind].
  destruct (Hp _ _ Er) as [Hw Hv]. rewrite png_line_lookup, <- Z2Nat.inj_div by lia.
  destruct (lookup_lt_is_Some_2 row (Z.to_nat (x / scale))) as [v Ev]; [unfold zlen in Hw; lia|].
  rewrite Ev. apply Hv in Ev. rewrite !Z2Nat.id in Ev by lia. subst v. cbn. by destruct (P _ _).
Qed.

Lemma wf_png_raw scale pixels : wf_bytes (png_raw scale pixels).
Proof.
  unfold png_raw. apply Forall_concat, Forall_map, Forall_true. intros row.
  apply Forall_concat, Forall_replicate. constructor; [lia|].
  apply Forall_concat, Forall_map, Forall_true. intros v. apply Forall_replicate.
  unfold shade. destruct (v =? 0); lia.
Qed.

Section roundtrip.
Context (compress : list Z -> list Z) (decompress : list Z -> option (list Z)).
(** What zlib documents. *)
Hypothesis Hzip : forall b, decompress (compress b) = Some b.
Hypothesis Hbytes : forall b, wf_bytes b -> wf_bytes (compress b).

Lemma encode_png_ok P pixels scale :
  drawn P pixels -> 1 <= scale <= 2 ^ 20 -> zlen (compress (png_raw scale pixels)) < 2 ^ 32 ->
  exists b, encode_png compress pixels scale = Ok b /\
    png_decode decompress b
      = Some (LCD_WIDTH * scale, LCD_HEIGHT * scale, scaled_lines scale pixels).
Proof.
  intros Hd Hs Hz. unfold encode_png.
  destruct (ihdr_ok (LCD_WIDTH * scale) (LCD_HEIGHT * scale)) as (hd & -> & Hhl & Hhw & Hhu);
    [unfold LCD_WIDTH; lia|unfold LCD_HEIGHT, TOTAL_ROWS, STATUS_ROWS, FRAME_ROWS; lia|].
  cbn [mbind result_bind].
  assert (forall tag, wf_bytes tag -> forall p, wf_bytes p -> wf_bytes (tag ++ p)) as Happ
    by (intros; by apply wf_bytes_app).
  assert (wf_bytes (lit "IHDR") /\ wf_bytes (lit "IDAT") /\ wf_bytes (lit "IEND")) as (W1 & W2 & W3)
    by (split_and!; wf_tac).
  set (data := compress (png_raw scale pixels)) in *.
  assert (wf_bytes data) as Hdata by apply Hbytes, wf_png_raw.
  rewrite (chunk_ok (lit "IHDR") hd) by (first [rewrite Hhl; done|auto]). cbn [mbind result_bind].
  rewrite (chunk_ok (lit "IDAT") data) by auto. cbn [mbind result_bind].
  rewrite (chunk_ok (lit "IEND") []) by (first [done|apply Happ; [done|constructor]]).
  cbn [mbind result_bind]. eexists. split; [reflexivity|].
  unfold png_decode. rewrite starts_with_app. rewrite (drop_app_length' png_signature) by done.
  rewrite (read_chunk_bytes (lit "IHDR") hd) by (first [rewrite Hhl; done|done|auto]).
  fold ihdr_fmt. rewrite Hhu. rewrite bool_decide_true by (rewrite Hhl; done).
  rewrite (read_chunk_bytes (lit "IDAT") data) by (first [done|auto]).
  rewrite <- (app_nil_r (chunk_bytes (lit "IEND") [])).
  rewrite (read_chunk_bytes (lit "IEND") []) by (first [done|apply Happ; [done|constructor]]).
  rewrite bool_decide_true by done. unfold data. rewrite Hzip. cbn [mbind option_bind].
  rewrite png_raw_lines, <- (zlen_scaled_lines P scale pixels) by (done || lia).
  rewrite read_lines_concat by (by apply (scaled_lines_width P)). done.
Qed.
End roundtrip.

(** C23. The PNG of a picture shows that picture: for any compressor that its
    decompressor inverts, [encode_png] succeeds and a PNG reader (signature,
    chunk checksums, IHDR, filter bytes) gets back an image of scale times
    128 by scale times 64 in which the pixel at (x, y) is black exactly when
    the screen's pixel at (x / scale, y / scale) is on. *)
Theorem encode_png_shows compress decompress P pixels scale :
  (forall b, decompress (compress b) = Some b) ->
  (forall b, wf_bytes b -> wf_bytes (compress b)) ->
  drawn P pixels -> 1 <= scale <= 2 ^ 20 -> zlen (compress (png_raw scale pixels)) < 2 ^ 32 ->
  exists b lines, encode_png compress pixels scale = Ok b /\
    png_decode decompress b = Some (LCD_WIDTH * scale, LCD_HEIGHT * scale, lines) /\
    forall y x, 0 <= y < LCD_HEIGHT * scale -> 0 <= x < LCD_WIDTH * scale ->
      lines !! Z.to_nat y ≫= (.!! Z.to_nat x) = Some (if P (y / scale) (x / scale) then 0x00 else 0xFF).
Proof.
  intros Hzip Hb Hd Hs Hz.
  destruct (encode_png_ok compress decompress Hzip Hb P pixels scale Hd Hs Hz) as (b & He & Hdec).
  exists b, (scaled_lines scale pixels). split; [done|]. split; [done|].
  intros. apply scaled_lines_pixel; [lia|done..].
Qed.

Lemma unpack_draws_witness :
  exists pixels, unpack (zrep 128 0x81) (zrep 896 0) = Ok pixels /\
    drawn (lit_at (zrep 128 0x81) (zrep 896 0)) pixels.
Proof. apply unpack_draws; vm_compute; discriminate. Defined.

(** A compressor that stores. *)
Definition store : list Z -> list Z := fun b => b.

Lemma encode_png_shows_witness :
  drawn (fun _ _ => false) dark /\
  exists b lines, encode_png store dark 1 = Ok b /\ png_decode Some b = Some (LCD_WIDTH * 1, LCD_HEIGHT * 1, lines).
Proof.
  split; [exact drawn_dark|].
  destruct (encode_png_shows store Some (fun _ _ => false) dark 1) as (b & lines & He & Hd & _).
  - reflexivity.
  - intros b Hb. exact Hb.
  - exact drawn_dark.
  - split; [discriminate|vm_compute; discriminate].
  - vm_compute. reflexivity.
  - exists b, lines. exact (conj He Hd).
Defined.
