(* ===== verification/Stream.v ===== *)
(** The frame pump of [src/tools/uvk5_stream.py]: one thread that reads the
    screen, and the requests that rebind it while it reads.  The thread's
    round is three steps (take the grabber, read, publish) between which
    anything may happen; the theorems hold over every interleaving. *)
From S2P Require Import Prelude Struct Lcd.

Inductive source := FromPanel | FromFramebuffer.
#[export] Instance source_eq_dec : EqDecision source.
Proof. solve_decision. Defined.

(** A [FrameGrabber]: which object it is, and what it reads through. *)
Record grabber := Grabber {
  gr_id : nat;
  gr_client : nat;
  gr_frame : Z;
  gr_status : Z
}.

Record pump := Pump {
  pm_frame_addr : Z;
  pm_status_addr : Z;
  pm_grabber : option grabber;
  pm_png : option (list Z);
  pm_raw : option (list Z * list Z);
  pm_generation : Z;
  pm_source : option source;
  pm_note : option exn;
  pm_fallbacks : list exn;      (* what [on_fallback] was told *)
  pm_next : nat                 (* the identity of the next grabber *)
}.

Definition new_grabber (p : pump) (client : option nat) (frame_addr status_addr : Z) : option grabber :=
  (fun c => Grabber (pm_next p) c frame_addr status_addr) <$> client.

Definition init (client : option nat) (frame_addr status_addr : Z) : pump :=
  Pump frame_addr status_addr ((fun c => Grabber 0 c frame_addr status_addr) <$> client)
    None None 0 None None [] 1.

Definition rebind (p : pump) (client : option nat) : pump :=
  let dark := bool_decide (client = None) in
  Pump (pm_frame_addr p) (pm_status_addr p)
    (new_grabber p client (pm_frame_addr p) (pm_status_addr p))
    (if dark then None else pm_png p) (if dark then None else pm_raw p)
    (pm_generation p + 1) (pm_source p) (pm_note p) (pm_fallbacks p) (S (pm_next p)).

Definition set_buffers (p : pump) (frame_addr status_addr : Z) : pump :=
  Pump frame_addr status_addr
    (new_grabber p (gr_client <$> pm_grabber p) frame_addr status_addr)
    (pm_png p) (pm_raw p) (pm_generation p) (pm_source p) (pm_note p) (pm_fallbacks p) (S (pm_next p)).

Definition latest (p : pump) : option (list Z) := pm_png p.
Definition generation (p : pump) : Z := pm_generation p.
Definition source_note (p : pump) : option source * option exn := (pm_source p, pm_note p).

Definition set_source (p : pump) (s : source) (note : option exn) (told : list exn) : pump :=
  Pump (pm_frame_addr p) (pm_status_addr p) (pm_grabber p) (pm_png p) (pm_raw p) (pm_generation p)
    (Some s) note (pm_fallbacks p ++ told) (pm_next p).

(** Status, frame, pixels. *)
Definition frame_data : Type := list Z * list Z * list (list Z).

Section thread.
(** The guest behind each connection, and the PNG encoder. *)
Context (guests : nat -> guest) (encode : list (list Z) -> result (list Z)).

(** The two ways of [_grab]: the panel's memory, and the guest's. *)
Definition panel_grab (g : guest) : G frame_data :=
  pixels ← panel_pixels g;
  gram ← panel_gram g;
  mret (slice 0 STATUS_BYTES gram, drop (Z.to_nat STATUS_BYTES) gram, pixels).
Definition ram_grab (g : guest) (gr : grabber) : G frame_data :=
  '(status, frame) ← raw g (gr_frame gr) (gr_status gr);
  pixels ← lift (unpack status frame);
  mret (status, frame, pixels).

(** [_grab], at command [t] of the connection. *)
Definition _grab (p : pump) (gr : grabber) (t : nat) : pump * nat * result frame_data :=
  let g := guests (gr_client gr) in
  match panel_grab g t with
  | (t, Ok f) => (set_source p FromPanel None [], t, Ok f)
  | (t, Raise e) =>
      if is_exception e then
        let first := negb (bool_decide (pm_source p = Some FromFramebuffer)) in
        let p := set_source p FromFramebuffer (if first then Some e else pm_note p)
                   (if first then [e] else []) in
        let '(t, r) := ram_grab g gr t in (p, t, r)
      else (p, t, Raise e)
  end.

(** Where the thread is in its round. *)
Inductive pc := Idle | Took (gr : grabber) | Read (gr : grabber) (f : frame_data).

Record world := World { w_pump : pump; w_pc : pc; w_clock : nat; w_stop : bool }.

(** The second locked section of [_run]: a grabber is compared by identity. *)
Definition publish (p : pump) (gr : grabber) (f : frame_data) : pump :=
  let '(status, frame, pixels) := f in
  if bool_decide (gr_id <$> pm_grabber p = Some (gr_id gr))
     && negb (bool_decide (Some (status, frame) = pm_raw p)) then
    match encode pixels with
    | Ok png => Pump (pm_frame_addr p) (pm_status_addr p) (pm_grabber p) (Some png)
                  (Some (status, frame)) (pm_generation p + 1) (pm_source p) (pm_note p)
                  (pm_fallbacks p) (pm_next p)
    | Raise _ => Pump (pm_frame_addr p) (pm_status_addr p) (pm_grabber p) (pm_png p)
                   (Some (status, frame)) (pm_generation p) (pm_source p) (pm_note p)
                   (pm_fallbacks p) (pm_next p)
    end
  else p.

Inductive action :=
| ATake | AGrab | APublish
| ARebind (client : option nat)
| ASetBuffers (frame_addr status_addr : Z)
| AStop.

(** The thread's own steps do nothing when it is elsewhere in its round. *)
Definition step (w : world) (a : action) : world :=
  match a, w_pc w with
  | ATake, Idle =>
      match pm_grabber (w_pump w), w_stop w with
      | Some gr, false => World (w_pump w) (Took gr) (w_clock w) false
      | _, _ => w
      end
  | AGrab, Took gr =>
      match _grab (w_pump w) gr (w_clock w) with
      | (p, t, Ok f) => World p (Read gr f) t (w_stop w)
      | (p, t, Raise _) => World p Idle t (w_stop w)
      end
  | APublish, Read gr f => World (publish (w_pump w) gr f) Idle (w_clock w) (w_stop w)
  | ARebind client, pc => World (rebind (w_pump w) client) pc (w_clock w) (w_stop w)
  | ASetBuffers f s, pc => World (set_buffers (w_pump w) f s) pc (w_clock w) (w_stop w)
  | AStop, pc => World (w_pump w) pc (w_clock w) true
  | _, _ => w
  end.

Definition run (w : world) (acts : list action) : world := foldl step w acts.

Definition round : list action := [ATake; AGrab; APublish].

Definition start (p : pump) : world := World p Idle 0 false.
End thread.

(** ** Invariants *)

Section invariants.
Context (guests : nat -> guest) (encode : list (list Z) -> result (list Z)).

Definition pc_grabber (c : pc) : option grabber :=
  match c with Idle => None | Took gr | Read gr _ => Some gr end.

(** Grabbers are numbered as they are made, and an unbound pump is dark. *)
Record inv (w : world) : Prop := Inv {
  inv_bound : forall gr, pm_grabber (w_pump w) = Some gr -> (gr_id gr < pm_next (w_pump w))%nat;
  inv_pc : forall gr, pc_grabber (w_pc w) = Some gr -> (gr_id gr < pm_next (w_pump w))%nat;
  inv_dark : pm_grabber (w_pump w) = None -> pm_png (w_pump w) = None
}.

(** What reading changes: the source, never the picture. *)
Lemma grab_keeps p gr t p' t' r :
  _grab guests p gr t = (p', t', r) ->
  pm_grabber p' = pm_grabber p /\ pm_png p' = pm_png p /\ pm_raw p' = pm_raw p /\
  pm_generation p' = pm_generation p /\ pm_next p' = pm_next p.
Proof.
  unfold _grab.
  destruct (panel_grab _ t) as [t1 [f|e]]; [by intros [= <- <- <-]|].
  destruct (is_exception e); [|by intros [= <- <- <-]].
  destruct (ram_grab _ _ t1) as [t2 r2]. by intros [= <- <- <-].
Qed.

Lemma publish_keeps p gr f :
  pm_grabber (publish encode p gr f) = pm_grabber p /\ pm_next (publish encode p gr f) = pm_next p.
Proof.
  unfold publish. destruct f as [[status frame] pixels].
  destruct (_ && _); [|done]. by destruct (encode pixels).
Qed.

(** A grabber that is not bound publishes nothing. *)
Lemma publish_unbound p gr f :
  gr_id <$> pm_grabber p <> Some (gr_id gr) -> publish encode p gr f = p.
Proof.
  intros Hne. unfold publish. destruct f as [[status frame] pixels].
  by rewrite bool_decide_false.
Qed.

Lemma inv_step w a : inv w -> inv (step guests encode w a).
Proof.
  intros [Hb Hp Hd]. destruct a; cbn [step].
  - destruct (w_pc w) eqn:E; [|by constructor; rewrite ?E..].
    destruct (pm_grabber (w_pump w)) as [gr|] eqn:Eg, (w_stop w);
      constructor; cbn [w_pump w_pc]; rewrite ?E, ?Eg; done.
  - destruct (w_pc w) as [|gr|] eqn:E; [by constructor; rewrite ?E| |by constructor; rewrite ?E].
    destruct (_grab guests (w_pump w) gr (w_clock w)) as [[p t] r] eqn:Eg.
    destruct (grab_keeps _ _ _ _ _ _ Eg) as (E1 & E2 & _ & _ & E5).
    destruct r as [f|e]; constructor; cbn [w_pump w_pc]; rewrite ?E1, ?E2, ?E5; try done.
  - destruct (w_pc w) as [| |gr f] eqn:E; [by constructor; rewrite ?E..|].
    destruct (publish_keeps (w_pump w) gr f) as [E1 E2].
    constructor; cbn [w_pump w_pc]; rewrite ?E1, ?E2; [done|done|].
    intros Hn. rewrite publish_unbound by (by rewrite Hn). by apply Hd.
  - constructor; cbn [w_pump w_pc rebind pm_grabber pm_next pm_png]; unfold new_grabber.
    + intros gr Hg. apply fmap_Some in Hg as (c & -> & ->). cbn. lia.
    + intros gr Hg. specialize (Hp gr Hg). lia.
    + intros Hn. destruct client; [done|]. by rewrite bool_decide_true.
  - constructor; cbn [w_pump w_pc set_buffers pm_grabber pm_next pm_png]; unfold new_grabber.
    + intros gr Hg. apply fmap_Some in Hg as (c & _ & ->). cbn. lia.
    + intros gr Hg. specialize (Hp gr Hg). lia.
    + intros Hn. apply Hd. by destruct (pm_grabber (w_pump w)).
  - by constructor.
Qed.

Lemma inv_run acts w : inv w -> inv (run guests encode w acts).
Proof.
  unfold run. revert w. induction acts as [|a acts IH]; intros w Hw; [done|].
  by apply IH, inv_step.
Qed.

Lemma inv_start client fa sa : inv (start (init client fa sa)).
Proof.
  constructor; cbn; [|done|done]. intros gr Hg. apply fmap_Some in Hg as (c & _ & ->). cbn. lia.
Qed.

(** Nothing but a rebind to a client binds an unbound pump. *)
Definition not_bind (a : action) : Prop := match a with ARebind (Some _) => False | _ => True end.

Lemma unbound_step w a :
  not_bind a -> pm_grabber (w_pump w) = None -> pm_grabber (w_pump (step guests encode w a)) = None.
Proof.
  intros Ha Hn. destruct a as [| | |[]| |]; cbn [step]; try done.
  - destruct (w_pc w); [|done..]. by rewrite Hn.
  - destruct (w_pc w) as [|gr|]; [done| |done].
    destruct (_grab guests (w_pump w) gr (w_clock w)) as [[p t] r] eqn:Eg.
    destruct (grab_keeps _ _ _ _ _ _ Eg) as (E1 & _). by destruct r; cbn; rewrite E1.
  - destruct (w_pc w) as [| |gr f]; [done..|]. cbn [w_pump].
    by rewrite (proj1 (publish_keeps _ _ _)).
  - cbn. unfold new_grabber. by rewrite Hn.
Qed.

Lemma unbound_run acts w :
  Forall not_bind acts -> pm_grabber (w_pump w) = None ->
  pm_grabber (w_pump (run guests encode w acts)) = None.
Proof.
  intros Ha. unfold run. revert w. induction Ha as [|a acts Ha Has IH]; intros w Hn; [done|].
  by apply IH, unbound_step.
Qed.

(** The generation never goes back, and a picture only changes with it. *)
Lemma generation_step w a :
  let p := w_pump w in let p' := w_pump (step guests encode w a) in
  pm_generation p <= pm_generation p' /\ (pm_png p' <> pm_png p -> pm_generation p < pm_generation p').
Proof.
  destruct a; cbn [step].
  - destruct (w_pc w); [|split; [lia|done]..].
    destruct (pm_grabber _), (w_stop w); (split; [cbn; lia|done]).
  - destruct (w_pc w) as [|gr|]; [split; [lia|done]| |split; [lia|done]].
    destruct (_grab guests (w_pump w) gr (w_clock w)) as [[p t] r] eqn:Eg.
    destruct (grab_keeps _ _ _ _ _ _ Eg) as (_ & E2 & _ & E4 & _).
    destruct r; cbn [w_pump]; rewrite E2, E4; (split; [lia|done]).
  - destruct (w_pc w) as [| |gr f]; [split; [lia|done]..|]. cbn [w_pump]. unfold publish.
    destruct f as [[status frame] pixels]. destruct (_ && _); [|split; [lia|done]].
    destruct (encode pixels); cbn [pm_generation pm_png]; (split; [lia|first [lia|done]]).
  - cbn. lia.
  - cbn. split; [lia|done].
  - cbn. split; [lia|done].
Qed.
End invariants.

(** ** A dead connection *)

Section dead.
Context (guests : nat -> guest) (encode : list (list Z) -> result (list Z)) (c : nat).

(** The pump is bound to a client that no longer answers, and no frame of it
    is on the way. *)
Definition bound_dead (w : world) : Prop :=
  gr_client <$> pm_grabber (w_pump w) = Some c /\
  (forall t, (w_clock w <= t)%nat -> guests c t = None) /\
  match w_pc w with Idle => True | Took gr => gr_client gr = c | Read _ _ => False end.

Lemma dead_grab p gr t :
  gr_client gr = c -> guests c t = None -> guests c (S t) = None ->
  exists p' e, _grab guests p gr t = (p', S (S t), Raise e) /\ is_exception e = true.
Proof.
  intros Hc H1 H2. unfold _grab. rewrite Hc.
  set (e := Exn RuntimeError "QMP connection closed" []).
  assert (panel_grab (guests c) t = (S t, Raise e)) as ->.
  { unfold panel_grab, panel_pixels, panel_gram, qom_get, command, mbind, G_bind. by rewrite H1. }
  cbn [is_exception exn_cls e].
  assert (ram_grab (guests c) gr (S t) = (S (S t), Raise e)) as ->.
  { unfold ram_grab, raw, memsave, command, mbind, G_bind. by rewrite H2. }
  by do 2 eexists.
Qed.

(** Then the thread changes neither the picture nor the binding. *)
Lemma bound_dead_step w a :
  match a with ATake | AGrab | APublish => True | _ => False end ->
  bound_dead w -> bound_dead (step guests encode w a) /\
    pm_png (w_pump (step guests encode w a)) = pm_png (w_pump w).
Proof.
  intros Ha (Hc & Hd & Hpc). destruct a; try done; cbn [step].
  - destruct (w_pc w) as [| |] eqn:E; [|by repeat split; rewrite ?E..].
    destruct (pm_grabber (w_pump w)) as [gr|] eqn:Eg; [|done]. destruct (w_stop w); [by repeat split; rewrite ?E, ?Eg|].
    split; [|done]. split; [by cbn; rewrite Eg|]. split; [done|]. by injection Hc.
  - destruct (w_pc w) as [|gr|] eqn:E; [by repeat split; rewrite ?E| |done].
    destruct (dead_grab (w_pump w) gr (w_clock w) Hpc) as (p' & e & Hg & _); [by apply Hd; lia..|].
    rewrite Hg. apply grab_keeps in Hg as (E1 & E2 & _). split; [|done].
    split; [by cbn; rewrite E1|]. split; [|done]. intros t Ht. apply Hd. cbn in Ht. lia.
  - destruct (w_pc w) as [| |] eqn:E; [by repeat split; rewrite ?E..|done].
Qed.
End dead.

(** ** Rounds over a working panel *)

Section rounds.
Context (guests : nat -> guest) (encode : list (list Z) -> result (list Z)).
Context (w : world) (gr : grabber) (ps : nat -> panel).
Hypothesis Hidle : w_pc w = Idle.
Hypothesis Hrun : w_stop w = false.
Hypothesis Hbound : pm_grabber (w_pump w) = Some gr.
(** The panel at every command from now on. *)
Hypothesis Hpanel : forall k, exists s,
  guests (gr_client gr) (w_clock w + k)%nat = Some s /\ sn_panel s = Some (ps k).

Definition as_raw (gram : list Z) : list Z * list Z := (gram_status gram, gram_frame gram).

(** A frame takes five commands.  The pixels come from the memory at the
    first, what they are compared by from the memory at the fifth. *)
Lemma panel_grab_ok k gram0 gram4 :
  wf_bytes gram0 -> zlen gram0 = 1024 -> wf_bytes gram4 ->
  pn_gram (ps k) = hex_text gram0 -> pn_gram (ps (k + 4)%nat) = hex_text gram4 ->
  exists pixels, panel_grab (guests (gr_client gr)) (w_clock w + k)%nat
      = (w_clock w + (k + 5), Ok (as_raw gram4, pixels))%nat /\
    drawn (panel_shows gram0 (pn_invert (ps (k + 1)%nat))) pixels.
Proof.
  intros Hw0 Hl0 Hw4 H0 H4.
  destruct (panel_pixels_ok (guests (gr_client gr)) gram0 Hw0 Hl0 (w_clock w + k)%nat (fun i => ps (k + i)%nat))
    as (px & Hpx & Hd).
  { intros i. rewrite <- Nat.add_assoc. apply Hpanel. }
  { by rewrite Nat.add_0_r. }
  exists px. split; [|exact Hd]. unfold panel_grab. rewrite (G_bind_ok _ _ _ _ _ Hpx).
  destruct (Hpanel (k + 4)%nat) as (s & Hs & Hp). rewrite Nat.add_assoc in Hs.
  rewrite (G_bind_ok _ _ _ _ _ (panel_gram_ok _ gram4 Hw4 _ s _ Hs Hp H4)).
  unfold as_raw. replace (w_clock w + (k + 5))%nat with (S (w_clock w + k + 4)) by lia. reflexivity.
Qed.

(** The pump after one more round. *)
Definition after_round (p : pump) (f : frame_data) : pump :=
  publish encode (set_source p FromPanel None []) gr f.

Lemma round_ok v k gram0 gram4 :
  w_pc v = Idle -> w_stop v = false -> pm_grabber (w_pump v) = Some gr ->
  w_clock v = (w_clock w + k)%nat ->
  wf_bytes gram0 -> zlen gram0 = 1024 -> wf_bytes gram4 ->
  pn_gram (ps k) = hex_text gram0 -> pn_gram (ps (k + 4)%nat) = hex_text gram4 ->
  exists pixels, run guests encode v round
      = World (after_round (w_pump v) (as_raw gram4, pixels)) Idle (w_clock w + (k + 5))%nat false /\
    drawn (panel_shows gram0 (pn_invert (ps (k + 1)%nat))) pixels.
Proof.
  intros Hi Hs Hg Hc Hw0 Hl0 Hw4 H0 H4.
  destruct (panel_grab_ok k gram0 gram4 Hw0 Hl0 Hw4 H0 H4) as (px & Hpx & Hd).
  exists px. split; [|exact Hd]. unfold run, round. cbn [foldl].
  assert (step guests encode v ATake = World (w_pump v) (Took gr) (w_clock w + k)%nat false) as ->
    by (cbn [step]; by rewrite Hi, Hg, Hs, Hc).
  cbn [step w_pc w_pump w_clock w_stop]. unfold _grab. by rewrite Hpx.
Qed.

Lemma after_round_cases p raw pixels b :
  pm_grabber p = Some gr -> encode pixels = Ok b ->
  let p' := after_round p (raw, pixels) in
  pm_grabber p' = Some gr /\ pm_raw p' = Some raw /\ pm_source p' = Some FromPanel /\
  pm_png p' = (if decide (pm_raw p = Some raw) then pm_png p else Some b).
Proof.
  intros Hg He. unfold after_round, publish. destruct raw as [status frame].
  cbn [set_source pm_grabber pm_raw]. rewrite Hg. cbn [fmap option_fmap option_map].
  rewrite bool_decide_true by done. cbn [andb].
  destruct (decide (pm_raw p = Some (status, frame))) as [E|E].
  - rewrite bool_decide_true by done. by cbn.
  - rewrite bool_decide_false by congruence. cbn [negb]. rewrite He. by cbn.
Qed.

(** While the memory does not change, the picture does not. *)
Lemma steady_rounds gram n :
  (forall px, exists b, encode px = Ok b) -> wf_bytes gram -> zlen gram = 1024 ->
  forall v k, w_pc v = Idle -> w_stop v = false -> pm_grabber (w_pump v) = Some gr ->
    w_clock v = (w_clock w + k)%nat -> pm_raw (w_pump v) = Some (as_raw gram) ->
    (forall i, pn_gram (ps (k + i)%nat) = hex_text gram) ->
    latest (w_pump (run guests encode v (concat (repeat round n)))) = latest (w_pump v).
Proof.
  intros He Hw Hl. induction n as [|n IH]; intros v k Hi Hs Hg Hc Hr Hgr; [done|].
  cbn [repeat concat]. unfold run. rewrite foldl_app. fold (run guests encode v round).
  pose proof (Hgr 0%nat) as H0. rewrite Nat.add_0_r in H0.
  destruct (round_ok v k gram gram Hi Hs Hg Hc Hw Hl Hw H0 (Hgr 4%nat)) as (px & Hround & _).
  rewrite Hround. destruct (He px) as [b Hb].
  destruct (after_round_cases (w_pump v) (as_raw gram) px b Hg Hb) as (G1 & R1 & _ & P1).
  set (v' := World _ Idle _ _). fold (run guests encode v' (concat (repeat round n))).
  assert (pm_png (w_pump v') = pm_png (w_pump v)) as Hp
    by (unfold v'; cbn [w_pump]; by rewrite P1, decide_True).
  unfold latest in *. rewrite <- Hp. apply (IH v' (k + 5)%nat); try done.
  intros i. rewrite <- Nat.add_assoc. apply Hgr.
Qed.
End rounds.

(** ** Properties *)

(** C16. The page is dark while the emulator is off.  Whatever the pump, the
    requests and the guest did before, after a rebind to no client there is no
    picture, and none comes back however the thread's pending read, buffer
    changes and further power-offs interleave, until a client is bound. *)
Theorem power_off_stays_dark guests encode client fa sa before after :
  Forall not_bind after ->
  latest (w_pump (run guests encode
    (step guests encode (run guests encode (start (init client fa sa)) before) (ARebind None))
    after)) = None.
Proof.
  intros Ha. apply inv_dark.
  - apply inv_run, inv_step, inv_run, inv_start.
  - by apply unbound_run.
Qed.

(** A guest that shows one screen for ever. *)
Definition still (gram : list Z) : nat -> guest :=
  fun _ _ => Some (Snapshot (Some (Panel (hex_text gram) false 0 true)) (fun _ => [])).

Definition plain : list (list Z) -> result (list Z) := fun px => Ok (concat px).

Lemma power_off_stays_dark_witness :
  latest (w_pump (run (still (zrep 1024 1)) plain (start (init (Some 0%nat) 1 2)) round)) <> None /\
  latest (w_pump (run (still (zrep 1024 1)) plain
    (step (still (zrep 1024 1)) plain
      (run (still (zrep 1024 1)) plain (start (init (Some 0%nat) 1 2)) (round ++ [ATake; AGrab]))
      (ARebind None)) [APublish; ATake])) = None.
Proof.
  split; [vm_compute; discriminate|].
  apply (power_off_stays_dark (still (zrep 1024 1)) plain (Some 0%nat) 1 2 (round ++ [ATake; AGrab])
           [APublish; ATake]).
  repeat constructor.
Defined.

(** The thread's own steps, and those that never bind a new client. *)
Definition pending_step (a : action) : bool :=
  match a with AGrab | APublish | ASetBuffers _ _ | AStop => true | _ => false end.

(** The thread holds no bound grabber. *)
Definition stale (w : world) : Prop :=
  forall gr, pc_grabber (w_pc w) = Some gr -> gr_id <$> pm_grabber (w_pump w) <> Some (gr_id gr).

Lemma new_grabber_id p c fa sa gr :
  (gr_id gr < pm_next p)%nat -> gr_id <$> new_grabber p c fa sa <> Some (gr_id gr).
Proof. unfold new_grabber. destruct c; cbn; [|done]. intros Hlt [= E]. lia. Qed.

Lemma stale_step guests encode w a :
  inv w -> stale w -> pending_step a = true ->
  stale (step guests encode w a) /\ pm_png (w_pump (step guests encode w a)) = pm_png (w_pump w).
Proof.
  intros Hinv Hs Ha. destruct a; try done; cbn [step].
  - destruct (w_pc w) as [|gr|] eqn:E; [done| |done].
    destruct (_grab guests (w_pump w) gr (w_clock w)) as [[p t] r] eqn:Eg.
    destruct (grab_keeps _ _ _ _ _ _ _ Eg) as (E1 & E2 & _).
    destruct r; cbn [w_pump w_pc]; (split; [|done]); intros gr'; cbn [pc_grabber w_pc w_pump]; [|done].
    intros [= <-]. rewrite E1. apply Hs. by rewrite E.
  - destruct (w_pc w) as [| |gr f] eqn:E; [done..|]. cbn [w_pump w_pc]. split; [by intros gr'|].
    rewrite publish_unbound; [done|]. apply Hs. by rewrite E.
  - split; [|done]. intros gr' Hgr. cbn [w_pump set_buffers pm_grabber]. apply new_grabber_id.
    by apply (inv_pc _ Hinv).
Qed.

(** A frame that was being read when the emulator was exchanged is never
    shown.  After any history and a rebind to a new client, or to none, the
    picture stays the one the rebind left through everything the thread still
    does in its current round, however buffer changes interleave with it. *)
Theorem rebind_drops_pending_frame guests encode client fa sa before c after :
  Forall (fun a => pending_step a = true) after ->
  let w := step guests encode (run guests encode (start (init client fa sa)) before) (ARebind c) in
  latest (w_pump (run guests encode w after)) = latest (w_pump w).
Proof.
  intros Ha w. set (w0 := run guests encode (start (init client fa sa)) before) in *.
  assert (inv w0) as Hinv0 by apply inv_run, inv_start.
  assert (inv w) as Hinv by (by apply inv_step).
  assert (stale w) as Hs.
  { intros gr Hgr. unfold w. cbn [step w_pump rebind pm_grabber]. apply new_grabber_id.
    by apply (inv_pc _ Hinv0). }
  clearbody w. clear Hinv0. revert w Hinv Hs. unfold run, latest.
  induction Ha as [|a after Ha Has IH]; intros w Hinv Hs; [done|]. cbn [foldl].
  destruct (stale_step guests encode w a Hinv Hs Ha) as [Hs' <-].
  apply IH; [by apply inv_step|done].
Qed.

Lemma rebind_drops_pending_frame_witness :
  let w := step (still (zrep 1024 1)) plain
    (run (still (zrep 1024 1)) plain (start (init (Some 0%nat) 1 2)) [ATake; AGrab]) (ARebind (Some 1%nat)) in
  latest (w_pump (run (still (zrep 1024 1)) plain w [APublish])) = latest (w_pump w).
Proof.
  apply (rebind_drops_pending_frame (still (zrep 1024 1)) plain (Some 0%nat) 1 2 [ATake; AGrab] (Some 1%nat)
           [APublish]).
  repeat constructor.
Defined.

(** The generation tells a client whether the picture changed: over any
    interleaving it never goes back, and if it is the same at two moments the
    picture is the same too. *)
Theorem generation_tells guests encode w acts :
  let w' := run guests encode w acts in
  generation (w_pump w) <= generation (w_pump w') /\
  (generation (w_pump w') = generation (w_pump w) -> latest (w_pump w') = latest (w_pump w)).
Proof.
  cbv zeta. unfold run, latest, generation. revert w. induction acts as [|a acts IH]; intros w; [done|].
  cbn [foldl]. destruct (generation_step guests encode w a) as [Hle Hne].
  destruct (IH (step guests encode w a)) as [Hle' Heq']. split; [lia|]. intros Hg.
  rewrite Heq' by lia. destruct (decide (pm_png (w_pump (step guests encode w a)) = pm_png (w_pump w)));
    [done|]. specialize (Hne n). lia.
Qed.

Lemma generation_tells_witness :
  let w := run (still (zrep 1024 1)) plain (start (init (Some 0%nat) 1 2)) round in
  let w' := run (still (zrep 1024 1)) plain w round in
  generation (w_pump w') = generation (w_pump w) /\ latest (w_pump w') = latest (w_pump w).
Proof.
  cbv zeta. split; [vm_compute; reflexivity|].
  apply generation_tells. vm_compute. reflexivity.
Defined.

(** What the thread meets at its next round: idle, not stopped, bound to
    [gr], and the panel [ps k] at its [k]-th command from now. *)
Definition watching (guests : nat -> guest) (w : world) (gr : grabber) (ps : nat -> panel) : Prop :=
  w_pc w = Idle /\ w_stop w = false /\ pm_grabber (w_pump w) = Some gr /\
  forall k, exists s, guests (gr_client gr) (w_clock w + k)%nat = Some s /\ sn_panel s = Some (ps k).

Lemma first_round guests encode w gr ps gram0 gram4 :
  watching guests w gr ps -> (forall P px, drawn P px -> exists b, encode px = Ok b) ->
  wf_bytes gram0 -> zlen gram0 = 1024 -> wf_bytes gram4 ->
  pn_gram (ps 0%nat) = hex_text gram0 -> pn_gram (ps 4%nat) = hex_text gram4 ->
  exists px b, drawn (panel_shows gram0 (pn_invert (ps 1%nat))) px /\ encode px = Ok b /\
    let w' := run guests encode w round in
    w_pc w' = Idle /\ w_stop w' = false /\ w_clock w' = (w_clock w + 5)%nat /\
    pm_grabber (w_pump w') = Some gr /\ pm_raw (w_pump w') = Some (as_raw gram4) /\
    pm_source (w_pump w') = Some FromPanel /\
    latest (w_pump w') = (if decide (pm_raw (w_pump w) = Some (as_raw gram4))
                          then latest (w_pump w) else Some b).
Proof.
  intros (Hi & Hs & Hg & Hps) He Hw0 Hl0 Hw4 H0 H4.
  destruct (round_ok guests encode w gr ps Hps w 0 gram0 gram4 Hi Hs Hg) as (px & Hround & Hd);
    [lia|done..|].
  destruct (He _ _ Hd) as [b Hb]. exists px, b. split; [exact Hd|]. split; [exact Hb|]. cbv zeta.
  rewrite Hround. cbn [w_pc w_stop w_clock w_pump].
  destruct (after_round_cases encode gr (w_pump w) (as_raw gram4) px b Hg Hb) as (G1 & R1 & S1 & P1).
  exact (conj eq_refl (conj eq_refl (conj eq_refl (conj G1 (conj R1 (conj S1 P1)))))).
Qed.

Lemma zlen_png_raw P scale px :
  1 <= scale -> drawn P px -> zlen (png_raw scale px) = LCD_HEIGHT * scale * (1 + LCD_WIDTH * scale).
Proof.
  intros Hs Hd. rewrite png_raw_lines. unfold zlen.
  rewrite (length_concat_uniform _ (S (Z.to_nat (LCD_WIDTH * scale)))).
  - rewrite length_map, (zlen_scaled_lines P) by done.
    unfold LCD_WIDTH, LCD_HEIGHT, TOTAL_ROWS, STATUS_ROWS, FRAME_ROWS. nia.
  - apply Forall_map. eapply Forall_impl; [by apply (scaled_lines_width P)|].
    intros l Hl. cbn. by rewrite Hl.
Qed.

(** C4. The picture the page serves is the radio's screen.  When the thread
    reads a panel that holds still, and the memory is not the one it last
    compared, then after one round [latest] is a PNG that a reader decodes to
    the panel's memory, pixel for pixel at the given scale, inverted exactly
    when the panel inverts. *)
Theorem pump_shows_panel guests compress decompress scale w gr ps gram invert :
  (forall b, decompress (compress b) = Some b) ->
  (forall b, wf_bytes b -> wf_bytes (compress b)) ->
  1 <= scale <= 2 ^ 20 ->
  (forall P px, drawn P px -> zlen (compress (png_raw scale px)) < 2 ^ 32) ->
  wf_bytes gram -> zlen gram = 1024 -> watching guests w gr ps ->
  (forall k, pn_gram (ps k) = hex_text gram /\ pn_invert (ps k) = invert) ->
  pm_raw (w_pump w) <> Some (as_raw gram) ->
  exists png lines,
    latest (w_pump (run guests (fun px => encode_png compress px scale) w round)) = Some png /\
    png_decode decompress png = Some (LCD_WIDTH * scale, LCD_HEIGHT * scale, lines) /\
    forall y x, 0 <= y < LCD_HEIGHT * scale -> 0 <= x < LCD_WIDTH * scale ->
      lines !! Z.to_nat y ≫= (.!! Z.to_nat x)
        = Some (if panel_shows gram invert (y / scale) (x / scale) then 0x00 else 0xFF).
Proof.
  intros Hzip Hb Hs Hz Hw Hl Hwatch Hgr Hraw.
  assert (forall P px, drawn P px -> exists b, encode_png compress px scale = Ok b) as He.
  { intros P px Hd.
    destruct (encode_png_ok compress decompress Hzip Hb P px scale Hd Hs (Hz P px Hd)) as (b & E & _).
    by exists b. }
  destruct (first_round guests _ w gr ps gram gram Hwatch He Hw Hl Hw (proj1 (Hgr _)) (proj1 (Hgr _)))
    as (px & b & Hd & E & _ & _ & _ & _ & _ & _ & Hlat).
  rewrite (proj2 (Hgr 1%nat)) in Hd. rewrite decide_False in Hlat by done.
  destruct (encode_png_ok compress decompress Hzip Hb _ px scale Hd Hs (Hz _ px Hd)) as (b' & E' & Hdec).
  assert (b' = b) as -> by congruence.
  exists b, (scaled_lines scale px). split; [exact Hlat|]. split; [exact Hdec|].
  intros. apply scaled_lines_pixel; [lia|done..].
Qed.

Definition screen_on : list Z := zrep 1024 1.
Definition watcher : grabber := Grabber 0 0 1 2.
Definition w_on : world := start (init (Some 0%nat) 1 2).
Definition shown (gram : list Z) (invert : bool) : panel := Panel (hex_text gram) invert 0 true.

Lemma pump_shows_panel_witness :
  pm_raw (w_pump w_on) <> Some (as_raw screen_on) /\
  exists png lines,
    latest (w_pump (run (still screen_on) (fun px => encode_png store px 1) w_on round)) = Some png /\
    png_decode Some png = Some (LCD_WIDTH * 1, LCD_HEIGHT * 1, lines).
Proof.
  split; [discriminate|].
  destruct (pump_shows_panel (still screen_on) store Some 1 w_on watcher (fun _ => shown screen_on false)
    screen_on false) as (png & lines & H1 & H2 & _).
  - reflexivity.
  - intros b Hb. exact Hb.
  - split; [discriminate|vm_compute; discriminate].
  - intros P px Hd. unfold store. rewrite (zlen_png_raw P) by (exact Hd || lia). vm_compute. reflexivity.
  - apply wf_bytes_rep. lia.
  - reflexivity.
  - split; [reflexivity|]. split; [reflexivity|]. split; [reflexivity|]. intros k. eexists.
    split; reflexivity.
  - intros k. split; reflexivity.
  - discriminate.
  - exists png, lines. exact (conj H1 H2).
Defined.

(** The thread has shown memory [gram] and is between two rounds. *)
Lemma steady_after guests encode w gr ps gram n :
  watching guests w gr ps -> (forall px, exists b, encode px = Ok b) ->
  wf_bytes gram -> zlen gram = 1024 ->
  pm_raw (w_pump w) = Some (as_raw gram) -> (forall k, pn_gram (ps k) = hex_text gram) ->
  latest (w_pump (run guests encode w (concat (repeat round n)))) = latest (w_pump w).
Proof.
  intros (Hi & Hs & Hg & Hps) He Hw Hl Hr Hgr.
  apply (steady_rounds guests encode w gr ps Hps gram n He Hw Hl w 0 Hi Hs Hg); [lia|done|].
  intros i. apply Hgr.
Qed.

(** The picture of the first round stays, whatever else the panel does. *)
Lemma first_picture_sticks guests encode w gr ps gram0 gram1 n :
  watching guests w gr ps -> (forall px, exists b, encode px = Ok b) ->
  wf_bytes gram0 -> zlen gram0 = 1024 -> wf_bytes gram1 -> zlen gram1 = 1024 ->
  pm_raw (w_pump w) <> Some (as_raw gram1) ->
  pn_gram (ps 0%nat) = hex_text gram0 -> (forall k, (1 <= k)%nat -> pn_gram (ps k) = hex_text gram1) ->
  exists px b, drawn (panel_shows gram0 (pn_invert (ps 1%nat))) px /\ encode px = Ok b /\
    latest (w_pump (run guests encode w (round ++ concat (repeat round n)))) = Some b.
Proof.
  intros Hwatch He Hw0 Hl0 Hw1 Hl1 Hraw H0 H1.
  destruct (first_round guests encode w gr ps gram0 gram1 Hwatch (fun _ px _ => He px) Hw0 Hl0 Hw1 H0
    (H1 4%nat ltac:(lia))) as (px & b & Hd & E & Hi & Hs & Hc & Hg & Hr & _ & Hlat).
  exists px, b. split; [exact Hd|]. split; [exact E|]. unfold run. rewrite foldl_app.
  fold (run guests encode w round). set (w1 := run guests encode w round) in *.
  fold (run guests encode w1 (concat (repeat round n))).
  destruct Hwatch as (_ & _ & _ & Hps).
  rewrite (steady_after guests encode w1 gr (fun k => ps (5 + k)%nat) gram1 n);
    [|split; [exact Hi|split; [exact Hs|split; [exact Hg|]]]|exact He|exact Hw1|exact Hl1|exact Hr|].
  - rewrite Hlat. by rewrite decide_False.
  - intros k. rewrite Hc, <- Nat.add_assoc. apply Hps.
  - intros k. apply H1. lia.
Qed.

(** A change of the panel's inversion alone is never shown.  After a
    round has drawn the memory as the panel inverted it then, no number of
    further rounds changes the picture while the memory stays as it is,
    whatever the inversion does in the meantime: only the memory is compared,
    although the picture depends on both. *)
Theorem inversion_not_repainted guests encode w gr ps gram n :
  watching guests w gr ps -> (forall px, exists b, encode px = Ok b) ->
  wf_bytes gram -> zlen gram = 1024 -> pm_raw (w_pump w) <> Some (as_raw gram) ->
  (forall k, pn_gram (ps k) = hex_text gram) ->
  exists px b, drawn (panel_shows gram (pn_invert (ps 1%nat))) px /\ encode px = Ok b /\
    latest (w_pump (run guests encode w (round ++ concat (repeat round n)))) = Some b.
Proof. intros Hwatch He Hw Hl Hr Hg. by apply (first_picture_sticks guests encode w gr ps gram gram). Qed.

(** A guest whose panel inverts from the tenth command on. *)
Definition flipping : nat -> guest := fun _ t =>
  Some (Snapshot (Some (shown screen_on (10 <=? t)%nat)) (fun _ => [])).

Lemma inversion_not_repainted_witness :
  pn_invert (shown screen_on (10 <=? 20)%nat) = true /\
  exists px b, drawn (panel_shows screen_on false) px /\ plain px = Ok b /\
    latest (w_pump (run flipping plain w_on (round ++ concat (repeat round 20)))) = Some b.
Proof.
  split; [reflexivity|].
  apply (inversion_not_repainted flipping plain w_on watcher
           (fun k => shown screen_on (10 <=? k)%nat) screen_on 20).
  - split; [reflexivity|]. split; [reflexivity|]. split; [reflexivity|]. intros k. eexists. split; reflexivity.
  - intros px. eexists. reflexivity.
  - apply wf_bytes_rep. lia.
  - reflexivity.
  - discriminate.
  - intros k. reflexivity.
Defined.

(** A screen that changes between the two reads of one frame is never
    shown.  [_grab] draws the memory it reads first and compares by the memory
    it reads last; when the firmware redraws in between, the old picture is
    stored under the new memory, and however many rounds follow, the page
    shows the old screen until the firmware draws something else. *)
Theorem torn_read_sticks guests encode w gr ps gram0 gram1 n :
  watching guests w gr ps -> (forall px, exists b, encode px = Ok b) ->
  wf_bytes gram0 -> zlen gram0 = 1024 -> wf_bytes gram1 -> zlen gram1 = 1024 ->
  pm_raw (w_pump w) <> Some (as_raw gram1) ->
  pn_gram (ps 0%nat) = hex_text gram0 -> (forall k, (1 <= k)%nat -> pn_gram (ps k) = hex_text gram1) ->
  exists px b, drawn (panel_shows gram0 (pn_invert (ps 1%nat))) px /\ encode px = Ok b /\
    latest (w_pump (run guests encode w (round ++ concat (repeat round n)))) = Some b.
Proof. apply first_picture_sticks. Qed.

(** A guest that redraws after the first command. *)
Definition screen_new : list Z := zrep 1024 2.
Definition redrawing : nat -> guest := fun _ t =>
  Some (Snapshot (Some (shown (if (t =? 0)%nat then screen_on else screen_new) false)) (fun _ => [])).

Lemma torn_read_sticks_witness :
  screen_on <> screen_new /\
  exists px b, drawn (panel_shows screen_on false) px /\ plain px = Ok b /\
    latest (w_pump (run redrawing plain w_on (round ++ concat (repeat round 9)))) = Some b.
Proof.
  split; [discriminate|].
  apply (torn_read_sticks redrawing plain w_on watcher
    (fun k => shown (if (k =? 0)%nat then screen_on else screen_new) false) screen_on screen_new 9).
  - split; [reflexivity|]. split; [reflexivity|]. split; [reflexivity|]. intros k. eexists. split; reflexivity.
  - intros px. eexists. reflexivity.
  - apply wf_bytes_rep. lia.
  - reflexivity.
  - apply wf_bytes_rep. lia.
  - reflexivity.
  - discriminate.
  - reflexivity.
  - intros [|k] Hk; [lia|reflexivity].
Defined.
