(* ===== verification/PumpThread.v ===== *)
(** The frame pump's threads, [FramePump.start] and [stop] of
    [src/tools/uvk5_stream.py].  [Stream] has one thread, as a round of
    steps; here [start] and [stop] are called as often as one likes, each
    thread has its own place in its round, and it is shown that this is still
    [Stream]'s one thread, and that it is the only one there will ever be. *)
From S2P Require Import Prelude Struct Lcd Stream.

Section threads.
Context (guests : nat -> guest) (encode : list (list Z) -> result (list Z)).

(** The pump and the connection's clock, [_stop], [_thread], and every thread
    that was started, with its place in [_run] while it runs. *)
Record life := Life {
  li_pump : pump;
  li_clock : nat;
  li_stop : bool;
  li_thread : option nat;
  li_threads : list (option pc)
}.

(** A thread's step: one of its round, or the end of its loop. *)
Inductive tstep := TTake | TGrab | TPublish | TEnd.
Inductive call :=
| CStart | CStop
| CThread (i : nat) (t : tstep)
| CRebind (client : option nat)
| CSetBuffers (frame_addr status_addr : Z).

Definition start (l : life) : life :=
  match li_thread l with
  | Some _ => l
  | None => Life (li_pump l) (li_clock l) (li_stop l) (Some (length (li_threads l))) (li_threads l ++ [Some Idle])
  end.
(** [join] waits two seconds, whatever the thread does meanwhile or later. *)
Definition stop (l : life) : life := Life (li_pump l) (li_clock l) true None (li_threads l).

(** The thread's step of the round, as [Stream] has it. *)
Definition round_step (l : life) (c : pc) (t : tstep) : world :=
  let w := World (li_pump l) c (li_clock l) (li_stop l) in
  match t with
  | TTake => Stream.step guests encode w ATake
  | TGrab => Stream.step guests encode w AGrab
  | TPublish => Stream.step guests encode w APublish
  | TEnd => w
  end.
(** The loop ends at its test, before a round. *)
Definition ends (l : life) (c : pc) (t : tstep) : bool :=
  match t, c with TEnd, Idle => li_stop l | _, _ => false end.

Definition lstep (l : life) (a : call) : life :=
  match a with
  | CStart => start l
  | CStop => stop l
  | CThread i t =>
      match li_threads l !! i with
      | Some (Some c) =>
          let w := round_step l c t in
          Life (w_pump w) (w_clock w) (li_stop l) (li_thread l)
            (<[i := if ends l c t then None else Some (w_pc w)]> (li_threads l))
      | _ => l
      end
  | CRebind client => Life (rebind (li_pump l) client) (li_clock l) (li_stop l) (li_thread l) (li_threads l)
  | CSetBuffers f s => Life (set_buffers (li_pump l) f s) (li_clock l) (li_stop l) (li_thread l) (li_threads l)
  end.
Definition lrun (l : life) (calls : list call) : life := foldl lstep l calls.

(** A pump that was made and not started. *)
Definition fresh (p : pump) : life := Life p 0 false None [].

(** ** One thread *)

(** A thread that is over, or before its round. *)
Definition at_rest (t : option pc) : Prop := t = None \/ t = Some Idle.
Definition first_pc (l : life) : pc :=
  match li_threads l with Some c :: _ => c | _ => Idle end.

(** Until [stop] there is at most the thread [start] remembers; afterwards
    only the first one can be within a round. *)
Record one (l : life) : Prop := One {
  one_rest : Forall at_rest (tail (li_threads l));
  one_started : li_stop l = false ->
    li_thread l = None /\ li_threads l = [] \/ li_thread l = Some 0%nat /\ exists c, li_threads l = [Some c]
}.

(** The world of [Stream] a state shows. *)
Definition shown (l : life) : world := World (li_pump l) (first_pc l) (li_clock l) (li_stop l).

(** What a call is in [Stream]: nothing, for what it does not have. *)
Definition as_actions (l : life) (a : call) : list action :=
  match a with
  | CStart => []
  | CStop => [AStop]
  | CThread 0 t =>
      match li_threads l with
      | Some c :: _ => match t with TTake => [ATake] | TGrab => [AGrab] | TPublish => [APublish] | TEnd => [] end
      | _ => []
      end
  | CThread _ _ => []
  | CRebind client => [ARebind client]
  | CSetBuffers f s => [ASetBuffers f s]
  end.

Lemma step_stop_kept w t : t = ATake \/ t = AGrab \/ t = APublish ->
  w_stop (Stream.step guests encode w t) = w_stop w.
Proof.
  destruct w as [p c k b]. intros [->|[->| ->]]; cbn [Stream.step w_pc w_pump w_stop w_clock].
  - destruct c; try done. destruct (pm_grabber p), b; done.
  - destruct c; try done. by destruct (_grab _ _ _ _) as [[p' t] [f|e]].
  - by destruct c.
Qed.

(** A thread at rest does nothing once the pump is stopped. *)
Lemma rest_step l t : li_stop l = true -> round_step l Idle t = World (li_pump l) Idle (li_clock l) true.
Proof. intros Hs. unfold round_step. rewrite Hs. destruct t; try done. cbn. by destruct (pm_grabber _). Qed.

Lemma rest_insert i (ts : list (option pc)) t : at_rest t -> Forall at_rest ts -> Forall at_rest (<[i:=t]> ts).
Proof. intros Ht Hts. by apply Forall_insert. Qed.

(** The first thread's step is [Stream]'s, but for the end of its loop. *)
Lemma first_step l c t : first_pc l = c ->
  shown (Life (w_pump (round_step l c t)) (w_clock (round_step l c t)) (li_stop l) (li_thread l)
           ((if ends l c t then None else Some (w_pc (round_step l c t))) :: tail (li_threads l)))
  = match t with TEnd => shown l
    | TTake => Stream.step guests encode (shown l) ATake
    | TGrab => Stream.step guests encode (shown l) AGrab
    | TPublish => Stream.step guests encode (shown l) APublish end.
Proof.
  intros Hc. unfold shown. rewrite Hc. unfold first_pc, round_step, ends.
  cbn [li_pump li_clock li_stop li_threads].
  destruct t; cbn [w_pump w_clock w_pc];
    try match goal with |- _ = Stream.step guests encode ?w ?a =>
      pose proof (step_stop_kept w a ltac:(tauto)) as Hk; destruct (Stream.step guests encode w a);
      cbn in Hk |- *; by subst end.
  destruct c; try done. by destruct (li_stop l).
Qed.

Lemma one_step l a : one l ->
  one (lstep l a) /\ shown (lstep l a) = Stream.run guests encode (shown l) (as_actions l a).
Proof.
  intros Hone. pose proof Hone as [Hr Hs]. destruct a as [| |i t|client|f s]; cbn [lstep].
  - unfold start. destruct (li_thread l) as [j|] eqn:Ej; [done|]. destruct (li_stop l) eqn:Es.
    + split; [constructor; cbn; [|done]|].
      * destruct (li_threads l); cbn; [by constructor|]. apply Forall_app. split; [done|]. constructor; [by right|done].
      * unfold shown, first_pc. cbn. rewrite Es. by destruct (li_threads l).
    + destruct Hs as [[_ E]|[E _]]; [done| |congruence]. rewrite E. split.
      * constructor; cbn; [by constructor|]. intros _. right. split; [done|]. by eexists.
      * unfold shown, first_pc. cbn. by rewrite E, Es.
  - split; [by constructor|done].
  - destruct (li_threads l) as [|t0 ts] eqn:Ets; [split; [by destruct i|]; destruct i; cbn [as_actions]; by rewrite ?Ets|]. cbn [tail] in Hr. destruct i as [|i].
    + cbn [lookup list_lookup]. destruct t0 as [c|]; [|split; [done|]; cbn [as_actions]; by rewrite Ets].
      assert (first_pc l = c) as Hc by (unfold first_pc; by rewrite Ets).
      pose proof (first_step l c t Hc) as E. rewrite Ets in E. cbn [tail insert list_insert] in E |- *. split.
      * constructor; cbn [li_threads li_stop li_thread tail]; [done|]. intros Hst.
        destruct (Hs Hst) as [[_ ?]|[Hth [c' ?]]]; [done|]. simplify_eq. right. split; [done|].
        assert (forall x, ends l x t = false) as -> by (intros x; unfold ends; rewrite Hst; by destruct t, x). by eexists.
      * cbn [as_actions]. rewrite Ets. rewrite E. by destruct t.
    + change ((t0 :: ts) !! S i) with (ts !! i). change (<[S i:=?x]> (t0 :: ts)) with (t0 :: <[i:=x]> ts).
      destruct (ts !! i) as [[c|]|] eqn:Ei; [|done..].
      assert (li_stop l = true) as Hst.
      { destruct (li_stop l); [done|]. destruct Hs as [[_ ?]|[_ [c' ?]]]; [done|done|]. by simplify_eq. }
      pose proof (Forall_lookup_1 _ _ _ _ Hr Ei) as [?|[= ->]]; [done|]. rewrite rest_step by done. cbn [w_pump w_clock w_pc].
      split; [constructor; cbn [li_threads li_stop li_thread tail]; [|congruence]|].
      * apply rest_insert; [|done]. destruct (ends _ _ _); [by left|by right].
      * unfold shown, first_pc. cbn. by rewrite Ets.
  - split; [by constructor|done].
  - split; [by constructor|done].
Qed.

(** The calls that go to the pump itself, in order. *)
Definition requests (acts : list action) : list action :=
  List.filter (fun a => match a with ARebind _ | ASetBuffers _ _ => true | _ => false end) acts.
Definition asked (calls : list call) : list action :=
  omap (fun a => match a with CRebind c => Some (ARebind c) | CSetBuffers f s => Some (ASetBuffers f s) | _ => None end) calls.

Lemma asked_one l a : requests (as_actions l a) = asked [a].
Proof. destruct a as [| |[|i] t| |]; try done. cbn. by destruct (li_threads l) as [|[c|] ts], t. Qed.

Lemma one_run calls : forall l, one l ->
  one (lrun l calls) /\ exists acts, shown (lrun l calls) = Stream.run guests encode (shown l) acts /\ requests acts = asked calls.
Proof.
  induction calls as [|a calls IH]; intros l Hl; [split; [done|by exists []]|].
  destruct (one_step l a Hl) as [H1 E1]. destruct (IH _ H1) as [H2 (acts & E2 & Hq)]. split; [exact H2|].
  exists (as_actions l a ++ acts). split.
  - change (lrun l (a :: calls)) with (lrun (lstep l a) calls). rewrite E2, E1. unfold Stream.run. by rewrite foldl_app.
  - unfold requests in *. rewrite List.filter_app, Hq. change (a :: calls) with ([a] ++ calls).
    unfold asked. rewrite omap_app. f_equal. apply asked_one.
Qed.

Lemma one_fresh p : one (fresh p).
Proof. constructor; [by constructor|]. intros _. by left. Qed.
End threads.

(** C37. The frame pump has one thread.  However often [start] and [stop] are
    called, and however the threads that were started are scheduled, every
    thread but the first stays outside the loop's body, and the pump goes
    through what [Stream]'s single thread goes through, under the same
    requests in the same order. *)
Theorem pump_threads_refine guests encode p calls :
  let l := lrun guests encode (fresh p) calls in
  Forall at_rest (tail (li_threads l)) /\
  exists acts, shown l = Stream.run guests encode (Stream.start p) acts /\ requests acts = asked calls.
Proof.
  intros l. destruct (one_run guests encode calls (fresh p) (one_fresh p)) as [[Hr _] H]. done.
Qed.

(** A pump that was stopped cannot be started again: [stop] forgets the
    thread, so that [start] makes another, and leaves [_stop] set, so that
    this one ends at its first test.  Once the first thread is out of its
    round the picture never changes, whoever calls [start]. *)
Theorem stopped_pump_never_restarts guests encode l calls :
  one l -> li_stop l = true -> first_pc l = Idle -> asked calls = [] ->
  let l' := lrun guests encode l calls in
  li_pump l' = li_pump l /\ Forall at_rest (li_threads l').
Proof.
  revert l. induction calls as [|a calls IH]; intros l Hl Hs Hi Ha.
  - split; [done|]. destruct Hl as [Hr _]. unfold first_pc in Hi. cbn. destruct (li_threads l) as [|[c|] ts]; [done|..].
    + subst c. by constructor; [right|].
    + by constructor; [left|].
  - assert (asked [a] = [] /\ asked calls = []) as [Ha1 Ha2].
    { change (a :: calls) with ([a] ++ calls) in Ha. unfold asked in *. rewrite omap_app in Ha. by apply app_eq_nil in Ha. }
    destruct (one_step guests encode l a Hl) as [H1 E1].
    assert (shown (lstep guests encode l a) = shown l) as E.
    { rewrite E1. unfold Stream.run. destruct a as [| |[|i] t| |]; try done; cbn [as_actions foldl].
      - unfold shown. cbn. by rewrite Hs.
      - destruct (li_threads l) as [|[c|] ts]; [done| |done]. unfold shown. rewrite Hi, Hs.
        destruct t; try done. cbn. by destruct (pm_grabber _). }
    unfold shown in E. injection E as Ep Ec _ Es.
    destruct (IH _ H1 ltac:(congruence) ltac:(congruence) Ha2) as [Hp H]. rewrite Ep in Hp. by split.
Qed.

Lemma stopped_pump_never_restarts_witness :
  let l := Life (init (Some 0%nat) 0 0) 3 true None [None] in
  let l' := lrun (Stream.still (zrep 1024 1)) Stream.plain l [CStart; CThread 1 TTake; CThread 1 TEnd] in
  li_pump l' = li_pump l /\ Forall at_rest (li_threads l').
Proof.
  apply stopped_pump_never_restarts; [|reflexivity..].
  constructor; [by constructor|]. intros H. discriminate H.
Defined.
