(* ===== verification/Buffers.v ===== *)
(** Where a firmware keeps its screen, [src/tools/uvk5_buffers.py]: the search
    of guest RAM for the controller's memory, the symbol table of a linked
    ELF, and the choice between the two. *)
From S2P Require Import Prelude Struct Lcd.

Definition SRAM_BASE : Z := 0x20000000.
Definition SRAM_SIZE : Z := 0x4000.
Definition TOTAL : Z := FRAME_BYTES + STATUS_BYTES.

(** [sum(1 for a, b in zip(l1, l2) if a == b)]. *)
Fixpoint agreeing (l1 l2 : list Z) : Z :=
  match l1, l2 with
  | a :: l1, b :: l2 => (if a =? b then 1 else 0) + agreeing l1 l2
  | _, _ => 0
  end.

Definition score (sram : list Z) (offset : Z) (gram : list Z) : Z :=
  if (offset <? 0) || (zlen sram <? offset + FRAME_BYTES + STATUS_BYTES) then -1
  else
    let frame := slice offset (offset + FRAME_BYTES) sram in
    let status := slice (offset + FRAME_BYTES) (offset + FRAME_BYTES + STATUS_BYTES) sram in
    agreeing frame (drop (Z.to_nat STATUS_BYTES) gram) + agreeing status (slice 0 STATUS_BYTES gram).

(** The loop of [locate]: the best score so far and where. *)
Definition better (sram gram : list Z) (best : Z * option Z) (offset : Z) : Z * option Z :=
  let value := score sram offset gram in
  if best.1 <? value then (value, Some offset) else best.

Definition locate (sram gram : list Z) : option Z * option Z * Z * Z :=
  match foldl (better sram gram) (-1, None) (zrange (zlen sram - TOTAL + 1)) with
  | (_, None) => (None, None, 0, TOTAL)
  | (best, Some at_) => (Some (SRAM_BASE + at_), Some (SRAM_BASE + at_ + FRAME_BYTES), best, TOTAL)
  end.

(** ** Symbols *)

Record shdr := Shdr { sh_type : Z; sh_offset : Z; sh_size : Z; sh_link : Z; sh_entsize : Z }.

Definition shdr_fmt : list field := [fI; fI; fI; fI; fI; fI; fI; fI; fI; fI].

Definition read_shdr (data : list Z) (at_ : Z) : result shdr :=
  '(_, (type, (_, (_, (offset, (size, (link, (_, (_, (entsize, _)))))))))) ← unpack_from shdr_fmt data at_;
  Ok (Shdr type offset size link entsize).

(** [blob[name:blob.find(b"\x00", name)]]: without a NUL the end is -1, which
    leaves out the last byte. *)
Definition symbol_name (blob : list Z) (name : Z) : list Z :=
  let rest := drop (Z.to_nat name) blob in
  if bool_decide (0 ∈ rest) then until_nul rest else slice name (zlen blob - 1) blob.

(** The entries of one symbol table section, added to the names found. *)
Definition read_symbol (data blob : list Z) (offset step : Z) (found : gmap (list Z) Z) (k : Z)
  : result (gmap (list Z) Z) :=
  '(name, (value, _)) ← unpack_from [fI; fI] data (offset + k * step);
  Ok (if (name =? 0) || (value =? 0) then found
      else <[decode_replace (symbol_name blob name) := value]> found).

Definition read_symtab (data : list Z) (sections : list shdr) (found : gmap (list Z) Z) (s : shdr)
  : result (gmap (list Z) Z) :=
  if negb ((sh_type s =? 2) || (sh_type s =? 11)) then Ok found
  else
    match sections !! Z.to_nat (sh_link s) with
    | None => raise IndexError "list index out of range" []
    | Some strings =>
        let blob := slice (sh_offset strings) (sh_offset strings + sh_size strings) data in
        let step := if sh_entsize s =? 0 then 16 else sh_entsize s in
        foldM (read_symbol data blob (sh_offset s) step) found (zrange (sh_size s / step))
    end.

(** [data] is [None] when the file cannot be read. *)
Definition from_symbols (data : option (list Z)) : result (option Z * option Z) :=
  match data with
  | None => Ok (None, None)
  | Some data =>
      if (zlen data <? 52) || negb (bool_decide (slice 0 4 data = 0x7f :: lit "ELF"))
         || negb (bool_decide (data !! 4%nat = Some 1))
      then Ok (None, None)
      else
        '(e_shoff, _) ← unpack_from [fI] data 0x20;
        '(e_shentsize, (e_shnum, _)) ← unpack_from [fH; fH; fH] data 0x2E;
        if (e_shoff =? 0) || (e_shnum =? 0) then Ok (None, None)
        else
          sections ← foldM (fun acc i => s ← read_shdr data (e_shoff + i * e_shentsize); Ok (acc ++ [s]))
                       [] (zrange e_shnum);
          found ← foldM (read_symtab data sections) ∅ sections;
          Ok (match found !! lit "gFrameBuffer", found !! lit "gStatusLine" with
              | Some frame, Some status =>
                  if negb (frame =? 0) && negb (status =? 0) then (Some frame, Some status) else (None, None)
              | _, _ => (None, None)
              end)
  end.

(** ** Discovery *)

Inductive how := ElfSymbols | NoEmulator | SramSearch | SramSearchWeak.
#[export] Instance how_eq_dec : EqDecision how.
Proof. solve_decision. Defined.

(** The sentence of each. *)
Definition how_text (h : how) : list Z :=
  match h with
  | ElfSymbols => lit "elf symbols"
  | NoEmulator => lit "no emulator"
  | SramSearch => lit "sram search"
  | SramSearchWeak => lit "sram search (weak match)"
  end.

Record buffers := Buffers {
  bf_frame : option Z;
  bf_status : option Z;
  bf_how : how;
  bf_score : option Z;
  bf_total : option Z
}.

(** The answer of the search; [best >= 0.90 * total] on integers. *)
Definition found_by_search (l : option Z * option Z * Z * Z) : buffers :=
  let '(frame, status, best, total) := l in
  Buffers frame status (if 9 * total <=? 10 * best then SramSearch else SramSearchWeak)
    (Some best) (Some total).

(** [discover]: [image] is the file behind a non-empty image path, [client]
    the guest behind a connection. *)
Definition discover (client : option guest) (gram : option (list Z)) (image : option (option (list Z)))
  : G buffers :=
  symbols ← match image with
            | Some data => lift (from_symbols data)
            | None => mret (None, None)
            end;
  match symbols with
  | (Some frame, status) => mret (Buffers (Some frame) status ElfSymbols None None)
  | _ =>
      match client with
      | None => mret (Buffers None None NoEmulator (Some 0) (Some 0))
      | Some g =>
          gram ← match gram with Some gram => mret gram | None => panel_gram g end;
          sram ← memsave g SRAM_BASE SRAM_SIZE;
          mret (found_by_search (locate sram gram))
      end
  end.

(** ** The search *)

Lemma agreeing_le l1 l2 : 0 <= agreeing l1 l2 <= zlen l2.
Proof.
  revert l2. induction l1 as [|a l1 IH]; intros l2; [pose proof (zlen_nonneg l2); cbn; lia|].
  destruct l2 as [|b l2]; cbn [agreeing]; [done|]. rewrite zlen_cons. specialize (IH l2).
  destruct (a =? b); lia.
Qed.

Lemma agreeing_full l1 l2 : length l1 = length l2 -> agreeing l1 l2 = zlen l2 <-> l1 = l2.
Proof.
  revert l2. induction l1 as [|a l1 IH]; intros [|b l2] Hl; try done.
  cbn [agreeing]. rewrite zlen_cons. injection Hl as Hl. specialize (IH l2 Hl).
  pose proof (agreeing_le l1 l2). destruct (Z.eqb_spec a b) as [->|].
  - split; [intros; f_equal; apply IH; lia|intros [= ->]]. rewrite (proj2 IH) by done. lia.
  - split; [lia|intros [= -> ->]; done].
Qed.

(** What lies at an offset of SRAM: the frame, then the status line. *)
Definition window (sram : list Z) (offset : Z) : list Z := slice offset (offset + TOTAL) sram.

Lemma score_bounds sram offset gram : zlen gram = TOTAL -> -1 <= score sram offset gram <= TOTAL.
Proof.
  intros Hg. unfold score. destruct (_ || _); [unfold TOTAL, FRAME_BYTES, STATUS_BYTES, FRAME_ROWS, LCD_WIDTH; lia|].
  set (l1 := slice offset _ sram). set (l2 := slice (offset + FRAME_BYTES) _ sram).
  pose proof (agreeing_le l1 (drop (Z.to_nat STATUS_BYTES) gram)) as H1.
  pose proof (agreeing_le l2 (slice 0 STATUS_BYTES gram)) as H2.
  unfold TOTAL, FRAME_BYTES, STATUS_BYTES, FRAME_ROWS, LCD_WIDTH in *.
  rewrite zlen_slice in H2 by lia. unfold zlen in *. rewrite length_drop in H1. lia.
Qed.

(** A full score is the screen itself. *)
Lemma score_full sram offset gram :
  zlen gram = TOTAL -> 0 <= offset -> offset + TOTAL <= zlen sram ->
  score sram offset gram = TOTAL <-> window sram offset = gram_frame gram ++ gram_status gram.
Proof.
  intros Hg Ho Hs. unfold score, window, gram_frame, gram_status.
  unfold TOTAL, FRAME_BYTES, STATUS_BYTES, FRAME_ROWS, LCD_WIDTH in *.
  rewrite (proj2 (Z.ltb_ge offset 0)), (proj2 (Z.ltb_ge _ _)) by lia. cbn [orb].
  set (fr := drop (Z.to_nat 128) gram). set (st := slice 0 128 gram).
  assert (zlen fr = 896) as Hfr by (unfold fr, zlen in *; rewrite length_drop; lia).
  assert (zlen st = 128) as Hst by (unfold st; rewrite zlen_slice; lia).
  set (l1 := slice offset (offset + 7 * 128) sram).
  set (l2 := slice (offset + 7 * 128) (offset + 7 * 128 + 128) sram).
  assert (zlen l1 = 896) as Hl1 by (unfold l1; rewrite zlen_slice; lia).
  assert (zlen l2 = 128) as Hl2 by (unfold l2; rewrite zlen_slice; lia).
  assert (slice offset (offset + (7 * 128 + 128)) sram = l1 ++ l2) as ->.
  { unfold l1, l2, slice. replace (Z.to_nat (offset + (7 * 128 + 128) - offset)) with (896 + 128)%nat by lia.
    replace (Z.to_nat (offset + 7 * 128 - offset)) with 896%nat by lia.
    replace (Z.to_nat (offset + 7 * 128 + 128 - (offset + 7 * 128))) with 128%nat by lia.
    rewrite <- take_take_drop, drop_drop. do 3 f_equal. lia. }
  pose proof (agreeing_le l1 fr). pose proof (agreeing_le l2 st).
  assert (length l1 = length fr) as L1 by (unfold zlen in *; lia).
  assert (length l2 = length st) as L2 by (unfold zlen in *; lia).
  split.
  - intros Hsum. f_equal; apply agreeing_full; lia.
  - intros [E1 E2]%app_inj_1; [|done]. rewrite E1, E2 in *.
    rewrite (proj2 (agreeing_full fr fr eq_refl)), (proj2 (agreeing_full st st eq_refl)) by done. lia.
Qed.

Lemma foldl_better sram gram n :
  let '(b, at_) := foldl (better sram gram) (-1, None) (map Z.of_nat (seq 0 n)) in
  (forall o, 0 <= o < Z.of_nat n -> score sram o gram <= b) /\
  match at_ with
  | None => b = -1
  | Some o => 0 <= o < Z.of_nat n /\ score sram o gram = b /\ -1 < b /\
      forall o', 0 <= o' < o -> score sram o' gram < b
  end.
Proof.
  induction n as [|n IH]; [split; [lia|done]|].
  rewrite seq_S, map_app, foldl_app. cbn [map foldl Nat.add].
  destruct (foldl _ _ _) as [b at_]. destruct IH as [Hle Hat]. unfold better. cbn [fst].
  destruct (Z.ltb_spec b (score sram (Z.of_nat n) gram)) as [Hlt|Hge].
  - split.
    + intros o Ho. destruct (decide (o = Z.of_nat n)) as [->|]; [done|]. specialize (Hle o). lia.
    + split; [lia|]. split; [done|]. split.
      * destruct at_ as [o|]; [|lia]. destruct Hat as (_ & _ & ? & _). lia.
      * intros o' Ho'. specialize (Hle o'). lia.
  - split.
    + intros o Ho. destruct (decide (o = Z.of_nat n)) as [->|]; [done|]. apply Hle. lia.
    + destruct at_ as [o|]; [|done]. destruct Hat as (? & ? & ? & ?). split; [lia|done].
Qed.

(** The offset [locate] settles on: the first of those that agree best. *)
Definition best_offset (sram gram : list Z) (o : Z) : Prop :=
  0 <= o /\ o + TOTAL <= zlen sram /\
  (forall o', 0 <= o' -> o' + TOTAL <= zlen sram -> score sram o' gram <= score sram o gram) /\
  (forall o', 0 <= o' < o -> score sram o' gram < score sram o gram).

Lemma score_nonneg sram o gram : 0 <= o -> o + TOTAL <= zlen sram -> 0 <= score sram o gram.
Proof.
  intros Ho Hs. unfold score, TOTAL in *.
  rewrite (proj2 (Z.ltb_ge o 0)), (proj2 (Z.ltb_ge _ _)) by lia. cbn [orb].
  set (l1 := slice o _ sram). set (l2 := slice (o + FRAME_BYTES) _ sram).
  pose proof (agreeing_le l1 (drop (Z.to_nat STATUS_BYTES) gram)).
  pose proof (agreeing_le l2 (slice 0 STATUS_BYTES gram)). lia.
Qed.

Lemma locate_found sram gram :
  TOTAL <= zlen sram ->
  exists o, best_offset sram gram o /\
    locate sram gram = (Some (SRAM_BASE + o), Some (SRAM_BASE + o + FRAME_BYTES), score sram o gram, TOTAL).
Proof.
  intros Hs. unfold locate, zrange. set (n := Z.to_nat (zlen sram - TOTAL + 1)).
  pose proof (foldl_better sram gram n) as Hf.
  destruct (foldl _ _ _) as [b [o|]]; destruct Hf as [Hle Hat].
  - destruct Hat as (Ho & <- & _ & Hlt). exists o. split; [|done].
    split; [lia|]. split; [lia|]. split; [|done]. intros o' ? ?. apply Hle. lia.
  - exfalso. subst b. specialize (Hle 0). pose proof (score_nonneg sram 0 gram). lia.
Qed.

(** The search finds the screen.  In any RAM large enough it answers the
    first of the offsets whose bytes agree best with the controller's memory,
    the frame at the address and the status line after it; and if the screen
    is in RAM at all, byte for byte, it answers where it first is, with a full
    score. *)
Theorem locate_finds_screen sram gram :
  zlen gram = TOTAL -> TOTAL <= zlen sram ->
  exists o, best_offset sram gram o /\
    locate sram gram = (Some (SRAM_BASE + o), Some (SRAM_BASE + o + FRAME_BYTES), score sram o gram, TOTAL) /\
    forall o', 0 <= o' -> o' + TOTAL <= zlen sram -> window sram o' = gram_frame gram ++ gram_status gram ->
      score sram o gram = TOTAL /\ o <= o' /\ window sram o = gram_frame gram ++ gram_status gram.
Proof.
  intros Hg Hs. destruct (locate_found sram gram Hs) as (o & Hb & Hl). exists o.
  split; [exact Hb|]. split; [exact Hl|]. intros o' Ho' Hs' Hw.
  destruct Hb as (Ho & Hso & Hmax & Hmin).
  apply (score_full sram o' gram Hg Ho' Hs') in Hw.
  pose proof (score_bounds sram o gram Hg). specialize (Hmax o' Ho' Hs').
  assert (score sram o gram = TOTAL) as Hfull by lia.
  split; [exact Hfull|]. split.
  - destruct (Z.le_gt_cases o o'); [done|]. specialize (Hmin o'). lia.
  - by apply score_full.
Qed.

(** A RAM with the screen at 0x419, behind a decoy that differs in one byte. *)
Definition gram0 : list Z := zrep 128 3 ++ zrep 896 5.
Definition sram0 : list Z :=
  zrep 0x12 0 ++ (zrep 895 5 ++ [4]) ++ zrep 128 3 ++ zrep 7 9 ++ zrep 896 5 ++ zrep 128 3 ++ zrep 4 0.

Lemma locate_finds_screen_witness :
  zlen gram0 = TOTAL /\ TOTAL <= zlen sram0 /\
  exists o, best_offset sram0 gram0 o /\
    locate sram0 gram0 = (Some (SRAM_BASE + o), Some (SRAM_BASE + o + FRAME_BYTES), score sram0 o gram0, TOTAL).
Proof.
  split; [reflexivity|]. split; [vm_compute; discriminate|].
  destruct (locate_finds_screen sram0 gram0) as (o & H1 & H2 & _); [reflexivity|vm_compute; discriminate|].
  exists o. exact (conj H1 H2).
Defined.

Example locate_sram0 :
  locate sram0 gram0 = (Some 0x20000419, Some 0x20000799, 1024, 1024).
Proof. vm_compute. reflexivity. Qed.


(** On a running emulator whose file has no symbols, discovery is the search,
    over the memory at the first command and the RAM at the second. *)
Lemma discover_searches g gram image t s0 s1 p :
  wf_bytes gram -> from_symbols image = Ok (None, None) ->
  g t = Some s0 -> sn_panel s0 = Some p -> pn_gram p = hex_text gram -> g (S t) = Some s1 ->
  discover (Some g) None (Some image) t =
    (S (S t), Ok (found_by_search (locate (take (Z.to_nat SRAM_SIZE) (sn_mem s1 SRAM_BASE)) gram))).
Proof.
  intros Hw Hi H0 Hp Hgr H1. unfold discover. rewrite Hi.
  rewrite (G_bind_ok (lift _) _ t t (None, None) eq_refl).
  rewrite (G_bind_ok (panel_gram g) _ t (S t) gram (panel_gram_ok g gram Hw t s0 p H0 Hp Hgr)).
  unfold mbind at 1, G_bind at 1. unfold memsave, command. by rewrite H1.
Qed.

(** A linked ELF of one symbol table and its strings: the two buffers. *)
Definition strtab0 : list Z := [0] ++ lit "gFrameBuffer" ++ [0] ++ lit "gStatusLine" ++ [0].
Definition sym0 (name value : Z) : list Z := le_enc 4 name ++ le_enc 4 value ++ zrep 8 0.
Definition shdr0 (type offset size link entsize : Z) : list Z :=
  concat (map (le_enc 4) [0; type; 0; 0; offset; size; link; 0; 0; entsize]).
Definition elf0 : list Z :=
  (0x7f :: lit "ELF" ++ [1] ++ zrep 27 0) ++ le_enc 4 52 ++ zrep 10 0
  ++ le_enc 2 40 ++ le_enc 2 2 ++ le_enc 2 0
  ++ shdr0 2 132 32 1 16 ++ shdr0 3 164 (zlen strtab0) 0 0
  ++ sym0 1 0x200012BE ++ sym0 14 0x2000163E ++ strtab0.

Example elf0_symbols : from_symbols (Some elf0) = Ok (Some 0x200012BE, Some 0x2000163E).
Proof. vm_compute. reflexivity. Qed.
