(* ===== verification/Qmp.v ===== *)
(** The QMP clients of [src/tools/uvk5_qmp.py] and [src/tools/key.py]: JSON
    messages a line each, replies among events, and the key presses that
    key.py sends through them. *)
From S2P Require Import Prelude Text Endpoint.

Definition NEWLINE : Z := 10.

(** What is sent: a command and its arguments. *)
Inductive arg := ArgStr (s : list Z) | ArgInt (n : Z) | ArgBool (b : bool).
Record payload := Payload { pl_execute : list Z; pl_arguments : list (list Z * arg) }.

(** What the client did: bytes sent, time slept, lines printed. *)
Inductive effect := Sent (line : list Z) | Slept (ms : Z) | Printed (line : list Z).

(** The client: what it has buffered, the chunks [recv] will return (an empty
    one, or none, is a closed connection) and its effects. *)
Record qmp := Qmp { q_buf : list Z; q_in : list (list Z); q_out : list effect }.

Section client.
(** [json.dumps(payload).encode()] and [json.loads(line)], a value by key. *)
Context {V : Type} (dumps : payload -> list Z) (loads : list Z -> result (gmap (list Z) V)).
(** How the client reports a closed connection and an error reply: uvk5_qmp
    raises RuntimeError, key.py SystemExit. *)
Context (closed : exn) (failed : V -> exn).

(** The loop of [_read_json] and the split of the buffer: the line, what is
    buffered afterwards and what is still to come. *)
Fixpoint read_line (chunks : list (list Z)) (buf : list Z) : result (list Z) * list Z * list (list Z) :=
  if bool_decide (NEWLINE ∈ buf)
  then let '(line, rest) := partition NEWLINE buf in (Ok line, rest, chunks)
  else match chunks with
       | [] => (Raise closed, buf, [])
       | [] :: chunks => (Raise closed, buf, chunks)
       | c :: chunks => read_line chunks (buf ++ c)
       end.

Definition _read_json (q : qmp) : qmp * result (gmap (list Z) V) :=
  let '(line, buf, chunks) := read_line (q_in q) (q_buf q) in
  (Qmp buf chunks (q_out q), line ≫= loads).

(** The loop of [command]; [None] is running out of fuel. *)
Fixpoint await_reply (fuel : nat) (q : qmp) : option (qmp * result V) :=
  match fuel with
  | O => None
  | S fuel =>
      match _read_json q with
      | (q, Raise e) => Some (q, Raise e)
      | (q, Ok msg) =>
          match msg !! lit "error", msg !! lit "return" with
          | Some e, _ => Some (q, Raise (failed e))
          | None, Some v => Some (q, Ok v)
          | None, None => await_reply fuel q
          end
      end
  end.

(** The bytes that can still arrive; every message takes one at least. *)
Definition pending (q : qmp) : list Z := q_buf q ++ concat (q_in q).

Definition command (p : payload) (q : qmp) : option (qmp * result V) :=
  let q := Qmp (q_buf q) (q_in q) (q_out q ++ [Sent (dumps p ++ [NEWLINE])]) in
  await_reply (S (length (pending q))) q.

(** The constructor, once connected: the greeting, then capabilities. *)
Definition open_client (chunks : list (list Z)) : option (qmp * result V) :=
  match _read_json (Qmp [] chunks []) with
  | (q, Raise e) => Some (q, Raise e)
  | (q, Ok _) => command (Payload (lit "qmp_capabilities") []) q
  end.

(** ** key.py *)

Definition KEYPAD_PATH : list Z := lit "/machine/keypad".
Definition HOLD_MS : Z := 200.
Definition LONG_HOLD_MS : Z := 900.
Definition GAP_MS : Z := 400.
Definition KEYS : list (list Z) :=
  map lit ["MENU"; "UP"; "DOWN"; "EXIT"; "F"; "STAR"; "0"; "1"; "2"; "3"; "4"; "5"; "6"; "7"; "8"; "9";
           "SIDE1"; "SIDE2"]%string.

Definition key_payload (value : list Z) : payload :=
  Payload (lit "qom-set") [(lit "path", ArgStr KEYPAD_PATH); (lit "property", ArgStr (lit "press"));
                           (lit "value", ArgStr value)].

Definition set_key (value : list Z) (q : qmp) : option (qmp * result V) := command (key_payload value) q.

Definition sleep (ms : Z) (q : qmp) : qmp := Qmp (q_buf q) (q_in q) (q_out q ++ [Slept ms]).

Definition press (key : list Z) (hold_ms : Z) (q : qmp) : option (qmp * result unit) :=
  match set_key key q with
  | Some (q, Ok _) =>
      match set_key [] (sleep hold_ms q) with
      | Some (q, Ok _) => Some (sleep GAP_MS q, Ok tt)
      | Some (q, Raise e) => Some (q, Raise e)
      | None => None
      end
  | Some (q, Raise e) => Some (q, Raise e)
  | None => None
  end.

Definition say (line : list Z) (q : qmp) : qmp := Qmp (q_buf q) (q_in q) (q_out q ++ [Printed line]).
Definition pressed_text (key : list Z) (hold : Z) : list Z :=
  lit "pressed " ++ key ++ lit " (" ++ decimal hold ++ lit " ms)".

Fixpoint press_all (keys : list (list Z)) (hold : Z) (q : qmp) : option (qmp * result unit) :=
  match keys with
  | [] => Some (q, Ok tt)
  | key :: keys =>
      match press key hold q with
      | Some (q, Ok _) => press_all keys hold (say (pressed_text key hold) q)
      | r => r
      end
  end.

(** [args.hold if args.hold else (LONG_HOLD_MS if args.long else HOLD_MS)]. *)
Definition hold_ms (hold : option Z) (long : bool) : Z :=
  let default := if long then LONG_HOLD_MS else HOLD_MS in
  match hold with Some h => if h =? 0 then default else h | None => default end.

(** [main] over the parsed arguments, what the attempt to connect gave and the
    connection's chunks; [upper] is [str.upper].  No keys at all is argparse's
    error exit. *)
Definition main (upper : list Z -> list Z) (list_ : bool) (keys : list (list Z)) (hold : option Z) (long : bool)
    (sock : result target) (chunks : list (list Z)) : option (qmp * result unit) :=
  let q := Qmp [] chunks [] in
  if list_ then Some (say (Text.join [32] KEYS) q, Ok tt) else
  if bool_decide (keys = []) then Some (q, raise SystemExit "no keys given (try --list)" []) else
  if negb (forallb (fun k => bool_decide ((upper k) ∈ KEYS)) keys)
  then Some (q, raise SystemExit "unknown key(s): %s" [])
  else
    match sock with
    | Raise e => Some (q, Raise e)
    | Ok _ =>
        match open_client chunks with
        | Some (q, Ok _) => press_all (map upper keys) (hold_ms hold long) q
        | Some (q, Raise e) => Some (q, Raise e)
        | None => None
        end
    end.

End client.

(** ** key.py's own client, from the --socket it is given *)

Definition key_target (path : list Z) : result target :=
  let '(host, port) := rpartition COLON path in
  if negb (bool_decide (host = [])) && isdigit port
  then p ← int_of port; Ok (Tcp host p) else Ok (Unix path).
(** The constructor up to the socket; [accepted] is the system's answer. *)
Definition key_connect (path : list Z) (accepted : bool) : result target :=
  t ← key_target path;
  if accepted : bool then Ok t else raise SystemExit "cannot reach the emulator at {path}: {exc}" path.

Definition key_closed : exn := Exn SystemExit "emulator closed the QMP connection" [].

Section key_tool.
Context {V : Type} (dumps : payload -> list Z) (loads : list Z -> result (gmap (list Z) V)) (str_error : V -> list Z).
(** The error reply as text. *)
Definition key_failed (error : V) : exn := Exn SystemExit "QMP error: %s" (str_error error).
Definition key_read_json : qmp -> qmp * result (gmap (list Z) V) := _read_json loads key_closed.
Definition key_command : payload -> qmp -> option (qmp * result V) := command dumps loads key_closed key_failed.
Definition key_tool (upper : list Z -> list Z) (list_ : bool) (keys : list (list Z)) (hold : option Z) (long : bool)
    (path : list Z) (accepted : bool) (chunks : list (list Z)) : option (qmp * result unit) :=
  main dumps loads key_closed key_failed upper list_ keys hold long (key_connect path accepted) chunks.
End key_tool.

(** ** Lines *)

Section lines.
Context (closed : exn).

Lemma partition_split buf :
  NEWLINE ∈ buf -> exists l r, buf = l ++ NEWLINE :: r /\ (NEWLINE ∉ l) /\ partition NEWLINE buf = (l, r).
Proof.
  intros Hin. apply list_elem_of_split_l in Hin as (l & r & -> & Hl).
  exists l, r. split; [done|]. split; [done|]. by apply partition_app.
Qed.

(** Reading a line: whatever the chunks, it is the line, and what can still
    arrive is what followed it. *)
Lemma read_line_stream l r : NEWLINE ∉ l -> forall chunks buf,
  Forall (fun c => c <> []) chunks -> buf ++ concat chunks = l ++ NEWLINE :: r ->
  exists rest chunks', read_line closed chunks buf = (Ok l, rest, chunks') /\
    rest ++ concat chunks' = r /\ Forall (fun c => c <> []) chunks'.
Proof.
  intros Hl chunks. induction chunks as [|c chunks IH]; intros buf Hc He; cbn [read_line].
  - cbn [concat] in He. rewrite app_nil_r in He. subst buf.
    rewrite bool_decide_true by set_solver. rewrite partition_app by done.
    exists r, []. split; [done|]. split; [by rewrite app_nil_r|done].
  - apply Forall_cons in Hc as [Hne Hc]. destruct (decide (NEWLINE ∈ buf)) as [Hin|Hni].
    + rewrite bool_decide_true by done. destruct (partition_split buf Hin) as (l1 & r1 & -> & Hl1 & Hp).
      rewrite Hp. rewrite <- app_assoc in He. cbn [app] in He.
      pose proof (f_equal (partition NEWLINE) He) as Hpe. rewrite !partition_app in Hpe by done.
      injection Hpe as -> Hr. 
      exists r1, (c :: chunks). split; [done|]. split; [done|by constructor].
    + rewrite bool_decide_false by done. destruct c as [|x c]; [done|].
      apply IH; [done|]. rewrite <- He. cbn [concat]. by rewrite <- app_assoc.
Qed.
End lines.

(** ** The client against a server that speaks the protocol *)

Section against_server.
Context {V : Type} (dumps : payload -> list Z) (loads : list Z -> result (gmap (list Z) V)).
Context (closed : exn) (failed : V -> exn).

Definition chunked (chunks : list (list Z)) : Prop := Forall (fun c => c <> []) chunks.

(** A line of the server is an object; an event has neither key. *)
Definition says (line : list Z) (msg : gmap (list Z) V) : Prop :=
  (NEWLINE ∉ line) /\ loads line = Ok msg.
Definition is_event (line : list Z) : Prop :=
  exists msg, says line msg /\ msg !! lit "error" = None /\ msg !! lit "return" = None.

(** What the client makes of a reply. *)
Definition reply_result (msg : gmap (list Z) V) : option (result V) :=
  match msg !! lit "error", msg !! lit "return" with
  | Some e, _ => Some (Raise (failed e))
  | None, Some v => Some (Ok v)
  | None, None => None
  end.

Definition wire (lines : list (list Z)) : list Z := concat (map (fun l => l ++ [NEWLINE]) lines).

Lemma wire_cons l ls : wire (l :: ls) = l ++ NEWLINE :: wire ls.
Proof. unfold wire. cbn [map concat]. by rewrite <- app_assoc. Qed.

Lemma wire_app l1 l2 : wire (l1 ++ l2) = wire l1 ++ wire l2.
Proof. unfold wire. by rewrite map_app, concat_app. Qed.

Lemma read_json_stream line msg r q :
  says line msg -> chunked (q_in q) -> pending q = line ++ NEWLINE :: r ->
  exists q', _read_json loads closed q = (q', Ok msg) /\ pending q' = r /\ chunked (q_in q') /\
    q_out q' = q_out q.
Proof.
  intros [Hn Hl] Hc He.
  destruct (read_line_stream closed line r Hn (q_in q) (q_buf q) Hc He) as (rest & chunks & Hr & Hp & Hc').
  exists (Qmp rest chunks (q_out q)). unfold _read_json. rewrite Hr. cbn [mbind result_bind]. by rewrite Hl.
Qed.

Lemma await_reply_stream events reply msg res : forall fuel q rest,
  (length events < fuel)%nat -> Forall is_event events -> says reply msg ->
  reply_result msg = Some res -> chunked (q_in q) ->
  pending q = wire (events ++ [reply]) ++ rest ->
  exists q', await_reply loads closed failed fuel q = Some (q', res) /\
    pending q' = rest /\ chunked (q_in q') /\ q_out q' = q_out q.
Proof.
  induction events as [|ev events IH]; intros [|fuel] q rest Hf Hev Hs Hr Hc Hp; cbn [length] in Hf; try lia;
    cbn [await_reply]; cbn [app] in Hp; rewrite wire_cons, <- app_assoc in Hp; cbn [app] in Hp.
  - destruct (read_json_stream reply msg _ q Hs Hc Hp) as (q' & -> & Hp' & Hc' & Ho').
    exists q'. cbn [wire map concat app] in Hp'. unfold reply_result in Hr.
    destruct (msg !! lit "error"), (msg !! lit "return"); try done; by injection Hr as <-.
  - apply Forall_cons in Hev as [(m & Hsay & Hne & Hnr) Hev].
    destruct (read_json_stream ev m _ q Hsay Hc Hp) as (q' & -> & Hp' & Hc' & Ho').
    rewrite Hne, Hnr. destruct (IH fuel q' rest) as (q2 & E & ? & ? & Ho2); try done; [lia|].
    exists q2. by rewrite E, Ho2.
Qed.

Lemma length_wire ls : (length ls <= length (wire ls))%nat.
Proof.
  induction ls as [|l ls IH]; [done|]. rewrite wire_cons, length_app. cbn [length]. lia.
Qed.

Lemma command_stream events reply msg res p q rest :
  Forall is_event events -> says reply msg -> reply_result msg = Some res -> chunked (q_in q) ->
  pending q = wire (events ++ [reply]) ++ rest ->
  exists q', command dumps loads closed failed p q = Some (q', res) /\
    pending q' = rest /\ chunked (q_in q') /\ q_out q' = q_out q ++ [Sent (dumps p ++ [NEWLINE])].
Proof.
  intros Hev Hs Hr Hc Hp. unfold command. set (q1 := Qmp _ _ _).
  apply (await_reply_stream events reply msg res); try done.
  change (pending q1) with (pending q). rewrite Hp, length_app.
  pose proof (length_wire (events ++ [reply])) as Hl. rewrite length_app in Hl. cbn [length] in Hl. lia.
Qed.

(** ** Termination *)

Lemma read_line_shrinks chunks : forall buf line rest chunks',
  read_line closed chunks buf = (Ok line, rest, chunks') ->
  (length (rest ++ concat chunks') < length (buf ++ concat chunks))%nat.
Proof.
  induction chunks as [|c chunks IH]; intros buf line rest chunks'; cbn [read_line];
    (case_bool_decide as Hin;
     [destruct (partition_split buf Hin) as (l & r & -> & _ & ->); intros [= <- <- <-];
      rewrite !length_app; cbn [length]; lia|]); [done|].
  destruct c as [|x c]; [done|]. intros H%IH. cbn [concat]. by rewrite app_assoc.
Qed.

Lemma await_reply_total fuel q :
  (length (pending q) < fuel)%nat -> exists r, await_reply loads closed failed fuel q = Some r.
Proof.
  revert q. induction fuel as [|fuel IH]; intros q Hf; [lia|]. cbn [await_reply]. unfold _read_json.
  destruct (read_line closed (q_in q) (q_buf q)) as [[[line|e] rest] chunks] eqn:E;
    cbn [mbind result_bind]; [|by eexists].
  destruct (loads line) as [msg|e]; [|by eexists].
  apply read_line_shrinks in E.
  destruct (msg !! lit "error"); [by eexists|]. destruct (msg !! lit "return"); [by eexists|].
  apply IH. unfold pending in *. cbn [q_buf q_in]. lia.
Qed.
End against_server.

(** C17. A command gets its own reply however the line is cut.  For any JSON
    parser and any server that answers with lines, the events before the reply
    are skipped, the result is the reply's value or the error it names, and
    what can still be read is exactly what the server sent after the reply,
    whatever chunks the system delivers: the next command starts at a line. *)
Theorem command_any_chunking {V} (dumps : payload -> list Z) (loads : list Z -> result (gmap (list Z) V))
    closed failed events reply msg res p q rest :
  Forall (is_event loads) events -> says loads reply msg -> reply_result failed msg = Some res ->
  chunked (q_in q) -> pending q = wire (events ++ [reply]) ++ rest ->
  exists q', command dumps loads closed failed p q = Some (q', res) /\
    pending q' = rest /\ chunked (q_in q') /\ q_out q' = q_out q ++ [Sent (dumps p ++ [NEWLINE])].
Proof. apply command_stream. Qed.

(** A toy codec: the key is the line's first word. *)
Definition toy_loads (line : list Z) : result (gmap (list Z) (list Z)) :=
  let '(key, v) := partition 32 line in Ok {[key := v]}.
Definition toy_dumps (p : payload) : list Z := pl_execute p.
Definition toy_closed : exn := Exn RuntimeError "QMP connection closed" [].
Definition toy_failed (v : list Z) : exn := Exn RuntimeError "QMP %s failed: %s" v.

Lemma command_any_chunking_witness :
  exists q' : qmp,
    command toy_dumps toy_loads toy_closed toy_failed (Payload (lit "stop") [])
      (Qmp (lit "eve") [lit "nt STOP"; [10] ++ lit "retu"; lit "rn 7" ++ [10; 101]] []) = Some (q', Ok (lit "7")) /\
    pending q' = [101] /\ chunked (q_in q') /\ q_out q' = [] ++ [Sent (lit "stop" ++ [NEWLINE])].
Proof.
  apply (command_any_chunking toy_dumps toy_loads toy_closed toy_failed [lit "event STOP"] (lit "return 7")
    {[lit "return" := lit "7"]}).
  - constructor; [|constructor]. eexists. split; [split; [|reflexivity]|split; reflexivity].
    refine (bool_decide_unpack _ _). vm_compute. exact I.
  - split; [|reflexivity]. refine (bool_decide_unpack _ _). vm_compute. exact I.
  - reflexivity.
  - repeat constructor; discriminate.
  - reflexivity.
Defined.

(** A command always ends: over any connection, whatever it sends, it
    returns, raises the server's error, raises what the parser raises, or
    reports the connection closed; one round per byte that can still arrive is
    enough. *)
Theorem command_total {V} (dumps : payload -> list Z) (loads : list Z -> result (gmap (list Z) V))
    closed failed p q :
  exists r, command dumps loads closed failed p q = Some r.
Proof. apply await_reply_total. unfold pending. lia. Qed.

(** ** Pressing keys *)

(** What a server sends for a sequence of commands: events and a return for
    each. *)
Definition group_ok {V} (loads : list Z -> result (gmap (list Z) V)) (g : list (list Z) * list Z) : Prop :=
  Forall (is_event loads) g.1 /\
  exists msg v, says loads g.2 msg /\ msg !! lit "error" = None /\ msg !! lit "return" = Some v.

Definition groups_wire (gs : list (list (list Z) * list Z)) : list Z :=
  concat (map (fun g => wire (g.1 ++ [g.2])) gs).

(** What pressing the keys one after the other does. *)
Definition key_effects (dumps : payload -> list Z) (hold : Z) (keys : list (list Z)) : list effect :=
  concat (map (fun k => [Sent (dumps (key_payload k) ++ [NEWLINE]); Slept hold;
                         Sent (dumps (key_payload []) ++ [NEWLINE]); Slept GAP_MS;
                         Printed (pressed_text k hold)]) keys).

Section pressing.
Context {V : Type} (dumps : payload -> list Z) (loads : list Z -> result (gmap (list Z) V)).
Context (closed : exn) (failed : V -> exn).

Lemma command_group g p q rest :
  group_ok loads g -> chunked (q_in q) -> pending q = wire (g.1 ++ [g.2]) ++ rest ->
  exists q' v, command dumps loads closed failed p q = Some (q', Ok v) /\
    pending q' = rest /\ chunked (q_in q') /\ q_out q' = q_out q ++ [Sent (dumps p ++ [NEWLINE])].
Proof.
  intros (Hev & msg & v & Hs & He & Hv) Hc Hp.
  destruct (command_stream dumps loads closed failed g.1 g.2 msg (Ok v) p q rest Hev Hs) as (q' & H1 & H2);
    [unfold reply_result; by rewrite He, Hv|done|done|].
  by exists q', v.
Qed.

Lemma press_all_groups hold keys : forall gs q rest,
  length gs = (2 * length keys)%nat -> Forall (group_ok loads) gs -> chunked (q_in q) ->
  pending q = groups_wire gs ++ rest ->
  exists q', press_all dumps loads closed failed keys hold q = Some (q', Ok tt) /\
    pending q' = rest /\ chunked (q_in q') /\ q_out q' = q_out q ++ key_effects dumps hold keys.
Proof.
  induction keys as [|k keys IH]; intros gs q rest Hl Hg Hc Hp.
  - destruct gs; [|done]. exists q. unfold key_effects. cbn. by rewrite app_nil_r.
  - destruct gs as [|g1 [|g2 gs]]; cbn [length] in Hl; try lia.
    apply Forall_cons in Hg as [Hg1 Hg]. apply Forall_cons in Hg as [Hg2 Hg].
    unfold groups_wire in Hp. cbn [map concat] in Hp. rewrite <- !app_assoc in Hp.
    destruct (command_group g1 (key_payload k) q _ Hg1 Hc Hp) as (q1 & v1 & E1 & P1 & C1 & O1).
    destruct (command_group g2 (key_payload []) (sleep hold q1) _ Hg2 C1 P1) as (q2 & v2 & E2 & P2 & C2 & O2).
    cbn [press_all]. unfold press, set_key. rewrite E1, E2.
    destruct (IH gs (say (pressed_text k hold) (sleep GAP_MS q2)) rest) as (q3 & E3 & P3 & C3 & O3); [lia|done|done|done|].
    exists q3. split; [exact E3|]. split; [done|]. split; [done|].
    rewrite O3. cbn [say sleep q_out]. rewrite O2. cbn [sleep q_out]. rewrite O1.
    unfold key_effects. cbn [map concat]. by rewrite <- !app_assoc.
Qed.
End pressing.

(** key.py presses exactly the keys it was given.  When every name is a
    key and the emulator greets and answers each command, [main] succeeds,
    and what it did is: negotiate, then for each key in order hold it for the
    chosen time, release the keypad, wait the gap, and say so. *)
Theorem key_main_presses {V} (dumps : payload -> list Z) (loads : list Z -> result (gmap (list Z) V))
    closed failed upper keys hold long target chunks greeting hello gs rest :
  keys <> [] -> Forall (fun k => upper k ∈ KEYS) keys -> says loads greeting hello ->
  length gs = S (2 * length keys) -> Forall (group_ok loads) gs -> chunked chunks ->
  concat chunks = wire [greeting] ++ groups_wire gs ++ rest ->
  exists q, main dumps loads closed failed upper false keys hold long (Ok target) chunks = Some (q, Ok tt) /\
    q_out q = Sent (dumps (Payload (lit "qmp_capabilities") []) ++ [NEWLINE])
              :: key_effects dumps (hold_ms hold long) (map upper keys).
Proof.
  intros Hne Hk Hgr Hl Hg Hc Hp. unfold main. rewrite bool_decide_false by done.
  rewrite (proj2 (forallb_forall _ keys)).
  2: { intros k Hin%list_elem_of_In. rewrite Forall_forall in Hk. by apply bool_decide_eq_true_2, Hk. }
  cbn [negb]. unfold open_client.
  unfold wire in Hp. cbn [map concat] in Hp. rewrite app_nil_r, <- app_assoc in Hp. cbn [app] in Hp.
  destruct (read_json_stream loads closed greeting hello _ (Qmp [] chunks []) Hgr Hc Hp)
    as (q0 & -> & P0 & C0 & O0).
  destruct gs as [|g gs]; [done|]. apply Forall_cons in Hg as [Hg1 Hg].
  unfold groups_wire in P0. cbn [map concat] in P0. rewrite <- app_assoc in P0.
  destruct (command_group dumps loads closed failed g (Payload (lit "qmp_capabilities") []) q0 _ Hg1 C0 P0)
    as (q1 & v & -> & P1 & C1 & O1).
  destruct (press_all_groups dumps loads closed failed (hold_ms hold long) (map upper keys) gs q1 rest)
    as (q2 & -> & _ & _ & O2); [rewrite length_map; cbn in Hl; lia|done|done|done|].
  exists q2. split; [done|]. by rewrite O2, O1, O0.
Qed.

Lemma key_main_presses_witness :
  exists q : qmp,
    main toy_dumps toy_loads toy_closed toy_failed (fun s => s) false [lit "MENU"] None true
      (Ok (Unix (lit "q")))
      [lit "QMP" ++ [10] ++ lit "ret"; lit "urn" ++ [10] ++ lit "return" ++ [10]; lit "return" ++ [10]]
      = Some (q, Ok tt) /\
    q_out q = Sent (lit "qmp_capabilities" ++ [NEWLINE])
              :: key_effects toy_dumps 900 [lit "MENU"].
Proof.
  assert (group_ok toy_loads ([], lit "return")) as Hg.
  { split; [constructor|]. exists {[lit "return" := []]}, []. split; [|split; reflexivity].
    split; [|reflexivity]. refine (bool_decide_unpack _ _). vm_compute. exact I. }
  apply (key_main_presses toy_dumps toy_loads toy_closed toy_failed (fun s => s) [lit "MENU"] None true (Unix (lit "q")) _
    (lit "QMP") {[lit "QMP" := []]} [([], lit "return"); ([], lit "return"); ([], lit "return")] []).
  - discriminate.
  - refine (bool_decide_unpack _ _). vm_compute. exact I.
  - split; [|reflexivity]. refine (bool_decide_unpack _ _). vm_compute. exact I.
  - reflexivity.
  - repeat (constructor; [exact Hg|]). constructor.
  - repeat constructor; discriminate.
  - reflexivity.
Defined.

(** Pressing nothing, or a key that does not exist, sends nothing at all. *)
Example key_main_refuses sock :
  main toy_dumps toy_loads toy_closed toy_failed (fun s => s) false [] None false sock []
    = Some (Qmp [] [] [], raise SystemExit "no keys given (try --list)" []) /\
  main toy_dumps toy_loads toy_closed toy_failed (fun s => s) false [lit "MENU"; lit "PTT"] None false sock []
    = Some (Qmp [] [] [], raise SystemExit "unknown key(s): %s" []).
Proof. split; vm_compute; reflexivity. Qed.

(** When the connection is refused key.py ends before anything is sent. *)
Theorem key_tool_refused {V} (dumps : payload -> list Z) (loads : list Z -> result (gmap (list Z) V)) str_error
    upper keys hold long path chunks :
  keys <> [] -> Forall (fun k => upper k ∈ KEYS) keys ->
  exists e, key_tool dumps loads str_error upper false keys hold long path false chunks = Some (Qmp [] chunks [], Raise e).
Proof.
  intros Hne Hk. unfold key_tool, main. rewrite bool_decide_false by done.
  rewrite (proj2 (forallb_forall _ keys)).
  2: { intros k Hin%list_elem_of_In. rewrite Forall_forall in Hk. by apply bool_decide_eq_true_2, Hk. }
  cbn [negb]. unfold key_connect. destruct (key_target path); cbn [mbind result_bind]; eauto.
Qed.
