(* ===== verification/Late.v ===== *)
(** The QMP client when a reply is late.  The sockets [connect] of
    [src/tools/uvk5_socket.py] returns keep the two-second timeout they were
    connected with, so [recv] in [QmpClient._read_json] of
    [src/tools/uvk5_qmp.py] may also raise [TimeoutError].  The callers in
    webui.py and uvk5_lcd.py catch it and go on with the same client. *)
From S2P Require Import Prelude Struct.
From S2P Require Import Endpoint Qmp.
Open Scope Z_scope.

(** What one [recv] does. *)
Inductive arrival := Got (chunk : list Z) | TimedOut.

(** The client, as [Qmp.qmp] has it. *)
Record conn := Conn { cn_buf : list Z; cn_in : list arrival; cn_out : list effect }.

Definition timed_out : exn := Exn OSError "timed out" [].

Section client.
Context {V : Type} (dumps : payload -> list Z) (loads : list Z -> result (gmap (list Z) V)).
Context (closed : exn) (failed : V -> exn).

(** What was read before the exception stays in the buffer. *)
Fixpoint read_until (arrivals : list arrival) (buf : list Z) : result (list Z) * list Z * list arrival :=
  if bool_decide (NEWLINE ∈ buf)
  then let '(line, rest) := partition NEWLINE buf in (Ok line, rest, arrivals)
  else match arrivals with
       | [] => (Raise closed, buf, [])
       | Got [] :: arrivals => (Raise closed, buf, arrivals)
       | TimedOut :: arrivals => (Raise timed_out, buf, arrivals)
       | Got c :: arrivals => read_until arrivals (buf ++ c)
       end.

Definition read_json (c : conn) : conn * result (gmap (list Z) V) :=
  let '(line, buf, arrivals) := read_until (cn_in c) (cn_buf c) in
  (Conn buf arrivals (cn_out c), line ≫= loads).

Fixpoint await_answer (fuel : nat) (c : conn) : option (conn * result V) :=
  match fuel with
  | O => None
  | S fuel =>
      match read_json c with
      | (c, Raise e) => Some (c, Raise e)
      | (c, Ok msg) =>
          match msg !! lit "error", msg !! lit "return" with
          | Some e, _ => Some (c, Raise (failed e))
          | None, Some v => Some (c, Ok v)
          | None, None => await_answer fuel c
          end
      end
  end.

Definition bytes_in (arrivals : list arrival) : list Z :=
  concat (map (fun a => match a with Got chunk => chunk | TimedOut => [] end) arrivals).

Definition command_late (p : payload) (c : conn) : option (conn * result V) :=
  let c := Conn (cn_buf c) (cn_in c) (cn_out c ++ [Sent (dumps p ++ [NEWLINE])]) in
  await_answer (S (length (cn_buf c ++ bytes_in (cn_in c)))) c.

(** One command after the other, whatever became of the one before. *)
Fixpoint commands (ps : list payload) (c : conn) : option (conn * list (result V)) :=
  match ps with
  | [] => Some (c, [])
  | p :: ps =>
      match command_late p c with
      | Some (c, r) => match commands ps c with Some (c, rs) => Some (c, r :: rs) | None => None end
      | None => None
      end
  end.

(** ** Without timeouts it is [QmpClient] as [Qmp] has it *)

Definition of_qmp (q : qmp) : conn := Conn (q_buf q) (map Got (q_in q)) (q_out q).

Lemma read_until_got chunks : forall buf,
  read_until (map Got chunks) buf =
    let '(line, rest, chunks') := read_line closed chunks buf in (line, rest, map Got chunks').
Proof.
  induction chunks as [|c chunks IH]; intros buf; cbn [map read_until read_line].
  - case_bool_decide; [by destruct (partition _ _)|done].
  - case_bool_decide; [by destruct (partition _ _)|]. destruct c; [done|apply IH].
Qed.

Lemma await_answer_got fuel q :
  await_answer fuel (of_qmp q) =
    match await_reply loads closed failed fuel q with Some (q, r) => Some (of_qmp q, r) | None => None end.
Proof.
  revert q. induction fuel as [|fuel IH]; intros q; [done|]. cbn [await_answer await_reply].
  unfold read_json, _read_json. cbn [of_qmp cn_in cn_buf cn_out]. rewrite read_until_got.
  destruct (read_line closed (q_in q) (q_buf q)) as [[line rest] chunks].
  destruct (line ≫= loads) as [msg|e]; [|done].
  destruct (msg !! lit "error"); [done|]. destruct (msg !! lit "return"); [done|].
  apply (IH (Qmp rest chunks (q_out q))).
Qed.

Lemma command_got p q :
  command_late p (of_qmp q) =
    match command dumps loads closed failed p q with Some (q, r) => Some (of_qmp q, r) | None => None end.
Proof.
  unfold command_late, command. cbn [of_qmp cn_buf cn_in cn_out].
  rewrite <- (await_answer_got _ (Qmp (q_buf q) (q_in q) (q_out q ++ [Sent (dumps p ++ [NEWLINE])]))).
  unfold of_qmp, pending. cbn [q_buf q_in q_out]. do 4 f_equal. unfold bytes_in.
  rewrite map_map. by rewrite map_id.
Qed.

(** ** Lines before a timeout *)

Lemma read_until_app chunks : forall buf line rest chunks' tail,
  read_line closed chunks buf = (Ok line, rest, chunks') ->
  read_until (map Got chunks ++ tail) buf = (Ok line, rest, map Got chunks' ++ tail).
Proof.
  induction chunks as [|c chunks IH]; intros buf line rest chunks' tail; cbn [map app read_line].
  - case_bool_decide as Hin; [|done]. destruct (partition _ _) as [l r] eqn:E. intros [= <- <- <-].
    destruct tail; cbn [read_until]; by rewrite bool_decide_true, E.
  - cbn [read_until]. case_bool_decide; [destruct (partition _ _); by intros [= <- <- <-]|].
    destruct c; [done|]. apply IH.
Qed.

Lemma read_until_times_out chunks : forall buf tail,
  chunked chunks -> NEWLINE ∉ buf ++ concat chunks ->
  read_until (map Got chunks ++ TimedOut :: tail) buf = (Raise timed_out, buf ++ concat chunks, tail).
Proof.
  induction chunks as [|c chunks IH]; intros buf tail Hc Hn; cbn [map app concat read_until] in *.
  - rewrite app_nil_r in *. by rewrite bool_decide_false.
  - apply Forall_cons in Hc as [Hne Hc]. rewrite bool_decide_false by set_solver.
    destruct c; [done|]. rewrite IH; [|done|by rewrite <- app_assoc]. by rewrite <- app_assoc.
Qed.

(** The events that are there are skipped; what follows them stays in the
    buffer when the wait ends. *)
Lemma await_answer_times_out seen part tail out : forall fuel buf chunks,
  (length seen < fuel)%nat -> Forall (is_event loads) seen -> NEWLINE ∉ part -> chunked chunks ->
  buf ++ concat chunks = wire seen ++ part ->
  await_answer fuel (Conn buf (map Got chunks ++ TimedOut :: tail) out) = Some (Conn part tail out, Raise timed_out).
Proof.
  induction seen as [|ev seen IH]; intros [|fuel] buf chunks Hf Hev Hp Hc He; cbn [length] in Hf; try lia;
    cbn [await_answer]; unfold read_json; cbn [cn_in cn_buf cn_out].
  - cbn [wire map concat app] in He. rewrite read_until_times_out by (done || by rewrite He). by rewrite He.
  - apply Forall_cons in Hev as [(m & [Hn Hl] & Hne & Hnr) Hev].
    rewrite wire_cons, <- app_assoc in He. cbn [app] in He.
    destruct (read_line_stream closed ev _ Hn chunks buf Hc He) as (rest & chunks' & Hr & Hp' & Hc').
    rewrite (read_until_app _ _ _ _ _ _ Hr). cbn [mbind result_bind]. rewrite Hl, Hne, Hnr.
    apply IH; try done. lia.
Qed.

Lemma bytes_in_app l1 l2 : bytes_in (l1 ++ l2) = bytes_in l1 ++ bytes_in l2.
Proof. unfold bytes_in. by rewrite map_app, concat_app. Qed.

Lemma bytes_in_got chunks : bytes_in (map Got chunks) = concat chunks.
Proof. unfold bytes_in. by rewrite map_map, map_id. Qed.

Lemma command_times_out p seen part tail buf chunks out :
  Forall (is_event loads) seen -> NEWLINE ∉ part -> chunked chunks -> buf ++ concat chunks = wire seen ++ part ->
  command_late p (Conn buf (map Got chunks ++ TimedOut :: tail) out)
    = Some (Conn part tail (out ++ [Sent (dumps p ++ [NEWLINE])]), Raise timed_out).
Proof.
  intros Hev Hn Hc He. unfold command_late. apply (await_answer_times_out seen); try done.
  cbn [cn_buf cn_in]. rewrite bytes_in_app, bytes_in_got, app_assoc, He, !length_app.
  pose proof (length_wire seen). lia.
Qed.

(** ** The answers that follow *)

(** A group of lines, events and a reply, whose result is [r]. *)
Definition answers (g : list (list Z) * list Z) (r : result V) : Prop :=
  Forall (is_event loads) g.1 /\ exists msg, says loads g.2 msg /\ reply_result failed msg = Some r.

Definition sent (ps : list payload) : list effect := map (fun p => Sent (dumps p ++ [NEWLINE])) ps.

Lemma commands_answered ps : forall q gs rs rest,
  Forall2 answers gs rs -> length ps = length gs -> chunked (q_in q) -> pending q = groups_wire gs ++ rest ->
  exists q', commands ps (of_qmp q) = Some (of_qmp q', rs) /\
    pending q' = rest /\ chunked (q_in q') /\ q_out q' = q_out q ++ sent ps.
Proof.
  induction ps as [|p ps IH]; intros q gs rs rest Hg Hl Hc Hp; destruct Hg as [|g r gs rs (Hev & m & Hs & Hr) Hg];
    try done; cbn [commands].
  - exists q. split; [done|]. split; [done|]. split; [done|]. by rewrite app_nil_r.
  - unfold groups_wire in Hp. cbn [map concat] in Hp. rewrite <- app_assoc in Hp.
    destruct (command_stream dumps loads closed failed g.1 g.2 m r p q _ Hev Hs Hr Hc Hp) as (q1 & E1 & P1 & C1 & O1).
    rewrite command_got, E1.
    destruct (IH q1 gs rs rest Hg) as (q2 & -> & P2 & C2 & O2); [cbn in Hl; lia|done|done|].
    exists q2. split; [done|]. split; [done|]. split; [done|]. rewrite O2, O1. unfold sent. cbn [map].
    by rewrite <- app_assoc.
Qed.
(** ** Termination *)

Lemma read_until_shrinks arrivals : forall buf line rest arrivals',
  read_until arrivals buf = (Ok line, rest, arrivals') ->
  (length (rest ++ bytes_in arrivals') < length (buf ++ bytes_in arrivals))%nat.
Proof.
  induction arrivals as [|a arrivals IH]; intros buf line rest arrivals'; cbn [read_until];
    (case_bool_decide as Hin;
     [destruct (partition_split buf Hin) as (l & r & -> & _ & ->); intros [= <- <- <-];
      rewrite !length_app; cbn [length]; lia|]); [done|].
  destruct a as [[|x c]|]; [done| |done]. intros Hlt%IH. change (bytes_in (Got (x :: c) :: arrivals)) with ((x :: c) ++ bytes_in arrivals).
  by rewrite app_assoc.
Qed.

Lemma await_answer_total fuel c :
  (length (cn_buf c ++ bytes_in (cn_in c)) < fuel)%nat -> exists r, await_answer fuel c = Some r.
Proof.
  revert c. induction fuel as [|fuel IH]; intros c Hf; [lia|]. cbn [await_answer]. unfold read_json.
  destruct (read_until (cn_in c) (cn_buf c)) as [[[line|e] rest] arrivals] eqn:E;
    cbn [mbind result_bind]; [|by eexists].
  destruct (loads line) as [msg|e]; [|by eexists]. apply read_until_shrinks in E.
  destruct (msg !! lit "error"); [by eexists|]. destruct (msg !! lit "return"); [by eexists|].
  apply IH. cbn [cn_buf cn_in]. lia.
Qed.

(** A command ends whatever arrives and however often [recv] times out. *)
Theorem command_late_total p c : exists r, command_late p c = Some r.
Proof. apply await_answer_total. cbn [cn_buf cn_in]. lia. Qed.
End client.

(** C19. After one late reply every answer is the previous command's.  When the
    wait for a command's reply ends in a timeout, after any events and any
    part of a line, what was read of the line stays in the buffer and the
    client is as good as before; the server goes on answering the commands in
    the order they were sent.  So every later command returns, or raises, what
    the one before it asked for, and one reply stays unread at the end: the two
    do not get back in step. *)
Theorem off_by_one {V} (dumps : payload -> list Z) (loads : list Z -> result (gmap (list Z) V)) closed failed
    p ps seen part gs rs g rest buf early later out :
  Forall (is_event loads) seen -> NEWLINE ∉ part -> chunked early -> chunked later ->
  buf ++ concat early = wire seen ++ part ->
  part ++ concat later = groups_wire (gs ++ [g]) ++ rest ->
  Forall2 (answers loads failed) gs rs -> length ps = length gs ->
  exists q', commands dumps loads closed failed (p :: ps) (Conn buf (map Got early ++ TimedOut :: map Got later) out)
      = Some (of_qmp q', Raise timed_out :: rs) /\
    pending q' = wire (g.1 ++ [g.2]) ++ rest /\ q_out q' = out ++ sent dumps (p :: ps).
Proof.
  intros Hev Hn Hc1 Hc2 He Hp Hg Hl. cbn [commands].
  rewrite (command_times_out dumps loads closed failed p seen part) by done.
  unfold groups_wire in Hp. rewrite map_app, concat_app, <- app_assoc in Hp. cbn [map concat app] in Hp.
  rewrite app_nil_r in Hp.
  destruct (commands_answered dumps loads closed failed ps
    (Qmp part later (out ++ [Sent (dumps p ++ [NEWLINE])])) gs rs _ Hg Hl Hc2 Hp) as (q & E & P & _ & O).
  change (of_qmp (Qmp part later _)) with (Conn part (map Got later) (out ++ [Sent (dumps p ++ [NEWLINE])])) in E.
  rewrite E.
  exists q. split; [done|]. split; [done|]. rewrite O. unfold sent. cbn [map q_out]. by rewrite <- app_assoc.
Qed.

Lemma off_by_one_witness :
  exists q' : qmp,
    commands toy_dumps toy_loads toy_closed toy_failed
      [Payload (lit "qom-get speaker") []; Payload (lit "qom-get invert") []; Payload (lit "qom-get contrast") []]
      (Conn [] (map Got [lit "event STOP" ++ [10] ++ lit "ret"] ++ TimedOut ::
                map Got [lit "urn speaker" ++ [10]; lit "return invert" ++ [10]; lit "return contrast" ++ [10]]) [])
      = Some (of_qmp q', [Raise timed_out; Ok (lit "speaker"); Ok (lit "invert")]) /\
    pending q' = wire ([] ++ [lit "return contrast"]) ++ [] /\
    q_out q' = [] ++ sent toy_dumps [Payload (lit "qom-get speaker") []; Payload (lit "qom-get invert") [];
                                      Payload (lit "qom-get contrast") []].
Proof.
  apply (off_by_one toy_dumps toy_loads toy_closed toy_failed (Payload (lit "qom-get speaker") []) _
    [lit "event STOP"] (lit "ret") [([], lit "return speaker"); ([], lit "return invert")] _ ([], lit "return contrast")).
  - constructor; [|constructor]. eexists. split; [split; [|reflexivity]|split; reflexivity].
    refine (bool_decide_unpack _ _). vm_compute. exact I.
  - refine (bool_decide_unpack _ _). vm_compute. exact I.
  - repeat constructor; discriminate.
  - repeat constructor; discriminate.
  - reflexivity.
  - reflexivity.
  - repeat constructor; eexists; (split; [split; [refine (bool_decide_unpack _ _); vm_compute; exact I|reflexivity]|reflexivity]).
  - reflexivity.
Defined.
