(* ===== verification/Shared.v ===== *)
(** One QMP client for every thread.  The web server's handlers and the frame
    pump share the client of [src/tools/uvk5_qmp.py], and only one connection
    is accepted, so [command] holds a lock from the first byte it sends to the
    reply: the client, its callers and QEMU as a step relation, in which each
    [sendall], each [recv] and each line taken from the buffer is a step of
    its own, QEMU answers and reports events whenever it likes and may close
    the connection, and [sendall] and [recv] may fail or time out. *)
From S2P Require Import Prelude Struct.
From S2P Require Import Text Endpoint Qmp Late.
Open Scope Z_scope.

(** A caller: the commands it has yet to give, and where it is in
    [command]. *)
Inductive stage :=
| Idle                       (* outside, or waiting for the lock *)
| Sending (p : payload)      (* holds the lock *)
| Reading (p : payload).     (* has sent, and holds the lock *)
Record caller := Caller { cl_todo : list payload; cl_stage : stage }.

Definition RECV_SIZE : Z := 65536.

Section shared.
Context {V : Type} (loads : list Z -> result (gmap (list Z) V)) (failed : V -> exn).
(** The line QEMU answers with; it may depend on every command before. *)
Context (reply : list payload -> payload -> list Z).

(** What [_read_json] raises when [recv] returns nothing. *)
Definition closed : exn := Exn RuntimeError "QMP connection closed" [].

(** The lock and the buffer of the client, the bytes on their way, the
    commands QEMU has received and not answered, the events it will still
    report, the commands it has answered, the callers, what has been
    returned or raised to whom, and whether QEMU still holds the connection. *)
Record shared := Shared {
  sh_lock : option nat;
  sh_buf : list Z;
  sh_net : list Z;
  sh_asked : list payload;
  sh_events : list (list Z);
  sh_history : list payload;
  sh_callers : list caller;
  sh_done : list (nat * payload * result V);
  sh_open : bool
}.

(** What [command] makes of a line: the end of the loop, or another round. *)
Definition outcome (line : list Z) : option (result V) :=
  match loads line with
  | Raise e => Some (Raise e)
  | Ok msg => reply_result failed msg
  end.

Inductive step : shared -> shared -> Prop :=
(* [with self._lock] *)
| StepAcquire buf net asked evs hist cs done op i p ps :
    cs !! i = Some (Caller (p :: ps) Idle) ->
    step (Shared None buf net asked evs hist cs done op)
         (Shared (Some i) buf net asked evs hist (<[i:=Caller ps (Sending p)]> cs) done op)
(* [self._sock.sendall] *)
| StepSend lock buf net asked evs hist cs done op i p ps :
    cs !! i = Some (Caller ps (Sending p)) ->
    step (Shared lock buf net asked evs hist cs done op)
         (Shared lock buf net (asked ++ [p]) evs hist (<[i:=Caller ps (Reading p)]> cs) done op)
(* which raises: QEMU has no whole line, and the lock is released *)
| StepSendFails lock buf net asked evs hist cs done op i p ps e :
    cs !! i = Some (Caller ps (Sending p)) -> exn_cls e = OSError ->
    step (Shared lock buf net asked evs hist cs done op)
         (Shared None buf net asked evs hist (<[i:=Caller ps Idle]> cs) (done ++ [(i, p, Raise e)]) op)
(* [self._sock.recv]: some of what has arrived *)
| StepRecv lock buf chunk net asked evs hist cs done op i p ps :
    cs !! i = Some (Caller ps (Reading p)) -> (NEWLINE ∉ buf) ->
    chunk <> [] -> zlen chunk <= RECV_SIZE ->
    step (Shared lock buf (chunk ++ net) asked evs hist cs done op)
         (Shared lock (buf ++ chunk) net asked evs hist cs done op)
(* nothing came for two seconds *)
| StepTimeout lock buf net asked evs hist cs done op i p ps :
    cs !! i = Some (Caller ps (Reading p)) -> (NEWLINE ∉ buf) ->
    step (Shared lock buf net asked evs hist cs done op)
         (Shared None buf net asked evs hist (<[i:=Caller ps Idle]> cs) (done ++ [(i, p, Raise timed_out)]) op)
(* nothing will come *)
| StepClosed lock buf asked evs hist cs done i p ps :
    cs !! i = Some (Caller ps (Reading p)) -> (NEWLINE ∉ buf) ->
    step (Shared lock buf [] asked evs hist cs done false)
         (Shared None buf [] asked evs hist (<[i:=Caller ps Idle]> cs) (done ++ [(i, p, Raise closed)]) false)
(* a line that is neither an error nor a return *)
| StepSkip lock line buf net asked evs hist cs done op i p ps :
    cs !! i = Some (Caller ps (Reading p)) -> (NEWLINE ∉ line) -> outcome line = None ->
    step (Shared lock (line ++ NEWLINE :: buf) net asked evs hist cs done op)
         (Shared lock buf net asked evs hist cs done op)
(* one that ends the command, and the lock is released *)
| StepDone lock line buf net asked evs hist cs done op i p ps r :
    cs !! i = Some (Caller ps (Reading p)) -> (NEWLINE ∉ line) -> outcome line = Some r ->
    step (Shared lock (line ++ NEWLINE :: buf) net asked evs hist cs done op)
         (Shared None buf net asked evs hist (<[i:=Caller ps Idle]> cs) (done ++ [(i, p, r)]) op)
(* QEMU answers the first command it has *)
| StepAnswer lock buf net p asked evs hist cs done :
    step (Shared lock buf net (p :: asked) evs hist cs done true)
         (Shared lock buf (net ++ wire [reply hist p]) asked evs (hist ++ [p]) cs done true)
(* reports an event *)
| StepEvent lock buf net asked ev evs hist cs done :
    step (Shared lock buf net asked (ev :: evs) hist cs done true)
         (Shared lock buf (net ++ wire [ev]) asked evs hist cs done true)
(* or closes the connection *)
| StepClose lock buf net asked evs hist cs done :
    step (Shared lock buf net asked evs hist cs done true)
         (Shared lock buf net asked evs hist cs done false).

(** The callers with what each is to ask, over a fresh connection. *)
Definition begun (programs : list (list payload)) (evs : list (list Z)) : shared :=
  Shared None [] [] [] evs [] (map (fun ps => Caller ps Idle) programs) [] true.

(** What the [k]th command QEMU answered was answered with. *)
Definition answer_at (hist : list payload) (k : nat) (p : payload) : option (result V) :=
  outcome (reply (take k hist) p).
(** A command that ended without an answer. *)
Definition no_answer (r : result V) : bool :=
  match r with Raise e => bool_decide (e = timed_out \/ e = closed \/ exn_cls e = OSError) | Ok _ => false end.
Definition answered (done : list (nat * payload * result V)) : Prop :=
  Forall (fun d => no_answer d.2 = false) done.
(** Until a command ends without one, every caller that came back has its own
    answer, in QEMU's order. *)
Definition own_answers (s : shared) : Prop :=
  forall k i p r, sh_done s !! k = Some (i, p, r) -> answered (take (S k) (sh_done s)) ->
    sh_history s !! k = Some p /\ answer_at (sh_history s) k p = Some r.
(** What a caller has been through, in order. *)
Definition given (i : nat) (s : shared) : list payload :=
  omap (fun d => if Nat.eqb d.1.1 i then Some d.1.2 else None) (sh_done s).

(** ** The protocol *)

Definition is_reply (line : list Z) : Prop :=
  (NEWLINE ∉ line) /\ is_Some (outcome line).
Hypothesis replies : forall hist p, is_reply (reply hist p).

(** Lines that no command ends with. *)
Definition passing (line : list Z) : Prop := (NEWLINE ∉ line) /\ outcome line = None.

Lemma event_passing line : is_event loads line -> passing line.
Proof. intros (msg & [Hn Hl] & He & Hr). split; [done|]. unfold outcome, reply_result. by rewrite Hl, He, Hr. Qed.

(** Callers other than the one that holds the lock are outside. *)
Definition idle_but (o : option nat) (cs : list caller) : Prop :=
  forall j c, cs !! j = Some c -> o <> Some j -> cl_stage c = Idle.

(** Where the one command that is under way is: before the lock, before the
    send, with QEMU, or answered, the answer among events in what is still
    to be read. *)
Inductive phase : shared -> Prop :=
| Free buf net evs hist cs done op lines :
    idle_but None cs -> buf ++ net = wire lines -> Forall passing lines -> length done = length hist ->
    phase (Shared None buf net [] evs hist cs done op)
| ToSend buf net evs hist cs done op lines i p ps :
    cs !! i = Some (Caller ps (Sending p)) -> idle_but (Some i) cs ->
    buf ++ net = wire lines -> Forall passing lines -> length done = length hist ->
    phase (Shared (Some i) buf net [] evs hist cs done op)
| Asked buf net evs hist cs done op lines i p ps :
    cs !! i = Some (Caller ps (Reading p)) -> idle_but (Some i) cs ->
    buf ++ net = wire lines -> Forall passing lines -> length done = length hist ->
    phase (Shared (Some i) buf net [p] evs hist cs done op)
| Answered buf net evs hist cs done op before after i p ps :
    cs !! i = Some (Caller ps (Reading p)) -> idle_but (Some i) cs ->
    buf ++ net = wire (before ++ reply hist p :: after) -> Forall passing before -> Forall passing after ->
    length done = length hist ->
    phase (Shared (Some i) buf net [] evs (hist ++ [p]) cs done op).

Lemma wire_line line r lines : NEWLINE ∉ line -> Forall (fun l => NEWLINE ∉ l) lines ->
  line ++ NEWLINE :: r = wire lines -> exists lines', lines = line :: lines' /\ r = wire lines'.
Proof.
  intros Hn Hl. destruct Hl as [|l lines Hl _]; intros He.
  - by apply (f_equal length) in He; rewrite length_app in He; cbn in He; lia.
  - rewrite wire_cons in He. pose proof (f_equal (partition NEWLINE) He) as Hp.
    rewrite !partition_app in Hp by done. injection Hp as -> ->. by exists lines.
Qed.

Lemma passing_clean lines : Forall passing lines -> Forall (fun l => NEWLINE ∉ l) lines.
Proof. intros H. eapply Forall_impl; [exact H|]. by intros l []. Qed.

(** The callers around an insertion. *)
Lemma idle_but_insert o o' i c cs : idle_but o cs -> (o = None \/ o = Some i) ->
  (o' = Some i \/ cl_stage c = Idle) -> (i < length cs)%nat -> idle_but o' (<[i:=c]> cs).
Proof.
  intros Hi Ho Ho' Hl j d Hj Hne. destruct (decide (i = j)) as [<-|Hij].
  - rewrite list_lookup_insert_eq in Hj by done. injection Hj as <-. destruct Ho' as [->|]; [done|done].
  - rewrite list_lookup_insert_ne in Hj by done. apply (Hi j d Hj). destruct Ho as [->| ->]; [done|congruence].
Qed.

Lemma holder_is i j c d cs : idle_but (Some i) cs -> cs !! i = Some d ->
  cs !! j = Some c -> cl_stage c <> Idle -> j = i /\ c = d.
Proof.
  intros Hi Hd Hj Hne. destruct (decide (j = i)) as [->|Hji]; [split; [done|congruence]|].
  exfalso. apply Hne, (Hi j c Hj). congruence.
Qed.

(** The caller of a step is the one that holds the lock. *)
Ltac holder :=
  match goal with
  | Hi : idle_but None ?cs, Hj : ?cs !! _ = Some (Caller _ (_ _)) |- _ =>
      exfalso; specialize (Hi _ _ Hj); discriminate Hi; done
  | Hi : idle_but (Some ?i) ?cs, Hd : ?cs !! ?i = Some _, Hj : ?cs !! ?j = Some (Caller _ (_ _)) |- _ =>
      assert_fails (constr_eq Hd Hj);
      destruct (holder_is i j _ _ cs Hi Hd Hj ltac:(done)) as [-> [=]]; subst; clear Hj
  end.

(** What is to be read goes on as lines when one is taken off. *)
Lemma take_line line buf net lines : NEWLINE ∉ line -> Forall (fun l => NEWLINE ∉ l) lines ->
  (line ++ NEWLINE :: buf) ++ net = wire lines ->
  exists lines', lines = line :: lines' /\ buf ++ net = wire lines'.
Proof. intros Hn Hl He. rewrite <- app_assoc in He. cbn [app] in He. by apply wire_line. Qed.

Lemma reply_clean hist p : NEWLINE ∉ reply hist p.
Proof using replies. apply replies. Qed.

Lemma answered_clean hist p before after : Forall passing before -> Forall passing after ->
  Forall (fun l => NEWLINE ∉ l) (before ++ reply hist p :: after).
Proof using replies.
  intros Hb Ha. apply Forall_app. split; [by apply passing_clean|].
  constructor; [apply replies|by apply passing_clean].
Qed.

(** The line that ends a command is its answer, and no line before it does. *)
Lemma take_answer line buf net hist p before after r : (NEWLINE ∉ line) -> Forall passing before -> Forall passing after ->
  (line ++ NEWLINE :: buf) ++ net = wire (before ++ reply hist p :: after) -> outcome line = Some r ->
  before = [] /\ line = reply hist p /\ buf ++ net = wire after.
Proof using replies.
  intros Hn Hb Ha He Ho. apply take_line in He as (lines & E & Hr); [|done|by apply answered_clean].
  destruct Hb as [|l before [_ Hl] _]; cbn [app] in E; injection E as E1 E2; subst; [done|congruence].
Qed.

Lemma take_passing line buf net hist p before after : (NEWLINE ∉ line) -> Forall passing before -> Forall passing after ->
  (line ++ NEWLINE :: buf) ++ net = wire (before ++ reply hist p :: after) -> outcome line = None ->
  exists before', before = line :: before' /\ buf ++ net = wire (before' ++ reply hist p :: after).
Proof using replies.
  intros Hn Hb Ha He Ho. apply take_line in He as (lines & E & Hr); [|done|by apply answered_clean].
  destruct Hb as [|l before [_ Hl] _]; cbn [app] in E; injection E as E1 E2; subst; [|by eexists].
  destruct (replies hist p) as [_ [x Hx]]. congruence.
Qed.

Lemma answered_app d1 d2 : answered (d1 ++ d2) -> answered d1.
Proof. by intros [? _]%Forall_app. Qed.

Lemma not_answered done d : no_answer d.2 = true -> ~ answered (done ++ [d]).
Proof. intros Hd [_ H]%Forall_app. rewrite Forall_singleton, Hd in H. discriminate H. Qed.

Lemma no_answer_timeout : no_answer (Raise timed_out) = true.
Proof. apply bool_decide_eq_true. by left. Qed.
Lemma no_answer_closed : no_answer (Raise closed) = true.
Proof. apply bool_decide_eq_true. by right; left. Qed.
Lemma no_answer_os e : exn_cls e = OSError -> no_answer (Raise e) = true.
Proof. intros He. apply bool_decide_eq_true. by right; right. Qed.
Hint Resolve no_answer_timeout no_answer_closed no_answer_os : core.

Lemma phase_step s s' : phase s -> Forall passing (sh_events s) -> step s s' -> answered (sh_done s') -> phase s'.
Proof using replies.
  intros Hph Hev Hst Hok. destruct Hst; cbn [sh_done] in Hok;
    try (exfalso; by eapply not_answered; [|exact Hok]; cbn [snd]; auto);
    inversion Hph; subst; cbn [sh_events] in Hev; try holder; clear Hph;
    try (match goal with H : (_ ++ _) ++ _ = wire ?lines, Hl : Forall passing ?lines |- _ =>
           apply take_line in H as (lines' & -> & Hnet); [|done|by apply passing_clean];
           apply Forall_cons in Hl as [[_ Hline] Hl] end).
  - eapply ToSend; [apply list_lookup_insert_eq, (lookup_lt_Some _ _ _ H)| |done..].
    eapply idle_but_insert; [done|by left|by left|apply (lookup_lt_Some _ _ _ H)].
  - eapply Asked; [apply list_lookup_insert_eq; by eapply lookup_lt_Some| |done..].
    eapply idle_but_insert; [done|by right|by left|by eapply lookup_lt_Some].
  - eapply (Asked _ _ _ _ _ _ _ lines); try done. by rewrite <- app_assoc.
  - eapply (Answered _ _ _ _ _ _ _ before after); try done. by rewrite <- app_assoc.
  - by eapply (Asked _ _ _ _ _ _ _ lines').
  - match goal with H : _ = wire _ |- _ => apply take_passing in H as (before' & -> & Hnet); [|done..] end.
    match goal with H : Forall passing (_ :: _) |- _ => apply Forall_cons in H as [_ H] end.
    by eapply (Answered _ _ _ _ _ _ _ before' after).
  - congruence.
  - match goal with H : _ = wire _ |- _ => eapply take_answer in H as (-> & -> & Hnet); [|done..] end.
    eapply Free; [|done|done|rewrite !length_app; cbn [length]; lia].
    eapply idle_but_insert; [done|by right|by right|by eapply lookup_lt_Some].
  - eapply (Answered _ _ _ _ _ _ _ lines []); try done. rewrite app_assoc, wire_app. by f_equal.
  - apply Forall_cons in Hev as [Hp Hev]. eapply (Free _ _ _ _ _ _ _ (lines ++ [ev])); try done.
    + rewrite app_assoc, wire_app. by f_equal.
    + apply Forall_app. split; [done|by apply Forall_singleton].
  - apply Forall_cons in Hev as [Hp Hev]. eapply (ToSend _ _ _ _ _ _ _ (lines ++ [ev])); try done.
    + rewrite app_assoc, wire_app. by f_equal.
    + apply Forall_app. split; [done|by apply Forall_singleton].
  - apply Forall_cons in Hev as [Hp Hev]. eapply (Asked _ _ _ _ _ _ _ (lines ++ [ev])); try done.
    + rewrite app_assoc, wire_app. by f_equal.
    + apply Forall_app. split; [done|by apply Forall_singleton].
  - apply Forall_cons in Hev as [Hp Hev]. eapply (Answered _ _ _ _ _ _ _ before (after ++ [ev])); try done.
    + rewrite app_assoc. match goal with H : _ = wire _ |- _ => rewrite H end.
      rewrite <- wire_app, <- app_assoc. done.
    + apply Forall_app. split; [done|by apply Forall_singleton].
  - by eapply Free.
  - by eapply ToSend.
  - by eapply Asked.
  - by eapply Answered.
Qed.

(** *** Every answer is the caller's own *)

Lemma answer_at_app hist p k : (k < length hist)%nat -> forall q, answer_at (hist ++ [p]) k q = answer_at hist k q.
Proof. intros Hk q. unfold answer_at. by rewrite take_app_le by lia. Qed.

(** A command that ends adds its own answer, if it is one. *)
Lemma own_answers_done lock lock' buf buf' net net' asked evs hist cs cs' done op i p r :
  own_answers (Shared lock buf net asked evs hist cs done op) ->
  (answered done -> no_answer r = false -> hist !! length done = Some p /\ answer_at hist (length done) p = Some r) ->
  own_answers (Shared lock' buf' net' asked evs hist cs' (done ++ [(i, p, r)]) op).
Proof.
  intros Ho Hnew k j q x Hk Hok. cbn [sh_done sh_history] in *. destruct (decide (k < length done)%nat) as [Hlt|Hge].
  - rewrite lookup_app_l in Hk by done. apply (Ho k j q x Hk). cbn [sh_done]. by rewrite take_app_le in Hok by lia.
  - pose proof (lookup_lt_Some _ _ _ Hk) as Hlt. rewrite length_app in Hlt. cbn [length] in Hlt.
    assert (k = length done) as -> by lia. rewrite lookup_app_r, Nat.sub_diag in Hk by lia. cbn in Hk. injection Hk as <- <- <-.
    rewrite take_ge in Hok by (rewrite length_app; cbn [length]; lia). apply Forall_app in Hok as [Hok Hr].
    rewrite Forall_singleton in Hr. by apply Hnew.
Qed.

Lemma own_answers_step s s' : (answered (sh_done s) -> phase s) -> own_answers s -> step s s' -> own_answers s'.
Proof using replies.
  intros Hph Ho Hst. destruct Hst; cbn [sh_done] in Hph; try exact Ho;
    try (eapply own_answers_done; [exact Ho|]; intros Hok Hr).
  - rewrite no_answer_os in Hr by done. discriminate Hr.
  - rewrite no_answer_timeout in Hr. discriminate Hr.
  - rewrite no_answer_closed in Hr. discriminate Hr.
  - specialize (Hph Hok). inversion Hph; subst; try holder.
    + match goal with H : _ = wire _ |- _ => apply take_line in H as (lines' & -> & _); [|done|by apply passing_clean] end.
      match goal with H : Forall passing (_ :: _) |- _ => apply Forall_cons in H as [[_ Hl] _] end. congruence.
    + match goal with H : _ = wire _ |- _ => eapply take_answer in H as (-> & -> & _); [|done..] end.
      match goal with H : length _ = length _ |- _ => rewrite H end.
      rewrite lookup_app_r, Nat.sub_diag by lia. split; [done|]. unfold answer_at. by rewrite take_app_length.
  - intros k i' p' r Hk Hok. specialize (Ho k i' p' r Hk Hok) as [H1 H2]. cbn [sh_history] in *.
    pose proof (lookup_lt_Some _ _ _ H1). rewrite lookup_app_l, answer_at_app by lia. done.
Qed.

(** *** One caller at a time *)

Definition locked (s : shared) : Prop :=
  idle_but (sh_lock s) (sh_callers s) /\
  forall i, sh_lock s = Some i -> exists c, sh_callers s !! i = Some c /\ cl_stage c <> Idle.

Lemma locked_is s i c : locked s -> sh_callers s !! i = Some c -> cl_stage c <> Idle -> sh_lock s = Some i.
Proof.
  intros [Hi _] Hc Hne. destruct (decide (sh_lock s = Some i)) as [|Hl]; [done|]. exfalso. by apply Hne, (Hi i c Hc).
Qed.

Lemma locked_step s s' : locked s -> step s s' -> locked s'.
Proof.
  intros Hl Hst. destruct Hst; try exact Hl;
    match goal with Hc : ?cs !! ?i = Some ?c |- _ =>
      pose proof (lookup_lt_Some _ _ _ Hc) as Hlt;
      try (pose proof (locked_is _ i c Hl Hc ltac:(done)) as Hk; cbn [sh_lock] in Hk; subst) end;
    destruct Hl as [Hi Hex]; cbn [sh_lock sh_callers] in *; try done; split; cbn [sh_lock sh_callers];
    try (eapply idle_but_insert; [exact Hi|first [by left|by right]|first [by left|by right]|done]); try done.
  - intros j [= <-]. eexists. split; [by apply list_lookup_insert_eq|done].
  - intros j [= <-]. eexists. split; [by apply list_lookup_insert_eq|done].
Qed.

(** *** And every caller gets through its program *)

(** What a caller has been through, what it is at, and what it has left. *)
Definition course (i : nat) (s : shared) : option (list payload) :=
  c ← sh_callers s !! i;
  Some (given i s ++ match cl_stage c with Idle => [] | Sending p | Reading p => [p] end ++ cl_todo c).

Lemma given_done i j p r done lock buf net asked evs hist cs op :
  given j (Shared lock buf net asked evs hist cs (done ++ [(i, p, r)]) op)
    = given j (Shared lock buf net asked evs hist cs done op) ++ (if Nat.eqb i j then [p] else []).
Proof. unfold given. cbn [sh_done]. rewrite omap_app. cbn. by destruct (Nat.eqb i j). Qed.

Lemma course_step i s s' : step s s' -> course i s' = course i s.
Proof.
  intros Hst. destruct Hst; unfold course; cbn [sh_callers]; try done;
    match goal with H : ?cs !! ?j = Some _ |- context [<[?j:=_]> ?cs] =>
      destruct (decide (j = i)) as [->|Hne];
      [rewrite list_lookup_insert_eq by (by eapply lookup_lt_Some); rewrite H
      |rewrite list_lookup_insert_ne by done] end; try done;
    first [cbn [mbind option_bind cl_stage cl_todo]; by rewrite given_done, Nat.eqb_refl, <- app_assoc
          |rewrite given_done, (proj2 (Nat.eqb_neq _ _)) by done; by rewrite app_nil_r].
Qed.

(** What is left to happen: stages to go through, and bytes to read. *)
Definition weight (c : caller) : nat :=
  4 * length (cl_todo c) + match cl_stage c with Idle => 0 | Sending _ => 3 | Reading _ => 1 end.
Definition work (s : shared) : nat * nat :=
  (sum_list_with weight (sh_callers s) + length (sh_asked s) + length (sh_events s) + (if sh_open s then 1 else 0),
   2 * length (sh_net s) + length (sh_buf s))%nat.
Definition less (x y : nat * nat) : Prop := (x.1 < y.1 \/ x.1 = y.1 /\ x.2 < y.2)%nat.

Lemma less_wf : well_founded less.
Proof.
  intros [a b]. revert b. induction (lt_wf a) as [a _ IHa]. intros b. induction (lt_wf b) as [b _ IHb].
  constructor. intros [c d] Hl. unfold less in Hl. cbn in Hl. destruct Hl as [H|[-> H]]; [by apply IHa|by apply IHb].
Qed.

Lemma sum_insert cs i c d : cs !! i = Some c ->
  (sum_list_with weight (<[i:=d]> cs) + weight c = sum_list_with weight cs + weight d)%nat.
Proof.
  revert i. induction cs as [|x cs IH]; intros [|i] Hi; try done; simpl.
  - injection Hi as ->. lia.
  - specialize (IH i Hi). lia.
Qed.

Lemma step_less s s' : step s s' -> less (work s') (work s).
Proof.
  intros Hst. destruct Hst; unfold less, work; cbn [sh_callers sh_asked sh_events sh_net sh_buf sh_open fst snd];
    try match goal with H : ?cs !! ?j = Some ?c |- context [<[?j:=?d]> ?cs] =>
      pose proof (sum_insert cs j c d H) as Hs; revert Hs;
      generalize (sum_list_with weight (<[j:=d]> cs)) (sum_list_with weight cs); intros s1 s2;
      unfold weight; cbn [cl_todo cl_stage length]; intros Hs end;
    rewrite ?length_app; cbn [length]; rewrite ?length_app; cbn [length]; try lia.
  right. split; [done|]. destruct chunk; [done|]. cbn [length]. lia.
Qed.

(** *** The whole *)

(** Everyone has been through all of its commands. *)
Definition served (programs : list (list payload)) (s : shared) : Prop :=
  sh_lock s = None /\ forall i ps, programs !! i = Some ps -> given i s = ps.

Record running (programs : list (list payload)) (s : shared) : Prop := Running {
  run_locked : locked s;
  run_phase : answered (sh_done s) -> phase s;
  run_events : Forall passing (sh_events s);
  run_own : own_answers s;
  run_course : forall i, course i s = programs !! i
}.

Lemma step_done s s' : step s s' -> sh_done s' = sh_done s \/ exists d, sh_done s' = sh_done s ++ [d].
Proof. intros Hst. destruct Hst; cbn [sh_done]; eauto. Qed.

Lemma running_step programs s s' : running programs s -> step s s' -> running programs s'.
Proof using replies.
  intros [Hl Hp He Ho Hc] Hst. constructor.
  - by eapply locked_step.
  - intros Hok. eapply phase_step; [apply Hp|done..]. by destruct (step_done _ _ Hst) as [<-|[d E]]; [|rewrite E in Hok; by apply answered_app in Hok].
  - destruct Hst; try exact He. cbn [sh_events] in *. by apply Forall_cons in He as [_ He].
  - by eapply own_answers_step.
  - intros i. rewrite <- Hc. by apply course_step.
Qed.

Lemma running_begun programs evs : Forall (is_event loads) evs -> running programs (begun programs evs).
Proof.
  intros He. assert (idle_but None (sh_callers (begun programs evs))) as Hidle.
  { intros j c Hj _. cbn [begun sh_callers] in Hj. change (map ?f programs) with (f <$> programs) in Hj.
    by apply list_lookup_fmap_Some in Hj as (ps & -> & _). }
  constructor.
  - split; [exact Hidle|]. intros i Hi. discriminate Hi.
  - intros _. by apply (Free _ _ _ _ _ _ _ []).
  - eapply Forall_impl; [exact He|]. apply event_passing.
  - intros k i p r Hk. discriminate Hk.
  - intros i. unfold course, begun. cbn [sh_callers]. change (map ?f programs) with (f <$> programs).
    rewrite list_lookup_fmap. by destruct (programs !! i).
Qed.

(** Something can happen as long as someone waits: the one who waits for an
    answer, for a while only. *)
Lemma running_live programs s : running programs s -> served programs s \/ exists s', step s s'.
Proof.
  intros [[Hi Hex] _ _ _ Hc]. destruct s as [lock buf net asked evs hist cs done op]. cbn [sh_lock sh_callers] in *.
  destruct lock as [i|].
  - right. destruct (Hex i eq_refl) as ([ps st] & Hcs & Hne). destruct st as [|p|p]; [done|eexists; by eapply StepSend|].
    destruct (decide (NEWLINE ∈ buf)) as [Hin|Hni]; [|eexists; by eapply StepTimeout].
    destruct (partition_split buf Hin) as (l & r & -> & Hl & _).
    destruct (outcome l) as [x|] eqn:Ex; eexists; [by eapply StepDone|by eapply StepSkip].
  - destruct (decide (Exists (fun c => cl_todo c <> []) cs)) as [Hx|Hx].
    + right. apply Exists_exists in Hx as (c & Hin & Hne). apply list_elem_of_lookup in Hin as [j Hj].
      specialize (Hi j c Hj ltac:(done)). destruct c as [[|p ps] st]; [done|]. cbn in Hi. subst st.
      eexists. by eapply StepAcquire.
    + left. split; [done|]. intros i ps Hps. specialize (Hc i). rewrite Hps in Hc. unfold course in Hc.
      cbn [sh_callers] in Hc. destruct (cs !! i) as [c|] eqn:Ec; [|done]. cbn [mbind option_bind] in Hc.
      rewrite (Hi i c Ec) in Hc by done. apply not_Exists_Forall in Hx; [|intros ?; apply _].
      rewrite Forall_forall in Hx. specialize (Hx c (list_elem_of_lookup_2 _ _ _ Ec)).
      destruct (cl_todo c) eqn:Et; [|exfalso; apply Hx; by rewrite Et]. rewrite !app_nil_r in Hc. by injection Hc.
Qed.
End shared.

(** C18. One client serves every thread, as long as no command ends without
    its answer.  Whatever the callers ask, whenever QEMU answers and reports
    events, however [recv] cuts the bytes, whichever caller is let into the
    lock next, and whether or not a [recv] times out, a [sendall] fails or
    QEMU closes the connection: at most the caller that holds the lock is
    inside [command]; and of the commands that ended before the first that
    timed out or failed, and so of all of them when none did, every caller
    has, of all the answers QEMU gave, the one to its own command (what
    follows a timeout is [Late.off_by_one]'s).  No caller waits for ever:
    every schedule ends with all of them having got through their commands,
    in their order. *)
Theorem one_client_serves_all {V} (loads : list Z -> result (gmap (list Z) V)) failed reply programs evs :
  (forall hist p, is_reply loads failed (reply hist p)) -> Forall (is_event loads) evs ->
  (forall s, rtc (step loads failed reply) (begun programs evs) s ->
     own_answers loads failed reply s /\ idle_but (sh_lock s) (sh_callers s)) /\
  inevitably (step loads failed reply) (served programs) (begun programs evs).
Proof.
  intros Hr He. pose proof (running_begun loads failed reply programs evs He) as Hb. split.
  - intros s Hs. apply (rtc_invariant _ (running loads failed reply programs)) in Hs as [[Hl _] _ _ Ho _];
      [done|by apply running_step|done].
  - apply (inevitably_wf _ less (running loads failed reply programs) _ work); [apply less_wf|by apply running_live| |done].
    intros s s' Hs Hst. split; [by eapply running_step|by eapply step_less].
Qed.

(** A QEMU that counts. *)
Definition toy_reply (hist : list payload) (p : payload) : list Z := lit "return " ++ repeat 43 (length hist).

Lemma one_client_serves_all_witness :
  let programs := [[Payload (lit "qom-get") []; Payload (lit "stop") []]; [Payload (lit "memsave") []]; []] in
  let evs := [lit "event STOP"] in
  (forall s, rtc (step toy_loads toy_failed toy_reply) (begun programs evs) s ->
     own_answers toy_loads toy_failed toy_reply s /\ idle_but (sh_lock s) (sh_callers s)) /\
  inevitably (step toy_loads toy_failed toy_reply) (served programs) (begun programs evs).
Proof.
  intros programs evs. apply (one_client_serves_all toy_loads toy_failed toy_reply programs evs).
  - intros hist p. unfold toy_reply. split.
    + intros Hin. apply elem_of_app in Hin as [Hin|Hin].
      * revert Hin. refine (bool_decide_unpack _ _). vm_compute. exact I.
      * apply list_elem_of_In, repeat_spec in Hin. discriminate Hin.
    + exists (Ok (repeat 43 (length hist))). reflexivity.
  - constructor; [|constructor]. eexists. split; [split; [|reflexivity]|split; reflexivity].
    refine (bool_decide_unpack _ _). vm_compute. exact I.
Defined.
