(* ===== verification/Supervisor.v ===== *)
(** The process supervisor, [src/tools/uvk5_supervisor.py]: the launcher's
    command line, and the [Supervisor] class as a state machine over a table
    of processes.  [power_off] releases the lock before it stops the process,
    so its two halves are separate steps, and the invariant is proved over
    every interleaving. *)
From S2P Require Import Prelude Text Image Endpoint.
Open Scope Z_scope.

(** ** The launcher *)

(** What the launcher may be given as an image. *)
Inductive elf_arg :=
| ElfPath (path : list Z)
| ElfInfo (i : image_info)
| ElfSlot (s : image_slot)
| ElfNone.

Definition resolve_image (image : elf_arg) : option (list Z) * option Z :=
  match image with
  | ElfSlot None | ElfNone => (None, None)
  | ElfPath p => (Some p, None)
  | ElfSlot (Some i) | ElfInfo i => (Some (ii_path i), Some (ii_app_offset i))
  end.

(** [BootKey]; [name] is falsy when [None] or empty. *)
Record boot_key := BootKey { bk_name : option (list Z); bk_hold_ms : Z }.
Definition boot_key_init : boot_key := BootKey None 1500.
Definition boot_key_clear (k : boot_key) : boot_key := BootKey None (bk_hold_ms k).

(** What [subprocess.Popen] is called with: the arguments, and the variables
    added to the environment. *)
Record popen := Popen { po_argv : list (list Z); po_env : list (list Z * list Z) }.

Definition boot_key_env (k : option boot_key) : list (list Z * list Z) :=
  match k with
  | Some (BootKey (Some name) hold) =>
      if bool_decide (name = []) then []
      else [(lit "UVK5_BOOT_KEY", name); (lit "UVK5_BOOT_KEY_MS", decimal hold)]
  | _ => []
  end.

Definition serial_args (port : option Z) : list (list Z) :=
  match port with
  | Some p => if p =? 0 then []
              else [lit "-serial"; lit "tcp:127.0.0.1:" ++ decimal p ++ lit ",server=on,wait=off"]
  | None => []
  end.

(** [default_launcher(...)()], up to the spawn.  The second component says
    whether the stale socket file is unlinked first. *)
Definition launch_args (qemu flash : list Z) (elf : elf_arg) (k : option boot_key)
    (qmp_path : list Z) (gdb_port : Z) (serial_port : option Z) (socket_exists : bool)
  : result (popen * bool) :=
  match (resolve_image elf).1 with
  | None => raise RuntimeError "no firmware loaded: upload a .bin first" []
  | Some path =>
      Ok (Popen
            ([qemu; lit "-M"; lit "uv-k5-v3"; lit "-nographic"; lit "-monitor"; lit "none";
              lit "-qmp"; qmp_argument qmp_path; lit "-kernel"; path;
              lit "-gdb"; lit "tcp::" ++ decimal gdb_port] ++ serial_args serial_port)
            ((lit "UVK5_FLASH_IMAGE", flash) :: boot_key_env k),
          negb (bool_decide (COLON ∈ qmp_path)) && socket_exists)
  end.

(** ** Processes *)

(** An emulator process.  [p_hung] is one whose main loop is stuck: it answers
    neither QMP nor a termination signal, only [kill] ends it.  [p_boots]
    counts its resets. *)
Record proc := Proc {
  p_args : popen; p_ours : bool; p_exit : option Z; p_hung : bool; p_paused : bool; p_boots : nat
}.

Definition alive (p : proc) : bool := bool_decide (p_exit p = None).

Inductive qmp_command := Quit | SystemReset | Stop | Cont.

Definition obey (c : qmp_command) (p : proc) : proc :=
  match c with
  | Quit => Proc (p_args p) (p_ours p) (Some 0) (p_hung p) (p_paused p) (p_boots p)
  | SystemReset => Proc (p_args p) (p_ours p) (p_exit p) (p_hung p) (p_paused p) (S (p_boots p))
  | Stop => Proc (p_args p) (p_ours p) (p_exit p) (p_hung p) true (p_boots p)
  | Cont => Proc (p_args p) (p_ours p) (p_exit p) (p_hung p) false (p_boots p)
  end.

(** [terminate], and [kill] for one that ignores the signal: the process ends,
    with the code it had if it had ended already. *)
Definition killed (p : proc) : proc :=
  Proc (p_args p) (p_ours p) (Some (default (-15) (p_exit p))) (p_hung p) (p_paused p) (p_boots p).

Abbreviation procs := (gmap nat proc).

(** [client.command(...)]: a client is the number of the process it is
    connected to. *)
Definition command (ps : procs) (client : nat) (c : qmp_command) : result procs :=
  match ps !! client with
  | Some p => if alive p && negb (p_hung p) then Ok (<[client := obey c p]> ps)
              else raise RuntimeError "QMP connection closed" []
  | None => raise RuntimeError "QMP connection closed" []
  end.

(** ** The supervisor *)

(** What the supervisor notes.  [NCommand] stands for the two lines that
    record what was run. *)
Inductive note :=
| NExited (code : Z) | NPowerOn | NPowerOnFailed (e : exn) | NSaid (tail : list Z)
| NCommand (argv : list (list Z)) | NPowerOff (code : option Z) | NReset.

(** The lines [_note] adds to the log. *)
Definition note_text `{Runtime} (n : note) : list (list Z) :=
  match n with
  | NExited code => [lit "emulator exited on its own (status " ++ decimal code ++ lit "); restarting"]
  | NPowerOn => [lit "power on"]
  | NPowerOnFailed e => [lit "power on failed: " ++ str_exn e]
  | NSaid tail => [lit "qemu said: " ++ take 1500 tail]
  | NCommand argv =>
      [lit "command: " ++ join (lit " ") argv;
       lit "argv repr: [" ++ join (lit ", ") (map repr_str argv) ++ lit "]"]
  | NPowerOff None | NPowerOff (Some 0) => [lit "power off"]
  | NPowerOff (Some code) => [lit "power off (qemu exited with " ++ decimal code ++ lit ")"]
  | NReset => [lit "reset"]
  end.

Record sup := Sup {
  s_proc : option nat;
  s_client : option nat;
  s_procs : procs;
  s_log : list note
}.

Definition sup_init (ps : procs) : sup := Sup None None ps [].

Definition note_ (s : sup) (n : note) : sup :=
  Sup (s_proc s) (s_client s) (s_procs s) (s_log s ++ [n]).

(** [proc.poll()] of the tracked process. *)
Definition poll (s : sup) : option Z :=
  match s_proc s with
  | Some pid => match s_procs s !! pid with Some p => p_exit p | None => None end
  | None => None
  end.

Definition is_running (s : sup) : bool :=
  match s_client s with
  | None => false
  | Some _ => match poll s with Some _ => false | None => true end
  end.
Definition owns_process (s : sup) : bool := bool_decide (is_Some (s_proc s)).

Definition adopt (s : sup) (client : nat) : sup :=
  Sup None (Some client) (s_procs s) (s_log s).

(** What happens to one [power_on]: the launcher's answer (its RuntimeError,
    or the failure of [Popen]), whether the process hangs, [connect], and
    what QEMU had printed when [connect] failed, its blanks made single. *)
Record on_env := OnEnv {
  oe_launch : result popen; oe_hangs : bool; oe_connect : result unit; oe_said : list Z
}.

Definition forget_dead (s : sup) : sup :=
  match s_client s, s_proc s, poll s with
  | Some _, Some _, Some code =>
      let s := note_ s (NExited code) in Sup None None (s_procs s) (s_log s)
  | _, _, _ => s
  end.

(** [connect] reaches the process just launched: the endpoint is its own, and
    a second process could not listen there. *)
Definition power_on (s : sup) (env : on_env) : sup * result bool :=
  let s := forget_dead s in
  match s_client s with
  | Some _ => (s, Ok false)
  | None =>
      match oe_launch env with
      | Raise e => (s, Raise e)
      | Ok args =>
          let pid := fresh (dom (s_procs s)) in
          let p := Proc args true None (oe_hangs env) false 0 in
          let ps := <[pid := p]> (s_procs s) in
          match oe_connect env with
          | Ok _ => (note_ (Sup (Some pid) (Some pid) ps (s_log s)) NPowerOn, Ok true)
          | Raise e =>
              if is_exception e
              then
                let s := Sup None None (<[pid := killed p]> ps) (s_log s) in
                let s := if bool_decide (oe_said env = []) then s else note_ s (NSaid (oe_said env)) in
                (note_ (note_ s (NCommand (po_argv args))) (NPowerOnFailed e), Raise e)
              else (Sup (Some pid) None ps (s_log s), Raise e)
          end
      end
  end.

(** [power_off], its locked half: the client and process it takes over. *)
Definition off_begin (s : sup) : sup * option (nat * option nat) :=
  (Sup None None (s_procs s) (s_log s),
   match s_client s with Some c => Some (c, s_proc s) | None => None end).

(** Its second half, without the lock: quit, then wait, terminate, kill.  The
    code is the one the process ended with, if it did before it was killed. *)
Definition off_end (s : sup) (h : nat * option nat) : sup :=
  let '(client, proc) := h in
  let ps := match command (s_procs s) client Quit with Ok ps => ps | Raise _ => s_procs s end in
  match proc with
  | None => note_ (Sup (s_proc s) (s_client s) ps (s_log s)) (NPowerOff None)
  | Some pid =>
      let code := match ps !! pid with Some p => p_exit p | None => None end in
      let ps := match ps !! pid with Some p => <[pid := killed p]> ps | None => ps end in
      note_ (Sup (s_proc s) (s_client s) ps (s_log s)) (NPowerOff code)
  end.

Definition power_off (s : sup) : sup * bool :=
  match off_begin s with
  | (s, None) => (s, false)
  | (s, Some h) => (off_end s h, true)
  end.

(** A command to the client, if there is one. *)
Definition send (s : sup) (c : qmp_command) : sup * result bool :=
  match s_client s with
  | None => (s, Ok false)
  | Some client =>
      match command (s_procs s) client c with
      | Ok ps => (Sup (s_proc s) (s_client s) ps (s_log s), Ok true)
      | Raise e => (s, Raise e)
      end
  end.

Definition reset (s : sup) (env : on_env) : sup * result bool :=
  match s_client s with
  | None => power_on s env
  | Some _ =>
      match send s SystemReset with
      | (s, Ok b) => (note_ s NReset, Ok b)
      | r => r
      end
  end.
Definition pause (s : sup) : sup * result bool := send s Stop.
Definition resume (s : sup) : sup * result bool := send s Cont.

(** ** Interleavings *)

(** The supervisor and the [power_off] calls that have released the lock and
    not finished. *)
Record sys := Sys { y_sup : sup; y_pending : list (nat * option nat) }.

(** [connect] raises nothing but what [except Exception] catches. *)
Definition env_ok (env : on_env) : Prop :=
  match oe_connect env with Raise e => is_exception e = true | Ok _ => True end.

Definition exited (p : proc) (code : Z) : proc :=
  Proc (p_args p) (p_ours p) (Some (default code (p_exit p))) (p_hung p) (p_paused p) (p_boots p).

Definition set_procs (s : sup) (ps : procs) : sup := Sup (s_proc s) (s_client s) ps (s_log s).

(** One step of any thread, or of the emulator itself. *)
Inductive step : sys -> sys -> Prop :=
| step_on s hs env :
    env_ok env -> step (Sys s hs) (Sys (power_on s env).1 hs)
| step_off_begin s hs :
    step (Sys s hs) (Sys (off_begin s).1 (option_list (off_begin s).2 ++ hs))
| step_off_end s hs1 h hs2 :
    step (Sys s (hs1 ++ h :: hs2)) (Sys (off_end s h) (hs1 ++ hs2))
| step_reset s hs env :
    env_ok env -> step (Sys s hs) (Sys (reset s env).1 hs)
| step_send s hs c :
    c = Stop \/ c = Cont -> step (Sys s hs) (Sys (send s c).1 hs)
| step_exit s hs pid p code :
    s_procs s !! pid = Some p ->
    step (Sys s hs) (Sys (set_procs s (<[pid := exited p code]> (s_procs s))) hs).

(** A server that manages its own emulator, and one that attaches to another's. *)
Inductive initial : sys -> Prop :=
| initial_off : initial (Sys (sup_init ∅) [])
| initial_attached ps c :
    (forall pid p, ps !! pid = Some p -> p_ours p = false) -> is_Some (ps !! c) ->
    initial (Sys (adopt (sup_init ps) c) []).

(** No process of ours is alive without somebody holding it. *)
Definition tracked (y : sys) (pid : nat) : Prop :=
  s_proc (y_sup y) = Some pid \/ exists c, (c, Some pid) ∈ y_pending y.

Record inv (y : sys) : Prop := Inv {
  inv_tracked : forall pid p, s_procs (y_sup y) !! pid = Some p ->
    p_ours p = true -> alive p = true -> tracked y pid;
  inv_client : forall pid, s_proc (y_sup y) = Some pid -> s_client (y_sup y) = Some pid;
  inv_known : forall pid, s_client (y_sup y) = Some pid -> is_Some (s_procs (y_sup y) !! pid)
}.

(** The part of the invariant about a supervisor on its own. *)
Definition coherent (s : sup) : Prop :=
  (forall pid, s_proc s = Some pid -> s_client s = Some pid) /\
  (forall pid, s_client s = Some pid -> is_Some (s_procs s !! pid)).

(** Processes that only ever stop, or change without becoming ours or alive. *)
Definition no_new (ps ps' : procs) : Prop :=
  forall pid p', ps' !! pid = Some p' -> p_ours p' = true -> alive p' = true ->
    exists p, ps !! pid = Some p /\ p_ours p = true /\ alive p = true.
Definition same_pids (ps ps' : procs) : Prop := forall pid, is_Some (ps !! pid) -> is_Some (ps' !! pid).

Lemma no_new_refl ps : no_new ps ps.
Proof. intros pid p. eauto. Qed.
Lemma no_new_trans ps1 ps2 ps3 : no_new ps1 ps2 -> no_new ps2 ps3 -> no_new ps1 ps3.
Proof. intros H1 H2 pid p Hp Ho Ha. destruct (H2 pid p Hp Ho Ha) as (p2 & ? & ? & ?). eauto. Qed.

Lemma no_new_insert ps pid p p' :
  ps !! pid = Some p -> p_ours p' = p_ours p -> (alive p' = true -> alive p = true) ->
  no_new ps (<[pid := p']> ps) /\ same_pids ps (<[pid := p']> ps).
Proof.
  intros Hp Ho Ha. split.
  - intros q q' Hq Hoq Haq. destruct (decide (q = pid)) as [->|].
    + rewrite lookup_insert_eq in Hq. injection Hq as <-. exists p. naive_solver congruence.
    + rewrite lookup_insert_ne in Hq by done. eauto.
  - intros q Hq. destruct (decide (q = pid)) as [->|].
    + rewrite lookup_insert_eq. by eexists.
    + by rewrite lookup_insert_ne.
Qed.

Lemma command_no_new ps c cmd ps' :
  command ps c cmd = Ok ps' -> no_new ps ps' /\ same_pids ps ps'.
Proof.
  unfold command. destruct (ps !! c) as [p|] eqn:Hp; [|done].
  destruct (alive p && negb (p_hung p)) eqn:Ha; [|done]. intros [= <-].
  apply andb_prop in Ha as [Ha _]. by apply (no_new_insert _ _ p); [|destruct cmd|].
Qed.

Lemma killed_dead p : alive (killed p) = false.
Proof. unfold alive, killed. by apply bool_decide_eq_false_2. Qed.

Lemma off_end_procs s h :
  no_new (s_procs s) (s_procs (off_end s h)) /\ same_pids (s_procs s) (s_procs (off_end s h)) /\
  s_proc (off_end s h) = s_proc s /\ s_client (off_end s h) = s_client s /\
  (forall pid p, h.2 = Some pid -> s_procs (off_end s h) !! pid = Some p -> alive p = false).
Proof.
  destruct h as [c o]. unfold off_end.
  assert (exists ps, match command (s_procs s) c Quit with Ok ps => ps | Raise _ => s_procs s end = ps /\
    no_new (s_procs s) ps /\ same_pids (s_procs s) ps) as (ps & -> & Hn & Hp).
  { destruct (command _ _ _) eqn:E; eexists; (split; [done|]).
    - by eapply command_no_new.
    - split; [apply no_new_refl|by intros ?]. }
  destruct o as [pid|]; cbn [snd].
  - destruct (ps !! pid) as [p|] eqn:E; cbn.
    + destruct (no_new_insert ps pid p (killed p) E eq_refl) as [Hn2 Hp2].
      { by rewrite killed_dead. }
      split; [by eapply no_new_trans|]. split; [by intros q ?%Hp%Hp2|].
      split; [done|]. split; [done|]. intros q p' [= ->]. rewrite lookup_insert_eq.
      intros [= <-]. apply killed_dead.
    + split; [done|]. split; [done|]. split; [done|]. split; [done|].
      intros q p' [= ->]. by rewrite E.
  - by split.
Qed.

Lemma off_end_inv s hs1 h hs2 :
  inv (Sys s (hs1 ++ h :: hs2)) -> inv (Sys (off_end s h) (hs1 ++ hs2)).
Proof.
  intros [Ht Hc Hk]. cbn in *. destruct (off_end_procs s h) as (Hn & Hp & Hs & Hcl & Hdead).
  split; cbn; rewrite ?Hs, ?Hcl; try done.
  - intros pid p' Hpid Ho Ha. destruct (Hn _ _ Hpid Ho Ha) as (p & Hpp & Hpo & Hpa).
    destruct (Ht pid p Hpp Hpo Hpa) as [Hl|[c Hin]]; unfold tracked; cbn; [left; by rewrite Hs|right].
    exists c. apply elem_of_app in Hin as [Hin|[Heq|Hin]%elem_of_cons];
      [apply elem_of_app; by left| |apply elem_of_app; by right].
    subst h. rewrite (Hdead pid p' eq_refl Hpid) in Ha. done.
  - intros pid H. by apply Hp, Hk.
Qed.

Lemma forget_dead_cases s :
  coherent s ->
  let f := forget_dead s in
  s_procs f = s_procs s /\
  ((s_client f = None /\ s_proc f = None /\ is_running s = false) \/
   (f = s /\ is_Some (s_client s) /\ is_running s = true)).
Proof.
  intros [Hc _]. unfold forget_dead, is_running.
  destruct (s_client s) as [c|] eqn:Ec, (s_proc s) as [pid|] eqn:Ep; cbn.
  - destruct (poll s) eqn:El; cbn; split; try done; [by left|right]. by eauto.
  - assert (poll s = None) as -> by (unfold poll; by rewrite Ep).
    split; [done|right]. by eauto.
  - specialize (Hc pid eq_refl). congruence.
  - split; [done|left]. done.
Qed.

(** What [power_on] does, on each of its outcomes. *)
Definition on_outcome (s : sup) (env : on_env) (s' : sup) (r : result bool) : Prop :=
  match r with
  | Ok true => exists pid args, oe_launch env = Ok args /\ s_procs s !! pid = None /\
      s_procs s' = <[pid := Proc args true None (oe_hangs env) false 0]> (s_procs s) /\
      s_proc s' = Some pid /\ s_client s' = Some pid /\ is_running s = false
  | Ok false => s' = s /\ is_Some (s_client s) /\ is_running s = true
  | Raise e => (oe_launch env = Raise e \/ oe_connect env = Raise e) /\
      s_proc s' = None /\ s_client s' = None /\ is_running s = false /\
      (s_procs s' = s_procs s \/
       exists pid p, s_procs s !! pid = None /\ s_procs s' = <[pid := killed p]> (s_procs s))
  end.

Lemma power_on_outcome s env :
  coherent s -> env_ok env -> on_outcome s env (power_on s env).1 (power_on s env).2.
Proof.
  intros Hs He. destruct (forget_dead_cases s Hs) as [Hp Hf]. unfold power_on, on_outcome.
  set (f := forget_dead s) in *. destruct Hf as [(Hc & Hpr & Hr)|(Hfs & [c Hc] & Hr)].
  - rewrite Hc. destruct (oe_launch env) as [args|e]; cbn; [|by eauto 8].
    pose proof (is_fresh (dom (s_procs f))) as Hfr. apply not_elem_of_dom in Hfr.
    set (pid := fresh (dom (s_procs f))) in *. rewrite Hp in *. unfold env_ok in He.
    destruct (oe_connect env) as [|e]; cbn; [by eauto 10|]. rewrite He. cbn.
    case_bool_decide; cbn; rewrite insert_insert_eq; by eauto 12.
  - rewrite Hfs, Hc. cbn. by eauto.
Qed.

(** Notes are only added. *)
Lemma power_on_notes s env : s_log s `prefix_of` s_log (power_on s env).1.
Proof.
  assert (s_log s `prefix_of` s_log (forget_dead s)) as Hf.
  { unfold forget_dead. destruct (s_client s), (s_proc s), (poll s); cbn; try done. by eexists. }
  etrans; [exact Hf|]. unfold power_on. destruct (s_client (forget_dead s)); [done|].
  destruct (oe_launch env); [|done]. destruct (oe_connect env) as [|e]; cbn; [by eexists|].
  destruct (is_exception e); [|done]. case_bool_decide; cbn; rewrite <- ?app_assoc; by eexists.
Qed.
Lemma power_off_notes s : s_log s `prefix_of` s_log (power_off s).1.
Proof.
  unfold power_off, off_begin. destruct (s_client s) as [c|]; [|done]. unfold off_end.
  destruct (s_proc s); cbn; by eexists.
Qed.
Lemma send_notes s c : s_log (send s c).1 = s_log s.
Proof. unfold send. destruct (s_client s); [|done]. by destruct (command _ _ _). Qed.
Lemma reset_notes s env : s_log s `prefix_of` s_log (reset s env).1.
Proof.
  unfold reset. destruct (s_client s); [|apply power_on_notes].
  pose proof (send_notes s SystemReset) as Hn. destruct (send s SystemReset) as [s' [b|e]];
    cbn in *; rewrite Hn; [by eexists|done].
Qed.

(** A process that was just launched is the only one [inv] has to explain. *)
Lemma power_on_inv s hs env : env_ok env -> inv (Sys s hs) -> inv (Sys (power_on s env).1 hs).
Proof.
  intros He [Ht Hc Hk]. cbn in *.
  pose proof (power_on_outcome s env (conj Hc Hk) He) as Ho.
  destruct (power_on s env) as [s' r]; cbn in *. unfold on_outcome in Ho.
  assert (s_proc s = None -> forall pid p, s_procs s !! pid = Some p -> p_ours p = true ->
    alive p = true -> exists c, (c, Some pid) ∈ hs) as Hpend.
  { intros Hn pid p H1 H2 H3. destruct (Ht pid p H1 H2 H3) as [H|H]; [|done]. cbn in H. congruence. }
  (* a supervisor that does not run has no live process of its own *)
  assert (is_running s = false -> forall pid p, s_procs s !! pid = Some p -> p_ours p = true ->
    alive p = true -> exists c, (c, Some pid) ∈ hs) as Hoff.
  { intros Hr pid p H1 H2 H3. destruct (Ht pid p H1 H2 H3) as [H|H]; [|done]. cbn in H.
    exfalso. unfold is_running, poll in Hr. rewrite (Hc pid H), H, H1 in Hr.
    unfold alive in H3. apply bool_decide_eq_true in H3. by rewrite H3 in Hr. }
  destruct r as [[|]|e].
  - destruct Ho as (pid & args & _ & Hfr & Hps & Hpr & Hcl & Hr). split; cbn; rewrite ?Hpr, ?Hcl, ?Hps.
    + intros q p Hq Hop Ha. unfold tracked. cbn. rewrite Hpr. destruct (decide (q = pid)) as [->|]; [by left|right].
      rewrite lookup_insert_ne in Hq by done. by eapply Hoff.
    + done.
    + intros q [= ->]. rewrite lookup_insert_eq. by eexists.
  - destruct Ho as (-> & _). done.
  - destruct Ho as (_ & Hpr & Hcl & Hr & Hps). split; cbn; rewrite ?Hpr, ?Hcl; [|done|done].
    intros q p Hq Hop Ha. right. cbn. destruct Hps as [Hps|(pid & p0 & Hfr & Hps)]; rewrite Hps in Hq.
    + by eapply Hoff.
    + destruct (decide (q = pid)) as [->|].
      * rewrite lookup_insert_eq in Hq. injection Hq as <-. by rewrite killed_dead in Ha.
      * rewrite lookup_insert_ne in Hq by done. by eapply Hoff.
Qed.

(** Replacing the process table by one in which nothing of ours came alive. *)
Lemma inv_procs s hs s' :
  s_proc s' = s_proc s -> s_client s' = s_client s ->
  no_new (s_procs s) (s_procs s') -> same_pids (s_procs s) (s_procs s') ->
  inv (Sys s hs) -> inv (Sys s' hs).
Proof.
  intros Hp Hc Hn Hs [Ht Hcl Hk]. split; cbn in *; rewrite ?Hp, ?Hc; try done.
  - intros pid p' H1 H2 H3. destruct (Hn _ _ H1 H2 H3) as (p & ? & ? & ?).
    unfold tracked; cbn. rewrite Hp. by eapply Ht.
  - intros pid H. by apply Hs, Hk.
Qed.

Lemma send_inv s hs c : inv (Sys s hs) -> inv (Sys (send s c).1 hs).
Proof.
  intros Hi. unfold send. destruct (s_client s) as [cl|] eqn:Ec; [|done].
  destruct (command _ _ _) eqn:E; [|done]. apply command_no_new in E as [??].
  eapply inv_procs; [..|exact Hi]; cbn; by rewrite ?Ec.
Qed.

Lemma inv_note s hs n : inv (Sys s hs) -> inv (Sys (note_ s n) hs).
Proof. intros [H1 H2 H3]. split; done. Qed.

Lemma off_begin_inv s hs :
  inv (Sys s hs) -> inv (Sys (off_begin s).1 (option_list (off_begin s).2 ++ hs)).
Proof.
  intros [Ht Hc Hk]. cbn in Hc. unfold off_begin. split; cbn; [|done|done].
  intros pid p H1 H2 H3. right. cbn. destruct (Ht pid p H1 H2 H3) as [H|[c H]]; cbn in H.
  - rewrite (Hc _ H), H. exists pid. by left.
  - exists c. apply elem_of_app. by right.
Qed.

Lemma step_inv y y' : step y y' -> inv y -> inv y'.
Proof.
  intros Hs Hi. destruct Hs as [s hs env He|s hs|s hs1 h hs2|s hs env He|s hs c _|s hs pid p code Hp].
  - by apply power_on_inv.
  - by apply off_begin_inv.
  - by apply off_end_inv.
  - unfold reset. destruct (s_client s) as [c|]; [|by apply power_on_inv].
    pose proof (send_inv s hs SystemReset Hi) as Hsend.
    destruct (send s SystemReset) as [s' [b|e]]; cbn in *; [by apply inv_note|done].
  - by apply send_inv.
  - destruct (no_new_insert (s_procs s) pid p (exited p code) Hp eq_refl) as [Hn Hsp].
    { unfold alive, exited. cbn. done. }
    by eapply inv_procs; [..|exact Hi].
Qed.

Lemma initial_inv y : initial y -> inv y.
Proof.
  destruct 1 as [|ps c Hf Hc]; split; cbn; try done.
  - intros pid p Hp Ho. rewrite (Hf pid p Hp) in Ho. done.
  - intros pid [= ->]. done.
Qed.

Lemma reachable_inv y y' : initial y -> rtc step y y' -> inv y'.
Proof.
  intros Hi Hr. assert (inv y) as H by by apply initial_inv. clear Hi.
  induction Hr as [|y1 y2 y3 Hs _ IH]; [done|]. by apply IH, (step_inv y1).
Qed.

(** ** Properties *)

(** C1. No emulator is ever left behind: over every interleaving of power
    on, the two halves of power off, reset, pause, resume and processes
    exiting on their own, a live process that the server started is either
    the one the supervisor tracks, with a client connected to it, or one that
    a power off is about to stop.  With no power off in progress at most one
    is alive. *)
Theorem supervisor_no_orphans y y' :
  initial y -> rtc step y y' ->
  (forall pid p, s_procs (y_sup y') !! pid = Some p -> p_ours p = true -> alive p = true ->
     (s_proc (y_sup y') = Some pid /\ s_client (y_sup y') = Some pid) \/
     exists c, (c, Some pid) ∈ y_pending y') /\
  (y_pending y' = [] -> forall pid1 pid2 p1 p2,
     s_procs (y_sup y') !! pid1 = Some p1 -> p_ours p1 = true -> alive p1 = true ->
     s_procs (y_sup y') !! pid2 = Some p2 -> p_ours p2 = true -> alive p2 = true -> pid1 = pid2).
Proof.
  intros Hi Hr. destruct (reachable_inv y y' Hi Hr) as [Ht Hc Hk]. split.
  - intros pid p H1 H2 H3. destruct (Ht pid p H1 H2 H3) as [H|H]; [left; eauto|by right].
  - intros Hn pid1 pid2 p1 p2 H1 H2 H3 H4 H5 H6.
    destruct (Ht pid1 p1 H1 H2 H3) as [E1|[c E1]], (Ht pid2 p2 H4 H5 H6) as [E2|[c' E2]];
      rewrite ?Hn in *; try by apply elem_of_nil in E1.
    + congruence.
    + by apply elem_of_nil in E2.
Qed.

(** C30. [power_on] in every state the supervisor reaches: it launches exactly
    when nothing is running, including when the tracked process died behind
    its back; on success the new process runs the launcher's command line,
    alone added to the process table, and the client talks to it; on failure
    the supervisor is off and no process it started is left alive. *)
Theorem power_on_spec y y' env :
  initial y -> rtc step y y' -> env_ok env ->
  let s := y_sup y' in
  let '(s', r) := power_on s env in
  match r with
  | Ok b => is_running s' = true /\ b = negb (is_running s) /\
      (b = true -> exists pid args, oe_launch env = Ok args /\ s_procs s !! pid = None /\
         s_procs s' = <[pid := Proc args true None (oe_hangs env) false 0]> (s_procs s) /\
         s_client s' = Some pid /\ owns_process s' = true) /\
      (b = false -> s' = s)
  | Raise _ => is_running s = false /\ is_running s' = false /\ owns_process s' = false /\
      forall pid p, s_procs s' !! pid = Some p -> alive p = true -> s_procs s !! pid = Some p
  end.
Proof.
  intros Hi Hr He s. destruct (reachable_inv y y' Hi Hr) as [_ Hc Hk].
  pose proof (power_on_outcome s env (conj Hc Hk) He) as Ho.
  destruct (power_on s env) as [s' [[|]|e]]; cbn in *.
  - destruct Ho as (pid & args & Hl & Hfr & Hps & Hpr & Hcl & Hrun). rewrite Hrun.
    split; [|split; [done|split; [|done]]].
    + unfold is_running, poll. by rewrite Hcl, Hpr, Hps, lookup_insert_eq.
    + intros _. exists pid, args. unfold owns_process. rewrite Hpr.
      repeat (split; [done|]). by apply bool_decide_eq_true_2.
  - destruct Ho as (-> & _ & Hrun). rewrite Hrun. done.
  - destruct Ho as (_ & Hpr & Hcl & Hrun & Hps). split; [done|].
    unfold is_running, owns_process. rewrite Hcl, Hpr. split; [done|]. split; [done|].
    intros pid p Hp Ha. destruct Hps as [Hq|(q & p0 & Hfr & Hq)]; rewrite Hq in Hp; [done|].
    destruct (decide (pid = q)) as [->|].
    + rewrite lookup_insert_eq in Hp. injection Hp as <-. by rewrite killed_dead in Ha.
    + by rewrite lookup_insert_ne in Hp.
Qed.

(** Off then On is a cold boot: [power_off] stops the tracked process
    and turns the supervisor off, and a successful [power_on] after it runs a
    new process, unpaused and never reset, that is not the old one. *)
Theorem power_cycle_cold_boot y y' env :
  initial y -> rtc step y y' -> env_ok env ->
  let s := y_sup y' in
  let '(s1, b) := power_off s in
  is_running s1 = false /\ owns_process s1 = false /\ b = bool_decide (is_Some (s_client s)) /\
  (forall pid p, s_proc s = Some pid -> s_procs s1 !! pid = Some p -> alive p = false) /\
  let '(s2, r) := power_on s1 env in
  r = Ok true -> exists pid p, s_client s2 = Some pid /\ s_proc s <> Some pid /\
    s_client s <> Some pid /\ s_procs s2 !! pid = Some p /\
    p_paused p = false /\ p_boots p = 0%nat /\ oe_launch env = Ok (p_args p).
Proof.
  intros Hi Hr He s. destruct (reachable_inv y y' Hi Hr) as [_ Hc Hk]. fold s in Hc, Hk.
  unfold power_off, off_begin. set (s0 := Sup None None (s_procs s) (s_log s)).
  assert (exists s1, (match (match s_client s with Some c => Some (c, s_proc s) | None => None end) with
    | None => (s0, false) | Some h => (off_end s0 h, true) end)
    = (s1, bool_decide (is_Some (s_client s))) /\
    s_proc s1 = None /\ s_client s1 = None /\ same_pids (s_procs s) (s_procs s1) /\
    (forall pid p, s_proc s = Some pid -> s_procs s1 !! pid = Some p -> alive p = false)) as
    (s1 & -> & Hp1 & Hc1 & Hs1 & Hd1).
  { destruct (s_client s) as [c|] eqn:Ec.
    - destruct (off_end_procs s0 (c, s_proc s)) as (_ & Hs & Hp & Hcl & Hd).
      eexists. split; [by rewrite bool_decide_eq_true_2 by eauto|]. eauto.
    - exists s0. rewrite bool_decide_eq_false_2 by (intros [? [=]]). split; [done|].
      split; [done|]. split; [done|]. split; [by intros ?|]. intros pid p Hpid.
      specialize (Hc pid Hpid). congruence. }
  split; [unfold is_running; by rewrite Hc1|].
  split; [unfold owns_process; rewrite Hp1; by apply bool_decide_eq_false_2; intros [? [=]]|].
  split; [done|]. split; [exact Hd1|].
  assert (coherent s1) as Hco by (split; intros pid; rewrite ?Hp1, ?Hc1; done).
  pose proof (power_on_outcome s1 env Hco He) as Ho. destruct (power_on s1 env) as [s2 r]; cbn in Ho.
  intros ->. destruct Ho as (pid & args & Hl & Hfr & Hps & Hpr & Hcl & _).
  assert (s_client s <> Some pid) as Hne.
  { intros E. destruct (Hs1 pid (Hk pid E)) as [p Hp]. congruence. }
  exists pid, (Proc args true None (oe_hangs env) false 0). rewrite Hps, lookup_insert_eq.
  split; [done|]. split; [intros E; by apply Hne, Hc|]. done.
Qed.

(** [power_off] does not refuse for an adopted emulator: it sends it
    [quit], and an emulator somebody else started is stopped. *)
Theorem power_off_quits_adopted s c p :
  s_procs s !! c = Some p -> alive p = true -> p_hung p = false -> p_ours p = false ->
  let '(s', b) := power_off (adopt s c) in
  owns_process (adopt s c) = false /\ b = true /\
  exists p', s_procs s' !! c = Some p' /\ p_exit p' = Some 0 /\ p_ours p' = false.
Proof.
  intros Hp Ha Hh Ho. unfold power_off, off_begin, adopt. cbn. unfold command. rewrite Hp, Ha, Hh. cbn.
  split; [done|]. split; [done|]. rewrite lookup_insert_eq. by eauto.
Qed.

(** ** Concrete runs *)

Definition some_args : popen := Popen [lit "qemu-system-arm"; lit "-kernel"; lit "fw.bin"] [].
Definition good_env : on_env := OnEnv (Ok some_args) false (Ok tt) [].
(** On, then the process dies. *)
Definition died : sys :=
  let s := (power_on (sup_init ∅) good_env).1 in
  Sys (set_procs s (<[0%nat := exited (Proc some_args true None false false 0) 1]> (s_procs s))) [].

Lemma died_reachable : rtc step (Sys (sup_init ∅) []) died.
Proof.
  eapply rtc_l; [apply (step_on _ _ good_env); exact I|].
  eapply rtc_l; [|apply rtc_refl]. apply step_exit. reflexivity.
Defined.

(** On, and nothing since. *)
Definition turned_on : sys := Sys (power_on (sup_init ∅) good_env).1 [].

Lemma supervisor_no_orphans_witness :
  (s_proc (y_sup turned_on) = Some 0%nat /\ s_client (y_sup turned_on) = Some 0%nat) \/
  exists c, (c, Some 0%nat) ∈ y_pending turned_on.
Proof.
  assert (rtc step (Sys (sup_init ∅) []) turned_on) as Hr.
  { eapply rtc_l; [apply (step_on _ _ good_env); exact I|apply rtc_refl]. }
  exact (proj1 (supervisor_no_orphans _ turned_on initial_off Hr) 0%nat
    (Proc some_args true None false false 0) eq_refl eq_refl eq_refl).
Defined.

Lemma power_on_spec_witness :
  is_running (y_sup died) = false /\ is_running (power_on (y_sup died) good_env).1 = true /\
  (power_on (y_sup died) good_env).2 = Ok true.
Proof.
  pose proof (power_on_spec _ died good_env initial_off died_reachable I) as H.
  split; [reflexivity|]. split; [exact (proj1 H)|reflexivity].
Defined.

Lemma power_cycle_cold_boot_witness :
  is_running (power_off (y_sup died)).1 = false /\
  is_running (power_on (power_off (y_sup died)).1 good_env).1 = true.
Proof.
  pose proof (power_cycle_cold_boot _ died good_env initial_off died_reachable I) as H.
  split; [exact (proj1 H)|reflexivity].
Defined.

Lemma power_off_quits_adopted_witness :
  (power_off (adopt (sup_init {[7%nat := Proc some_args false None false false 0]}) 7)).2 = true.
Proof.
  pose proof (power_off_quits_adopted (sup_init {[7%nat := Proc some_args false None false false 0]})
    7 (Proc some_args false None false false 0) eq_refl eq_refl eq_refl eq_refl) as H.
  exact (proj1 (proj2 H)).
Defined.
