(* ===== verification/Files.v ===== *)
(** The file-level operations on a flash image: [load_image], [save_image],
    [slots_json], [write_slot_file] and [erase_slot_file] of
    [src/tools/uvk5_slots.py], and [apps_json], [install_file], [erase_file],
    [resolve] and the command line of [src/tools/uvk5_apps.py].  A file knows
    whether its bytes have been synced, so that a crash can be modelled. *)
From S2P Require Import Slots Apps.
From S2P Require Import Prelude Struct Image.
Open Scope Z_scope.

(** ** The file system *)

(** The bytes a reader sees, and whether they are on the disk. *)
Record file := File { f_data : list Z; f_synced : bool }.
Abbreviation fsys := (gmap (list Z) file).

Inductive fs_op :=
| FOpen (path : list Z)               (* open(path, "wb"): created or truncated *)
| FWrite (path data : list Z)         (* fh.write(data) *)
| FSync (path : list Z)               (* os.fsync *)
| FReplace (src dst : list Z).        (* os.replace *)

Definition exec (fs : fsys) (op : fs_op) : fsys :=
  match op with
  | FOpen p => <[p := File [] false]> fs
  | FWrite p d => match fs !! p with
                  | Some f => <[p := File (f_data f ++ d) false]> fs
                  | None => fs
                  end
  | FSync p => match fs !! p with
               | Some f => <[p := File (f_data f) true]> fs
               | None => fs
               end
  | FReplace s d => match fs !! s with
                    | Some f => <[d := f]> (delete s fs)
                    | None => fs
                    end
  end.
Definition exec_all (fs : fsys) (ops : list fs_op) : fsys := foldl exec fs ops.

(** What a crash may leave: of a file that was not synced, any prefix.  The
    directory is not synced by any step, so that each name may be found as any
    of the steps, or none of them, left it. *)
Definition after_crash (f f' : file) : Prop :=
  if f_synced f then f' = f else exists n, f_data f' = take n (f_data f).
Definition crash (fs : fsys) (ops : list fs_op) (fs' : fsys) : Prop :=
  forall p, exists k, (k <= length ops)%nat /\
    match exec_all fs (take k ops) !! p, fs' !! p with
    | Some f, Some f' => after_crash f f'
    | None, None => True
    | _, _ => False
    end.

Definition load_image (fs : fsys) (path : list Z) : result (list Z) :=
  match fs !! path with
  | Some f => Ok (f_data f)
  | None => raise OSError "No such file or directory: %r" path
  end.

Definition tmp_of (path : list Z) : list Z := path ++ lit ".tmp".

(** [save_image]: the steps it takes. *)
Definition save_ops (path buf : list Z) : list fs_op :=
  [FOpen (tmp_of path); FWrite (tmp_of path) buf; FSync (tmp_of path);
   FReplace (tmp_of path) path].
Definition save_image (fs : fsys) (path buf : list Z) : fsys := exec_all fs (save_ops path buf).

(** ** Firmware slots *)

Record json_row := Row { r_slot : Z; r_base : Z; r_header : option Slots.slot_header }.

(** The file's name, its size and one row per slot. *)
Definition slots_json (fs : fsys) (path : list Z) : result (list Z * Z * list json_row) :=
  buf ← load_image fs path;
  rows ← foldM (fun rows slot =>
           r ← Slots.read_slot buf slot;
           base ← Slots.slot_base slot;
           Ok (rows ++ [Row slot base (fst <$> r)])) [] [0; 1; 2; 3; 4];
  Ok (basename path, zlen buf, rows).

Definition row_of (j : list Z * Z * list json_row) (slot : Z) : result json_row :=
  match j.2 !! Z.to_nat slot with
  | Some r => Ok r
  | None => raise IndexError "list index out of range" []
  end.

(** The state after the call comes first: the image is saved before the
    answer is read back. *)
Definition write_slot_file (fs : fsys) (path : list Z) (slot : Z) (image name fw_version : list Z)
    (erase_state_sectors : bool) : fsys * result json_row :=
  match (buf ← load_image fs path; Slots.write_slot buf slot image name fw_version) with
  | Raise e => (fs, Raise e)
  | Ok buf =>
      let fs := save_image fs path (if erase_state_sectors then Slots.erase_state buf else buf) in
      (fs, j ← slots_json fs path; row_of j slot)
  end.

Definition erase_slot_file (fs : fsys) (path : list Z) (slot : Z) : fsys * result json_row :=
  match (buf ← load_image fs path; Slots.erase_slot buf slot) with
  | Raise e => (fs, Raise e)
  | Ok buf =>
      let fs := save_image fs path (Slots.erase_state buf) in
      (fs, j ← slots_json fs path; row_of j slot)
  end.

(** ** Overlay apps *)

(** One row of [apps_json]. *)
Inductive app_row :=
| AppEmpty (slot base : Z)
| AppHere (slot base : Z) (i : Apps.info)
| AppOther (slot base : Z) (s : Apps.slot_info).

Definition info_slot (s : Apps.slot_info) : Z :=
  match s with
  | Apps.SlotApp n _ _ | Apps.SlotUnreadable n _ | Apps.SlotFirmware n _ _ | Apps.SlotUnknown n _ _ => n
  end.
Definition occupied_at (infos : list Apps.slot_info) (slot : Z) : option Apps.slot_info :=
  foldl (fun acc s => if info_slot s =? slot then Some s else acc) None infos.

Definition app_row_of (infos : list Apps.slot_info) (slot base : Z) : app_row :=
  match occupied_at infos slot with
  | None => AppEmpty slot base
  | Some (Apps.SlotApp _ _ i) => AppHere slot base i
  | Some s => AppOther slot base s
  end.

Definition apps_json (fs : fsys) (path : list Z) : result (list app_row) :=
  image ← load_image fs path;
  infos ← Apps.list_apps image;
  foldM (fun rows slot => base ← Apps.slot_base slot; Ok (rows ++ [app_row_of infos slot base]))
    [] Apps.slot_numbers.

(** [with open(path, "wb") as fh: fh.write(image)]. *)
Definition write_ops (path image : list Z) : list fs_op := [FOpen path; FWrite path image].

Definition install_file (fs : fsys) (path : list Z) (slot : Z) (blob : list Z) (force : bool)
  : fsys * result Apps.info :=
  match (image ← load_image fs path; Apps.install image slot blob force) with
  | Raise e => (fs, Raise e)
  | Ok (image, info) => (exec_all fs (write_ops path image), Ok info)
  end.

Definition erase_file (fs : fsys) (path : list Z) (slot : Z) : fsys * result Z :=
  match (image ← load_image fs path; Apps.erase image slot) with
  | Raise e => (fs, Raise e)
  | Ok (image, base) => (exec_all fs (write_ops path image), Ok base)
  end.

(** ** The command line of uvk5_apps.py *)

(** [resolve]: [roots] are work/apps, assets/apps and the current directory. *)
Definition resolve (fs : fsys) (roots : list (list Z)) (name : list Z) : result (list Z) :=
  if starts_with [47] name || bool_decide (is_Some (fs !! name)) then Ok name
  else match list_find (fun root => is_Some (fs !! (root ++ [47] ++ name))) roots with
       | Some (_, root) => Ok (root ++ [47] ++ name)
       | None => raise AppError "no %s; looked in %s" name
       end.

(** The parsed arguments of each subcommand; only two of them have [app]. *)
Inductive args :=
| ArgsList (image : list Z)
| ArgsInstall (image : list Z) (slot : Z) (app : list Z) (force : bool)
| ArgsErase (image : list Z) (slot : Z)
| ArgsInfo (app : list Z).

(** [args.app], which argparse sets for two of the subcommands only. *)
Definition args_app (a : args) : result (list Z) :=
  match a with
  | ArgsInstall _ _ app _ | ArgsInfo app => Ok app
  | _ => raise AttributeError "'Namespace' object has no attribute 'app'" []
  end.

Definition args_image (a : args) : list Z :=
  match a with
  | ArgsList image | ArgsInstall image _ _ _ | ArgsErase image _ => image
  | ArgsInfo _ => []
  end.

(** The body of the [try] in [main]. *)
Definition main_body (fs : fsys) (roots : list (list Z)) (a : args) : fsys * result Z :=
  match a with
  | ArgsInfo app =>
      (fs, p ← resolve fs roots app; blob ← load_image fs p; _ ← Apps.parse blob true; Ok 0)
  | ArgsList image => (fs, b ← load_image fs image; _ ← Apps.list_apps b; Ok 0)
  | ArgsInstall _ _ _ _ | ArgsErase _ _ =>
      match (image ← load_image fs (args_image a); app ← args_app a;
             p ← resolve fs roots app; blob ← load_image fs p; Ok (image, blob)) with
      | Raise e => (fs, Raise e)
      | Ok (image, blob) =>
          match a with
          | ArgsInstall path slot _ force =>
              match Apps.install image slot blob force with
              | Ok (image, _) => (exec_all fs (write_ops path image), Ok 0)
              | Raise e => (fs, Raise e)
              end
          | ArgsErase path slot =>
              match Apps.erase image slot with
              | Ok (image, _) => (exec_all fs (write_ops path image), Ok 0)
              | Raise e => (fs, Raise e)
              end
          | _ => (fs, Ok 0)
          end
      end
  end.

(** [main]: AppError becomes exit status 2. *)
Definition main (fs : fsys) (roots : list (list Z)) (a : args) : fsys * result Z :=
  match main_body fs roots a with
  | (fs, Raise e) => (fs, if bool_decide (exn_cls e = AppError) then Ok 2 else Raise e)
  | r => r
  end.

Lemma op_cases_write buf m slot image name fw :
  Slots.represents buf m ->
  (Slots.op_ok (Slots.OpWrite slot image name fw) = true /\ 0 <= slot < Slots.SLOT_COUNT /\
   exists buf', Slots.write_slot buf slot image name fw = Ok buf' /\
     Slots.represents buf' (Slots.spec_op m (Slots.OpWrite slot image name fw))) \/
  (Slots.op_ok (Slots.OpWrite slot image name fw) = false /\
   exists e, Slots.write_slot buf slot image name fw = Raise e /\ exn_cls e = ValueError).
Proof.
  intros Hm. pose proof (Slots.op_refines buf m (Slots.OpWrite slot image name fw) Hm) as H.
  cbn [Slots.run_op] in H. destruct (Slots.write_slot _ _ _ _ _) as [b|e].
  - left. destruct H as [H1 H2]. split; [done|]. split; [|by eauto].
    cbn [Slots.op_ok] in H1. unfold Slots.SLOT_COUNT in *. lia.
  - right. destruct H. eauto.
Qed.

Lemma op_cases_erase buf m slot :
  Slots.represents buf m ->
  (Slots.op_ok (Slots.OpErase slot) = true /\ 0 <= slot < Slots.SLOT_COUNT /\
   exists buf', Slots.erase_slot buf slot = Ok buf' /\
     Slots.represents buf' (Slots.spec_op m (Slots.OpErase slot))) \/
  (Slots.op_ok (Slots.OpErase slot) = false /\
   exists e, Slots.erase_slot buf slot = Raise e /\ exn_cls e = ValueError).
Proof.
  intros Hm. pose proof (Slots.op_refines buf m (Slots.OpErase slot) Hm) as H.
  cbn [Slots.run_op] in H. destruct (Slots.erase_slot _ _) as [b|e].
  - left. destruct H as [H1 H2]. split; [done|]. split; [|by eauto].
    cbn [Slots.op_ok] in H1. unfold Slots.SLOT_COUNT in *. lia.
  - right. destruct H. eauto.
Qed.

(** ** Saving *)

Lemma tmp_ne path : tmp_of path <> path.
Proof.
  intros H. apply (f_equal length) in H. unfold tmp_of in H. rewrite length_app in H.
  change (length (lit ".tmp")) with 4%nat in H. lia.
Qed.

Lemma save_image_lookup fs path buf p :
  save_image fs path buf !! p =
    if decide (p = path) then Some (File buf true)
    else if decide (p = tmp_of path) then None else fs !! p.
Proof.
  pose proof (tmp_ne path) as Hne. unfold save_image, exec_all, save_ops. cbn [foldl exec].
  repeat (rewrite lookup_insert_eq; cbn [f_data app]).
  destruct (decide (p = path)) as [->|Hp]; [by rewrite lookup_insert_eq|].
  rewrite lookup_insert_ne by done. destruct (decide (p = tmp_of path)) as [->|Ht].
  - by rewrite lookup_delete_eq.
  - by rewrite lookup_delete_ne, !lookup_insert_ne by done.
Qed.

Lemma save_image_load fs path buf : load_image (save_image fs path buf) path = Ok buf.
Proof. unfold load_image. by rewrite save_image_lookup, decide_True. Qed.

(** What the image's name refers to after some of the steps. *)
Lemma save_prefix fs path f buf k : fs !! path = Some f ->
  exec_all fs (take k (save_ops path buf)) !! path = Some (if decide (4 <= k)%nat then File buf true else f).
Proof.
  intros Hf. pose proof (tmp_ne path) as Hne. destruct k as [|[|[|[|k]]]]; [done| | | |].
  - cbn. by rewrite lookup_insert_ne.
  - cbn. rewrite lookup_insert_eq. by rewrite !lookup_insert_ne.
  - cbn. rewrite lookup_insert_eq. cbn. rewrite lookup_insert_eq. by rewrite !lookup_insert_ne.
  - rewrite take_ge by (cbn; lia). fold (save_image fs path buf).
    rewrite save_image_lookup, !decide_True by (done || lia). done.
Qed.



(** Writing in place. *)
Lemma exec_write fs p d x :
  exec_all fs (write_ops p d) !! x = if decide (x = p) then Some (File d false) else fs !! x.
Proof.
  unfold exec_all, write_ops. cbn. rewrite lookup_insert_eq. cbn. case_decide as E.
  - subst. by rewrite lookup_insert_eq.
  - by rewrite !lookup_insert_ne.
Qed.

(** ** The rows of the app slots *)

Lemma read_slot_names image n s : Apps.read_slot image n = Ok (Some s) -> info_slot s = n.
Proof.
  intros (base & _ & H)%bind_ok. cbv zeta in H.
  repeat match type of H with (if ?b then _ else _) = _ => destruct b end; try done.
  - by case_match; injection H as <-.
  - apply bind_ok in H as ([size rest] & _ & H). destruct (Apps.parse _ _); [by injection H as <-|].
    case_bool_decide; [by injection H as <-|done].
Qed.

Lemma occupied_at_app a b s :
  occupied_at (a ++ b) s = match occupied_at b s with Some x => Some x | None => occupied_at a s end.
Proof.
  unfold occupied_at. rewrite foldl_app. generalize (foldl (fun acc x => if info_slot x =? s then Some x else acc) None a).
  induction b as [|x b IH] using rev_ind; intros o; [done|]. rewrite !foldl_app. cbn.
  by destruct (_ =? _).
Qed.

Lemma occupied_at_absent l s : Forall (fun x => info_slot x <> s) l -> occupied_at l s = None.
Proof.
  induction 1 as [|x l Hx _ IH] using Forall_ind; [done|].
  change (x :: l) with ([x] ++ l). rewrite occupied_at_app, IH. cbn. by rewrite (proj2 (Z.eqb_neq _ _)).
Qed.

(** [list_apps] never fails, and keeps of each slot what [read_slot] says. *)
Lemma list_apps_from image ns : NoDup ns -> Forall (fun n => 0 <= n < Apps.SLOT_COUNT) ns -> forall acc,
  exists more,
    foldM (fun found i =>
      r ← Apps.read_slot image i; Ok (found ++ match r with Some s => [s] | None => [] end)) acc ns
    = Ok (acc ++ more) /\
    Forall (fun x => info_slot x ∈ ns) more /\
    forall n, n ∈ ns -> Apps.read_slot image n = Ok (occupied_at more n).
Proof.
  induction 1 as [|n ns Hn _ IH]; intros Hr acc.
  - exists []. rewrite app_nil_r. split; [done|]. split; [done|]. intros n Hn. by apply not_elem_of_nil in Hn.
  - inversion Hr as [|? ? Hr1 Hr2]; subst. destruct (Apps.read_slot_total image n Hr1) as [o Ho].
    cbn [foldM]. rewrite Ho. cbn [mbind result_bind].
    set (here := match o with Some s => [s] | None => [] end).
    destruct (IH Hr2 (acc ++ here)) as (more & -> & Hin & Hat). exists (here ++ more).
    assert (Forall (fun x => info_slot x = n) here) as Hhere.
    { unfold here. destruct o as [s|]; [|done]. constructor; [by eapply read_slot_names|done]. }
    split; [by rewrite app_assoc|]. split.
    + apply Forall_app. split; eapply Forall_impl; [exact Hhere| |exact Hin|]; intros x Hx; [rewrite Hx; by left|by right].
    + intros m Hm. rewrite occupied_at_app. destruct (decide (m = n)) as [->|Hne].
      * rewrite occupied_at_absent.
        2: { eapply Forall_impl; [exact Hin|]. cbn. intros x Hx Hxn. by rewrite Hxn in Hx. }
        rewrite Ho. unfold here. destruct o as [s|]; [|done]. cbn.
        by rewrite (read_slot_names _ _ _ Ho), Z.eqb_refl.
      * apply elem_of_cons in Hm as [->|Hm]; [done|]. rewrite (Hat m Hm).
        rewrite (occupied_at_absent here); [by destruct (occupied_at more m)|].
        eapply Forall_impl; [exact Hhere|]. cbn. by intros x ->.
Qed.

(** The rows the page is given: one per slot, from what is in it. *)
Lemma apps_json_rows fs path image :
  load_image fs path = Ok image ->
  exists rows, apps_json fs path = Ok rows /\
    forall s, 0 <= s < Apps.SLOT_COUNT -> exists o, Apps.read_slot image s = Ok o /\
      rows !! Z.to_nat s = Some (match o with
                                 | None => AppEmpty s (Apps.REGION_BASE + s * Apps.SLOT_STRIDE)
                                 | Some (Apps.SlotApp _ _ i) => AppHere s (Apps.REGION_BASE + s * Apps.SLOT_STRIDE) i
                                 | Some x => AppOther s (Apps.REGION_BASE + s * Apps.SLOT_STRIDE) x
                                 end).
Proof.
  intros Hl. unfold apps_json. rewrite Hl. cbn [mbind result_bind].
  destruct (list_apps_from image Apps.slot_numbers) with (acc := @nil Apps.slot_info) as (infos & Hi & _ & Hat).
  { by apply (bool_decide_unpack (NoDup Apps.slot_numbers)). }
  { repeat (constructor; [by split|]). constructor. }
  unfold Apps.list_apps. rewrite Hi. cbn [mbind result_bind app].
  exists (map (fun s => app_row_of infos s (Apps.REGION_BASE + s * Apps.SLOT_STRIDE)) Apps.slot_numbers).
  split; [reflexivity|]. intros s Hs.
  assert (Apps.slot_numbers !! Z.to_nat s = Some s) as Hk.
  { assert (Forall (fun s => Apps.slot_numbers !! Z.to_nat s = Some s) (zrange 16)) as H by by repeat constructor.
    rewrite Forall_forall in H. apply H. by apply elem_of_zrange. }
  exists (occupied_at infos s). split.
  - apply Hat. by apply list_elem_of_lookup_2 with (Z.to_nat s).
  - change (((fun s => app_row_of infos s (Apps.REGION_BASE + s * Apps.SLOT_STRIDE)) <$> Apps.slot_numbers)
      !! Z.to_nat s = Some (match occupied_at infos s with
        | None => AppEmpty s (Apps.REGION_BASE + s * Apps.SLOT_STRIDE)
        | Some (Apps.SlotApp _ _ i) => AppHere s (Apps.REGION_BASE + s * Apps.SLOT_STRIDE) i
        | Some x => AppOther s (Apps.REGION_BASE + s * Apps.SLOT_STRIDE) x end)).
    by rewrite list_lookup_fmap, Hk.
Qed.

(** ** Firmware slots in a file *)

Lemma slots_json_row buf slot r :
  (forall s, 0 <= s < Slots.SLOT_COUNT -> exists r, Slots.read_slot buf s = Ok r) ->
  0 <= slot < Slots.SLOT_COUNT -> Slots.read_slot buf slot = Ok r ->
  forall fs path, load_image fs path = Ok buf ->
  (j ← slots_json fs path; row_of j slot) =
    Ok (Row slot (Slots.SLOT_BACKUP_BASE + slot * Slots.SLOT_STRIDE) (fst <$> r)).
Proof.
  intros Hall Hs Hr fs path Hl. unfold slots_json. rewrite Hl. cbn [mbind result_bind foldM].
  destruct (Hall 0) as [r0 Hr0]; [by split|]. destruct (Hall 1) as [r1 Hr1]; [by split|].
  destruct (Hall 2) as [r2 Hr2]; [by split|]. destruct (Hall 3) as [r3 Hr3]; [by split|].
  destruct (Hall 4) as [r4 Hr4]; [by split|].
  rewrite Hr0, Hr1, Hr2, Hr3, Hr4. cbn [mbind result_bind]. 
  rewrite !Slots.slot_base_ok by (split; done). cbn [mbind result_bind app].
  unfold row_of. cbn [snd]. unfold Slots.SLOT_COUNT in Hs.
  assert (slot = 0 \/ slot = 1 \/ slot = 2 \/ slot = 3 \/ slot = 4) as Hc by lia.
  destruct Hc as [->|[->|[->|[-> | ->]]]];
    match goal with
    | H : Slots.read_slot buf ?s = Ok ?a |- context [Row ?s _ (fst <$> r)] =>
        rewrite H in Hr; injection Hr as <-
    end; reflexivity.
Qed.

Lemma represents_reads buf m s :
  Slots.represents buf m -> 0 <= s < Slots.SLOT_COUNT -> exists r, Slots.read_slot buf s = Ok r.
Proof. intros [_ H] Hs. destruct (H s Hs) as (r & ? & _). by exists r. Qed.

(** Saving a represented image and reading its row back. *)
Lemma saved_row fs path buf m slot :
  Slots.represents buf m -> 0 <= slot < Slots.SLOT_COUNT ->
  exists row, (j ← slots_json (save_image fs path buf) path; row_of j slot) = Ok row /\
    r_slot row = slot /\ r_header row = (Slots.ct_header <$> m !! slot).
Proof.
  intros Hm Hs. pose proof Hm as [_ Hr]. destruct (Hr slot Hs) as (r & Hread & Hc & _).
  eexists. split.
  { apply (slots_json_row buf slot r); [|done|done|apply save_image_load].
    intros s. by apply represents_reads with m. }
  cbn. split; [done|]. rewrite <- Hc. by destruct r as [[h image]|].
Qed.

Definition same_elsewhere (fs fs' : fsys) (path : list Z) : Prop :=
  forall p, p <> path -> p <> tmp_of path -> fs' !! p = fs !! p.

Lemma save_elsewhere fs path buf : same_elsewhere fs (save_image fs path buf) path.
Proof. intros p H1 H2. by rewrite save_image_lookup, !decide_False. Qed.

(** C25. The file operations refine the abstract slot table: on an image that
    represents a table, writing or erasing a slot in the file leaves a
    synced image that represents the updated table, answers with that slot's
    new row (after a write its whole header, the image's CRC-32 in it), and
    changes no other file but its own temporary one; a slot out
    of range or an image that does not fit raises ValueError and changes
    nothing at all. *)
Theorem slot_file_refines fs path f m op :
  fs !! path = Some f -> Slots.represents (f_data f) m ->
  let '(fs', r) :=
    match op with
    | Slots.OpWrite slot image name fw => write_slot_file fs path slot image name fw true
    | Slots.OpErase slot => erase_slot_file fs path slot
    | Slots.OpEraseState => (save_image fs path (Slots.erase_state (f_data f)), Ok (Row 0 0 None))
    end in
  match r with
  | Ok row => Slots.op_ok op = true /\ same_elsewhere fs fs' path /\
      (exists buf, fs' !! path = Some (File buf true) /\ Slots.represents buf (Slots.spec_op m op)) /\
      match op with
      | Slots.OpWrite slot image name fw => r_slot row = slot /\
          r_header row = Some (Slots.ct_header (Slots.written slot image name fw))
      | Slots.OpErase slot => r_slot row = slot /\ r_header row = None
      | Slots.OpEraseState => True
      end
  | Raise e => Slots.op_ok op = false /\ exn_cls e = ValueError /\ fs' = fs
  end.
Proof.
  intros Hf Hm. assert (load_image fs path = Ok (f_data f)) as Hl by (unfold load_image; by rewrite Hf).
  assert (forall buf, save_image fs path buf !! path = Some (File buf true)) as Hsaved
    by (intros; by rewrite save_image_lookup, decide_True).
  destruct op as [slot image name fw|slot|].
  - unfold write_slot_file. rewrite Hl. cbn [mbind result_bind].
    destruct (op_cases_write (f_data f) m slot image name fw Hm) as [(Hok & Hs & buf & -> & Hb)|(Hok & e & -> & He)].
    + apply Slots.erase_state_represents in Hb.
      destruct (saved_row fs path _ _ slot Hb Hs) as (row & Hrow & Hrs & Hn). rewrite Hrow.
      cbn [Slots.spec_op] in Hn. rewrite lookup_insert_eq in Hn. split; [done|]. split; [apply save_elsewhere|].
      split; [by eauto|done].
    + done.
  - unfold erase_slot_file. rewrite Hl. cbn [mbind result_bind].
    destruct (op_cases_erase (f_data f) m slot Hm) as [(Hok & Hs & buf & -> & Hb)|(Hok & e & -> & He)].
    + apply Slots.erase_state_represents in Hb.
      destruct (saved_row fs path _ _ slot Hb Hs) as (row & Hrow & Hrs & Hn). rewrite Hrow.
      cbn [Slots.spec_op] in Hn. rewrite lookup_delete_eq in Hn. split; [done|]. split; [apply save_elsewhere|].
      split; [by eauto|]. split; [done|]. by destruct (r_header row).
    + done.
  - split; [done|]. split; [apply save_elsewhere|]. split; [|done].
    eexists. split; [apply Hsaved|]. by apply Slots.erase_state_represents.
Qed.

(** ** One image, two regions *)

(** The firmware slots and the state sectors end below the app slots. *)
Lemma app_read_ext buf buf' slot :
  zlen buf' = zlen buf ->
  (forall k, (Z.to_nat Apps.REGION_BASE <= k)%nat -> buf' !! k = buf !! k) ->
  Apps.read_slot buf' slot = Apps.read_slot buf slot.
Proof.
  intros Hz Hk. destruct (Apps.slot_base slot) as [base|e] eqn:Hb.
  - apply (Apps.app_slot_ext _ _ _ base); [done|done|].
    apply Apps.app_base_iff in Hb as [Hs ->]. apply list_eq. intros k.
    unfold Apps.SLOT_COUNT, Apps.REGION_BASE, Apps.SLOT_STRIDE in *.
    rewrite !lookup_slice by lia. case_decide; [|done]. apply Hk. lia.
  - unfold Apps.read_slot. rewrite Hb. cbn [mbind result_bind]. reflexivity.
Qed.

(** A byte past the firmware slots and the state sectors. *)
Lemma slot_op_above buf m op buf' k :
  Slots.represents buf m -> Slots.run_op buf op = Ok buf' ->
  (Z.to_nat Apps.REGION_BASE <= k)%nat -> zlen buf' = zlen buf /\ buf' !! k = buf !! k.
Proof.
  intros [Hl _] Hop Hk. unfold Apps.REGION_BASE in Hk. unfold Slots.STATE_B_BASE, Slots.STATE_SIZE in Hl.
  assert (forall b : list Z, slice (Z.of_nat k) (Z.of_nat k + 1) b !! 0%nat = b !! k) as Hsl.
  { intros b. rewrite lookup_slice by lia. rewrite decide_True by lia. f_equal. lia. }
  assert (zlen buf' = zlen buf /\ slice (Z.of_nat k) (Z.of_nat k + 1) buf' =
    slice (Z.of_nat k) (Z.of_nat k + 1) buf) as [Hz He]; [|split; [done|by rewrite <- !Hsl, He]].
  destruct op as [slot image name fw|slot|]; cbn [Slots.run_op] in Hop.
  - destruct (Slots.slot_base slot) as [base|] eqn:Hb;
      [|unfold Slots.write_slot in Hop; by rewrite Hb in Hop].
    pose proof (proj1 (Slots.slot_base_iff slot base) Hb) as [Hs ->].
    apply (Slots.write_slot_outside buf slot image name fw buf' _ _ _ Hb Hop);
      unfold Slots.slot_end, Slots.SLOT_COUNT, Slots.SLOT_STRIDE, Slots.SLOT_BACKUP_BASE in *; lia.
  - destruct (Slots.slot_base slot) as [base|] eqn:Hb;
      [|unfold Slots.erase_slot in Hop; by rewrite Hb in Hop].
    pose proof (proj1 (Slots.slot_base_iff slot base) Hb) as [Hs ->].
    apply (Slots.erase_slot_outside buf slot buf' _ _ _ Hb Hop);
      unfold Slots.slot_end, Slots.SLOT_COUNT, Slots.SLOT_STRIDE, Slots.SLOT_BACKUP_BASE in *; lia.
  - injection Hop as <-. apply Slots.erase_state_outside;
      unfold Slots.STATE_A_BASE, Slots.STATE_B_BASE, Slots.STATE_SIZE; lia.
Qed.

(** An image whose bytes below the app region are unchanged represents the
    same table. *)
Lemma represents_below buf buf' m :
  Slots.represents buf m -> zlen buf' = zlen buf ->
  (forall a b, 0 <= a -> b <= Apps.REGION_BASE -> slice a b buf' = slice a b buf) ->
  Slots.represents buf' m.
Proof.
  intros Hm Hz Hs. pose proof Hm as [Hl Hr]. split; [by rewrite Hz|]. intros slot Hslot.
  rewrite (Slots.represents_read buf buf' m slot Apps.REGION_BASE (zlen buf)); try done.
  - by apply Hr.
  - intros a b Ha [Hb|Hb]; [by apply Hs|]. apply list_eq. intros k.
    rewrite !lookup_slice by done. case_decide; [|done]. 
    rewrite !lookup_ge_None_2; [done| |]; unfold zlen in *; lia.
  - left. unfold Slots.SLOT_COUNT, Slots.SLOT_STRIDE, Slots.SLOT_BACKUP_BASE, Apps.REGION_BASE in *. lia.
Qed.

Lemma regions_disjoint buf m op buf' :
  Slots.represents buf m ->
  (Slots.run_op buf op = Ok buf' ->
     forall slot, Apps.read_slot buf' slot = Apps.read_slot buf slot) /\
  (forall slot blob force i, wf_bytes blob -> Apps.install buf slot blob force = Ok (buf', i) ->
     Slots.represents buf' m) /\
  (forall slot base, Apps.erase buf slot = Ok (buf', base) -> Slots.represents buf' m).
Proof.
  intros Hm. split; [|split].
  - intros Hop slot. apply app_read_ext.
    + by apply (slot_op_above buf m op buf' _ Hm Hop (Nat.le_refl _)).
    + intros k Hk. by apply (slot_op_above buf m op buf' k Hm Hop Hk).
  - intros slot blob force i Hwf (Hp & Hs & Hl & _ & ->)%Apps.install_iff; [|done].
    apply Apps.parse_strict_iff in Hp as (_ & _ & Hc & Hbl & _); [|done].
    set (base := Apps.REGION_BASE + slot * Apps.SLOT_STRIDE).
    assert (Apps.REGION_BASE <= base) as Hb0
      by (unfold base, Apps.REGION_BASE, Apps.SLOT_STRIDE in *; lia).
    assert (0 <= base) by (unfold Apps.REGION_BASE in *; lia).
    assert (base + Apps.SLOT_STRIDE <= zlen buf) as Hi by (unfold base; lia).
    apply (represents_below buf); [done|apply Apps.zlen_installed; lia || done|].
    intros a b Ha Hb. apply list_eq. intros k. rewrite !lookup_slice by done. case_decide; [|done].
    rewrite Apps.lookup_installed by (lia || done).
    unfold Apps.HDR_SIZE, Apps.CODE_OFFSET, Apps.SLOT_STRIDE in *. repeat case_decide; try lia; done.
  - intros slot base (Hs & -> & Hl & ->)%Apps.erase_iff.
    assert (0 <= slot * Apps.SLOT_STRIDE) by (unfold Apps.SLOT_STRIDE; lia).
    assert (0 <= Apps.REGION_BASE) by (unfold Apps.REGION_BASE; lia).
    apply (represents_below buf); [done|apply Apps.zlen_fill_erased; lia|].
    intros a b Ha Hb. apply list_eq. intros k. rewrite !lookup_slice by done. case_decide; [|done].
    rewrite Apps.lookup_fill_erased by lia. case_decide; [lia|done].
Qed.

(** Erasing the state sectors after a slot operation. *)
Lemma op_then_state buf m op buf' n :
  Slots.represents buf m -> Slots.run_op buf op = Ok buf' ->
  Apps.read_slot (Slots.erase_state buf') n = Apps.read_slot buf' n.
Proof.
  intros Hm Hop. pose proof (Slots.op_refines buf m op Hm) as H. rewrite Hop in H.
  destruct H as [_ Hm']. by apply (regions_disjoint buf' _ Slots.OpEraseState _ Hm').
Qed.

(** What [install_file] and [erase_file] leave in the file. *)
Lemma load_file (fs : fsys) path f : fs !! path = Some f -> load_image fs path = Ok (f_data f).
Proof. intros Hf. unfold load_image. by rewrite Hf. Qed.

Lemma write_ops_lookup fs path image : exec_all fs (write_ops path image) !! path = Some (File image false).
Proof. unfold exec_all, write_ops. cbn. rewrite lookup_insert_eq. cbn. by rewrite lookup_insert_eq. Qed.

(** C27. Firmware slots and overlay apps share one image file without
    meeting: writing or erasing a firmware slot in the file (state sectors
    included) leaves every app slot reading as before, and installing or
    erasing an app leaves the table of firmware slots as it was. *)
Theorem slots_and_apps_disjoint fs path f m :
  fs !! path = Some f -> Slots.represents (f_data f) m ->
  (forall slot image name fw row fs', write_slot_file fs path slot image name fw true = (fs', Ok row) ->
     exists f', fs' !! path = Some f' /\
       forall n, Apps.read_slot (f_data f') n = Apps.read_slot (f_data f) n) /\
  (forall slot row fs', erase_slot_file fs path slot = (fs', Ok row) ->
     exists f', fs' !! path = Some f' /\
       forall n, Apps.read_slot (f_data f') n = Apps.read_slot (f_data f) n) /\
  (forall slot blob force i fs', wf_bytes blob -> install_file fs path slot blob force = (fs', Ok i) ->
     exists f', fs' !! path = Some f' /\ Slots.represents (f_data f') m) /\
  (forall slot base fs', erase_file fs path slot = (fs', Ok base) ->
     exists f', fs' !! path = Some f' /\ Slots.represents (f_data f') m).
Proof.
  intros Hf Hm. pose proof (load_file fs path f Hf) as Hl.
  assert (forall buf, save_image fs path buf !! path = Some (File buf true)) as Hsv
    by (intros; by rewrite save_image_lookup, decide_True).
  split; [|split; [|split]].
  - intros slot image name fw row fs'. unfold write_slot_file. rewrite Hl. cbn [mbind result_bind].
    destruct (Slots.write_slot _ _ _ _ _) as [buf|e] eqn:Ew; [|done]. intros [= <- _].
    eexists. split; [apply Hsv|]. intros n. cbn [f_data]. transitivity (Apps.read_slot buf n).
    + apply (op_then_state (f_data f) m (Slots.OpWrite slot image name fw) buf n Hm Ew).
    + by apply (regions_disjoint (f_data f) m (Slots.OpWrite slot image name fw) buf Hm).
  - intros slot row fs'. unfold erase_slot_file. rewrite Hl. cbn [mbind result_bind].
    destruct (Slots.erase_slot _ _) as [buf|e] eqn:Ew; [|done]. intros [= <- _].
    eexists. split; [apply Hsv|]. intros n. cbn [f_data]. transitivity (Apps.read_slot buf n).
    + apply (op_then_state (f_data f) m (Slots.OpErase slot) buf n Hm Ew).
    + by apply (regions_disjoint (f_data f) m (Slots.OpErase slot) buf Hm).
  - intros slot blob force i fs' Hwf. unfold install_file. rewrite Hl. cbn [mbind result_bind].
    destruct (Apps.install _ _ _ _) as [[image j]|e] eqn:Ei; [|done]. intros [= <- _].
    eexists. split; [apply write_ops_lookup|]. cbn [f_data].
    by apply (proj1 (proj2 (regions_disjoint (f_data f) m Slots.OpEraseState image Hm)) slot blob force j).
  - intros slot base fs'. unfold erase_file. rewrite Hl. cbn [mbind result_bind].
    destruct (Apps.erase _ _) as [[image j]|e] eqn:Ei; [|done]. intros [= <- _].
    eexists. split; [apply write_ops_lookup|]. cbn [f_data].
    by apply (proj2 (proj2 (regions_disjoint (f_data f) m Slots.OpEraseState image Hm)) slot j).
Qed.

(** ** The command line *)

(** The erase subcommand of uvk5_apps.py never erases: for every image
    that can be read it fails with AttributeError, because it reads
    [args.app], which only install and info have, and the image is left as
    it was. *)
Theorem cli_erase_fails fs roots path slot f :
  fs !! path = Some f ->
  exists e, main fs roots (ArgsErase path slot) = (fs, Raise e) /\ exn_cls e = AttributeError.
Proof. intros Hf. unfold main, main_body, load_image. cbn. rewrite Hf. cbn. eauto. Qed.

(** ** Witnesses *)

Definition disk : fsys := {[lit "flash.img" := File Apps.blank true]}.

Lemma slot_file_refines_witness :
  exists fs' row, write_slot_file disk (lit "flash.img") 1 [1; 2; 3] (lit "a.bin") (lit "v6") true
      = (fs', Ok row) /\
    r_header row = Some (Slots.SlotHeader 1 0x40000 1 1 3 (crc32 [1; 2; 3]) true (lit "a.bin") (lit "v6")).
Proof.
  pose proof (slot_file_refines disk (lit "flash.img") (File Apps.blank true) ∅
    (Slots.OpWrite 1 [1; 2; 3] (lit "a.bin") (lit "v6")) (lookup_singleton_eq _ _)
    (Slots.represents_erased 0x200000 ltac:(vm_compute; discriminate))) as H.
  cbv beta iota in H. destruct (write_slot_file _ _ _ _ _ _ _) as [fs' [row|e]].
  - exists fs', row. split; [reflexivity|]. destruct H as (_ & _ & _ & _ & Hn). exact Hn.
  - destruct H as [H _]. vm_compute in H. discriminate.
Defined.

Lemma slots_and_apps_disjoint_witness :
  exists fs' f', install_file disk (lit "flash.img") 3 Apps.beam false = (fs', Ok Apps.beam_info) /\
    fs' !! lit "flash.img" = Some f' /\ Slots.represents (f_data f') ∅.
Proof.
  destruct (Apps.beam_installs 3) as [buf' E]; [split; vm_compute; congruence|].
  destruct (slots_and_apps_disjoint disk (lit "flash.img") (File Apps.blank true) ∅
    (lookup_singleton_eq _ _) (Slots.represents_erased 0x200000 ltac:(vm_compute; discriminate)))
    as (_ & _ & H & _).
  assert (install_file disk (lit "flash.img") 3 Apps.beam false =
    (exec_all disk (write_ops (lit "flash.img") buf'), Ok Apps.beam_info)) as Ei.
  { unfold install_file. rewrite (load_file disk _ (File Apps.blank true) (lookup_singleton_eq _ _)).
    cbn [mbind result_bind f_data]. rewrite E. reflexivity. }
  destruct (H 3 Apps.beam false Apps.beam_info _ Apps.beam_wf Ei) as (f' & Hf & Hr).
  exists (exec_all disk (write_ops (lit "flash.img") buf')), f'.
  split; [exact Ei|]. split; [exact Hf|exact Hr].
Defined.

Lemma cli_erase_fails_witness :
  exists e, main disk [] (ArgsErase (lit "flash.img") 1) = (disk, Raise e) /\
    exn_cls e = AttributeError.
Proof.
  exact (cli_erase_fails disk [] (lit "flash.img") 1 (File Apps.blank true) (lookup_singleton_eq _ _)).
Defined.
