(* ===== verification/Banner.v ===== *)
(** The firmware banner of the log, [src/tools/uvk5_banner.py]: the regular
    expression as it is written, the last banner of a log, and whether an image
    mentions it.  The expression is shown to pick what a plain reading of the
    line picks. *)
From S2P Require Import Prelude Text Regex.
Open Scope Z_scope.

Section banner.
Context {HU : Unicode}.

Definition blank : re := Chr is_space.

(** [r"UV-K5 Firmware,\s*(.+?)\s*$"]. *)
Definition PREFIX : list Z := lit "UV-K5 Firmware,".
Definition BANNER : re :=
  Cat (str PREFIX) (Cat (Star true blank) (Cat (Grp 1 (many_lazy dot)) (Cat (Star true blank) (Eol false)))).

(** [BANNER.search(line)], and the stripped group. *)
Definition banner_of (line : list Z) : option (list Z) :=
  m ← search BANNER [] line; strip <$> group 1 m.2.

Definition latest (lines : list (list Z)) : option (list Z) :=
  foldl (fun found line => match banner_of line with Some b => Some b | None => found end) None lines.

(** [banner.encode("ascii", "ignore") in blob]; [file] is what the path
    holds, [None] when it cannot be read. *)
Definition image_mentions (path : option (list Z)) (banner : list Z) (file : list Z -> option (list Z)) : bool :=
  match path with
  | Some ((_ :: _) as p) =>
      if bool_decide (banner = []) then true
      else match file p with
           | None => true
           | Some blob => contains (List.filter (fun c => c <? 128) banner) blob
           end
  | _ => true
  end.

(** ** A plain reading *)

(** After the prefix: the rest of the line without blanks around, which must
    be on one line; of a rest that is all blank, something that is not a
    newline has to be there, and nothing is left of it. *)
Definition reading (rest : list Z) : option (list Z) :=
  match strip rest with
  | [] => if existsb (fun c => negb (c =? 10)) rest then Some [] else None
  | s => if bool_decide (10 ∈ s) then None else Some s
  end.

(** The first prefix that reads as a banner. *)
Fixpoint read_banner (line : list Z) : option (list Z) :=
  match (if starts_with PREFIX line then reading (drop (length PREFIX) line) else None), line with
  | Some b, _ => Some b
  | None, [] => None
  | None, _ :: line => read_banner line
  end.

(** ** Stripping *)

Abbreviation blanks := (Forall (fun c => is_space c = true)).

Lemma lstrip_blanks u s : blanks u -> lstrip (u ++ s) = lstrip s.
Proof. induction 1 as [|c u Hc Hu IH]; cbn; [done|]. by rewrite Hc. Qed.
Lemma lstrip_split s : exists u, s = u ++ lstrip s /\ blanks u.
Proof.
  induction s as [|c s (u & Hs & Hu)]; [by exists []|]. cbn. destruct (is_space c) eqn:E.
  - exists (c :: u). split; [cbn; by f_equal|by constructor].
  - by exists [].
Qed.
Lemma lstrip_app_r s v : lstrip s <> [] -> lstrip (s ++ v) = lstrip s ++ v.
Proof. induction s as [|c s IH]; [done|]. cbn. destruct (is_space c); [apply IH|done]. Qed.
Lemma lstrip_nil s : lstrip s = [] <-> blanks s.
Proof.
  split.
  - intros E. destruct (lstrip_split s) as (u & Hs & Hu). rewrite E, app_nil_r in Hs. by subst.
  - intros Hs. rewrite <- (app_nil_r s). by rewrite lstrip_blanks.
Qed.

Lemma strip_split s : exists u v, s = u ++ strip s ++ v /\ blanks u /\ blanks v.
Proof.
  destruct (lstrip_split s) as (u & Hs & Hu). destruct (lstrip_split (reverse (lstrip s))) as (v & Hv & Hbv).
  exists u, (reverse v). split; [|split; [done|by apply Forall_reverse]]. rewrite Hs at 1. f_equal.
  unfold strip. rewrite <- reverse_app, <- Hv. by rewrite reverse_involutive.
Qed.
Lemma strip_nil s : strip s = [] <-> blanks s.
Proof.
  unfold strip. split.
  - intros E. apply (f_equal reverse) in E. rewrite reverse_involutive in E. apply lstrip_nil in E.
    apply Forall_reverse in E. rewrite reverse_involutive in E. destruct (lstrip_split s) as (u & Hs & Hu).
    rewrite Hs. by apply Forall_app.
  - intros Hs. apply lstrip_nil in Hs as ->. done.
Qed.
Lemma strip_around u w v : blanks u -> blanks v -> strip (u ++ w ++ v) = strip w.
Proof.
  intros Hu Hv. destruct (decide (lstrip w = [])) as [E|E].
  - apply lstrip_nil in E. rewrite (proj2 (strip_nil w) E). apply strip_nil. apply Forall_app; split; [done|].
    by apply Forall_app.
  - unfold strip. rewrite lstrip_blanks, lstrip_app_r, reverse_app by done.
    rewrite lstrip_blanks by by apply Forall_reverse. done.
Qed.

Lemma newline_blank : is_space 10 = true.
Proof. reflexivity. Qed.

(** ** What the expression accepts is what is read *)

Definition inside (w : list Z) : Prop := w <> [] /\ 10 ∉ w.
Definition ending (t : list Z) : Prop := t = [] \/ t = [10].

Lemma reading_spec rest b :
  reading rest = Some b <->
  exists u w v t, rest = u ++ w ++ v ++ t /\ blanks u /\ blanks v /\ ending t /\ inside w /\ strip w = b.
Proof.
  split.
  - unfold reading. destruct (strip_split rest) as (u & v & Hs & Hu & Hv). destruct (strip rest) as [|c s] eqn:E.
    + apply strip_nil in E. destruct (existsb _ rest) eqn:Ex; [|done]. intros [= <-].
      apply existsb_exists in Ex as (c & (l1 & l2 & Hl)%in_split & Hc). exists l1, [c], l2, [].
      rewrite Hl in E. apply Forall_app in E as [E1 [E2 E3]%Forall_cons].
      split; [by rewrite app_nil_r|]. do 2 (split; [done|]). split; [by left|]. split; [|].
      * split; [done|]. intros E0%list_elem_of_singleton. by subst c.
      * apply strip_nil. by constructor.
    + case_bool_decide as Hn; [done|]. intros [= <-]. exists u, (c :: s), v, [].
      split; [by rewrite app_nil_r|]. do 2 (split; [done|]). split; [by left|]. split; [done|].
      rewrite <- E. rewrite Hs at 2. by rewrite strip_around, E.
  - intros (u & w & v & t & -> & Hu & Hv & Ht & [Hne Hn] & <-).
    assert (blanks (v ++ t)) as Hvt.
    { apply Forall_app. split; [done|]. destruct Ht as [->| ->]; [done|]. by repeat constructor. }
    unfold reading. rewrite strip_around by done. destruct (strip w) as [|c s] eqn:E.
    + assert (existsb (fun c => negb (c =? 10)) (u ++ w ++ v ++ t) = true) as ->; [|done].
      apply existsb_exists. destruct w as [|c w]; [done|]. exists c. split; [apply in_or_app; right; by left|].
      apply not_elem_of_cons in Hn as [Hc _]. apply negb_true_iff, Z.eqb_neq. congruence.
    + rewrite bool_decide_eq_false_2; [done|]. intros Hin. apply Hn.
      destruct (strip_split w) as (u' & v' & Hw & _). rewrite Hw, E. set_solver.
Qed.

(** The expression at one place. *)
Lemma reach_banner l s e :
  reach BANNER (State l s []) e <->
  exists u w v, s = PREFIX ++ u ++ w ++ v ++ st_rest e /\ blanks u /\ blanks v /\ inside w /\
    ending (st_rest e) /\ st_left e = reverse (PREFIX ++ u ++ w ++ v) ++ l /\ st_caps e = [(1%nat, w)].
Proof.
  unfold BANNER, many_lazy, blank, dot. rewrite reach_cat_iff. split.
  - intros (x1 & (R1 & L1 & C1)%reach_str_iff & H). apply reach_cat_iff in H as (x2 & (u & Hu & R2 & L2 & C2)%reach_run_iff & H).
    apply reach_cat_iff in H as (x3 & H3 & H). apply reach_grp_iff in H3 as (y & (w & Hne & Hw & Ha)%reach_many_iff & ->).
    apply reach_cat_iff in H as (x4 & (v & Hv & R4 & L4 & C4)%reach_run_iff & (He & ->)%reach_eol_iff).
    pose proof (after_between _ _ _ Ha) as Hb. destruct Ha as (R3 & L3 & C3). cbn [st_rest st_left st_caps capture] in *.
    exists u, w, v. split; [by rewrite R1, R2, R3, R4|]. do 2 (split; [done|]). split; [|split; [|split]].
    + split; [done|]. intros Hin. rewrite Forall_forall in Hw. by specialize (Hw _ Hin).
    + unfold at_eol in He. destruct (st_rest x4) as [|c [|]]; [by left| |done]. right. f_equal. lia.
    + rewrite L4, L3, L2, L1, !reverse_app. by rewrite <- !app_assoc.
    + by rewrite C4, Hb, C3, C2, C1.
  - intros (u & w & v & Hs & Hu & Hv & [Hne Hn] & He & HL & HC).
    exists (State (reverse PREFIX ++ l) (u ++ w ++ v ++ st_rest e) []). split; [by apply reach_str_iff|].
    apply reach_cat_iff. exists (State (reverse (PREFIX ++ u) ++ l) (w ++ v ++ st_rest e) []). split.
    { apply reach_run_iff. exists u. split; [done|]. split; [done|]. split; [|done]. cbn [st_left].
      by rewrite reverse_app, <- app_assoc. }
    set (y := State (reverse (PREFIX ++ u ++ w) ++ l) (v ++ st_rest e) []).
    assert (after w (State (reverse (PREFIX ++ u) ++ l) (w ++ v ++ st_rest e) []) y) as Ha.
    { split; [done|]. split; [|done]. cbn [st_left y]. by rewrite !reverse_app, <- !app_assoc. }
    apply reach_cat_iff. exists (State (st_left y) (v ++ st_rest e) [(1%nat, w)]). split.
    { apply reach_grp_iff. exists y. split.
      - apply reach_many_iff. exists w. split; [done|]. split; [|done]. apply Forall_forall. intros c Hc.
        apply negb_true_iff, Z.eqb_neq. intros ->. done.
      - unfold capture. by rewrite (after_between _ _ _ Ha). }
    apply reach_cat_iff. exists e. split.
    { apply reach_run_iff. exists v. split; [done|]. split; [done|]. split; [|done]. cbn [st_left y].
      by rewrite HL, !reverse_app, <- !app_assoc. }
    apply reach_eol_iff. split; [|done]. unfold at_eol. destruct He as [->| ->]; done.
Qed.

Lemma banner_here l s :
  match match_ BANNER (State l s []) Some with
  | Some e => exists w, group 1 e = Some w /\ starts_with PREFIX s = true /\
      reading (drop (length PREFIX) s) = Some (strip w)
  | None => (if starts_with PREFIX s then reading (drop (length PREFIX) s) else None) = None
  end.
Proof.
  destruct (match_ BANNER (State l s []) Some) as [e|] eqn:E.
  - apply match_sound in E as (e' & Hr & [= ->]).
    apply reach_banner in Hr as (u & w & v & -> & Hu & Hv & Hw & He & _ & HC). exists w.
    split; [unfold group; by rewrite HC|]. split; [by apply starts_with_app|]. rewrite drop_app_length.
    apply reading_spec. by exists u, w, v, (st_rest e).
  - destruct (starts_with PREFIX s) eqn:Es; [|done]. destruct (reading _) as [b|] eqn:Er; [|done]. exfalso.
    apply starts_with_iff in Es as [rest ->]. rewrite drop_app_length in Er.
    apply reading_spec in Er as (u & w & v & t & -> & Hu & Hv & Ht & Hw & _).
    refine (match_complete BANNER (State l (PREFIX ++ u ++ w ++ v ++ t) [])
      (State (reverse (PREFIX ++ u ++ w ++ v) ++ l) t [(1%nat, w)]) Some _ _ E); [|done].
    apply reach_banner. by exists u, w, v.
Qed.

(** The regular expression reads the banner as it is meant.  Whatever is
    on a line of the log and however [re] backtracks over it, what is reported
    is the text after the first prefix that is followed by one, without the
    blanks around it, and nothing when the text is empty or runs over a
    newline. *)
Theorem banner_is_read line : banner_of line = read_banner line.
Proof.
  unfold banner_of. generalize (@nil Z) as l. induction line as [|c line IH]; intros l; cbn [search read_banner].
  - pose proof (banner_here l []) as H. destruct (match_ BANNER (State l [] []) Some) as [e|].
    + destruct H as (w & _ & Hs & _). done.
    + done.
  - pose proof (banner_here l (c :: line)) as H. destruct (match_ BANNER (State l (c :: line) []) Some) as [e|].
    + destruct H as (w & Hg & -> & ->). cbn [mbind option_bind snd]. by rewrite Hg.
    + rewrite H. apply IH.
Qed.

(** The last banner is the one that counts. *)
Lemma latest_last lines line b rest :
  banner_of line = Some b -> Forall (fun l => banner_of l = None) rest ->
  latest (lines ++ line :: rest) = Some b.
Proof.
  intros Hb Hr. unfold latest. rewrite foldl_app. cbn [foldl]. rewrite Hb.
  induction Hr as [|l rest Hl Hr IH]; [done|]. cbn [foldl]. by rewrite Hl.
Qed.
End banner.

Example banner_example :
  @banner_of ascii_tables (lit "UV-K5 Firmware, EGZUMER+F4HWN v6.0.0.CN ") = Some (lit "EGZUMER+F4HWN v6.0.0.CN").
Proof. vm_compute. reflexivity. Qed.
