(* ===== verification/Views.v ===== *)
(** What the page reads: the handlers of [src/tools/webui.py] that change
    nothing of the radio: status, panel, firmware, buffers, the single frame
    and the frame stream. *)
From S2P Require Import Prelude Text Endpoint Image Lcd Stream Buffers Logs Banner.

(** ** The firmware that runs *)

Section banner.
Context `{Unicode}.

(** [running_firmware]: the banner, whether the image has it, and whether the
    note about a restored slot is given. *)
Definition running_firmware (lb : log_buffer) (image : image_slot) (file : list Z -> option (list Z))
  : option (list Z * bool * bool) :=
  match latest (map e_text (entries lb 0)) with
  | Some ((_ :: _) as banner) =>
      let matches := image_mentions (slot_path image) banner file in
      Some (banner, matches, negb matches)
  | _ => None
  end.

Definition firmware_info (image : image_slot) := as_dict <$> image.

Definition MULTIBOOT_MARKERS : list (list Z) :=
  map lit ["F4HWN MULTIBOOT"; "RESTORE REFUSED"; "SLOT NOT VALID"]%string.
(** [image_has_multiboot] of a file that can be read. *)
Definition image_has_multiboot (blob : list Z) : bool :=
  existsb (fun m => contains m blob) MULTIBOOT_MARKERS.

(** GET /api/firmware: loaded, the image and whether it has the boot menu,
    and what runs. *)
Definition api_firmware (lb : log_buffer) (image : image_slot) (file : list Z -> option (list Z)) :=
  (bool_decide (is_Some (firmware_info image)),
   (fun i => (as_dict i, image_has_multiboot <$> file (ii_path i))) <$> image,
   running_firmware lb image file).
End banner.

(** ** Status and buffers *)

(** What [ensure_buffers] answers. *)
Inductive buffer_info :=
| OnCommandLine (frame status : Z)
| Discovered (b : buffers)
| DiscoveryFailed (e : exn).

Record view := View {
  vw_info : option buffer_info;      (* buffers["info"] *)
  vw_pump : pump;
  vw_log : log_buffer
}.

Definition info_frame (i : buffer_info) : option Z :=
  match i with
  | OnCommandLine f _ => Some f
  | Discovered b => bf_frame b
  | DiscoveryFailed _ => None
  end.

(** The numbers and addresses of the log line. *)
Definition count_text (n : option Z) : list Z :=
  match n with Some n => decimal n | None => lit "None" end.
Definition address_text (a : Z) : list Z := lit "0x" ++ hex hex_upper 8 a.

Section handlers.
Context `{Runtime}.

(** [log.add(source, text, ip=ip)]. *)
Definition log_ (v : view) (source text : list Z) (ip : option (list Z)) : view :=
  View (vw_info v) (vw_pump v)
    (add (vw_log v) (Line (rt_now (cursor (vw_log v) + 1)) ip source text)).

Definition no_buffers_text (how : list Z) : list Z :=
  lit "no screen buffers found for this firmware (" ++ how ++ lit "); the panel path does not need them".
Definition buffers_text (b : buffers) (frame status : Z) : list Z :=
  lit "screen buffers read from the firmware: frame " ++ address_text frame ++ lit ", status "
  ++ address_text status ++ lit " (" ++ how_text (bf_how b) ++ lit "; " ++ count_text (bf_score b)
  ++ lit "/" ++ count_text (bf_total b) ++ lit " bytes agree)".

(** [ensure_buffers]: [told] are the addresses of the command line; [client]
    is the live guest and [t] the commands sent to it. *)
Definition ensure_buffers (told : option (Z * Z)) (client : option Lcd.guest) (image : option (option (list Z)))
    (v : view) (t : nat) : view * nat * option buffer_info :=
  match told, vw_info v, client with
  | Some (f, s), _, _ => (v, t, Some (OnCommandLine f s))
  | None, Some i, _ => (v, t, Some i)
  | None, None, None => (v, t, None)
  | None, None, Some g =>
      let keep i p := View (Some i) p (vw_log v) in
      let '(t, r) := discover (Some g) None image t in
      match r with
      | Raise e =>
          if is_exception e then
            let i := DiscoveryFailed e in
            (log_ (keep i (vw_pump v)) (lit "qemu")
               (no_buffers_text (lit "discovery failed: " ++ str_exn e)) None, t, Some i)
          else (v, t, None)
      | Ok b =>
          let i := Discovered b in
          match bf_frame b, bf_status b with
          | Some f, Some s =>
              if f =? 0
              then (log_ (keep i (vw_pump v)) (lit "qemu") (no_buffers_text (how_text (bf_how b))) None, t, Some i)
              else (log_ (keep i (set_buffers (vw_pump v) f s)) (lit "qemu") (buffers_text b f s) None, t, Some i)
          | _, _ => (log_ (keep i (vw_pump v)) (lit "qemu") (no_buffers_text (how_text (bf_how b))) None, t, Some i)
          end
      end
  end.

(** The page's own [panel_state] and [speaker_on]: [None], and a log line,
    when the emulator does not answer. *)
Definition asked {A} (r : result A) (what : list Z) (v : view) : view * option A :=
  match r with
  | Ok a => (v, Some a)
  | Raise e => (log_ v (lit "qemu") (what ++ lit " state unavailable: " ++ str_exn e) None, None)
  end.

Inductive status_body :=
| Off
| Unreachable (e : exn)
| Powered (info : list (list Z * list Z)) (speaker : option bool) (panel : option (bool * Z * bool))
    (firmware : option (list Z * list Z * image_kind * Z * Z * option Z * option Z))
    (frame_source : option source) (buffers : option buffer_info).

(** GET /api/status: [query], [speaker] and [panel] are the answers of the
    live emulator to the three groups of commands. *)
Definition api_status (told : option (Z * Z)) (client : option Lcd.guest) (image : image_slot)
    (file : list Z -> option (list Z)) (query : result (list (list Z * list Z))) (speaker : result bool)
    (panel : result (bool * Z * bool)) (v : view) (t : nat) : view * nat * status_body :=
  match client with
  | None => (v, t, Off)
  | Some _ =>
      match query with
      | Raise e => (v, t, Unreachable e)
      | Ok info =>
          let '(v, sp) := asked speaker (lit "speaker") v in
          let '(v, pn) := asked panel (lit "panel") v in
          let src := (source_note (vw_pump v)).1 in
          let '(v, t, b) := ensure_buffers told client (file <$> slot_path image) v t in
          (v, t, Powered info sp pn (firmware_info image) src b)
      end
  end.

Record panel_body := PanelBody {
  pb_source : option source;
  pb_note : option exn;
  pb_buffers : option buffer_info;
  pb_gram : option (list Z);
  pb_invert : option bool;
  pb_bytes : option Z;
  pb_error : option exn;
  pb_powered_off : bool
}.

(** GET /api/panel. *)
Definition api_panel (told : option (Z * Z)) (client : option Lcd.guest) (image : option (option (list Z)))
    (v : view) (t : nat) : view * nat * panel_body :=
  let '(src, note) := source_note (vw_pump v) in
  let '(v, t, b) := ensure_buffers told client image v t in
  match client with
  | None => (v, t, PanelBody src note b None None None None true)
  | Some g =>
      match qom_get g pn_gram t with
      | (t, Raise e) => (v, t, PanelBody src note b None None None (Some e) false)
      | (t, Ok gram) =>
          match qom_get g pn_invert t with
          | (t, Raise e) => (v, t, PanelBody src note b (Some gram) None None (Some e) false)
          | (t, Ok inv) =>
              (v, t, PanelBody src note b (Some gram) (Some inv) (Some (zlen gram / 2)) None false)
          end
      end
  end.
End handlers.

(** ** Frames *)

Definition BOUNDARY : list Z := lit "uvk5frame".
Definition IDLE_FRAME_INTERVAL_MS : Z := 2000.

(** [wait_for_frame]: the pictures it sees before the deadline. *)
Fixpoint wait_for_frame (seen : list (option (list Z))) : option (list Z) :=
  match seen with
  | [] => None
  | Some png :: _ => Some png
  | None :: seen => wait_for_frame seen
  end.

(** GET /frame.png: the status and the picture. *)
Definition frame_png (seen : list (option (list Z))) : Z * option (list Z) :=
  match wait_for_frame seen with
  | None => (503, None)
  | Some png => (200, Some png)
  end.

Definition CRLF : list Z := [13; 10].

(** One part of the multipart stream. *)
Definition part (png : list Z) : list Z :=
  lit "--" ++ BOUNDARY ++ CRLF ++ lit "Content-Type: image/png" ++ CRLF
  ++ lit "Content-Length: " ++ decimal (zlen png) ++ CRLF ++ CRLF ++ png ++ CRLF.

(** What one round of the generator reads: the picture, then the generation,
    in two locked sections, then the clock in ms. *)
Record look := Look { lk_png : option (list Z); lk_generation : Z; lk_now : Z }.

(** The generator: how many parts it sent, the generation it last sent and
    when. *)
Record streamer := Streamer { st_sent : nat; st_seen : Z; st_last : Z }.
Definition stream_init : streamer := Streamer 0 (-1) 0.

Definition due (limit : option nat) (s : streamer) (l : look) : bool :=
  negb (lk_generation l =? st_seen s) || (IDLE_FRAME_INTERVAL_MS <=? lk_now l - st_last s)
  || bool_decide (is_Some limit).

(** One round: the part it yields, or nothing, after which it sleeps. *)
Definition stream_round (limit : option nat) (s : streamer) (l : look) : streamer * option (list Z) :=
  match lk_png l with
  | Some png =>
      if due limit s l
      then (Streamer (S (st_sent s)) (lk_generation l) (lk_now l), Some (part png))
      else (s, None)
  | None => (s, None)
  end.

(** [frames], over what each round sees, until the limit. *)
Fixpoint frames (limit : option nat) (s : streamer) (looks : list look) : list (list Z) :=
  match looks with
  | [] => []
  | l :: looks =>
      if match limit with Some n => (n <=? st_sent s)%nat | None => false end then []
      else match stream_round limit s l with
           | (s, Some p) => p :: frames limit s looks
           | (s, None) => frames limit s looks
           end
  end.

(** ** The multipart stream *)

(** A browser's reader: one part, by its length. *)
Definition part_head : list Z :=
  lit "--" ++ BOUNDARY ++ CRLF ++ lit "Content-Type: image/png" ++ CRLF ++ lit "Content-Length: ".

Definition read_part (b : list Z) : option (list Z * list Z) :=
  if starts_with part_head b then
    let '(digits, b) := partition 13 (drop (length part_head) b) in
    match int_digits 0 false digits, b with
    | Some n, 10 :: 13 :: 10 :: b =>
        if (n <=? zlen b) && starts_with CRLF (drop (Z.to_nat n) b)
        then Some (slice 0 n b, drop (Z.to_nat n + 2) b) else None
    | _, _ => None
    end
  else None.

Fixpoint read_parts (fuel : nat) (b : list Z) : option (list (list Z)) :=
  match b, fuel with
  | [], _ => Some []
  | _, O => None
  | _, S fuel =>
      match read_part b with
      | Some (png, b) => (png ::.) <$> read_parts fuel b
      | None => None
      end
  end.

Lemma digits_no_cr s b n : int_digits n b s <> None -> 13 ∉ s.
Proof.
  revert n b. induction s as [|c s IH]; intros n b Hs; [set_solver|]. cbn [int_digits] in Hs.
  destruct (is_digit c) eqn:Ed.
  - unfold is_digit in Ed. apply IH in Hs. apply not_elem_of_cons. split; [|done]. intros <-. done.
  - destruct ((c =? 95) && b) eqn:Eu; [|done]. apply IH in Hs. apply not_elem_of_cons.
    split; [|done]. intros <-. done.
Qed.

Lemma part_split png :
  part png = part_head ++ decimal (zlen png) ++ 13 :: 10 :: 13 :: 10 :: png ++ CRLF.
Proof. unfold part, part_head, CRLF. rewrite <- !app_assoc. reflexivity. Qed.

Lemma read_part_part png rest : read_part (part png ++ rest) = Some (png, rest).
Proof.
  pose proof (int_digits_decimal (zlen png) (zlen_nonneg png)) as Hn.
  unfold read_part. rewrite part_split, <- app_assoc, starts_with_app, drop_app_length.
  rewrite <- app_assoc. cbn [app].
  rewrite partition_app by (apply (digits_no_cr _ false 0); by rewrite Hn).
  rewrite Hn. rewrite <- app_assoc.
  assert (drop (Z.to_nat (zlen png)) (png ++ CRLF ++ rest) = CRLF ++ rest) as Hd
    by (apply drop_app_length'; unfold zlen; lia).
  rewrite Hd, starts_with_app. pose proof (zlen_nonneg rest).
  rewrite (proj2 (Z.leb_le _ _)) by (rewrite !zlen_app; change (zlen CRLF) with 2; lia). cbn [andb].
  rewrite slice_0_app by done. do 2 f_equal.
  rewrite <- drop_drop, Hd. done.
Qed.

(** The stream is readable whatever the pictures are: a reader that
    follows the part headers and their lengths gets back exactly the pictures
    that were sent, in order, also when a picture contains the boundary. *)
Theorem stream_parses pngs :
  read_parts (length pngs) (concat (map part pngs)) = Some pngs.
Proof.
  induction pngs as [|png pngs IH]; [done|]. cbn [map concat length read_parts].
  destruct (part png ++ concat (map part pngs)) as [|c b] eqn:E.
  - rewrite part_split in E. done.
  - rewrite <- E, read_part_part, IH. done.
Qed.

Definition stream_state (s : streamer) (looks : list look) : streamer :=
  foldl (fun s l => (stream_round None s l).1) s looks.

Lemma frames_app s l1 l2 :
  frames None s (l1 ++ l2) = frames None s l1 ++ frames None (stream_state s l1) l2.
Proof.
  revert s. induction l1 as [|l l1 IH]; intros s; [done|]. cbn [app frames stream_state foldl].
  destruct (stream_round None s l) as [s' [p|]]; cbn [fst]; rewrite IH; done.
Qed.

(** The looks read picture and generation together: the picture is the one
    of its generation. *)
Definition consistent (pic : Z -> option (list Z)) (looks : list look) : Prop :=
  Forall (fun l => 0 <= lk_generation l /\ lk_png l = pic (lk_generation l)) looks.

(** What the client has: nothing yet, or the picture of the generation last
    sent. *)
Definition client_has (pic : Z -> option (list Z)) (s : streamer) (sent : list (list Z)) : Prop :=
  st_seen s = -1 \/ exists png, pic (st_seen s) = Some png /\ last sent = Some (part png).

Lemma client_has_round pic s sent l :
  client_has pic s sent -> 0 <= lk_generation l -> lk_png l = pic (lk_generation l) ->
  let sent' := sent ++ frames None s [l] in
  client_has pic (stream_state s [l]) sent' /\
  forall png, lk_png l = Some png -> last sent' = Some (part png).
Proof.
  intros Hc Hg Hp. cbn [stream_state foldl frames]. unfold stream_round.
  destruct (lk_png l) as [png|] eqn:El; [|cbn; rewrite app_nil_r; split; [exact Hc|done]].
  destruct (due None s l) eqn:Ed; cbn [fst].
  - split; [right; exists png; exact (conj (eq_sym Hp) (last_snoc _ _))|].
    intros ? [= <-]. apply last_snoc.
  - rewrite app_nil_r. split; [exact Hc|]. intros png' [= <-].
    unfold due in Ed. apply orb_false_elim in Ed as [Ed _]. apply orb_false_elim in Ed as [Ed _].
    apply negb_false_iff, Z.eqb_eq in Ed.
    destruct Hc as [Hn|(png0 & Hs & Hl)]; [lia|]. congruence.
Qed.

Lemma client_has_rounds pic looks :
  consistent pic looks -> client_has pic (stream_state stream_init looks) (frames None stream_init looks).
Proof.
  induction looks as [|l looks IH] using rev_ind; intros Hc; [by left|].
  apply Forall_app in Hc as [Hc [[Hg Hp] _]%Forall_cons].
  rewrite frames_app. unfold stream_state. rewrite foldl_app.
  by apply (client_has_round pic _ _ l (IH Hc)).
Qed.

(** A connected page shows the current picture.  However the pictures
    change, come and go between the generator's looks, as long as each look
    reads the picture of its generation: after every look at a picture, the
    last part the client was sent is that picture. *)
Theorem stream_current pic looks l png :
  consistent pic (looks ++ [l]) -> lk_png l = Some png ->
  last (frames None stream_init (looks ++ [l])) = Some (part png).
Proof.
  intros [Hc [[Hg Hp] _]%Forall_cons]%Forall_app Hpng. rewrite frames_app.
  by apply (client_has_round pic _ _ l (client_has_rounds pic looks Hc)).
Qed.

Lemma stream_current_witness :
  last (frames None stream_init
    ([Look None 0 10; Look (Some [1]) 1 80; Look (Some [1]) 1 150] ++ [Look (Some [2; 2]) 2 220]))
    = Some (part [2; 2]).
Proof.
  apply (stream_current (fun g => if g =? 0 then None else Some (if g =? 1 then [1] else [2; 2])));
    [|reflexivity].
  repeat constructor; discriminate.
Defined.

(** The picture and its generation are read in two locked sections.  A
    frame published in between is sent late: the old picture goes out under
    the new generation, and the new one is not sent before the idle interval
    has passed, however often the generator looks. *)
Theorem torn_look_delays_picture s old new gen t0 looks :
  gen <> st_seen s ->
  Forall (fun l => lk_png l = Some new /\ lk_generation l = gen /\ lk_now l < t0 + IDLE_FRAME_INTERVAL_MS) looks ->
  frames None s (Look (Some old) gen t0 :: looks) = [part old].
Proof.
  intros Hg Hl. cbn [frames]. unfold stream_round at 1, due. cbn [lk_png lk_generation lk_now].
  rewrite (proj2 (Z.eqb_neq _ _) Hg). cbn [negb orb]. f_equal.
  induction Hl as [|l looks (Hp & Hgen & Hnow) Hl IH]; [done|]. cbn [frames].
  unfold stream_round at 1, due. rewrite Hp, Hgen. cbn [st_seen st_last].
  rewrite Z.eqb_refl, (proj2 (Z.leb_gt _ _)) by lia. cbn [negb orb]. exact IH.
Qed.

Lemma torn_look_delays_picture_witness :
  frames None stream_init (Look (Some [1]) 7 0 :: [Look (Some [2]) 7 70; Look (Some [2]) 7 1990]) = [part [1]].
Proof.
  apply (torn_look_delays_picture stream_init [1] [2] 7 0); [discriminate|]. repeat constructor; reflexivity.
Defined.

(** ** Buffers and banner *)

Section views.
Context `{Runtime}.

(** Discovered addresses outlive the firmware they were found in.  Once
    [ensure_buffers] has answered for one emulator and image, it gives the
    same answer for every later emulator and image, without a command to
    them; nothing clears the answer when another firmware is booted. *)
Theorem buffers_outlive_firmware client image v t v' t' i :
  ensure_buffers None client image v t = (v', t', Some i) ->
  forall client' image' t1, ensure_buffers None client' image' v' t1 = (v', t1, Some i).
Proof.
  intros He client' image' t1. assert (vw_info v' = Some i) as Hi.
  { unfold ensure_buffers in He. destruct (vw_info v) as [j|] eqn:Ev; [by injection He as <- <- <-|].
    destruct client as [g|]; [|done]. destruct (discover _ _ _ t) as [t2 [b|e]].
    - destruct (bf_frame b) as [f|] eqn:Ef, (bf_status b) as [s|]; try destruct (f =? 0);
        injection He as <- <- <-; reflexivity.
    - destruct (is_exception e); [|done]. by injection He as <- <- <-. }
  unfold ensure_buffers. by rewrite Hi.
Qed.
End views.

#[local] Existing Instance plain_runtime.

Lemma buffers_outlive_firmware_witness :
  let v := View None (init None 0 0) (log_init 4) in
  let r := ensure_buffers None (Some (still (zrep 1024 0) 0%nat)) None v 0 in
  exists i, r = (r.1.1, r.1.2, Some i) /\
    ensure_buffers None (Some (flipping 1%nat)) None r.1.1 7 = (r.1.1, 7%nat, Some i).
Proof.
  cbv zeta. eexists. split; [vm_compute; reflexivity|].
  eapply (buffers_outlive_firmware
    (Some (still (zrep 1024 0) 0%nat)) None (View None (init None 0 0) (log_init 4)) 0).
  vm_compute. reflexivity.
Defined.

(** The device runs something else: the note is given exactly when the
    banner's ASCII text is nowhere in the image that was booted. *)
Lemma running_firmware_note `{Unicode} lb i file banner blob :
  latest (map e_text (entries lb 0)) = Some banner -> banner <> [] -> ii_path i <> [] ->
  file (ii_path i) = Some blob ->
  exists m, running_firmware lb (Some i) file = Some (banner, m, negb m) /\
    (m = true <-> exists l1 l2, blob = l1 ++ List.filter (fun c => c <? 128) banner ++ l2).
Proof.
  intros Hl Hb Hp Hf. exists (image_mentions (Some (ii_path i)) banner file). unfold running_firmware.
  rewrite Hl. destruct banner as [|c banner]; [done|]. split; [done|].
  unfold image_mentions. destruct (ii_path i) as [|p path] eqn:E; [done|].
  rewrite bool_decide_false, Hf by done. apply contains_iff.
Qed.
