(* ===== verification/WebUI.v ===== *)
(** The HTTP handlers of [src/tools/webui.py] and the key names of
    [src/tools/uvk5_keys.py].  The handlers see the emulator through an
    interface, [PowerControl]: what they may rely on of the supervisor, whose
    own theorems discharge it.  A handler takes the server's state and a
    request to a new state and a response, or to an exception that escapes
    it (which the framework turns into a 500).  The state holds the log the
    handlers and the supervisor share, and the frame pump they rebind. *)
From S2P Require Import Slots Apps.
From S2P Require Import Prelude Text Struct Image Endpoint Logs Stream Supervisor Files Views.
Open Scope Z_scope.

(** ** Keys *)

Section keys.
Context `{Unicode}.

Definition KEYS : list (list Z) :=
  map lit ["MENU"; "UP"; "DOWN"; "EXIT"; "F"; "STAR"; "0"; "1"; "2"; "3"; "4"; "5"; "6"; "7"; "8";
           "9"; "SIDE1"; "SIDE2"]%string.

Definition normalise (name : option (list Z)) : list Z := upper (strip (default [] name)).
Definition is_valid (name : list Z) : bool := bool_decide (normalise (Some name) ∈ KEYS).

(** ** What the handlers rely on *)

(** The supervisor, as the handlers use it.  [pc_cmdline] is the command line
    of the emulator its client talks to, [pc_answers] whether that emulator
    answers, and [pc_notes] what the supervisor has noted so far. *)
Class PowerControl (S : Type) := {
  pc_running : S -> bool;
  pc_owns : S -> bool;
  pc_client : S -> option nat;
  pc_answers : S -> bool;
  pc_cmdline : S -> option popen;
  pc_notes : S -> list note;
  pc_on : S -> on_env -> S * result bool;
  pc_off : S -> S * bool;
  pc_reset : S -> on_env -> S * result bool;
  pc_pause : S -> S * result bool;
  pc_resume : S -> S * result bool;
  pc_ok : S -> Prop;
  pc_off_law : forall s, pc_ok s ->
    pc_ok (pc_off s).1 /\ pc_running (pc_off s).1 = false /\ pc_client (pc_off s).1 = None;
  pc_on_law : forall s env, pc_ok s -> env_ok env ->
    pc_ok (pc_on s env).1 /\
    match (pc_on s env).2 with
    | Ok true => pc_running s = false /\ pc_running (pc_on s env).1 = true /\
        exists args, oe_launch env = Ok args /\ pc_cmdline (pc_on s env).1 = Some args
    | Ok false => pc_running s = true /\ (pc_on s env).1 = s
    | Raise e => pc_running s = false /\ pc_running (pc_on s env).1 = false /\
        (oe_launch env = Raise e \/ oe_connect env = Raise e)
    end;
  pc_on_total : forall s env args, pc_ok s -> pc_running s = false ->
    oe_launch env = Ok args -> oe_connect env = Ok tt -> (pc_on s env).2 = Ok true;
  pc_reset_ok : forall s env, pc_ok s -> env_ok env -> pc_ok (pc_reset s env).1;
  pc_pause_ok : forall s, pc_ok s -> pc_ok (pc_pause s).1;
  pc_resume_ok : forall s, pc_ok s -> pc_ok (pc_resume s).1
}.

(** ** The server *)

(** What was fixed when the server started: the emulator binary, the
    endpoints, the upload directory, the screen addresses of the command
    line, and which controls [create_app] was given.  A server without a
    supervisor is an instance of the interface that never runs. *)
Record config := Config {
  cf_qemu : list Z; cf_qmp : list Z; cf_gdb : Z; cf_serial : option Z; cf_dir : list Z;
  cf_image : bool; cf_flash : bool; cf_supervisor : bool; cf_boot_key : bool;
  cf_told : option (Z * Z)
}.

(** What is sent to the keypad model. *)
Inductive guest := GPress (key : list Z) | GSleep (ms : Z) | GPtt (held : bool).

Record web (S : Type) := Web {
  w_sup : S; w_fs : fsys; w_image : image_slot; w_boot : boot_key; w_flash : list Z;
  w_guest : list guest; w_view : view
}.
#[global] Arguments Web {_} _ _ _ _ _ _ _.
#[global] Arguments w_sup {_} _.
#[global] Arguments w_fs {_} _.
#[global] Arguments w_image {_} _.
#[global] Arguments w_boot {_} _.
#[global] Arguments w_flash {_} _.
#[global] Arguments w_guest {_} _.
#[global] Arguments w_view {_} _.

(** What the host decides of a launch: whether [Popen] fails, whether the
    process hangs, the outcome of [connect], and what QEMU printed; and of a
    stop: what the emulator that goes leaves in its flash image file, if the
    firmware had changed the flash (the machine model's exit notifier writes
    it back in place, [py25q16_flush] of src/qemu/py32f071.c). *)
Record host := Host {
  ho_popen : option exn; ho_hangs : bool; ho_connect : result unit; ho_said : list Z;
  ho_left : option (list Z)
}.

Section server.
Context `{Runtime} {S : Type} `{PowerControl S} (cf : config).

Definition w_log (w : web S) : log_buffer := vw_log (w_view w).
Definition w_pump (w : web S) : pump := vw_pump (w_view w).

Definition set_sup (w : web S) (s : S) : web S :=
  Web s (w_fs w) (w_image w) (w_boot w) (w_flash w) (w_guest w) (w_view w).
Definition set_fs (w : web S) (fs : fsys) : web S :=
  Web (w_sup w) fs (w_image w) (w_boot w) (w_flash w) (w_guest w) (w_view w).
Definition set_image (w : web S) (i : image_slot) : web S :=
  Web (w_sup w) (w_fs w) i (w_boot w) (w_flash w) (w_guest w) (w_view w).
Definition set_boot (w : web S) (k : boot_key) : web S :=
  Web (w_sup w) (w_fs w) (w_image w) k (w_flash w) (w_guest w) (w_view w).
Definition set_flash (w : web S) (p : list Z) : web S :=
  Web (w_sup w) (w_fs w) (w_image w) (w_boot w) p (w_guest w) (w_view w).
Definition set_view (w : web S) (v : view) : web S :=
  Web (w_sup w) (w_fs w) (w_image w) (w_boot w) (w_flash w) (w_guest w) v.
Definition tell (w : web S) (g : guest) : web S :=
  Web (w_sup w) (w_fs w) (w_image w) (w_boot w) (w_flash w) (w_guest w ++ [g]) (w_view w).

(** [log.add(source, text, ip=client_ip())], and [pump.rebind(supervisor.client())]. *)
Definition log (w : web S) (source text : list Z) (ip : list Z) : web S :=
  set_view w (log_ (w_view w) source text (Some ip)).
Definition rebind (w : web S) : web S :=
  set_view w (View (vw_info (w_view w)) (Stream.rebind (w_pump w) (pc_client (w_sup w))) (w_log w)).

(** A call of the supervisor: what it notes goes to the shared log. *)
Definition new_notes (s s' : S) : list (list Z) :=
  concat (map note_text (drop (length (pc_notes s)) (pc_notes s'))).
Definition use_sup (w : web S) (s : S) : web S :=
  set_view (set_sup w s)
    (foldl (fun v text => log_ v (lit "power") text None) (w_view w) (new_notes (w_sup w) s)).

(** The launcher reads the image slot, the boot key and the flash path when
    it spawns. *)
Definition launch_env (w : web S) (h : host) : on_env :=
  OnEnv (a ← launch_args (cf_qemu cf) (w_flash w) (ElfSlot (w_image w)) (Some (w_boot w))
               (cf_qmp cf) (cf_gdb cf) (cf_serial cf) false;
         match ho_popen h with Some e => Raise e | None => Ok a.1 end)
        (ho_hangs h) (ho_connect h) (ho_said h).

Definition power_on_ (w : web S) (h : host) : web S * result bool :=
  let '(s, r) := pc_on (w_sup w) (launch_env w h) in (use_sup w s, r).

(** The file the emulator keeps its flash in: its environment names it. *)
Definition flash_file (s : S) : option (list Z) :=
  args ← pc_cmdline s; snd <$> List.find (fun v => bool_decide (v.1 = lit "UVK5_FLASH_IMAGE")) (po_env args).
Definition write_back (w : web S) (left : option (list Z)) : web S :=
  match left, flash_file (w_sup w) with
  | Some data, Some path => set_fs w (<[path := File data false]> (w_fs w))
  | _, _ => w
  end.
(** [supervisor.power_off()]: the emulator writes its flash back and goes. *)
Definition power_off_ (w : web S) (h : host) : web S :=
  let w := write_back w (ho_left h) in use_sup w (pc_off (w_sup w)).1.

(** ** Requests *)

Record request := Request {
  q_name : option (list Z);        (* ?name= *)
  q_filename : option (list Z);    (* X-Filename *)
  q_version : list Z;
  q_force : list Z;
  q_data : list Z;
  q_ip : list Z                    (* client_ip() *)
}.

Inductive body :=
| BError (what : string)
| BFirmware (i : image_info) (multiboot restarted : bool)
| BRestartFailed (i : image_info)
| BSlot (row : json_row)
| BApp (slot : Z) (i : Apps.info) (rows : list app_row)
| BApps (rows : list app_row)
| BSlots (j : list Z * Z * list json_row)
| BPower (action : list Z) (powered : bool)
| BKey (key action : list Z) (hold_ms : Z)
| BPtt (held : bool)
| BLogs (es : list entry) (cursor : Z)
| BOk.

Definition response : Type := Z * body.

(** [request.args.get("name") or request.headers.get("X-Filename") or d],
    with backslashes turned and the directory part removed. *)
Definition or_else (a : option (list Z)) (d : list Z) : list Z :=
  match a with Some (c :: s) => c :: s | _ => d end.
Definition upload_name (q : request) (d : list Z) : list Z :=
  basename (map (fun c => if c =? 92 then 47 else c) (or_else (q_name q) (or_else (q_filename q) d))).

Definition MAX_UPLOAD_BYTES : Z := 4 * 1024 * 1024.

(** [with open(os.path.join(directory, name), "wb") as fh: fh.write(data)]:
    a name that denotes a directory or holds a NUL cannot be opened. *)
Definition upload_path (name : list Z) : list Z := cf_dir cf ++ [47] ++ name.
Definition save_upload (w : web S) (name data : list Z) : result (web S) :=
  if bool_decide (name = []) || bool_decide (name = [46]) || bool_decide (name = [46; 46])
  then raise OSError "Is a directory" []
  else if bool_decide (0 ∈ name) then raise ValueError "embedded null byte" []
  else Ok (set_fs w (exec_all (w_fs w) (write_ops (upload_path name) data))).

(** The bytes [detect] reads. *)
Definition contents (fs : fsys) : gmap (list Z) (list Z) := f_data <$> fs.

Definition kind_text (k : image_kind) : list Z :=
  match k with
  | Application => lit "application" | FullFlash => lit "full-flash" | Elf => lit "elf"
  end.

(** ** POST /api/firmware *)

Definition api_firmware_upload (w : web S) (q : request) (h : host) : web S * result response :=
  if negb (cf_image cf) then (w, Ok (409, BError "this server was started without firmware control"))
  else
  let name := match upload_name q (lit "firmware.bin") with
              | [] => lit "firmware.bin" | n => n end in
  if bool_decide (q_data q = []) then (w, Ok (400, BError "no image in the request body"))
  else if MAX_UPLOAD_BYTES <? zlen (q_data q) then (w, Ok (413, BError "%d bytes is too large"))
  else
    match save_upload w name (q_data q) with
    | Raise e => (w, Raise e)
    | Ok w =>
        match detect (contents (w_fs w)) (upload_path name) with
        | Raise e => if bool_decide (exn_cls e = ImageError)
                     then (w, Ok (400, BError "not an image")) else (w, Raise e)
        | Ok i =>
            let restart := pc_running (w_sup w) in
            let w := if restart then power_off_ w h else w in
            let w := set_image w (Some i) in
            let w := log w (lit "firmware")
                       (name ++ lit " (" ++ kind_text (ii_kind i) ++ lit ", " ++ decimal (ii_size i)
                        ++ lit " bytes)") (q_ip q) in
            let answer := BFirmware i (image_has_multiboot (q_data q)) restart in
            if restart then
              match power_on_ w h with
              | (w, Raise e) =>
                  if is_exception e
                  then (log w (lit "firmware") (lit "restart failed: " ++ str_exn e) (q_ip q),
                        Ok (500, BRestartFailed i))
                  else (w, Raise e)
              | (w, Ok _) => (w, Ok (200, answer))
              end
            else (w, Ok (200, answer))
        end
    end.

(** ** Editing the flash image *)

Definition work_path : list Z := upload_path (lit "flash-current.img").

(** The working copy: [shutil.copyfile(flash.path, work)] unless it is the
    file in use already.  The names of files are taken to be spelled in one
    way, so that [os.path.abspath] makes two equal only if they are. *)
Definition use_working_copy (w : web S) : result (web S) :=
  if bool_decide (work_path = w_flash w) then Ok w
  else
    data ← load_image (w_fs w) (w_flash w);
    Ok (set_flash (set_fs w (exec_all (w_fs w) (write_ops work_path data))) work_path).

(** The wait for the emulator to go sleeps only while it still runs, which
    by [pc_off_law] it does not; it changes nothing of the server. *)
Definition _edit_flash {A} (w : web S) (h : host) (edit : fsys -> list Z -> fsys * result A)
  : web S * result A :=
  if negb (cf_flash cf)
  then (w, raise RuntimeError "this server was started without flash control" [])
  else
  let running := pc_running (w_sup w) in
  let w := if running then power_off_ w h else w in
  match use_working_copy w with
  | Raise e => (w, Raise e)
  | Ok w =>
      let '(fs, r) := edit (w_fs w) work_path in
      let w := set_fs w fs in
      match r with
      | Raise e => (w, Raise e)
      | Ok a =>
          if running then
            match power_on_ w h with
            | (w, Raise e) => (w, Raise e)
            | (w, Ok _) => (w, Ok a)
            end
          else (w, Ok a)
      end
  end.

(** [try: ... except Exception as exc: log.add(...); return ..., 400] around
    an edit. *)
Definition answer_edit {A} (source failed ip : list Z) (r : web S * result A)
    (ok : web S -> A -> web S * result response) : web S * result response :=
  match r with
  | (w, Ok a) => ok w a
  | (w, Raise e) =>
      if is_exception e
      then (log w source (failed ++ str_exn e) ip, Ok (400, BError "edit failed"))
      else (w, Raise e)
  end.

Definition in_slots (n slot : Z) : bool := (0 <=? slot) && (slot <? n).
Definition slot_text (slot : Z) : list Z := lit "slot " ++ decimal slot.

Definition api_slot_write (w : web S) (slot : Z) (q : request) (h : host) : web S * result response :=
  if negb (in_slots Slots.SLOT_COUNT slot) then (w, Ok (400, BError "slot %d is out of range"))
  else if bool_decide (q_data q = []) then (w, Ok (400, BError "no image in the request body"))
  else if MAX_UPLOAD_BYTES <? zlen (q_data q) then (w, Ok (413, BError "%d bytes is too large"))
  else
    let name := upload_name q (lit "firmware.bin") in
    answer_edit (lit "slots") (slot_text slot ++ lit " write failed: ") (q_ip q)
      (_edit_flash w h (fun fs p => write_slot_file fs p slot (q_data q) name (q_version q) true))
      (fun w row =>
         (log w (lit "slots")
            (slot_text slot ++ lit " <- " ++ name ++ lit " (" ++ decimal (zlen (q_data q)) ++ lit " bytes, crc "
             ++ (if default false (sh_crc_ok <$> r_header row) then lit "ok" else lit "MISMATCH") ++ lit ")")
            (q_ip q), Ok (200, BSlot row))).

Definition api_slot_erase (w : web S) (slot : Z) (ip : list Z) (h : host) : web S * result response :=
  if negb (in_slots Slots.SLOT_COUNT slot) then (w, Ok (400, BError "slot %d is out of range"))
  else answer_edit (lit "slots") (slot_text slot ++ lit " erase failed: ") ip
         (_edit_flash w h (fun fs p => erase_slot_file fs p slot))
         (fun w row => (log w (lit "slots") (slot_text slot ++ lit " erased") ip, Ok (200, BSlot row))).

(** [force] in ("1", "true", "yes"), lower-cased. *)
Definition force_of (q : request) : bool :=
  bool_decide (lower (q_force q) ∈ map lit ["1"; "true"; "yes"]%string).

Definition api_app_install (w : web S) (slot : Z) (q : request) (h : host) : web S * result response :=
  if negb (in_slots Apps.SLOT_COUNT slot) then (w, Ok (400, BError "app slot %d is out of range"))
  else if bool_decide (q_data q = []) then (w, Ok (400, BError "no .app in the request body"))
  else if MAX_UPLOAD_BYTES <? zlen (q_data q) then (w, Ok (413, BError "%d bytes is too large"))
  else
    answer_edit (lit "apps") (slot_text slot ++ lit " refused: ") (q_ip q)
      (_edit_flash w h (fun fs p => install_file fs p slot (q_data q) (force_of q)))
      (fun w i =>
         let w := log w (lit "apps")
                    (slot_text slot ++ lit " <- " ++ i_name i ++ lit " " ++ i_version i ++ lit " ("
                     ++ decimal (i_code_size i) ++ lit " bytes of code)") (q_ip q) in
         (w, rows ← apps_json (w_fs w) (w_flash w); Ok (200, BApp slot i rows))).

Definition api_app_erase (w : web S) (slot : Z) (ip : list Z) (h : host) : web S * result response :=
  if negb (in_slots Apps.SLOT_COUNT slot) then (w, Ok (400, BError "app slot %d is out of range"))
  else
    answer_edit (lit "apps") (slot_text slot ++ lit " erase failed: ") ip
      (_edit_flash w h (fun fs p => erase_file fs p slot))
      (fun w _ =>
         let w := log w (lit "apps") (slot_text slot ++ lit " erased") ip in
         (w, rows ← apps_json (w_fs w) (w_flash w); Ok (200, BApps rows))).

(** ** POST /api/flash *)

Definition api_flash_upload (w : web S) (q : request) (h : host) : web S * result response :=
  let name := upload_name q (lit "flash.img") in
  if negb (cf_flash cf) then (w, Ok (409, BError "this server was started without flash control"))
  else if bool_decide (q_data q = []) then (w, Ok (400, BError "no flash image in the request body"))
  else if MAX_UPLOAD_BYTES <? zlen (q_data q) then (w, Ok (413, BError "%d bytes is too large"))
  else
    let running := pc_running (w_sup w) in
    let w := if running then power_off_ w h else w in
    match save_upload w name (q_data q) with
    | Raise e => (w, Raise e)
    | Ok w =>
        let w := set_flash w (upload_path name) in
        let w := log w (lit "slots")
                   (lit "flash image <- " ++ name ++ lit " (" ++ decimal (zlen (q_data q)) ++ lit " bytes)")
                   (q_ip q) in
        match (if running then power_on_ w h else (w, Ok false)) with
        | (w, Raise e) => (w, Raise e)
        | (w, Ok _) => (w, j ← slots_json (w_fs w) (upload_path name); Ok (200, BSlots j))
        end
    end.

(** ** GET /api/slots, /api/apps, /api/logs *)

Definition api_slots (w : web S) : result response :=
  if negb (cf_flash cf) then Ok (409, BError "this server was started without flash control")
  else match slots_json (w_fs w) (w_flash w) with
       | Ok j => Ok (200, BSlots j)
       | Raise e => if is_exception e then Ok (500, BError "exception") else Raise e
       end.

Definition api_apps (w : web S) : result response :=
  if negb (cf_flash cf) then Ok (409, BError "this server was started without flash control")
  else match apps_json (w_fs w) (w_flash w) with
       | Ok rows => Ok (200, BApps rows)
       | Raise e => if is_exception e then Ok (500, BError "exception") else Raise e
       end.

(** [since] is 0 when the query has no integer.  The two reads are two
    locked sections; [Logs] has their interleavings. *)
Definition api_logs (w : web S) (since : Z) : response :=
  (200, BLogs (entries (w_log w) since) (cursor (w_log w))).

(** GET /api/status with the server's own state: the live client, the image,
    the buffers and the log. *)
Definition get_status (guests : nat -> Lcd.guest) (file : list Z -> option (list Z))
    (query : result (list (list Z * list Z))) (speaker : result bool) (panel : result (bool * Z * bool))
    (w : web S) (t : nat) : web S * nat * status_body :=
  let '(v, t, b) := api_status (cf_told cf) (guests <$> pc_client (w_sup w)) (w_image w) file query speaker
                      panel (w_view w) t in
  (set_view w v, t, b).

(** ** POST /api/power *)

Definition POWER_ACTIONS : list (list Z) := map lit ["on"; "off"; "reset"; "pause"; "resume"]%string.

(** A JSON value where a number is expected: absent or null, one that [int]
    accepts, or anything else. *)
Inductive hold_arg := HoldAbsent | HoldInt (n : Z) | HoldBad.

(** The JSON body: the boot key and how long to hold it. *)
Record power_body := PowerBody { pb_boot_key : option (list Z); pb_hold_ms : hold_arg }.

(** The boot key of the next launch: set by an On that names one, cleared by
    anything else.  A hold that is no number raises after the name is set. *)
Definition boot_key_for (action : list Z) (b : power_body) (k : boot_key) : boot_key * option exn :=
  if negb (cf_boot_key cf) then (k, None)
  else match pb_boot_key b with
  | Some (c :: s) =>
      if bool_decide (action = lit "on") then
        let name := Some (take 16 (c :: s)) in
        match pb_hold_ms b with
        | HoldAbsent | HoldInt 0 => (BootKey name 1500, None)
        | HoldInt n => (BootKey name n, None)
        | HoldBad => (BootKey name (bk_hold_ms k), Some (Exn ValueError "invalid literal for int()" []))
        end
      else (boot_key_clear k, None)
  | _ => (boot_key_clear k, None)
  end.

(** The line that says which key an On asks for. *)
Definition log_boot_key (w : web S) (action : list Z) (ip : list Z) : web S :=
  match bk_name (w_boot w) with
  | Some name =>
      if cf_boot_key cf && bool_decide (action = lit "on")
      then log w (lit "power") (lit "asking for " ++ name ++ lit " held from reset") ip else w
  | None => w
  end.

Definition dispatch (w : web S) (action : list Z) (h : host) : web S * result bool :=
  if bool_decide (action = lit "on") then power_on_ w h
  else if bool_decide (action = lit "off") then
    (power_off_ w h, Ok (pc_off (w_sup w)).2)
  else if bool_decide (action = lit "reset") then
    let '(s, r) := pc_reset (w_sup w) (launch_env w h) in (use_sup w s, r)
  else if bool_decide (action = lit "pause") then
    let '(s, r) := pc_pause (w_sup w) in (use_sup w s, r)
  else let '(s, r) := pc_resume (w_sup w) in (use_sup w s, r).

Definition api_power (w : web S) (action : list Z) (b : power_body) (ip : list Z) (h : host)
  : web S * result response :=
  let action := lower (strip action) in
  if bool_decide (action ∉ POWER_ACTIONS) then (w, Ok (400, BError "unknown action"))
  else if negb (cf_supervisor cf) then (w, Ok (409, BError "power control needs a supervisor"))
  else if bool_decide (action = lit "off") && negb (pc_owns (w_sup w))
  then (w, Ok (409, BError "this server attached to an emulator it did not start"))
  else
    let '(k, bad) := boot_key_for action b (w_boot w) in
    let w := set_boot w k in
    match bad with Some e => (w, Raise e) | None =>
    let w := log_boot_key w action ip in
    let w := log w (lit "power") (action ++ lit " requested") ip in
    match dispatch w action h with
    | (w, Raise e) =>
        if is_exception e
        then (rebind (log w (lit "power") (action ++ lit " failed: " ++ str_exn e) ip), Ok (503, BError "failed"))
        else (w, Raise e)
    | (w, Ok _) => (rebind w, Ok (200, BPower action (pc_running (w_sup w))))
    end end.

(** ** Keys and PTT *)

Definition TAP_MS : Z := 60.
Definition MAX_HOLD_MS : Z := 5000.
Definition FIRMWARE_HELD_MS : Z := 400.

(** [set_press] and [set_ptt]. *)
Definition set_press (w : web S) (value : list Z) : result (web S) :=
  match pc_client (w_sup w) with
  | None => raise LookupError "emulator is off" []
  | Some _ => if pc_answers (w_sup w) then Ok (tell w (GPress value))
              else raise RuntimeError "QMP connection closed" []
  end.
Definition set_ptt (w : web S) (held : bool) : result (web S) :=
  match pc_client (w_sup w) with
  | None => raise LookupError "emulator is off" []
  | Some _ => if pc_answers (w_sup w) then Ok (tell w (GPtt held))
              else raise RuntimeError "QMP connection closed" []
  end.

Record key_body := KeyBody {
  kb_key : option (list Z); kb_action : option (list Z); kb_hold : hold_arg; kb_ip : list Z
}.

Definition hold_of (a : hold_arg) : option Z :=
  match a with
  | HoldAbsent => Some TAP_MS
  | HoldInt n => if n <? 0 then None else Some (Z.min n MAX_HOLD_MS)
  | HoldBad => None
  end.

(** What the log says of a tap: what the firmware will conclude. *)
Definition tap_text (key : list Z) (hold_ms : Z) : list Z :=
  key ++ lit " " ++ (if FIRMWARE_HELD_MS <=? hold_ms then lit "held" else lit "tap") ++ lit " "
  ++ decimal hold_ms ++ lit "ms".

(** The presses of one request; [others] is what the other requests served
    during a hold do to the server.  The state is returned with the
    exception that ends it, if one does. *)
Definition press (w : web S) (key action : list Z) (hold_ms : Z) (ip : list Z) (others : web S -> web S)
  : web S * option exn :=
  if bool_decide (action = lit "down") then
    let w := log w (lit "key") (key ++ lit " down") ip in
    match set_press w key with Ok w => (w, None) | Raise e => (w, Some e) end
  else if bool_decide (action = lit "up") then
    let w := log w (lit "key") (key ++ lit " up") ip in
    match set_press w [] with Ok w => (w, None) | Raise e => (w, Some e) end
  else
    let w := log w (lit "key") (tap_text key hold_ms) ip in
    match set_press w key with
    | Raise e => (w, Some e)
    | Ok w =>
        let w := others (tell w (GSleep hold_ms)) in
        match set_press w [] with Ok w => (w, None) | Raise e => (w, Some e) end
    end.

Definition KEY_ACTIONS : list (list Z) := map lit ["down"; "up"; "tap"]%string.

Definition repr_key (k : option (list Z)) : list Z :=
  match k with Some k => repr_str k | None => lit "None" end.

Definition api_key (w : web S) (b : key_body) (others : web S -> web S) : web S * result response :=
  let key := normalise (kb_key b) in
  let action := lower (strip (or_else (kb_action b) (lit "tap"))) in
  if negb (is_valid key)
  then (log w (lit "key") (repr_key (kb_key b) ++ lit " rejected: not a key on this model") (kb_ip b),
        Ok (400, BError "unknown key"))
  else if bool_decide (action ∉ KEY_ACTIONS) then (w, Ok (400, BError "unknown action"))
  else match hold_of (kb_hold b) with
       | None => (w, Ok (400, BError "hold_ms must be a number"))
       | Some hold_ms =>
           match press w key action hold_ms (kb_ip b) others with
           | (w, None) => (w, Ok (200, BKey key action hold_ms))
           | (w, Some e) =>
               if bool_decide (exn_cls e = LookupError)
               then (log w (lit "key") (key ++ lit " ignored: emulator is off") (kb_ip b),
                     Ok (409, BError "emulator is off; press On first"))
               else (w, Raise e)
           end
       end.

(** [held] is the JSON value when it is a boolean. *)
Definition api_ptt (w : web S) (held : option bool) (ip : list Z) : web S * result response :=
  match held with
  | None => (w, Ok (400, BError "held must be true or false"))
  | Some held =>
      match set_ptt w held with
      | Ok w => (log w (lit "key") (lit "PTT " ++ (if held then lit "down" else lit "up")) ip,
                 Ok (200, BPtt held))
      | Raise e =>
          if bool_decide (exn_cls e = LookupError)
          then (log w (lit "key") (lit "PTT ignored: emulator is off") ip,
                Ok (409, BError "emulator is off; press On first"))
          else (w, Raise e)
      end
  end.

Definition api_release_all (w : web S) : web S * result response :=
  match set_press w [] with
  | Raise e => if bool_decide (exn_cls e = LookupError)
               then (w, Ok (409, BError "emulator is off")) else (w, Raise e)
  | Ok w =>
      match set_ptt w false with
      | Raise e => if bool_decide (exn_cls e = LookupError)
                   then (w, Ok (409, BError "emulator is off")) else (w, Raise e)
      | Ok w => (w, Ok (200, BOk))
      end
  end.

End server.

(** ** Who made the request *)

Definition client_ip (forwarded : list Z) (remote_addr : list Z) : list Z :=
  match forwarded with
  | [] => remote_addr
  | _ => match strip (partition COMMA forwarded).1 with [] => remote_addr | first => first end
  end.

End keys.

(** ** The supervisor provides the interface *)

Lemma power_off_facts s :
  s_client (Supervisor.power_off s).1 = None /\ s_proc (Supervisor.power_off s).1 = None.
Proof.
  unfold Supervisor.power_off, off_begin. destruct (s_client s) as [c|]; [|done].
  destruct (off_end_procs (Sup None None (s_procs s) (s_log s)) (c, s_proc s)) as (_ & _ & ? & ? & _).
  done.
Qed.

Lemma send_coherent s c : coherent s -> coherent (send s c).1.
Proof.
  intros Hs. pose proof Hs as [Hc Hk]. unfold send. destruct (s_client s) as [client|] eqn:Ec; [|exact Hs].
  destruct (command (s_procs s) client c) as [ps|e] eqn:E; [|exact Hs].
  apply command_no_new in E as [_ Hp]. split; cbn; [exact Hc|]. intros pid Hpid. by apply Hp, Hk.
Qed.
Definition sup_cmdline (s : sup) : option popen := c ← s_client s; p_args <$> s_procs s !! c.

Lemma sup_on_law s env :
  coherent s -> env_ok env ->
  coherent (Supervisor.power_on s env).1 /\
  match (Supervisor.power_on s env).2 with
  | Ok true => is_running s = false /\ is_running (Supervisor.power_on s env).1 = true /\
      exists args, oe_launch env = Ok args /\ sup_cmdline (Supervisor.power_on s env).1 = Some args
  | Ok false => is_running s = true /\ (Supervisor.power_on s env).1 = s
  | Raise e => is_running s = false /\ is_running (Supervisor.power_on s env).1 = false /\
      (oe_launch env = Raise e \/ oe_connect env = Raise e)
  end.
Proof.
  intros Hs He. pose proof (power_on_outcome s env Hs He) as Ho. unfold on_outcome in Ho.
  destruct (Supervisor.power_on s env) as [s' [[|]|e]]; cbn in *.
  - destruct Ho as (pid & args & Hl & Hfr & Hps & Hpr & Hcl & Hrun). unfold is_running at 2, poll, coherent.
    unfold sup_cmdline.
    rewrite Hcl, Hpr, Hps. cbn. rewrite lookup_insert_eq. split.
    + split; intros q [= ->]; [done|]. rewrite lookup_insert_eq. by eexists.
    + cbn. by eauto.
  - destruct Ho as (-> & _ & Hrun). by repeat split; try apply Hs.
  - destruct Ho as (Hfrom & Hpr & Hcl & Hrun & _). split; [split; intros q; by rewrite ?Hpr, ?Hcl|].
    split; [done|]. split; [|done]. unfold is_running. by rewrite Hcl.
Qed.

#[export] Program Instance sup_power : PowerControl sup := {
  pc_running := is_running;
  pc_owns := owns_process;
  pc_client := s_client;
  pc_answers s := match s_client s with
                  | Some c => match s_procs s !! c with
                              | Some p => alive p && negb (p_hung p) | None => false end
                  | None => false
                  end;
  pc_cmdline := sup_cmdline;
  pc_notes := s_log;
  pc_on := Supervisor.power_on;
  pc_off := Supervisor.power_off;
  pc_reset := Supervisor.reset;
  pc_pause := Supervisor.pause;
  pc_resume := Supervisor.resume;
  pc_ok := coherent
}.
Next Obligation.
  intros s _. destruct (power_off_facts s) as [Hc Hp]. split; [|split].
  - split; intros pid; by rewrite ?Hc, ?Hp.
  - unfold is_running. by rewrite Hc.
  - done.
Qed.
Next Obligation. apply sup_on_law. Qed.
Next Obligation.
  intros s env args Hs Hr Hl Hc. destruct (forget_dead_cases s Hs) as [_ [(Hcl & _ & _)|(_ & _ & Hrun)]].
  - unfold Supervisor.power_on. by rewrite Hcl, Hl, Hc.
  - congruence.
Qed.

Next Obligation.
  intros s env Hs He. unfold Supervisor.reset. destruct (s_client s) eqn:Ec.
  - pose proof (send_coherent s SystemReset Hs) as Hn. by destruct (send s SystemReset) as [s' [b|e]].
  - by apply sup_on_law.
Qed.
Next Obligation. intros s. apply send_coherent. Qed.
Next Obligation. intros s. apply send_coherent. Qed.

(** ** Handlers *)

Section handlers.
Context `{Unicode} `{Runtime} {S : Type} `{PowerControl S} (cf : config).
Implicit Types (w : web S) (q : request) (h : host).

(** [Popen] and [connect] raise nothing but what [except Exception] catches. *)
Definition host_ok (h : host) : Prop :=
  match ho_connect h with Raise e => is_exception e = true | Ok _ => True end /\
  match ho_popen h with Some e => is_exception e = true | None => True end.

Lemma host_env_ok w h : host_ok h -> env_ok (launch_env cf w h).
Proof. by intros [? _]. Qed.

Lemma launch_raises w h e :
  host_ok h -> oe_launch (launch_env cf w h) = Raise e \/ oe_connect (launch_env cf w h) = Raise e ->
  is_exception e = true.
Proof.
  intros [Hc Hp] [Hl|Hl]; cbn in Hl.
  - unfold launch_args in Hl. destruct (w_image w); cbn in Hl; [|by injection Hl as <-].
    destruct (ho_popen h); [|done]. injection Hl as <-. done.
  - by rewrite Hl in Hc.
Qed.

(** The launcher's command line for an image. *)
Lemma launch_env_args w h i :
  w_image w = Some i -> ho_popen h = None ->
  exists args, oe_launch (launch_env cf w h) = Ok args /\
    po_argv args !! 9%nat = Some (ii_path i) /\
    po_env args = (lit "UVK5_FLASH_IMAGE", w_flash w) :: boot_key_env (Some (w_boot w)).
Proof.
  intros Hi Hp. unfold launch_env, launch_args. rewrite Hi, Hp. cbn. by eauto.
Qed.

Lemma launch_env_path w h i args :
  w_image w = Some i -> oe_launch (launch_env cf w h) = Ok args ->
  po_argv args !! 9%nat = Some (ii_path i) /\
  po_env args = (lit "UVK5_FLASH_IMAGE", w_flash w) :: boot_key_env (Some (w_boot w)).
Proof.
  intros Hi. unfold launch_env, launch_args. rewrite Hi. cbn. destruct (ho_popen h); [done|].
  by intros [= <-].
Qed.

Lemma power_on_facts w h :
  pc_ok (w_sup w) -> host_ok h ->
  pc_ok (w_sup (power_on_ cf w h).1) /\
  (forall b, (power_on_ cf w h).2 = Ok b -> pc_running (w_sup (power_on_ cf w h).1) = true) /\
  (forall e, (power_on_ cf w h).2 = Raise e -> pc_running (w_sup (power_on_ cf w h).1) = false) /\
  w_fs (power_on_ cf w h).1 = w_fs w /\ w_image (power_on_ cf w h).1 = w_image w /\
  w_flash (power_on_ cf w h).1 = w_flash w /\ w_boot (power_on_ cf w h).1 = w_boot w.
Proof.
  intros Hok Hh. unfold power_on_.
  pose proof (pc_on_law (w_sup w) (launch_env cf w h) Hok (host_env_ok w h Hh)) as [Hok' Hl].
  destruct (pc_on _ _) as [s r]; cbn in *. split; [done|].
  split; [|split; [|done]]; intros x ->; [|by destruct Hl as (_ & ? & _)].
  destruct x; [by destruct Hl as (_ & ? & _)|]. destruct Hl as [Hl ->]. done.
Qed.

(** The server once a running emulator was stopped for an edit: the flash
    image as the emulator left it. *)
Definition stopped w h : web S := if pc_running (w_sup w) then write_back w (ho_left h) else w.

Lemma write_back_facts w left :
  w_sup (write_back w left) = w_sup w /\ w_flash (write_back w left) = w_flash w /\
  w_image (write_back w left) = w_image w /\ w_boot (write_back w left) = w_boot w /\
  w_view (write_back w left) = w_view w /\
  (forall p, flash_file (w_sup w) <> Some p -> w_fs (write_back w left) !! p = w_fs w !! p).
Proof.
  unfold write_back. destruct left as [data|], (flash_file (w_sup w)) as [path|]; repeat (split; [done|]); intros p Hp; try done.
  cbn. by rewrite lookup_insert_ne by congruence.
Qed.

Lemma power_off_w w h :
  pc_ok (w_sup w) -> pc_ok (w_sup (power_off_ w h)) /\ pc_running (w_sup (power_off_ w h)) = false.
Proof.
  intros Hok. unfold power_off_. destruct (write_back_facts w (ho_left h)) as (Hs & _).
  cbn [w_sup use_sup set_view set_sup]. rewrite Hs. by destruct (pc_off_law (w_sup w) Hok) as (? & ? & _).
Qed.

(** The name an upload is saved under, and when the file can be opened. *)
Definition firmware_name (q : request) : list Z :=
  match upload_name q (lit "firmware.bin") with [] => lit "firmware.bin" | n => n end.

Lemma detect_saved w name data :
  (contents (exec_all (w_fs w) (write_ops (upload_path cf name) data))) !! upload_path cf name = Some data.
Proof. unfold contents. rewrite lookup_fmap, exec_write, decide_True by done. done. Qed.

Lemma save_upload_inv w name data w' :
  save_upload cf w name data = Ok w' ->
  w' = set_fs w (exec_all (w_fs w) (write_ops (upload_path cf name) data)).
Proof. unfold save_upload. destruct (_ || _); [done|]. case_bool_decide; [done|]. by intros [= <-]. Qed.

(** An upload that is not an image leaves the radio as it was: the
    emulator, the image the next launch boots, the boot key and the flash
    image are untouched, nothing is sent to the guest, the answer is an
    error, and no file but the upload itself is written. *)
Theorem upload_rejected_harmless w q h :
  (forall k sp reset, ~ bootable (q_data q) k sp reset) ->
  let '(w', r) := api_firmware_upload cf w q h in
  w_sup w' = w_sup w /\ w_image w' = w_image w /\ w_boot w' = w_boot w /\ w_flash w' = w_flash w /\
  w_guest w' = w_guest w /\
  (forall p, p <> upload_path cf (firmware_name q) -> w_fs w' !! p = w_fs w !! p) /\
  match r with
  | Ok (status, _) => status = 400 \/ status = 409 \/ status = 413
  | Raise _ => w' = w
  end.
Proof.
  intros Hbad. unfold api_firmware_upload. fold (firmware_name q).
  destruct (negb (cf_image cf)); [naive_solver|].
  case_bool_decide; [naive_solver|]. destruct (MAX_UPLOAD_BYTES <? _); [naive_solver|].
  destruct (save_upload cf w (firmware_name q) (q_data q)) as [w1|e] eqn:Es; [|naive_solver].
  apply save_upload_inv in Es. subst w1. cbn [w_fs set_fs].
  destruct (detect _ _) as [i|e] eqn:Ed.
  - apply detect_ok_iff in Ed as (data & Hd & Hb & _). rewrite detect_saved in Hd.
    injection Hd as <-. by apply Hbad in Hb.
  - apply detect_err in Ed. rewrite bool_decide_eq_true_2 by done.
    repeat (split; [done|]). split; [|by left]. intros p Hp. cbn [w_fs set_fs].
    by rewrite exec_write, decide_False.
Qed.

(** C28. Uploading a bootable image to a running radio restarts it on that
    image.  If the file can be opened and the new process starts and answers
    (Popen and connect succeed), the answer is 200; the image slot holds what
    detection says of the uploaded bytes - their kind, the load offset of that
    kind, their size, the initial stack pointer and the reset vector - under
    the path they were saved at; the emulator that now runs was launched with
    exactly that file as its kernel; and the file has the uploaded bytes,
    unless it is the flash image the stopped emulator wrote back to. *)
Theorem upload_boots_image w q h w1 k sp reset :
  pc_ok (w_sup w) -> pc_running (w_sup w) = true -> cf_image cf = true ->
  bootable (q_data q) k sp reset -> save_upload cf w (firmware_name q) (q_data q) = Ok w1 ->
  ho_popen h = None -> ho_connect h = Ok tt ->
  let path := upload_path cf (firmware_name q) in
  let i := ImageInfo path k (offset_of k) (zlen (q_data q)) sp reset in
  let '(w', r) := api_firmware_upload cf w q h in
  r = Ok (200, BFirmware i (image_has_multiboot (q_data q)) true) /\
  w_image w' = Some i /\ pc_running (w_sup w') = true /\
  (exists args, pc_cmdline (w_sup w') = Some args /\ po_argv args !! 9%nat = Some path) /\
  (flash_file (w_sup w) <> Some path -> f_data <$> w_fs w' !! path = Some (q_data q)).
Proof.
  intros Hok Hrun Hci Hb Hsv Hp Hc. cbv zeta. unfold api_firmware_upload. fold (firmware_name q).
  rewrite Hci. cbn [negb]. pose proof Hb as [Hl _].
  rewrite bool_decide_eq_false_2 by (intros E; rewrite E in Hl; by destruct Hl).
  rewrite (proj2 (Z.ltb_ge _ _)) by (unfold MAX_UPLOAD_BYTES, MAX_IMAGE in *; lia).
  rewrite Hsv. apply save_upload_inv in Hsv. subst w1. cbn [w_fs set_fs w_sup].
  set (path := upload_path cf (firmware_name q)). set (i := ImageInfo path k _ _ sp reset).
  assert (detect (contents (exec_all (w_fs w) (write_ops path (q_data q)))) path = Ok i) as ->.
  { apply detect_ok_iff. eexists. split; [apply detect_saved|]. done. }
  rewrite Hrun. set (w0 := set_fs w _). set (w2 := set_image (power_off_ w0 h) (Some i)).
  assert (pc_ok (w_sup w2) /\ pc_running (w_sup w2) = false) as [Hok2 Hr2] by by apply power_off_w.
  destruct (launch_env_args w2 h i eq_refl Hp) as (args & Hla & Hpath & _).
  pose proof (pc_on_total (w_sup w2) (launch_env cf w2 h) args Hok2 Hr2 Hla Hc) as Ht.
  pose proof (pc_on_law (w_sup w2) (launch_env cf w2 h) Hok2) as [_ Hlaw].
  { unfold env_ok. cbn. by rewrite Hc. }
  assert (flash_file (w_sup w) <> Some path -> f_data <$> w_fs w2 !! path = Some (q_data q)) as Hfs.
  { intros Hne. cbn [w2 w_fs set_image power_off_ use_sup set_view set_sup].
    destruct (write_back_facts w0 (ho_left h)) as (_ & _ & _ & _ & _ & ->); [|done].
    cbn [w0 w_fs set_fs]. by rewrite exec_write, decide_True. }
  unfold power_on_. destruct (pc_on _ _) as [s r]; cbn [fst snd] in Ht, Hlaw. subst r. cbn.
  destruct Hlaw as (_ & Hrun' & args' & Hl' & Hcmd). rewrite Hla in Hl'. injection Hl' as <-.
  repeat (split; [done|]). split; [by exists args|]. exact Hfs.
Qed.

(** The upload is saved before it is validated, under a name the client
    chooses: rejected bytes uploaded under the name of the image in use
    replace that image's file.  The slot still names it, and the file is no
    longer bootable. *)
Theorem rejected_upload_clobbers_current w q h w1 i :
  cf_image cf = true -> q_data q <> [] -> zlen (q_data q) <= MAX_UPLOAD_BYTES ->
  (forall k sp reset, ~ bootable (q_data q) k sp reset) ->
  save_upload cf w (firmware_name q) (q_data q) = Ok w1 ->
  w_image w = Some i -> ii_path i = upload_path cf (firmware_name q) ->
  let '(w', r) := api_firmware_upload cf w q h in
  (exists b, r = Ok (400, b)) /\ w_image w' = Some i /\
  exists e, detect (contents (w_fs w')) (ii_path i) = Raise e /\ exn_cls e = ImageError.
Proof.
  intros Hci Hne Hlen Hbad Hsv Hi Hp. unfold api_firmware_upload. fold (firmware_name q).
  rewrite Hci. cbn [negb]. rewrite bool_decide_eq_false_2 by done.
  rewrite (proj2 (Z.ltb_ge _ _)) by done. rewrite Hsv. apply save_upload_inv in Hsv. subst w1.
  cbn [w_fs set_fs]. destruct (detect _ _) as [j|e] eqn:Ed.
  - apply detect_ok_iff in Ed as (data & Hd & Hb & _). rewrite detect_saved in Hd.
    injection Hd as <-. by apply Hbad in Hb.
  - pose proof Ed as He. apply detect_err in He. rewrite bool_decide_eq_true_2 by done.
    split; [by eexists|]. split; [done|]. exists e. rewrite Hp. done.
Qed.

(** An edit of the working copy that leaves other files alone. *)
Definition local_edit {A} (edit : fsys -> list Z -> fsys * result A) (work : list Z) : Prop :=
  forall fs p, p <> work -> p <> tmp_of work -> (edit fs work).1 !! p = fs !! p.

Lemma use_working_copy_facts w w' :
  use_working_copy cf w = Ok w' ->
  w_sup w' = w_sup w /\ w_image w' = w_image w /\ w_boot w' = w_boot w /\
  w_flash w' = work_path cf /\
  (forall p, p <> work_path cf -> w_fs w' !! p = w_fs w !! p) /\
  (f_data <$> w_fs w' !! work_path cf) = (f_data <$> w_fs w !! w_flash w) \/ 
  (work_path cf = w_flash w /\ w' = w).
Proof.
  unfold use_working_copy. case_bool_decide as E; [by intros [= <-]; right|].
  intros (data & Hl & Heq)%bind_ok. left.
  assert (w' = set_flash (set_fs w (exec_all (w_fs w) (write_ops (work_path cf) data))) (work_path cf))
    as -> by congruence. clear Heq. repeat (split; [done|]). cbn [w_fs set_flash set_fs]. split.
  - intros p Hp. by rewrite exec_write, decide_False.
  - rewrite exec_write, decide_True by done. cbn [fmap option_fmap option_map f_data]. unfold load_image in Hl.
    destruct (w_fs w !! w_flash w) as [f|]; [|done]. by injection Hl as <-.
Qed.

(** What stopping the emulator for an edit changes. *)
Lemma stop_facts w h :
  pc_ok (w_sup w) ->
  let w0 := if pc_running (w_sup w) then power_off_ w h else w in
  w_fs w0 = w_fs (stopped w h) /\ w_flash w0 = w_flash w /\ pc_ok (w_sup w0) /\
  (pc_running (w_sup w) = false -> w_sup w0 = w_sup w).
Proof.
  intros Hok. cbv zeta. unfold stopped. destruct (pc_running (w_sup w)); [|done].
  split; [done|]. split; [|split; [by apply power_off_w|done]].
  apply (write_back_facts w (ho_left h)).
Qed.

(** Where an edit starts: the flash image's bytes, in the working copy. *)
Lemma use_working_copy_starts w w' f :
  w_fs w !! w_flash w = Some f -> use_working_copy cf w = Ok w' ->
  (f_data <$> w_fs w' !! work_path cf) = Some (f_data f) /\ w_flash w' = work_path cf /\
  w_sup w' = w_sup w /\ (forall p, p <> work_path cf -> w_fs w' !! p = w_fs w !! p).
Proof.
  intros Hf [(Hs & _ & _ & Hfl & Hother & Hd)|[Hp ->]]%use_working_copy_facts.
  - by rewrite Hd, Hf.
  - rewrite Hp, Hf. done.
Qed.

(** C29. Editing the flash image works on a copy of what the firmware has.
    A running emulator is stopped first, and whatever it writes back then to
    the file it keeps its flash in is what counts: the edit starts from the
    bytes the image in use has after that.  That file keeps them, as every
    other but the working copy and its temporary file does; the working copy
    becomes the image in use; and on success the emulator runs exactly if it
    ran before.  The image in use is taken not to be the working copy already,
    and files to have one spelling. *)
Theorem edit_flash_working_copy {A} w h (edit : fsys -> list Z -> fsys * result A) f :
  pc_ok (w_sup w) -> host_ok h -> cf_flash cf = true -> local_edit edit (work_path cf) ->
  w_fs (stopped w h) !! w_flash w = Some f -> w_flash w <> work_path cf -> w_flash w <> tmp_of (work_path cf) ->
  let '(w', r) := _edit_flash cf w h edit in
  w_fs w' !! w_flash w = Some f /\
  (forall p, p <> work_path cf -> p <> tmp_of (work_path cf) -> w_fs w' !! p = w_fs (stopped w h) !! p) /\
  match r with
  | Ok a => w_flash w' = work_path cf /\ pc_running (w_sup w') = pc_running (w_sup w) /\
      exists fs, (f_data <$> fs !! work_path cf) = Some (f_data f) /\
        edit fs (work_path cf) = (w_fs w', Ok a)
  | Raise _ => True
  end.
Proof.
  intros Hok Hh Hcf Hloc Hf Hne Hnt.
  assert (forall w' : web S, (forall p, p <> work_path cf -> p <> tmp_of (work_path cf) ->
      w_fs w' !! p = w_fs (stopped w h) !! p) -> w_fs w' !! w_flash w = Some f /\
      (forall p, p <> work_path cf -> p <> tmp_of (work_path cf) -> w_fs w' !! p = w_fs (stopped w h) !! p)) as Hkeep.
  { intros w' Hw. split; [|done]. by rewrite Hw. }
  unfold _edit_flash. rewrite Hcf. cbn [negb].
  destruct (stop_facts w h Hok) as (Hfs0 & Hfl0 & Hok0 & Hsame).
  set (w0 := if pc_running (w_sup w) then power_off_ w h else w) in *. clearbody w0.
  assert (w_fs w0 !! w_flash w0 = Some f) as Hf0 by by rewrite Hfs0, Hfl0.
  destruct (use_working_copy cf w0) as [w1|e] eqn:Eu; [|rewrite <- Hfs0 in *; destruct (Hkeep w0); done].
  destruct (use_working_copy_starts w0 w1 f Hf0 Eu) as (Hstart & Hfl1 & Hs1 & Hoth).
  destruct (edit (w_fs w1) (work_path cf)) as [fs r] eqn:Ee.
  destruct (Hkeep (set_fs w1 fs)) as [K1 K2].
  { intros p Hp Hpt. cbn [w_fs set_fs]. pose proof (Hloc (w_fs w1) p Hp Hpt) as Hl. rewrite Ee in Hl. cbn [fst] in Hl.
    by rewrite Hl, Hoth, Hfs0. }
  destruct r as [a|e]; [|done]. destruct (pc_running (w_sup w)) eqn:Hrun.
  - destruct (power_on_facts (set_fs w1 fs) h) as (_ & Hon & _ & Hfs & _ & Hfl & _); [by rewrite <- Hs1 in Hok0|done|].
    destruct (power_on_ cf (set_fs w1 fs) h) as [w2 [b|e]]; cbn [fst snd] in *; rewrite Hfs.
    + rewrite Hfl. repeat (split; [done|]). split; [by eapply Hon|]. by eauto.
    + done.
  - repeat (split; [done|]). split; [cbn; by rewrite Hs1, Hsame|]. by eauto.
Qed.

Lemma edit_fails_off {A} w h (edit : fsys -> list Z -> fsys * result A) :
  pc_ok (w_sup w) -> pc_running (w_sup w) = true -> cf_flash cf = true ->
  (forall fs, exists e, (edit fs (work_path cf)).2 = Raise e /\ is_exception e = true) ->
  exists w' e, _edit_flash cf w h edit = (w', Raise e) /\ is_exception e = true /\
    pc_running (w_sup w') = false.
Proof.
  intros Hok Hrun Hcf Hfail. unfold _edit_flash. rewrite Hcf, Hrun. cbn [negb].
  destruct (power_off_w w h Hok) as [_ Hoff].
  destruct (use_working_copy cf (power_off_ w h)) as [w1|e] eqn:Eu.
  - assert (w_sup w1 = w_sup (power_off_ w h)) as Hs.
    { apply use_working_copy_facts in Eu as [(? & _)|[_ ->]]; done. }
    destruct (Hfail (w_fs w1)) as (e & He & Hx). destruct (edit _ _) as [fs r]. cbn in He. subst r.
    exists (set_fs w1 fs), e. split; [done|]. split; [done|]. cbn. by rewrite Hs.
  - exists (power_off_ w h), e. split; [done|]. split; [|done].
    unfold use_working_copy in Eu. case_bool_decide; [done|].
    unfold load_image in Eu. destruct (_ !! _); [done|]. by injection Eu as <-.
Qed.

(** A slot write that is refused turns a running radio off: an image too
    large for a slot is answered with 400 and nothing is written to the
    slot, but the emulator was powered off for the edit and is not powered
    on again. *)
Theorem refused_slot_write_leaves_off w slot q h :
  pc_ok (w_sup w) -> pc_running (w_sup w) = true -> cf_flash cf = true ->
  0 <= slot < Slots.SLOT_COUNT ->
  Slots.SLOT_STRIDE - Slots.SLOT_IMAGE_OFFSET < zlen (q_data q) <= MAX_UPLOAD_BYTES ->
  let '(w', r) := api_slot_write cf w slot q h in
  (exists b, r = Ok (400, b)) /\ pc_running (w_sup w') = false.
Proof.
  intros Hok Hrun Hcf Hs Hl. unfold api_slot_write, in_slots.
  rewrite (proj2 (Z.leb_le 0 slot)), (proj2 (Z.ltb_lt slot _)) by lia. cbn [negb andb].
  rewrite bool_decide_eq_false_2.
  2: { intros E. rewrite E in Hl. unfold Slots.SLOT_STRIDE, Slots.SLOT_IMAGE_OFFSET in Hl.
       change (zlen []) with 0 in Hl. lia. }
  rewrite (proj2 (Z.ltb_ge _ _)) by lia.
  destruct (edit_fails_off w h (fun fs p => write_slot_file fs p slot (q_data q)
    (upload_name q (lit "firmware.bin")) (q_version q) true) Hok Hrun Hcf) as (w' & e & -> & Hx & Hoff).
  - intros fs. unfold write_slot_file, load_image. destruct (fs !! work_path cf) as [f|]; cbn; [|by eauto].
    unfold Slots.write_slot. rewrite Slots.slot_base_ok by done. cbn.
    unfold Slots.build_header. rewrite (proj2 (Z.ltb_lt _ _)) by lia. cbn. by eauto.
  - cbn. rewrite Hx. split; [by eexists|done].
Qed.

(** The flash upload trusts the name it is given: for a name without a
    last component it powers the running radio off, then fails to open the
    file, and the exception escapes with the radio left off. *)
Theorem flash_upload_without_name w q h :
  pc_ok (w_sup w) -> pc_running (w_sup w) = true -> cf_flash cf = true ->
  q_data q <> [] -> zlen (q_data q) <= MAX_UPLOAD_BYTES ->
  upload_name q (lit "flash.img") = [] ->
  let '(w', r) := api_flash_upload cf w q h in
  (exists e, r = Raise e /\ exn_cls e = OSError) /\ pc_running (w_sup w') = false.
Proof.
  intros Hok Hrun Hcf Hd Hl Hn. unfold api_flash_upload. rewrite Hcf, Hrun, Hn. cbn [negb].
  rewrite bool_decide_eq_false_2 by done. rewrite (proj2 (Z.ltb_ge _ _)) by done.
  unfold save_upload. cbn. split; [by eexists|]. by apply power_off_w.
Qed.

(** ** Power *)

Lemma log_boot_key_view w action ip : exists v, log_boot_key cf w action ip = set_view w v.
Proof.
  unfold log_boot_key. destruct (bk_name (w_boot w)); [|by exists (w_view w); destruct w].
  destruct (_ && _); [by eexists|by exists (w_view w); destruct w].
Qed.

Lemma rebind_binds w : gr_client <$> pm_grabber (w_pump (rebind w)) = pc_client (w_sup (rebind w)).
Proof. cbn. unfold new_grabber. by destruct (pc_client (w_sup w)). Qed.

(** On powers the radio on and its answer is the truth: the answer is
    200 exactly when the emulator runs afterwards, a failed launch is a 503
    with the emulator off, and either way the screen is bound to the client
    that is now live.  An On that names no boot key launches without one,
    whatever an earlier request asked for. *)
Theorem api_power_on_spec w b ip h :
  pc_ok (w_sup w) -> host_ok h -> cf_supervisor cf = true -> cf_boot_key cf = true ->
  pb_boot_key b = None ->
  let '(w', r) := api_power cf w (lit "on") b ip h in
  gr_client <$> pm_grabber (w_pump w') = pc_client (w_sup w') /\
  match r with
  | Ok (status, answer) =>
      (status = 200 /\ pc_running (w_sup w') = true /\ answer = BPower (lit "on") true \/
       status = 503 /\ pc_running (w_sup w') = false) /\
      (pc_running (w_sup w) = false -> pc_running (w_sup w') = true ->
         exists args, pc_cmdline (w_sup w') = Some args /\
           po_env args = [(lit "UVK5_FLASH_IMAGE", w_flash w)])
  | Raise _ => False
  end.
Proof.
  intros Hok Hh Hcs Hcb Hb. unfold api_power.
  change (lower (strip (lit "on"))) with (lit "on").
  rewrite bool_decide_eq_false_2 by (intros E; apply E; by left). rewrite Hcs. cbn [negb].
  change (bool_decide (lit "on" = lit "off")) with false. cbn [andb].
  unfold boot_key_for. rewrite Hcb, Hb. cbn [negb].
  unfold dispatch. rewrite bool_decide_eq_true_2 by done.
  change (log_boot_key cf (set_boot w (boot_key_clear (w_boot w))) (lit "on") ip)
    with (set_boot w (boot_key_clear (w_boot w))).
  set (w1 := log _ _ _ _).
  pose proof (pc_on_law (w_sup w1) (launch_env cf w1 h) Hok (host_env_ok w1 h Hh)) as [_ Hlaw].
  unfold power_on_. destruct (pc_on (w_sup w1) (launch_env cf w1 h)) as [s [ok|e]] eqn:Eon;
    cbn [fst snd] in Hlaw.
  - split; [apply rebind_binds|]. destruct ok.
    + destruct Hlaw as (_ & Hrun & args & Hla & Hcmd). cbn. rewrite Hrun. split; [by left|].
      intros _ _. exists args. split; [done|]. clear Hcmd. revert Hla. unfold launch_env, launch_args.
      destruct (w_image w1) as [i|]; cbn; [|done]. destruct (ho_popen h); [done|]. by intros [= <-].
    + destruct Hlaw as [Hrun Hs]. cbn in Hrun, Hs. subst s. cbn. rewrite Hrun. split; [by left|done].
  - destruct Hlaw as (Hr0 & Hr1 & Hfrom). apply (launch_raises w1 h e Hh) in Hfrom. rewrite Hfrom.
    split; [apply rebind_binds|]. cbn. rewrite Hr1. split; [by right|done].
Qed.

(** Off is refused for an emulator this server did not start: 409, and
    nothing changes. *)
Theorem api_power_off_refused w b ip h :
  cf_supervisor cf = true -> pc_owns (w_sup w) = false ->
  exists answer, api_power cf w (lit "off") b ip h = (w, Ok (409, answer)).
Proof.
  intros Hs Ho. unfold api_power. change (lower (strip (lit "off"))) with (lit "off").
  rewrite bool_decide_eq_false_2 by (intros E; apply E; right; by left). rewrite Hs, Ho. cbn. by eexists.
Qed.

(** The Multiboot button's request (On with a boot key) does not restart
    a running radio: the answer is 200 and the emulator is the one that ran
    before.  The key stays set for whatever launch comes next. *)
Theorem boot_key_on_running_ignored w name ip h :
  pc_ok (w_sup w) -> pc_running (w_sup w) = true -> host_ok h ->
  cf_supervisor cf = true -> cf_boot_key cf = true -> name <> [] ->
  let '(w', r) := api_power cf w (lit "on") (PowerBody (Some name) HoldAbsent) ip h in
  r = Ok (200, BPower (lit "on") true) /\ w_sup w' = w_sup w /\
  bk_name (w_boot w') = Some (take 16 name).
Proof.
  intros Hok Hrun Hh Hcs Hcb Hn. unfold api_power.
  change (lower (strip (lit "on"))) with (lit "on").
  rewrite bool_decide_eq_false_2 by (intros E; apply E; by left). rewrite Hcs. cbn [negb].
  change (bool_decide (lit "on" = lit "off")) with false. cbn [andb].
  unfold boot_key_for. rewrite Hcb. cbn [negb pb_boot_key pb_hold_ms]. destruct name as [|c s]; [done|].
  rewrite bool_decide_eq_true_2 by done. unfold dispatch. rewrite bool_decide_eq_true_2 by done.
  destruct (log_boot_key_view (set_boot w (BootKey (Some (take 16 (c :: s))) 1500)) (lit "on") ip) as [v ->].
  set (w1 := log _ _ _ _).
  pose proof (pc_on_law (w_sup w1) (launch_env cf w1 h) Hok (host_env_ok w1 h Hh)) as [_ Hlaw].
  change (w_sup w1) with (w_sup w) in Hlaw.
  unfold power_on_. change (w_sup w1) with (w_sup w).
  destruct (pc_on (w_sup w) (launch_env cf w1 h)) as [s' [[|]|e]]; cbn [fst snd] in Hlaw.
  - destruct Hlaw as [Hf _]. congruence.
  - destruct Hlaw as [_ ->]. cbn. by rewrite Hrun.
  - destruct Hlaw as [Hf _]. congruence.
Qed.

(** ** Keys *)

(** What the keypad model shows after a sequence of commands: the key held
    and PTT. *)
Definition keypad (gs : list guest) : list Z * bool :=
  foldl (fun kp g => match g with
                     | GPress v => (v, kp.2) | GPtt held => (kp.1, held) | GSleep _ => kp end)
        ([], false) gs.

Lemma set_press_ok w v w' :
  set_press w v = Ok w' -> w' = tell w (GPress v) /\ is_Some (pc_client (w_sup w)).
Proof.
  unfold set_press. destruct (pc_client _) eqn:E; [|done]. destruct (pc_answers _); [|done].
  intros [= <-]. eauto.
Qed.
Lemma set_press_err w v e :
  set_press w v = Raise e ->
  (exn_cls e = LookupError /\ pc_client (w_sup w) = None) \/ exn_cls e = RuntimeError.
Proof.
  unfold set_press. destruct (pc_client _) eqn:E; [|intros [= <-]; by left].
  destruct (pc_answers _); [done|]. intros [= <-]. by right.
Qed.

Lemma hold_of_range a n : hold_of a = Some n -> 0 <= n <= MAX_HOLD_MS.
Proof.
  unfold hold_of, TAP_MS, MAX_HOLD_MS. destruct a as [|z|]; [intros [= <-]; lia| |done].
  destruct (Z.ltb_spec z 0); [done|]. intros [= <-]. lia.
Qed.

(** The server while a tap is held. *)
Definition holding (w : web S) (key : list Z) (hold : Z) (ip : list Z) : web S :=
  tell (tell (log w (lit "key") (tap_text key hold) ip) (GPress key)) (GSleep hold).

(** The commands of one accepted press. *)
Definition pressed (w : web S) (key action : list Z) (hold : Z) (ip : list Z) (others : web S -> web S)
  : list guest :=
  if decide (action = lit "down") then w_guest w ++ [GPress key]
  else if decide (action = lit "up") then w_guest w ++ [GPress []]
  else w_guest (others (holding w key hold ip)) ++ [GPress []].

(** The same server but for the log. *)
Definition same_radio (w w' : web S) : Prop :=
  exists lb, w' = set_view w (View (vw_info (w_view w)) (w_pump w) lb).

Lemma same_radio_refl w : same_radio w w.
Proof. exists (w_log w). by destruct w as [? ? ? ? ? ? []]. Qed.
Lemma same_radio_log w source text ip : same_radio w (log w source text ip).
Proof. by eexists. Qed.

Lemma press_effect w key action hold ip others :
  match press w key action hold ip others with
  | (w', None) => w_guest w' = pressed w key action hold ip others /\
      (action <> lit "down" -> (keypad (w_guest w')).1 = [])
  | (w', Some e) => (exn_cls e = LookupError /\ pc_client (w_sup w') = None) \/ exn_cls e = RuntimeError
  end.
Proof.
  assert (forall gs, (keypad (gs ++ [GPress []])).1 = []) as Hk.
  { intros gs. unfold keypad. by rewrite foldl_app. }
  unfold press, pressed. case_bool_decide as Hd.
  { rewrite decide_True by done. destruct (set_press _ key) as [w1|e] eqn:E; [|by apply set_press_err in E].
    apply set_press_ok in E as [-> _]. done. }
  rewrite decide_False by done. case_bool_decide as Hu.
  { rewrite decide_True by done. destruct (set_press _ []) as [w1|e] eqn:E; [|by apply set_press_err in E].
    apply set_press_ok in E as [-> _]. split; [done|]. intros _. apply Hk. }
  rewrite decide_False by done. destruct (set_press _ key) as [w1|e] eqn:E; [|by apply set_press_err in E].
  apply set_press_ok in E as [-> _]. fold (holding w key hold ip). set (w2 := others _).
  destruct (set_press w2 []) as [w3|e] eqn:E; [|by apply set_press_err in E].
  apply set_press_ok in E as [-> _]. split; [done|]. intros _. apply Hk.
Qed.

(** [/api/key], whatever other requests do during a hold: a request that
    is refused (unknown key or action, bad or negative hold) sends nothing
    and changes nothing but the log; one that is accepted sends the key for a
    hold of at most five seconds, and a tap always ends with the release of
    every key; with the emulator off the answer is 409. *)
Theorem api_key_spec w b others :
  let '(w', r) := api_key w b others in
  match r with
  | Ok (status, answer) =>
      (status = 400 /\ same_radio w w') \/
      (status = 409 /\ pc_client (w_sup w') = None) \/
      (status = 200 /\ exists key action hold,
         answer = BKey key action hold /\ key = normalise (kb_key b) /\ is_valid key = true /\
         action ∈ KEY_ACTIONS /\ 0 <= hold <= MAX_HOLD_MS /\
         w_guest w' = pressed w key action hold (kb_ip b) others /\
         (action <> lit "down" -> (keypad (w_guest w')).1 = []))
  | Raise e => exn_cls e = RuntimeError
  end.
Proof.
  unfold api_key. set (key := normalise (kb_key b)). set (action := lower _).
  destruct (is_valid key) eqn:Hv; cbn [negb]; [|left; split; [done|apply same_radio_log]].
  case_bool_decide as Ha; [left; split; [done|apply same_radio_refl]|].
  destruct (hold_of (kb_hold b)) as [hold|] eqn:Hh; [|left; split; [done|apply same_radio_refl]].
  apply hold_of_range in Hh. pose proof (press_effect w key action hold (kb_ip b) others) as Hp.
  destruct (press _ _ _ _ _ _) as [w' [e|]].
  - case_bool_decide as He.
    + right; left. destruct Hp as [[_ ?]|?]; [done|congruence].
    + destruct Hp as [[? _]|?]; [done|done].
  - right; right. split; [done|]. exists key, action, hold. destruct Hp as [??]. done.
Qed.

(** The safety valve works: [/api/release-all] leaves no key and no PTT
    held, whatever was sent before, and changes nothing when the emulator is
    off. *)
Theorem release_all_clears w :
  let '(w', r) := api_release_all w in
  match r with
  | Ok (status, _) =>
      (status = 200 /\ keypad (w_guest w') = ([], false) /\ w_sup w' = w_sup w) \/
      (status = 409 /\ w' = w /\ pc_client (w_sup w) = None)
  | Raise e => exn_cls e = RuntimeError
  end.
Proof.
  unfold api_release_all. destruct (set_press w []) as [w1|e] eqn:E.
  - apply set_press_ok in E as [-> [c Hc]]. unfold set_ptt. cbn [w_sup tell].
    rewrite Hc. destruct (pc_answers (w_sup w)); [|done]. left. split; [done|].
    split; [|done]. cbn. unfold keypad. by rewrite !foldl_app.
  - apply set_press_err in E as [[He Hc]|He].
    + rewrite bool_decide_eq_true_2 by done. by right.
    + rewrite bool_decide_eq_false_2 by congruence. done.
Qed.

End handlers.

(** ** The server's edges *)

(** The address a request is attributed to is the caller's to choose: the
    deployed proxy appends the address it saw to the X-Forwarded-For header
    it received, and the handler reads the first entry, so any text without
    a comma (and not blank) that a client sends in the header is what the
    log shows. *)
Theorem client_ip_forged `{Unicode} forged real remote :
  COMMA ∉ forged -> strip forged = forged -> forged <> [] ->
  client_ip (forged ++ COMMA :: real) remote = forged.
Proof.
  intros Hc Hs Hn. unfold client_ip. rewrite partition_app by done. cbn [fst]. rewrite Hs.
  destruct forged as [|c f]; [done|]. done.
Qed.

(** ** Concrete requests *)

#[local] Existing Instance ascii_tables.
#[local] Existing Instance plain_runtime.

Definition cf0 : config :=
  Config (lit "qemu-system-arm") (lit "127.0.0.1:4444") 1234 (Some 4445) (lit "work/firmware")
    true true true true None.
Definition host0 : host := Host None false (Ok tt) [] None.
Definition here : list Z := lit "127.0.0.1".
Definition fw_image : list Z := [0; 64; 0; 32; 5; 0; 0; 8; 0; 0; 0; 0].
Definition not_fw : list Z := [1; 2; 3].
Definition flash_img : list Z := lit "assets/flash.img".
(** Launched with that flash image. *)
Definition flash_args : popen :=
  Popen [lit "qemu-system-arm"; lit "-kernel"; lit "fw.bin"] [(lit "UVK5_FLASH_IMAGE", flash_img)].
Definition flash_env : on_env := OnEnv (Ok flash_args) false (Ok tt) [].
Definition sup_on : sup := (Supervisor.power_on (sup_init ∅) flash_env).1.
Definition fw_path : list Z := lit "work/firmware/fw.bin".
Definition old_image : image_info := ImageInfo fw_path FullFlash 0 12 (Some 0x20004000) (Some 0x08000005).

(** A radio running [fw.bin]. *)
Definition w0 : web sup :=
  Web sup_on {[flash_img := File not_fw true; fw_path := File fw_image true]} (Some old_image)
    boot_key_init flash_img [] (View None (Stream.init (Some 0%nat) 0 0) (log_init 2000)).

Definition upload (data : list Z) : request := Request (Some (lit "fw.bin")) None [] [] data here.

Lemma w0_ok : pc_ok (w_sup w0).
Proof. refine (proj1 (pc_on_law (sup_init ∅) flash_env _ I)). split; done. Qed.

Lemma fw_bootable : bootable fw_image FullFlash (Some 0x20004000) (Some 0x08000005).
Proof. by vm_compute. Qed.
Lemma not_fw_unbootable k sp reset : ~ bootable not_fw k sp reset.
Proof.
  intros [_ H]. rewrite decide_False in H by done. destruct H as [H _]. vm_compute in H. by apply H.
Qed.

Lemma upload_rejected_harmless_witness :
  w_image (api_firmware_upload cf0 w0 (upload not_fw) host0).1 = Some old_image.
Proof.
  pose proof (upload_rejected_harmless cf0 w0 (upload not_fw) host0 not_fw_unbootable) as H.
  destruct (api_firmware_upload cf0 w0 (upload not_fw) host0) as [w' r].
  destruct H as (_ & H & _). exact H.
Defined.

Lemma upload_boots_image_witness :
  exists i args, (api_firmware_upload cf0 w0 (upload fw_image) host0).2 =
      Ok (200, BFirmware i false true) /\
    pc_cmdline (w_sup (api_firmware_upload cf0 w0 (upload fw_image) host0).1) = Some args /\
    po_argv args !! 9%nat = Some fw_path /\ ii_app_offset i = 0 /\ ii_reset i = Some 0x08000005.
Proof.
  destruct (save_upload cf0 w0 (lit "fw.bin") fw_image) as [w1|e] eqn:Es; [|discriminate Es].
  pose proof (upload_boots_image cf0 w0 (upload fw_image) host0 w1 FullFlash _ _
    w0_ok eq_refl eq_refl fw_bootable Es eq_refl eq_refl) as H.
  destruct (api_firmware_upload cf0 w0 (upload fw_image) host0) as [w' r].
  destruct H as (H1 & _ & _ & (args & H2 & H3) & _). eexists _, args.
  split; [exact H1|]. split; [exact H2|]. split; [exact H3|]. split; reflexivity.
Defined.

Lemma rejected_upload_clobbers_current_witness :
  exists e, detect (contents (w_fs (api_firmware_upload cf0 w0 (upload not_fw) host0).1)) fw_path = Raise e.
Proof.
  destruct (save_upload cf0 w0 (lit "fw.bin") not_fw) as [w1|e] eqn:Es; [|discriminate Es].
  pose proof (rejected_upload_clobbers_current cf0 w0 (upload not_fw) host0 w1 old_image eq_refl
    ltac:(discriminate) ltac:(vm_compute; discriminate) not_fw_unbootable Es eq_refl eq_refl) as H.
  destruct (api_firmware_upload cf0 w0 (upload not_fw) host0) as [w' r].
  destruct H as (_ & _ & e & He & _). exists e. exact He.
Defined.

(** The radio has changed its flash since it was launched. *)
Definition host_left (data : list Z) : host := Host None false (Ok tt) [] (Some data).

Lemma edit_flash_working_copy_witness :
  let edit fs p := (exec_all fs (write_ops p (9 :: default [] (f_data <$> fs !! p))), Ok tt) in
  w_fs (_edit_flash cf0 w0 (host_left [7; 8]) edit).1 !! flash_img = Some (File [7; 8] false) /\
  w_fs (_edit_flash cf0 w0 (host_left [7; 8]) edit).1 !! work_path cf0 = Some (File [9; 7; 8] false).
Proof.
  intros edit. pose proof (edit_flash_working_copy cf0 w0 (host_left [7; 8]) edit (File [7; 8] false)
    w0_ok (conj I I) eq_refl) as H.
  assert (local_edit edit (work_path cf0)) as Hl.
  { intros fs p Hp _. cbn [fst edit]. rewrite exec_write. destruct (decide _); [contradiction|reflexivity]. }
  specialize (H Hl eq_refl ltac:(discriminate) ltac:(discriminate)).
  assert ((_edit_flash cf0 w0 (host_left [7; 8]) edit).2 = Ok tt) as Hr by (vm_compute; reflexivity).
  destruct (_edit_flash cf0 w0 (host_left [7; 8]) edit) as [w' r]. cbn [snd] in Hr. subst r.
  destruct H as (H1 & _ & _ & _ & fs & Hd & He). split; [exact H1|]. cbn [fst].
  assert (w_fs w' = (edit fs (work_path cf0)).1) as -> by (rewrite He; reflexivity).
  unfold edit. cbn [fst]. rewrite Hd, exec_write. reflexivity.
Defined.

Lemma refused_slot_write_leaves_off_witness :
  pc_running (w_sup w0) = true /\
  pc_running (w_sup (api_slot_write cf0 w0 1 (upload (zrep 0x1f001 0)) host0).1) = false.
Proof.
  split; [reflexivity|].
  pose proof (refused_slot_write_leaves_off cf0 w0 1 (upload (zrep 0x1f001 0)) host0
    w0_ok eq_refl eq_refl ltac:(split; vm_compute; congruence)) as H.
  assert (zlen (zrep 0x1f001 0) = 0x1f001) as Hz by (apply zlen_rep; lia).
  cbn [q_data upload] in H. rewrite Hz in H.
  specialize (H ltac:(split; [reflexivity|discriminate])).
  destruct (api_slot_write cf0 w0 1 (upload (zrep 0x1f001 0)) host0) as [w' r]. exact (proj2 H).
Defined.

Lemma flash_upload_without_name_witness :
  pc_running (w_sup (api_flash_upload cf0 w0 (Request (Some (lit "dir/")) None [] [] [1] here) host0).1) = false.
Proof.
  pose proof (flash_upload_without_name cf0 w0 (Request (Some (lit "dir/")) None [] [] [1] here) host0
    w0_ok eq_refl eq_refl ltac:(discriminate) ltac:(vm_compute; discriminate) eq_refl) as H.
  destruct (api_flash_upload _ _ _ _) as [w' r]. exact (proj2 H).
Defined.

Lemma api_power_on_spec_witness :
  gr_client <$> pm_grabber (w_pump (api_power cf0 w0 (lit "on") (PowerBody None HoldAbsent) here host0).1) =
  pc_client (w_sup (api_power cf0 w0 (lit "on") (PowerBody None HoldAbsent) here host0).1).
Proof.
  pose proof (api_power_on_spec cf0 w0 (PowerBody None HoldAbsent) here host0 w0_ok (conj I I)
    eq_refl eq_refl eq_refl) as H.
  destruct (api_power _ _ _ _ _ _) as [w' r]. exact (proj1 H).
Defined.

(** The same server, attached to an emulator it did not start. *)
Definition w_attached : web sup :=
  set_sup w0 (adopt (sup_init {[7%nat := Proc some_args false None false false 0]}) 7).

Lemma api_power_off_refused_witness :
  exists answer, api_power cf0 w_attached (lit "off") (PowerBody None HoldAbsent) here host0
    = (w_attached, Ok (409, answer)).
Proof. exact (api_power_off_refused cf0 w_attached (PowerBody None HoldAbsent) here host0 eq_refl eq_refl). Defined.

Lemma boot_key_on_running_ignored_witness :
  w_sup (api_power cf0 w0 (lit "on") (PowerBody (Some (lit "MENU")) HoldAbsent) here host0).1 = sup_on.
Proof.
  pose proof (boot_key_on_running_ignored cf0 w0 (lit "MENU") here host0 w0_ok eq_refl (conj I I)
    eq_refl eq_refl ltac:(discriminate)) as H.
  destruct (api_power _ _ _ _ _ _) as [w' r]. destruct H as (_ & H & _). exact H.
Defined.

Lemma client_ip_forged_witness :
  client_ip (lit "10.0.0.1, 172.21.91.140") (lit "127.0.0.1") = lit "10.0.0.1".
Proof.
  exact (client_ip_forged (lit "10.0.0.1") (lit " 172.21.91.140") (lit "127.0.0.1")
    ltac:(vm_compute; set_solver) eq_refl ltac:(discriminate)).
Defined.

(** A tap of MENU, evaluated. *)
Example tap_menu :
  let '(w, r) := api_key w0 (KeyBody (Some (lit " menu")) None (HoldInt 9000) here) (fun w => w) in
  w_guest w = [GPress (lit "MENU"); GSleep 5000; GPress []] /\
  map e_text (lb_entries (w_log w)) = [lit "MENU held 5000ms"] /\
  r = Ok (200, BKey (lit "MENU") (lit "tap") 5000).
Proof. vm_compute. done. Qed.
