(* ===== verification/RadioApps.v ===== *)
(** GET /api/apps/radio of [src/tools/webui.py]: what the running firmware
    answers about each overlay app, over the serial client of [SlotsSerial].
    The class [AppRadio] states what the firmware's 0x0730 promises; against
    any radio that keeps it the handler reports exactly the headers in the
    radio's flash, so it confirms what [Apps.install] wrote. *)
From S2P Require Import Struct SerialFlash Flasher Slots SlotsSerial.
From S2P Require Apps.
From S2P Require Import Prelude Text Endpoint Logs Views WebUI.
Open Scope Z_scope.
Set Warnings "-register-all".

(** ** The handler *)

(** A row of the answer: the slot asked about, which replaces the slot the
    radio named, and the rest of the decoded reply. *)
Definition row : Type := Z * Apps.radio_reply.

Inductive radio_body :=
| RadioError (error : list Z)
| RadioStopped (error : list Z) (slots : list row)
| RadioSlots (slots : list row).

Definition NONE_TO_BYTES : exn := Exn TypeError "cannot convert 'NoneType' object to bytes" [].

Section handler.
Context {D : Type} {HL : Link D} (polls : Z -> nat).

(** The loop over the slots: the rows so far, and what it raised. *)
Fixpoint ask_slots (todo : list Z) (rows : list row) (s : radio D) : radio D * list row * option exn :=
  match todo with
  | [] => (s, rows, None)
  | slot :: todo =>
      match app_info polls slot s with
      | (s, Ok (Some raw)) => ask_slots todo (rows ++ [(slot, Apps.parse_radio_reply raw)]) s
      | (s, Ok None) => (s, rows, Some NONE_TO_BYTES)
      | (s, Raise e) => (s, rows, Some e)
      end
  end.

Definition ask_radio (s : radio D) : radio D * list row * option exn :=
  match session polls s with
  | (s, Ok _) => ask_slots Apps.slot_numbers [] s
  | (s, Raise e) => (s, [], Some e)
  end.

Context {HR : Runtime} {S : Type} {HP : PowerControl S} (cf : config).

(** [serial_port] is the emulator's; [accepts] what the connection attempts
    met, [now] the client's clock, [d] the radio at the other end. *)
Definition api_apps_radio (w : web S) (accepts : list bool) (now : Z) (d : D) (ip : list Z)
    : web S * D * result (Z * radio_body) :=
  match cf_serial cf with
  | None => (w, d, Ok (409, RadioError (lit "this server started the emulator without a serial port, so the radio cannot be asked")))
  | Some port =>
      match open_transport (lit "127.0.0.1:" ++ decimal port) accepts with
      | Raise e =>
          if is_exception e
          then (w, d, Ok (503, RadioError (lit "cannot reach the radio's serial port: " ++ str_exn e)))
          else (w, d, Raise e)
      | Ok _ =>
          let '(s, slots, stopped) := ask_radio (open_radio now d) in
          match stopped with
          | None =>
              (log w (lit "apps") (lit "asked the radio about " ++ decimal (zlen slots) ++ lit " app slots") ip,
               rd_dev s, Ok (200, RadioSlots slots))
          | Some e =>
              if is_exception e
              then (w, rd_dev s, Ok (503, RadioStopped (lit "the radio stopped answering: " ++ str_exn e) slots))
              else (w, rd_dev s, Raise e)
          end
      end
  end.
End handler.

(** ** What the firmware promises *)

(** Answering 0x0730: a status byte and the header in the app region, with the
    flash untouched; lost commands as in [SlotRadio]. *)
Class AppRadio (D : Type) {HL : Link D} {HV : SlotDevice D} {HS : SlotRadio D} := {
  app_status : list Z -> Z -> Z;
  app_law : forall (d : D) ts slot f,
    dev_ready d -> dev_session d = Some ts -> 0 <= slot < Apps.SLOT_COUNT ->
    SerialFlash.build MSG_APP_INFO [slot] = Ok f ->
    match dev_lost d with
    | O => exists d', answers dev_latency (link_send d f) MSG_APP_INFO_ACK
               ([slot; app_status (dev_flash d) slot] ++ app_header slot (dev_flash d)) d' /\
             dev_flash d' = dev_flash d /\ dev_session d' = Some ts /\ dev_ready d'
    | S n => silent (link_send d f) MSG_APP_INFO_ACK (fun d' =>
               dev_flash d' = dev_flash d /\ dev_session d' = Some ts /\
               dev_lost d' = n /\ (dev_deaf d' <= 5)%nat)
    end
}.

Lemma numbers_in_range : Forall (fun slot => 0 <= slot < Apps.SLOT_COUNT) Apps.slot_numbers.
Proof. apply (bool_decide_unpack _). vm_compute. exact I. Qed.

Lemma in_numbers slot : 0 <= slot < Apps.SLOT_COUNT -> In slot Apps.slot_numbers.
Proof. unfold Apps.SLOT_COUNT, Apps.slot_numbers. cbn. lia. Qed.

Section against_radio.
Context {D : Type} {HL : Link D} {HV : SlotDevice D} {HS : SlotRadio D} {HA : AppRadio D}.
Context (polls : Z -> nat) (ts : Z).
Hypothesis Hpolls : forall w, 2500 <= w -> (dev_latency < polls w)%nat.
Hypothesis Hts : 0 <= ts < 2 ^ 32.

Definition app_answer (flash : list Z) (slot : Z) : list Z :=
  [slot; app_status flash slot] ++ app_header slot flash.

Lemma app_info_ok slot d :
  0 <= slot < Apps.SLOT_COUNT -> dev_ready d -> dev_session d = Some ts ->
  exists d', app_info polls slot (Radio ts [] d) = (Radio ts [] d', Ok (Some (app_answer (dev_flash d) slot))) /\
    dev_flash d' = dev_flash d /\ dev_session d' = Some ts /\ dev_ready d'.
Proof.
  intros Hs Hrd Hse.
  assert (py_bytes [slot] = Ok [slot]) as Hb
    by (apply py_bytes_slot, Forall_singleton; unfold Apps.SLOT_COUNT in Hs; lia).
  assert (SerialFlash.build MSG_APP_INFO [slot] = Ok (frame MSG_APP_INFO [slot])) as Hf
    by (apply build_iff; split; [split; [range_tac|done]|done]).
  destruct (command_retries polls ts Hpolls Hts (frame MSG_APP_INFO [slot]) 4000 MSG_APP_INFO_ACK
    (fun d' => dev_flash d' = dev_flash d)
    (fun reply d' => reply = app_answer (dev_flash d) slot /\ dev_flash d' = dev_flash d /\
       dev_session d' = Some ts /\ dev_ready d')
    ltac:(lia)) with (n := dev_lost d) (tries := 4%nat) (d := d) as (reply & d' & E & -> & Hfl & Hrest).
  - by intros d1 d2 <- ->.
  - intros d1 Hfl1 Hrd1 Hse1. pose proof (app_law d1 ts slot _ Hrd1 Hse1 Hs Hf) as Hl.
    rewrite Hfl1 in Hl. destruct (dev_lost d1) as [|n]; [|exact Hl].
    destruct Hl as (d' & Ha & Hfl & Hrest). eauto 10.
  - done.
  - done.
  - done.
  - done.
  - destruct Hrd. lia.
  - exists d'. split; [|exact (conj Hfl Hrest)]. unfold app_info, command, lift, mbind, M_bind. rewrite Hb, Hf. exact E.
Qed.

Lemma ask_slots_ok todo : forall rows d,
  Forall (fun slot => 0 <= slot < Apps.SLOT_COUNT) todo -> dev_ready d -> dev_session d = Some ts ->
  exists d', ask_slots polls todo rows (Radio ts [] d)
      = (Radio ts [] d',
         rows ++ map (fun slot => (slot, Apps.parse_radio_reply (app_answer (dev_flash d) slot))) todo, None) /\
    dev_flash d' = dev_flash d.
Proof.
  induction todo as [|slot todo IH]; intros rows d Ht Hrd Hse; [exists d; by rewrite app_nil_r|].
  apply Forall_cons in Ht as [Hs Ht]. cbn [ask_slots map].
  destruct (app_info_ok slot d Hs Hrd Hse) as (d1 & -> & Hfl & Hse1 & Hrd1).
  destruct (IH (rows ++ [(slot, Apps.parse_radio_reply (app_answer (dev_flash d) slot))]) d1 Ht Hrd1 Hse1)
    as (d' & -> & Hfl'). exists d'. rewrite Hfl in *. by rewrite <- app_assoc.
Qed.

Lemma ask_radio_ok d :
  dev_ready d ->
  exists s, ask_radio polls (Radio ts [] d)
      = (s, map (fun slot => (slot, Apps.parse_radio_reply (app_answer (dev_flash d) slot))) Apps.slot_numbers,
         None) /\ dev_flash (rd_dev s) = dev_flash d.
Proof.
  intros Hrd. unfold ask_radio.
  destruct (session_ok polls ts Hpolls Hts d Hrd) as (v & d1 & -> & Hfl & Hse & Hlo & Hde).
  destruct (ask_slots_ok Apps.slot_numbers [] d1) as (d2 & -> & Hfl2); [|destruct Hrd; split; lia|done|].
  - apply numbers_in_range.
  - exists (Radio ts [] d2). rewrite Hfl in *. done.
Qed.
End against_radio.

(** An installed app's header is what the answer decodes to. *)
Lemma header_decodes flash slot st i :
  slice 0 4 (app_header slot flash) = lit "FAP1" ->
  zlen (app_header slot flash) = Apps.HDR_SIZE ->
  Apps.parse_header (app_header slot flash) = Ok i ->
  Apps.parse_radio_reply ([slot; st] ++ app_header slot flash) = Apps.ReplyApp slot st i.
Proof.
  intros Hm Hz Hp. generalize dependent (app_header slot flash). intros h Hm Hz Hp.
  cbn [app Apps.parse_radio_reply].
  assert (zlen (slot :: st :: h) = 2 + Apps.HDR_SIZE) as E by (unfold zlen in *; cbn [length]; lia).
  rewrite E, Z.leb_refl.
  assert (slice 2 (2 + Apps.HDR_SIZE) (slot :: st :: h) = h) as ->.
  { change (slot :: st :: h) with ([slot; st] ++ h). rewrite slice_app_r by done.
    apply slice_all. rewrite Hz. discriminate. }
  rewrite Hm, bool_decide_eq_true_2 by done. by rewrite Apps.parse_loose, Hp.
Qed.

(** What [install] leaves in the app's header. *)
Lemma installed_header image slot blob force image' i :
  wf_bytes blob -> Apps.install image slot blob force = Ok (image', i) ->
  app_header slot image' = slice 0 Apps.HDR_SIZE blob /\ zlen image' = zlen image /\
  (forall other, 0 <= other < Apps.SLOT_COUNT -> other <> slot ->
     app_header other image' = app_header other image).
Proof.
  intros Hwf (Hp & Hs & Hl & Hf & ->)%Apps.install_iff; [|done].
  apply Apps.parse_strict_iff in Hp as [Hh Hr]; [|done]. destruct Hr as (_ & Hc & Hbl & _).
  set (base := Apps.REGION_BASE + slot * Apps.SLOT_STRIDE) in *.
  assert (0 <= base) as Hb0 by (unfold base; Apps.app_layout; lia).
  assert (base + Apps.SLOT_STRIDE <= zlen image) as Hi by (unfold base in *; Apps.app_layout; lia).
  assert (0 <= Apps.i_code_size i <= Apps.APP_OVERLAY_MAX) as Hc' by lia.
  split; [|split; [by apply Apps.zlen_installed|]].
  - unfold app_header. change (0x102000 + slot * 0x2000) with base. apply list_eq. intros k.
    rewrite !lookup_slice by (Apps.app_layout; lia). rewrite Apps.lookup_installed by done.
    Apps.app_layout. repeat case_decide; try lia; [|done]. f_equal. lia.
  - intros other Ho Hne. unfold app_header. apply list_eq. intros k.
    rewrite !lookup_slice by (unfold Apps.SLOT_COUNT in *; lia). rewrite Apps.lookup_installed by done.
    unfold base in *. Apps.app_layout. repeat case_decide; try lia; done.
Qed.

(** ** Properties *)

Section property.
Context {D : Type} {HL : Link D} {HV : SlotDevice D} {HS : SlotRadio D} {HA : AppRadio D}.
Context {HR : Runtime} {S : Type} {HP : PowerControl S} (cf : config) (polls : Z -> nat).

(** What the handler answers, from any radio that keeps its promises. *)
Lemma api_apps_radio_ok (w : web S) accepts now d ip port :
  (forall t, 2500 <= t -> (dev_latency < polls t)%nat) -> dev_ready d ->
  cf_serial cf = Some port -> is_ok (open_transport (lit "127.0.0.1:" ++ decimal port) accepts) = true ->
  exists w' d',
    api_apps_radio polls cf w accepts now d ip =
      (w', d', Ok (200, RadioSlots
         (map (fun slot => (slot, Apps.parse_radio_reply (app_answer (dev_flash d) slot))) Apps.slot_numbers))) /\
    dev_flash d' = dev_flash d.
Proof.
  intros Hp Hrd Hport Ho. unfold api_apps_radio. rewrite Hport.
  destruct (open_transport _ _) as [t|e]; [|done]. unfold open_radio.
  destruct (ask_radio_ok polls _ Hp (stamp_range now) d Hrd) as (s & -> & Hfl).
  eexists _, _. split; [reflexivity|exact Hfl].
Qed.

(** C7. The radio confirms an install.  After an app is installed into the
    flash a radio runs with, asking that radio about its apps - whatever
    commands and handshakes it loses on the way, within what the client
    resends - answers 200 with a row for each of the sixteen slots; the
    slot's row names the installed app with the checksum of its code, every
    other row is the one that was there before, and the flash is untouched. *)
Theorem radio_confirms_install (w : web S) accepts now d ip port flash slot blob force i :
  (forall t, 2500 <= t -> (dev_latency < polls t)%nat) -> dev_ready d ->
  cf_serial cf = Some port -> is_ok (open_transport (lit "127.0.0.1:" ++ decimal port) accepts) = true ->
  wf_bytes blob -> Apps.install flash slot blob force = Ok (dev_flash d, i) ->
  exists w' d' rows,
    api_apps_radio polls cf w accepts now d ip = (w', d', Ok (200, RadioSlots rows)) /\
    map fst rows = Apps.slot_numbers /\
    (slot, Apps.ReplyApp slot (app_status (dev_flash d) slot) i) ∈ rows /\
    (forall other, 0 <= other < Apps.SLOT_COUNT -> other <> slot ->
       (other, Apps.parse_radio_reply ([other; app_status (dev_flash d) other] ++ app_header other flash)) ∈ rows) /\
    dev_flash d' = dev_flash d.
Proof.
  intros Hp Hrd Hport Ho Hwf Hi.
  destruct (api_apps_radio_ok w accepts now d ip port Hp Hrd Hport Ho) as (w' & d' & E & Hfl).
  destruct (installed_header flash slot blob force _ i Hwf Hi) as (Hh & Hz & Hother).
  apply Apps.install_iff in Hi as (Hpa & Hs & Hl & _); [|done].
  apply Apps.parse_strict_iff in Hpa as [Hhd Hr]; [|done]. destruct Hr as (_ & Hc & Hbl & _).
  eexists w', d', _. split; [exact E|]. split; [|split; [|split]].
  - rewrite map_map. reflexivity.
  - apply list_elem_of_In, in_map_iff. exists slot. split; [|by apply in_numbers].
    f_equal. unfold app_answer. apply header_decodes; rewrite Hh.
    + rewrite slice_slice by done. by apply (Apps.parse_header_magic _ i).
    + rewrite zlen_slice; Apps.app_layout; lia.
    + rewrite <- Hhd. apply Apps.parse_header_ext.
      * rewrite zlen_slice; Apps.app_layout; lia.
      * Apps.app_layout; lia.
      * by rewrite slice_slice by done.
  - intros other Hoth Hne. apply list_elem_of_In, in_map_iff. exists other. split; [|by apply in_numbers].
    unfold app_answer. by rewrite Hother.
  - exact Hfl.
Qed.
End property.

(** The simulated radio answers 0x0730. *)
Lemma zlen_app_header slot flash : zlen (app_header slot flash) <= 64.
Proof. unfold app_header, slice, zlen. rewrite length_take. lia. Qed.

#[export] Program Instance sim_apps : AppRadio sim := {| app_status := fun _ _ => 0 |}.
Next Obligation.
  intros d ts slot f [Hlo Hde] Hse Hs [Hb ->]%build_iff.
  cbn [link_send sim_link dev_lost dev_deaf dev_session dev_flash dev_latency sim_device] in *.
  unfold sim_send. rewrite take_frame by done.
  change (MSG_APP_INFO =? MSG_SESSION) with false. cbv iota.
  change (decode_req MSG_APP_INFO [slot]) with (@None (SlotsSerial.request * option Z)). cbv iota beta.
  rewrite Z.eqb_refl. cbn [nth]. unfold sim_app. destruct (sim_lost d) as [|n] eqn:En.
  - eexists. split.
    + eapply sim_answers; [done| |done]. split; [range_tac|]. pose proof (zlen_app_header slot (sim_flash d)).
      rewrite zlen_app. change (zlen [slot; 0]) with 2. lia.
    + refine (conj eq_refl (conj Hse (conj _ _))); cbn -[Nat.min]; lia.
  - apply sim_silent; [done|]. by cbn.
Qed.

(** ** Errors *)

(** Nothing listens on the emulator's serial port: [open_transport] gives up
    with SystemExit, which [except Exception] does not catch, so the request
    ends without the 503 the handler means to answer. *)
Theorem unreachable_port_escapes {D} {HL : Link D} {HR : Runtime} {S} {HP : PowerControl S}
    (cf : config) polls (w : web S) n now (d : D) ip :
  0 <= n -> cf_serial cf = Some n ->
  exists e, api_apps_radio polls cf w [] now d ip = (w, d, Raise e) /\ exn_cls e = SystemExit.
Proof.
  intros Hn Hport. unfold api_apps_radio. rewrite Hport. unfold open_transport.
  assert (exists t, transport_target (lit "127.0.0.1:" ++ decimal n) = Ok (inr t)) as [t ->].
  { unfold transport_target. change (lit "127.0.0.1:" ++ decimal n) with (lit "127.0.0.1" ++ COLON :: decimal n).
    pose proof (isdigit_decimal n Hn) as Hd. destruct (int_of_digits _ Hd) as [p Hi].
    pose proof Hd as Hds. apply andb_prop in Hds as [_ Hds].
    rewrite rpartition_app by (apply digits_notin; [reflexivity|exact Hds]).
    rewrite bool_decide_eq_false_2, Hd by (vm_compute; discriminate). cbn [negb andb]. rewrite Hi. by eexists. }
  by eexists.
Qed.

(** A firmware without overlay apps does not answer 0x0730; [app_info] returns
    None for it, as its comment explains, and the handler passes that on to
    [bytes], so what the user reads is a TypeError about NoneType. *)
Theorem no_apps_reported_as_type_error {D} {HL : Link D} polls (s s' s'' : radio D) v :
  session polls s = (s', Ok v) -> app_info polls 0 s' = (s'', Ok None) ->
  ask_radio polls s = (s'', [], Some NONE_TO_BYTES).
Proof. intros Hs Ha. unfold ask_radio. rewrite Hs. cbn [Apps.slot_numbers ask_slots]. by rewrite Ha. Qed.

(** A radio that answers everything in order, but answers nothing for about
    twenty seconds after the first handshake. *)
Record tardy := Tardy { ty_queue : list (list Z); ty_clock : nat }.
Definition tardy_header (slot : Z) : list Z :=
  if slot =? 0 then slice 0 Apps.HDR_SIZE Apps.beam else zrep 64 0xff.
Definition tardy_send (d : tardy) (f : list Z) : tardy :=
  match Frames.take f with
  | Some (Some (t, data), _) =>
      let slot := nth 0 data 0 in
      Tardy (ty_queue d ++ [if t =? MSG_APP_INFO then frame MSG_APP_INFO_ACK ([slot; 0] ++ tardy_header slot)
                            else frame MSG_SESSION_ACK (zrep 16 65)]) (ty_clock d)
  | _ => d
  end.
Definition asleep (clock : nat) : bool := (1 <=? clock)%nat && (clock <? 39)%nat.
Definition tardy_poll (d : tardy) : tardy * list Z :=
  if asleep (ty_clock d) then (Tardy (ty_queue d) (S (ty_clock d)), [])
  else match ty_queue d with
       | [] => (Tardy [] (S (ty_clock d)), [])
       | c :: queue => (Tardy queue (S (ty_clock d)), c)
       end.
Definition tardy_link : Link tardy := {| link_send := tardy_send; link_poll := tardy_poll |}.

(** A slow answer is reported under the next slot.  An answer names its slot,
    but the handler replaces that by the slot it asked about, so once a
    command has been sent again after unanswered handshakes, every row holds
    the slot before it: the app of slot 0 is shown as the app of slot 1. *)
Theorem slow_answer_under_next_slot :
  let '(_, rows, stopped) := @ask_radio tardy tardy_link (fun ms => Z.to_nat (ms / 500)) (Radio 5 [] (Tardy [] 0)) in
  stopped = None /\
  take 3 rows = [(0, Apps.ReplyApp 0 0 Apps.beam_info); (1, Apps.ReplyApp 0 0 Apps.beam_info);
                 (2, Apps.ReplyMagic 1 0 [0xff; 0xff; 0xff; 0xff])].
Proof. vm_compute. split; reflexivity. Qed.

#[local] Existing Instance plain_runtime.

(** The simulated radio, about to lose three commands and five handshakes. *)
Definition asked_radio (flash : list Z) : sim := Sim flash None [] 3 5 true 2.

Lemma radio_confirms_install_witness :
  exists flash, Apps.install Apps.blank 3 Apps.beam false = Ok (flash, Apps.beam_info) /\
  exists w' d' rows,
    api_apps_radio (fun _ => 2%nat) cf0 w0 [false; true] 99 (asked_radio flash) here
      = (w', d', Ok (200, RadioSlots rows)) /\
    map fst rows = Apps.slot_numbers /\
    (3, Apps.ReplyApp 3 0 Apps.beam_info) ∈ rows.
Proof.
  destruct (Apps.beam_installs 3) as [flash E]; [split; vm_compute; congruence|].
  exists flash. split; [exact E|].
  destruct (radio_confirms_install cf0 (fun _ => 2%nat) w0 [false; true] 99 (asked_radio flash) here 4445
              Apps.blank 3 Apps.beam false Apps.beam_info) as (w' & d' & rows & H1 & H2 & H3 & _ & _).
  - intros. apply le_n.
  - split; cbn; lia.
  - reflexivity.
  - vm_compute. reflexivity.
  - exact Apps.beam_wf.
  - exact E.
  - exists w', d', rows. exact (conj H1 (conj H2 H3)).
Defined.
