(* ===== verification/Server.v ===== *)
(** The server as a whole: the requests of [WebUI], the thread of [Stream],
    the emulator's own exits and the lines other threads log, in any order.
    [run_refines] says that every such run is, seen from each component, a run
    of that component's own machine: the supervisor's steps, the pump's
    actions, lines added to the log; and which files it may change.  What the
    components' files prove of their machines therefore holds of the server. *)
From S2P Require Import Slots Apps.
From S2P Require Import Prelude Text Image Logs Lcd Stream Supervisor Files Views WebUI.
Open Scope Z_scope.
Set Warnings "-register-all".

(** ** What the server relies on *)

(** The supervisor's machine: a preorder that every operation the handlers
    call stays in. *)
Class PowerMachine (S : Type) {HP : PowerControl S} := {
  pc_moves : relation S;
  pc_moves_pre :: PreOrder pc_moves;
  pc_on_moves : forall s env, env_ok env -> pc_moves s (pc_on s env).1;
  pc_off_moves : forall s, pc_moves s (pc_off s).1;
  pc_reset_moves : forall s env, env_ok env -> pc_moves s (pc_reset s env).1;
  pc_pause_moves : forall s, pc_moves s (pc_pause s).1;
  pc_resume_moves : forall s, pc_moves s (pc_resume s).1;
  pc_on_file : forall s env, flash_file (pc_on s env).1 = flash_file s \/ flash_file (pc_on s env).1 = None \/
    exists args, oe_launch env = Ok args /\ pc_cmdline (pc_on s env).1 = Some args;
  pc_off_file : forall s, flash_file (pc_off s).1 = None \/ flash_file (pc_off s).1 = flash_file s;
  pc_reset_file : forall s env, flash_file (pc_reset s env).1 = flash_file s \/ flash_file (pc_reset s env).1 = None \/
    exists args, oe_launch env = Ok args /\ pc_cmdline (pc_reset s env).1 = Some args;
  pc_pause_file : forall s, flash_file (pc_pause s).1 = flash_file s;
  pc_resume_file : forall s, flash_file (pc_resume s).1 = flash_file s
}.

(** ** Requests *)

Inductive req :=
| QFirmware (q : request) (h : host)
| QSlotWrite (slot : Z) (q : request) (h : host)
| QSlotErase (slot : Z) (ip : list Z) (h : host)
| QAppInstall (slot : Z) (q : request) (h : host)
| QAppErase (slot : Z) (ip : list Z) (h : host)
| QFlash (q : request) (h : host)
| QPower (action : list Z) (b : power_body) (ip : list Z) (h : host)
| QPtt (held : option bool) (ip : list Z)
| QReleaseAll
| QStatus (file : list Z -> option (list Z)) (query : result (list (list Z * list Z)))
    (speaker : result bool) (panel : result (bool * Z * bool)) (t : nat)
| QKey (b : key_body) (during : list req).   (* what is served during its hold *)

(** [Popen] and [connect] fail as the host's do. *)
Definition req_host (q : req) : option host :=
  match q with
  | QFirmware _ h | QSlotWrite _ _ h | QSlotErase _ _ h | QAppInstall _ _ h | QAppErase _ _ h
  | QFlash _ h | QPower _ _ _ h => Some h
  | _ => None
  end.
(** What an emulator leaves in its flash image is one of these contents. *)
Definition leaves (contents : list (list Z)) (h : host) : Prop :=
  forall data, ho_left h = Some data -> data ∈ contents.
Fixpoint req_ok (contents : list (list Z)) (q : req) : Prop :=
  match req_host q with Some h => host_ok h /\ leaves contents h | None => True end /\
  match q with QKey _ during => foldr (fun q P => req_ok contents q /\ P) True during | _ => True end.

(** Induction over requests and the requests served during them. *)
Section req_induction.
Context (P : req -> Prop).
Hypothesis Hkey : forall b during, Forall P during -> P (QKey b during).
Hypothesis Hother : forall q, match q with QKey _ _ => False | _ => True end -> P q.
Fixpoint req_all (q : req) : P q :=
  match q with
  | QKey b during =>
      Hkey b during ((fix go l : Forall P l :=
        match l with [] => Forall_nil_2 P | q :: l => Forall_cons_2 P q l (req_all q) (go l) end) during)
  | q' => Hother q' I
  end.
End req_induction.

Section server.
Context {HU : Unicode} {HR : Runtime} {S : Type} {HP : PowerControl S} {HM : PowerMachine S} (cf : config).
Context (guests : nat -> Lcd.guest) (encode : list (list Z) -> result (list Z)).

Fixpoint serve (w : web S) (q : req) : web S :=
  match q with
  | QFirmware q h => (api_firmware_upload cf w q h).1
  | QSlotWrite slot q h => (api_slot_write cf w slot q h).1
  | QSlotErase slot ip h => (api_slot_erase cf w slot ip h).1
  | QAppInstall slot q h => (api_app_install cf w slot q h).1
  | QAppErase slot ip h => (api_app_erase cf w slot ip h).1
  | QFlash q h => (api_flash_upload cf w q h).1
  | QPower action b ip h => (api_power cf w action b ip h).1
  | QPtt held ip => (api_ptt w held ip).1
  | QReleaseAll => (api_release_all w).1
  | QStatus file query speaker panel t => (get_status cf guests file query speaker panel w t).1.1
  | QKey b during => (api_key w b (fun w => foldl serve w during)).1
  end.

(** ** What a request may change *)

(** The pump's actions that come from requests. *)
Definition request_action (a : action) : Prop :=
  match a with ARebind _ | ASetBuffers _ _ => True | _ => False end.

Definition pump_moves (p p' : pump) : Prop :=
  exists acts, Forall request_action acts /\
    forall c t b, run guests encode (World p c t b) acts = World p' c t b.

Definition log_grows (lb lb' : log_buffer) : Prop := exists ls, lb' = foldl add lb ls.

#[export] Instance pump_moves_pre : PreOrder pump_moves.
Proof.
  split.
  - intros p. by exists [].
  - intros p1 p2 p3 (a1 & F1 & R1) (a2 & F2 & R2). exists (a1 ++ a2). split; [by apply Forall_app|].
    intros c t b. unfold run in *. by rewrite foldl_app, R1, R2.
Qed.
#[export] Instance log_grows_pre : PreOrder log_grows.
Proof.
  split.
  - intros lb. by exists [].
  - intros lb1 lb2 lb3 [l1 ->] [l2 ->]. exists (l1 ++ l2). by rewrite foldl_app.
Qed.

(** The entries of the upload directory: a name without a slash, and not the
    directory itself or its parent. *)
Definition plain_name (name : list Z) : Prop := (47 ∉ name) /\ (name ∉ [[]; [46]; [46; 46]]).
Definition entry (p : list Z) : Prop := exists name, plain_name name /\ p = upload_path cf name.

(** The supervisor's emulator keeps its flash where it did, or was launched
    with the image in use. *)
Definition same_file (w : web S) (s : S) : Prop :=
  flash_file s = flash_file (w_sup w) \/ flash_file s = None \/ flash_file s = Some (w_flash w).

(** A relation every change a handler makes is in, for hosts that keep to
    [hosts].  The handlers' lemmas are proved for any such relation. *)
Class Closed (R : relation (web S)) (hosts : host -> Prop) := {
  closed_pre :: PreOrder R;
  closed_log : forall w source text ip, R w (log w source text ip);
  closed_boot : forall w k, R w (set_boot w k);
  closed_image : forall w i, R w (set_image w i);
  closed_tell : forall w g, R w (tell w g);
  closed_flash : forall w p, entry p -> R w (set_flash w p);
  closed_sup : forall w s, pc_moves (w_sup w) s -> same_file w s -> R w (use_sup w s);
  closed_fs : forall w fs, (forall p, ~ entry p -> fs !! p = w_fs w !! p) -> R w (set_fs w fs);
  closed_back : forall w h, hosts h -> R w (write_back w (ho_left h))
}.

Section closed.
Context (R : relation (web S)) (hosts : host -> Prop) {HC : Closed R hosts}.

Lemma stays_off w h : hosts h -> R w (power_off_ w h).
Proof.
  intros Hh. unfold power_off_. etrans; [by apply (closed_back w h)|]. apply closed_sup; [apply pc_off_moves|].
  unfold same_file. destruct (pc_off_file (w_sup (write_back w (ho_left h)))); tauto.
Qed.
Lemma launch_file (w : web S) h s args :
  oe_launch (launch_env cf w h) = Ok args -> pc_cmdline s = Some args -> flash_file s = Some (w_flash w).
Proof.
  unfold launch_env, launch_args, flash_file. destruct (w_image w); cbn; [|done].
  destruct (ho_popen h); [done|]. intros [= <-] ->. done.
Qed.
Lemma stays_on w h : host_ok h -> R w (power_on_ cf w h).1.
Proof.
  intros Hh. unfold power_on_. pose proof (pc_on_moves (w_sup w) (launch_env cf w h) (host_env_ok cf w h Hh)) as Hm.
  pose proof (pc_on_file (w_sup w) (launch_env cf w h)) as Hf.
  destruct (pc_on _ _) as [s r]. apply closed_sup; [done|]. unfold same_file.
  destruct Hf as [?|[?|(args & Hl & Hc)]]; [tauto|tauto|]. do 2 right. by eapply launch_file.
Qed.

Lemma plain_basename s : 47 ∉ basename s.
Proof.
  unfold basename. enough (forall acc, 47 ∉ acc -> 47 ∉ foldl (fun acc c => if c =? 47 then [] else acc ++ [c]) acc s) as H
    by apply H, not_elem_of_nil.
  induction s as [|c s IH]; intros acc Ha; [done|]. cbn [foldl]. apply IH. destruct (Z.eqb_spec c 47) as [->|Hc].
  - apply not_elem_of_nil.
  - rewrite elem_of_app, list_elem_of_singleton. by intros [|].
Qed.
Lemma plain_upload q d : 47 ∉ upload_name q d.
Proof. apply plain_basename. Qed.
Lemma plain_firmware q : 47 ∉ firmware_name q.
Proof.
  unfold firmware_name. pose proof (plain_upload q (lit "firmware.bin")) as Hp.
  destruct (upload_name _ _); [|exact Hp]. apply (bool_decide_unpack _). vm_compute. exact I.
Qed.

Lemma stays_save w name data w' : 47 ∉ name -> save_upload cf w name data = Ok w' -> R w w' /\ entry (upload_path cf name).
Proof.
  intros Hn Hs. assert (entry (upload_path cf name)) as He.
  { exists name. split; [|done]. split; [done|]. unfold save_upload in Hs.
    rewrite !elem_of_cons, elem_of_nil. repeat case_bool_decide; naive_solver. }
  split; [|exact He]. apply save_upload_inv in Hs as ->. apply closed_fs. intros p Hp.
  rewrite exec_write, decide_False; [done|]. by intros ->.
Qed.

Lemma entry_work : entry (work_path cf).
Proof. exists (lit "flash-current.img"). split; [|done]. split; apply (bool_decide_unpack _); vm_compute; exact I. Qed.
Lemma entry_work_tmp : entry (tmp_of (work_path cf)).
Proof.
  exists (lit "flash-current.img.tmp"). split.
  - split; apply (bool_decide_unpack _); vm_compute; exact I.
  - unfold tmp_of, work_path, upload_path. by rewrite <- !app_assoc.
Qed.

Lemma stays_working_copy w w' : use_working_copy cf w = Ok w' -> R w w'.
Proof.
  unfold use_working_copy. case_bool_decide; [by intros [= <-]|].
  intros (data & _ & Heq)%bind_ok.
  assert (w' = set_flash (set_fs w (exec_all (w_fs w) (write_ops (work_path cf) data))) (work_path cf)) as ->
    by congruence. clear Heq. etrans; [|apply closed_flash, entry_work]. apply closed_fs.
  intros p Hp. rewrite exec_write, decide_False; [done|]. intros ->. apply Hp, entry_work.
Qed.

(** The four edits of the flash image keep to the working copy and its
    temporary file. *)
Definition edits_work {A} (edit : fsys -> list Z -> fsys * result A) : Prop :=
  forall fs p, ~ entry p -> (edit fs (work_path cf)).1 !! p = fs !! p.

Lemma save_image_other (fs : fsys) buf p : ~ entry p -> save_image fs (work_path cf) buf !! p = fs !! p.
Proof.
  intros Hp. rewrite save_image_lookup, !decide_False; [done|intros ->; apply Hp..];
    [apply entry_work_tmp|apply entry_work].
Qed.
Lemma write_other (fs : fsys) data p : ~ entry p -> exec_all fs (write_ops (work_path cf) data) !! p = fs !! p.
Proof. intros Hp. rewrite exec_write, decide_False; [done|]. intros ->. apply Hp, entry_work. Qed.

Lemma slot_write_work slot data name version b :
  edits_work (fun fs p => write_slot_file fs p slot data name version b).
Proof.
  intros fs p Hp. unfold write_slot_file. destruct (_ ≫= _); [|done]. by apply save_image_other.
Qed.
Lemma slot_erase_work slot : edits_work (fun fs p => erase_slot_file fs p slot).
Proof.
  intros fs p Hp. unfold erase_slot_file. destruct (_ ≫= _); [|done]. by apply save_image_other.
Qed.
Lemma install_work slot blob force : edits_work (fun fs p => install_file fs p slot blob force).
Proof.
  intros fs p Hp. unfold install_file. destruct (_ ≫= _) as [[image i]|]; [|done]. by apply write_other.
Qed.
Lemma erase_work slot : edits_work (fun fs p => erase_file fs p slot).
Proof.
  intros fs p Hp. unfold erase_file. destruct (_ ≫= _) as [[image b]|]; [|done]. by apply write_other.
Qed.

Lemma stays_edit {A} (w : web S) (h : host) (edit : fsys -> list Z -> fsys * result A) :
  host_ok h -> hosts h -> edits_work edit -> R w (_edit_flash cf w h edit).1.
Proof.
  intros Hh Hl He. unfold _edit_flash. destruct (negb (cf_flash cf)); [done|].
  set (w0 := if pc_running (w_sup w) then power_off_ w h else w).
  assert (R w w0) as H0 by (unfold w0; destruct (pc_running _); [by apply stays_off|done]).
  clearbody w0. destruct (use_working_copy cf w0) as [w1|e] eqn:E1; [|exact H0].
  apply stays_working_copy in E1. pose proof (He (w_fs w1)) as He1. destruct (edit (w_fs w1) (work_path cf)) as [fs r]. cbn [fst] in He1.
  assert (R w (set_fs w1 fs)) as H2 by (etrans; [exact H0|]; etrans; [exact E1|]; by apply closed_fs).
  destruct r as [a|e]; [|exact H2]. destruct (pc_running (w_sup w)); [|exact H2].
  pose proof (stays_on (set_fs w1 fs) h Hh) as H3.
  destruct (power_on_ cf (set_fs w1 fs) h) as [w2 [b|e]]; by etrans.
Qed.

Lemma stays_answer {A} (w : web S) source failed ip (r : web S * result A) ok :
  R w r.1 -> (forall w' a, r = (w', Ok a) -> R w' (ok w' a).1) ->
  R w (answer_edit source failed ip r ok).1.
Proof.
  intros Hr Hok. destruct r as [w' [a|e]]; cbn in *; [by etrans; [exact Hr|by apply Hok]|].
  destruct (is_exception e); [|exact Hr]. etrans; [exact Hr|apply closed_log].
Qed.

(** Every handler. *)
Lemma stays_firmware w q h : host_ok h -> hosts h -> R w (api_firmware_upload cf w q h).1.
Proof.
  intros Hh Hl. unfold api_firmware_upload. fold (firmware_name q). destruct (negb _); [done|].
  pose proof (plain_firmware q) as Hn. set (name := firmware_name q) in *.
  case_bool_decide; [done|]. destruct (_ <? _); [done|].
  destruct (save_upload cf w name (q_data q)) as [w1|e] eqn:E1; [|done]. apply stays_save in E1 as [E1 _]; [|done].
  destruct (detect _ _) as [i|e]; [|by case_bool_decide].
  set (w2 := if pc_running (w_sup w1) then power_off_ w1 h else w1).
  assert (R w1 w2) as E2 by (unfold w2; destruct (pc_running _); [by apply stays_off|done]).
  set (w3 := log _ _ _ _). assert (R w w3) as E3.
  { etrans; [exact E1|]. etrans; [exact E2|]. etrans; [apply (closed_image _ (Some i))|]. apply closed_log. }
  destruct (pc_running (w_sup w1)); [|exact E3]. pose proof (stays_on w3 h Hh) as E4.
  destruct (power_on_ cf w3 h) as [w4 [b|e]]; cbn [fst] in E4; [by etrans|].
  destruct (is_exception e); cbn [fst]; [|by etrans]. etrans; [exact E3|]. etrans; [exact E4|apply closed_log].
Qed.

Lemma stays_slot_write w slot q h : host_ok h -> hosts h -> R w (api_slot_write cf w slot q h).1.
Proof.
  intros Hh Hl. unfold api_slot_write. destruct (negb _); [done|]. case_bool_decide; [done|].
  destruct (_ <? _); [done|]. apply stays_answer; [apply stays_edit; [done|done|apply slot_write_work]|].
  intros w' a _. apply closed_log.
Qed.
Lemma stays_slot_erase w slot ip h : host_ok h -> hosts h -> R w (api_slot_erase cf w slot ip h).1.
Proof.
  intros Hh Hl. unfold api_slot_erase. destruct (negb _); [done|].
  apply stays_answer; [apply stays_edit; [done|done|apply slot_erase_work]|].
  intros w' a _. apply closed_log.
Qed.
Lemma stays_app_install w slot q h : host_ok h -> hosts h -> R w (api_app_install cf w slot q h).1.
Proof.
  intros Hh Hl. unfold api_app_install. destruct (negb _); [done|]. case_bool_decide; [done|].
  destruct (_ <? _); [done|]. apply stays_answer; [apply stays_edit; [done|done|apply install_work]|].
  intros w' a _. apply closed_log.
Qed.
Lemma stays_app_erase w slot ip h : host_ok h -> hosts h -> R w (api_app_erase cf w slot ip h).1.
Proof.
  intros Hh Hl. unfold api_app_erase. destruct (negb _); [done|].
  apply stays_answer; [apply stays_edit; [done|done|apply erase_work]|].
  intros w' a _. apply closed_log.
Qed.

Lemma stays_flash_upload w q h : host_ok h -> hosts h -> R w (api_flash_upload cf w q h).1.
Proof.
  intros Hh Hl. unfold api_flash_upload. pose proof (plain_upload q (lit "flash.img")) as Hn.
  set (name := upload_name q _) in *. destruct (negb _); [done|].
  case_bool_decide; [done|]. destruct (_ <? _); [done|].
  set (w1 := if pc_running (w_sup w) then power_off_ w h else w).
  assert (R w w1) as E1 by (unfold w1; destruct (pc_running _); [by apply stays_off|done]).
  destruct (save_upload cf w1 name (q_data q)) as [w2|e] eqn:E2; [|exact E1].
  apply stays_save in E2 as [E2 He]; [|done].
  set (w3 := log _ _ _ _). assert (R w w3) as E3.
  { etrans; [exact E1|]. etrans; [exact E2|]. etrans; [by apply (closed_flash _ (upload_path cf name))|]. apply closed_log. }
  destruct (pc_running (w_sup w)); [|exact E3]. pose proof (stays_on w3 h Hh) as E4.
  destruct (power_on_ cf w3 h) as [w4 [b|e]]; by etrans.
Qed.

Lemma stays_dispatch w action h : host_ok h -> hosts h -> R w (dispatch cf w action h).1.
Proof.
  intros Hh Hl. unfold dispatch. repeat case_bool_decide.
  - by apply stays_on.
  - by apply stays_off.
  - pose proof (pc_reset_moves (w_sup w) (launch_env cf w h) (host_env_ok cf w h Hh)) as Hm.
    pose proof (pc_reset_file (w_sup w) (launch_env cf w h)) as Hf.
    destruct (pc_reset _ _). apply closed_sup; [done|]. unfold same_file.
    destruct Hf as [?|[?|(args & ? & Hc)]]; [tauto|tauto|]. do 2 right. by eapply launch_file.
  - pose proof (pc_pause_moves (w_sup w)). pose proof (pc_pause_file (w_sup w)). destruct (pc_pause _).
    apply closed_sup; [done|by left].
  - pose proof (pc_resume_moves (w_sup w)). pose proof (pc_resume_file (w_sup w)). destruct (pc_resume _).
    apply closed_sup; [done|by left].
Qed.

Lemma stays_boot_key w action ip : R w (log_boot_key cf w action ip).
Proof.
  unfold log_boot_key. destruct (bk_name _); [|done]. destruct (_ && _); [apply closed_log|done].
Qed.

Lemma stays_power w action b ip h :
  (forall w, R w (rebind w)) -> host_ok h -> hosts h -> R w (api_power cf w action b ip h).1.
Proof.
  intros Hre Hh Hl. unfold api_power. set (a := lower _). case_bool_decide; [done|]. destruct (negb _); [done|].
  destruct (_ && _); [done|]. destruct (boot_key_for _ _ _ _) as [k [e|]]; [apply closed_boot|].
  set (w1 := log _ _ _ _). assert (R w w1) as E1.
  { etrans; [apply (closed_boot _ k)|]. etrans; [apply stays_boot_key|]. apply closed_log. }
  pose proof (stays_dispatch w1 a h Hh Hl) as E2. destruct (dispatch cf w1 a h) as [w2 [r|e]]; cbn [fst] in E2.
  - etrans; [exact E1|]. etrans; [exact E2|apply Hre].
  - destruct (is_exception e); cbn [fst]; [|by etrans]. etrans; [exact E1|]. etrans; [exact E2|].
    etrans; [apply closed_log|apply Hre].
Qed.

Lemma stays_set_press w v w' : set_press w v = Ok w' -> R w w'.
Proof. intros [-> _]%set_press_ok. apply closed_tell. Qed.
Lemma stays_set_ptt w b w' : set_ptt w b = Ok w' -> R w w'.
Proof.
  unfold set_ptt. destruct (pc_client _); [|done]. destruct (pc_answers _); [|done]. intros [= <-].
  apply (closed_tell w (GPtt b)).
Qed.

Lemma stays_ptt w held ip : R w (api_ptt w held ip).1.
Proof.
  unfold api_ptt. destruct held as [b|]; [|done]. destruct (set_ptt w b) as [w1|e] eqn:E.
  - etrans; [by eapply stays_set_ptt|apply closed_log].
  - case_bool_decide; [apply closed_log|done].
Qed.
Lemma stays_release w : R w (api_release_all w).1.
Proof.
  unfold api_release_all. destruct (set_press w []) as [w1|e] eqn:E; [|by case_bool_decide].
  apply stays_set_press in E. destruct (set_ptt w1 false) as [w2|e] eqn:E2.
  - etrans; [exact E|by eapply stays_set_ptt].
  - by case_bool_decide.
Qed.

Lemma stays_press w key action hold ip others :
  (forall w, R w (others w)) -> R w (press w key action hold ip others).1.
Proof.
  intros Ho. unfold press.
  assert (forall text v, let w1 := log w (lit "key") text ip in
    R w (match set_press w1 v with Ok w => (w, @None exn) | Raise e => (w1, Some e) end).1) as H1.
  { intros text v w1. destruct (set_press w1 v) as [w2|e] eqn:E; [|apply closed_log].
    etrans; [apply closed_log|]. by eapply stays_set_press. }
  case_bool_decide; [apply H1|]. case_bool_decide; [apply H1|].
  set (w1 := log _ _ _ _). destruct (set_press w1 key) as [w2|e] eqn:E; [|apply closed_log].
  apply stays_set_press in E. set (w3 := others _). assert (R w w3) as E3.
  { etrans; [apply closed_log|]. etrans; [exact E|]. etrans; [apply (closed_tell _ (GSleep hold))|]. apply Ho. }
  destruct (set_press w3 []) as [w4|e] eqn:E4; [|exact E3]. etrans; [exact E3|]. by eapply stays_set_press.
Qed.

Lemma stays_key w b others : (forall w, R w (others w)) -> R w (api_key w b others).1.
Proof.
  intros Ho. unfold api_key. destruct (negb _); [apply closed_log|]. case_bool_decide; [done|].
  destruct (hold_of _) as [hold|]; [|done].
  pose proof (stays_press w (normalise (kb_key b)) (lower (strip (or_else (kb_action b) (lit "tap")))) hold
    (kb_ip b) others Ho) as Hp.
  destruct (press _ _ _ _ _ _) as [w1 [e|]]; [|exact Hp].
  case_bool_decide; [|exact Hp]. etrans; [exact Hp|apply closed_log].
Qed.

End closed.

(** ** Two such relations *)

(** [f0] is the flash image the server was pointed at, [left] what emulators
    leave in theirs. *)
Context (f0 : list Z) (left : list (list Z)).

(** The flash images in play: that one, and entries of the upload directory. *)
Definition images_ok (w : web S) : Prop :=
  (w_flash w = f0 \/ entry (w_flash w)) /\ forall p, flash_file (w_sup w) = Some p -> p = f0 \/ entry p.
(** Outside the upload directory a file keeps its bytes, unless it is the
    flash image and an emulator wrote it. *)
Definition kept (w w' : web S) (p : list Z) : Prop :=
  w_fs w' !! p = w_fs w !! p \/ p = f0 /\ exists data, data ∈ left /\ w_fs w' !! p = Some (File data false).

Record evolves (w w' : web S) : Prop := Evolves {
  ev_sup : pc_moves (w_sup w) (w_sup w');
  ev_files : images_ok w -> images_ok w' /\ forall p, ~ entry p -> kept w w' p;
  ev_log : log_grows (w_log w) (w_log w');
  ev_pump : pump_moves (w_pump w) (w_pump w')
}.

#[export] Instance evolves_pre : PreOrder evolves.
Proof.
  split.
  - intros w. split; try done. intros Hi. split; [done|]. intros p _. by left.
  - intros w1 w2 w3 [S1 F1 G1 P1] [S2 F2 G2 P2]. split; [by etrans| |by etrans|by etrans].
    intros Hi. destruct (F1 Hi) as [Hi2 K1]. destruct (F2 Hi2) as [Hi3 K2]. split; [done|]. intros p Hp.
    unfold kept. destruct (K2 p Hp) as [->|K]; [exact (K1 p Hp)|by right].
Qed.

(** A change of neither files, nor the image in use, nor the emulator. *)
Lemma evolves_view w w' :
  w_sup w' = w_sup w -> w_fs w' = w_fs w -> w_flash w' = w_flash w -> log_grows (w_log w) (w_log w') ->
  pump_moves (w_pump w) (w_pump w') -> evolves w w'.
Proof.
  intros Es Ef Ew Hl Hp. split; [by rewrite Es| |done|done]. unfold images_ok, kept. rewrite Es, Ef, Ew.
  intros Hi. split; [done|]. intros p _. by left.
Qed.
Lemma evolves_log w source text ip : evolves w (log w source text ip).
Proof.
  apply evolves_view; try done. by exists [Line (rt_now (cursor (w_log w) + 1)) (Some ip) source text].
Qed.
Lemma evolves_rebind w : evolves w (rebind w).
Proof. apply evolves_view; try done. exists [ARebind (pc_client (w_sup w))]. by split; [repeat constructor|]. Qed.
Lemma evolves_set_boot w k : evolves w (set_boot w k).
Proof. by apply evolves_view. Qed.
Lemma evolves_set_image w i : evolves w (set_image w i).
Proof. by apply evolves_view. Qed.
Lemma evolves_tell w g : evolves w (tell w g).
Proof. by apply evolves_view. Qed.
Lemma evolves_set_flash w p : entry p -> evolves w (set_flash w p).
Proof.
  intros Hp. split; try done. intros [_ Hf]. split; [|by left]. split; [by right|exact Hf].
Qed.
Lemma evolves_back w h : leaves left h -> evolves w (write_back w (ho_left h)).
Proof.
  intros Hl. destruct (write_back_facts w (ho_left h)) as (Es & Ew & _ & _ & Ev & Hfs). split.
  - by rewrite Es.
  - unfold images_ok at 2. rewrite Es, Ew. intros [Hw Hf]. split; [done|]. intros p Hp. unfold kept.
    destruct (decide (flash_file (w_sup w) = Some p)) as [E|E]; [|left; by apply Hfs].
    destruct (Hf p E) as [->|]; [|done]. unfold write_back. rewrite E.
    destruct (ho_left h) as [data|] eqn:Ed; [|by left]. right. split; [done|]. exists data.
    split; [by apply Hl|]. cbn. by rewrite lookup_insert_eq.
  - unfold w_log. by rewrite Ev.
  - unfold w_pump. by rewrite Ev.
Qed.

Lemma notes_view v texts :
  let v' := foldl (fun v text => log_ v (lit "power") text None) v texts in
  vw_pump v' = vw_pump v /\ log_grows (vw_log v) (vw_log v').
Proof.
  revert v. induction texts as [|x texts IH]; intros v; [done|]. cbn [foldl].
  destruct (IH (log_ v (lit "power") x None)) as [Hp Hl]. split; [by rewrite Hp|].
  etrans; [|exact Hl]. by exists [Line (rt_now (cursor (vw_log v) + 1)) None (lit "power") x].
Qed.
Lemma evolves_use_sup w s : pc_moves (w_sup w) s -> same_file w s -> evolves w (use_sup w s).
Proof.
  intros Hs Hf. destruct (notes_view (w_view w) (new_notes (w_sup w) s)) as [Hp Hl].
  split; [done| |exact Hl|].
  - intros [Hw Hi]. split; [|by left]. split; [exact Hw|]. cbn [w_sup use_sup set_view set_sup]. intros p Hfp.
    unfold same_file in Hf. rewrite Hfp in Hf. destruct Hf as [E|[E|E]]; [by apply Hi|done|]. by injection E as ->.
  - unfold w_pump, use_sup. cbn [set_view w_view]. by rewrite Hp.
Qed.
(** Changes to entries of the upload directory. *)
Lemma evolves_fs w fs : (forall p, ~ entry p -> fs !! p = w_fs w !! p) -> evolves w (set_fs w fs).
Proof. intros Hf. split; try done. intros Hi. split; [done|]. intros p Hp. left. by apply Hf. Qed.

#[export] Instance evolves_closed : Closed evolves (leaves left).
Proof.
  split; [apply _|apply evolves_log|apply evolves_set_boot|apply evolves_set_image|apply evolves_tell
         |apply evolves_set_flash|apply evolves_use_sup|apply evolves_fs|apply evolves_back].
Qed.

(** The picture and the emulator the pump is bound to stay. *)
Definition same_screen (w w' : web S) : Prop :=
  Stream.latest (w_pump w') = Stream.latest (w_pump w) /\
  gr_client <$> pm_grabber (w_pump w') = gr_client <$> pm_grabber (w_pump w).

Lemma same_screen_pump w w' : w_pump w' = w_pump w -> same_screen w w'.
Proof. unfold same_screen. by intros ->. Qed.

#[export] Instance same_screen_closed : Closed same_screen (fun _ => True).
Proof.
  split; try (intros; by apply same_screen_pump).
  - split; [done|]. intros w1 w2 w3 [E1 F1] [E2 F2]. unfold same_screen. by rewrite E2, F2.
  - intros w s _ _. apply same_screen_pump, (notes_view (w_view w) (new_notes (w_sup w) s)).
  - intros w h _. apply same_screen_pump. unfold w_pump.
    by destruct (write_back_facts w (ho_left h)) as (_ & _ & _ & _ & -> & _).
Qed.

(** What looking changes: the pump's buffers and the log. *)
Definition view_moves (v v' : view) : Prop :=
  pump_moves (vw_pump v) (vw_pump v') /\ log_grows (vw_log v) (vw_log v') /\
  Stream.latest (vw_pump v') = Stream.latest (vw_pump v) /\
  gr_client <$> pm_grabber (vw_pump v') = gr_client <$> pm_grabber (vw_pump v).

#[export] Instance view_moves_pre : PreOrder view_moves.
Proof.
  split; [by intros v|]. intros v1 v2 v3 (P1 & L1 & S1 & G1) (P2 & L2 & S2 & G2).
  split; [by etrans|]. split; [by etrans|]. by rewrite S2, G2.
Qed.

Lemma view_log v source text ip : view_moves v (log_ v source text ip).
Proof. split; [done|]. split; [|done]. by exists [Line (rt_now (cursor (vw_log v) + 1)) ip source text]. Qed.

Lemma view_asked {A} (r : result A) what v : view_moves v (asked r what v).1.
Proof. destruct r; [done|]. apply view_log. Qed.

Lemma view_found v i f s text :
  view_moves v (log_ (View (Some i) (set_buffers (vw_pump v) f s) (vw_log v)) (lit "qemu") text None).
Proof.
  etrans; [|apply view_log]. split; [exists [ASetBuffers f s]; by split; [repeat constructor|]|].
  split; [done|]. split; [done|]. cbn. unfold new_grabber. by destruct (pm_grabber (vw_pump v)).
Qed.
Lemma view_missing v i text :
  view_moves v (log_ (View (Some i) (vw_pump v) (vw_log v)) (lit "qemu") text None).
Proof. etrans; [|apply view_log]. by split. Qed.

Lemma view_buffers told client image v t : view_moves v (ensure_buffers told client image v t).1.1.
Proof.
  unfold ensure_buffers. destruct told as [[f s]|]; [done|]. destruct (vw_info v) as [i|]; [done|].
  destruct client as [g|]; [|done]. destruct (Buffers.discover (Some g) None image t) as [t' [b|e]].
  - destruct (Buffers.bf_frame b) as [f|], (Buffers.bf_status b) as [s|]; try apply view_missing.
    destruct (f =? 0); [apply view_missing|apply view_found].
  - destruct (is_exception e); [apply view_missing|done].
Qed.

Lemma status_moves file query speaker panel w t :
  exists v, (get_status cf guests file query speaker panel w t).1.1 = set_view w v /\ view_moves (w_view w) v.
Proof.
  unfold get_status. destruct (api_status _ _ _ _ _ _ _ _ _) as [[v t'] b] eqn:E.
  exists v. split; [done|].
  unfold api_status in E. destruct (guests <$> _) as [g|]; [|by injection E as <- <- <-].
    destruct query as [info|e]; [|by injection E as <- <- <-].
    pose proof (view_asked speaker (lit "speaker") (w_view w)) as V1.
    destruct (asked speaker _ _) as [v1 sp]. cbn [fst] in V1.
    pose proof (view_asked panel (lit "panel") v1) as V2. destruct (asked panel _ v1) as [v2 pn]. cbn [fst] in V2.
    pose proof (view_buffers (cf_told cf) (Some g) (file <$> slot_path (w_image w)) v2 t) as V3.
    destruct (ensure_buffers _ _ _ v2 t) as [[v3 t3] b3]. cbn [fst] in V3.
    injection E as <- <- <-. etrans; [exact V1|]. by etrans.
Qed.
Lemma evolves_status file query speaker panel w t :
  evolves w (get_status cf guests file query speaker panel w t).1.1.
Proof. destruct (status_moves file query speaker panel w t) as (v & -> & Hp & Hl & _). by apply evolves_view. Qed.

(** A request, with the requests served during it. *)
Lemma evolves_serve q : req_ok left q -> forall w, evolves w (serve w q).
Proof.
  induction q as [b during IH|q Hq] using req_all; intros Hok w; 
    [|destruct q; destruct Hok as [Hh _]; cbn [serve]; cbn [req_host] in Hh;
      try match type of Hh with _ /\ _ => destruct Hh as [Hh Hl] end].
  - destruct Hok as [_ Hok]. cbn [serve]. apply (stays_key evolves (leaves left)). clear w. induction IH as [|q during Hq IH1 IH2]; [done|].
    intros w. destruct Hok as [H1 H2]. cbn [foldl]. etrans; [by apply Hq|]. by apply IH2.
  - by apply (stays_firmware evolves (leaves left)).
  - by apply (stays_slot_write evolves (leaves left)).
  - by apply (stays_slot_erase evolves (leaves left)).
  - by apply (stays_app_install evolves (leaves left)).
  - by apply (stays_app_erase evolves (leaves left)).
  - by apply (stays_flash_upload evolves (leaves left)).
  - apply (stays_power evolves (leaves left)); [apply evolves_rebind|done|done].
  - apply (stays_ptt evolves (leaves left)).
  - apply (stays_release evolves (leaves left)).
  - apply evolves_status.
  - done.
Qed.

(** A request that is not a power action, nor is one served during it. *)
Fixpoint no_power (q : req) : Prop :=
  match q with
  | QPower _ _ _ _ => False
  | QKey _ during => foldr (fun q P => no_power q /\ P) True during
  | _ => True
  end.
Lemma screen_serve q : req_ok left q -> no_power q -> forall w, same_screen w (serve w q).
Proof.
  induction q as [b during IH|q Hq] using req_all; intros Hok Hn w;
    [|destruct q; destruct Hok as [Hh _]; cbn [serve]; cbn [req_host] in Hh;
      try match type of Hh with _ /\ _ => destruct Hh as [Hh _] end].
  - destruct Hok as [_ Hok]. cbn [serve]. apply (stays_key same_screen (fun _ => True)). clear w.
    cbn [no_power] in Hn. induction IH as [|q during Hq IH1 IH2]; [done|].
    intros w. destruct Hok as [H1 H2], Hn as [N1 N2]. cbn [foldl]. etrans; [by apply Hq|]. by apply IH2.
  - by apply (stays_firmware same_screen (fun _ => True)).
  - by apply (stays_slot_write same_screen (fun _ => True)).
  - by apply (stays_slot_erase same_screen (fun _ => True)).
  - by apply (stays_app_install same_screen (fun _ => True)).
  - by apply (stays_app_erase same_screen (fun _ => True)).
  - by apply (stays_flash_upload same_screen (fun _ => True)).
  - done.
  - apply (stays_ptt same_screen (fun _ => True)).
  - apply (stays_release same_screen (fun _ => True)).
  - destruct (status_moves file query speaker panel w t) as (v & -> & _ & _ & H). exact H.
  - done.
Qed.
End server.

(** ** The supervisor's machine *)

Lemma off_moves s : rtc Supervisor.step (Sys s []) (Sys (Supervisor.power_off s).1 []).
Proof.
  eapply rtc_l; [apply step_off_begin|]. unfold Supervisor.power_off.
  destruct (off_begin s) as [s1 [h|]]; cbn [fst snd option_list app]; [|apply rtc_refl].
  eapply rtc_l; [apply (step_off_end s1 [] h [])|apply rtc_refl].
Qed.

(** Where the supervisor's emulator keeps its flash. *)
Lemma forget_dead_file s : flash_file (forget_dead s) = flash_file s \/ flash_file (forget_dead s) = None.
Proof.
  unfold forget_dead. destruct (s_client s), (s_proc s), (poll s); try by left. by right.
Qed.
Lemma on_file s env :
  flash_file (Supervisor.power_on s env).1 = flash_file s \/ flash_file (Supervisor.power_on s env).1 = None \/
  exists args, oe_launch env = Ok args /\ pc_cmdline (Supervisor.power_on s env).1 = Some args.
Proof.
  unfold Supervisor.power_on. pose proof (forget_dead_file s) as Hf. destruct (s_client (forget_dead s)) as [c|]; [tauto|].
  destruct (oe_launch env) as [args|e]; [|tauto]. destruct (oe_connect env) as [u|e].
  - right; right. exists args. split; [done|]. cbn. unfold sup_cmdline. cbn. by rewrite lookup_insert_eq.
  - right; left. destruct (is_exception e); [|done]. by case_bool_decide.
Qed.
Lemma send_file s c : flash_file (send s c).1 = flash_file s.
Proof.
  unfold send, command. destruct (s_client s) as [pid|] eqn:E; [|done].
  destruct (s_procs s !! pid) as [p|] eqn:Ep; [|done]. destruct (_ && _); [|done].
  unfold flash_file. cbn. unfold sup_cmdline. cbn. rewrite E. cbn. rewrite lookup_insert_eq, Ep. by destruct c.
Qed.

#[export] Program Instance sup_machine : PowerMachine sup := {
  pc_moves s s' := rtc Supervisor.step (Sys s []) (Sys s' [])
}.
Next Obligation. split; [intros s; apply rtc_refl|intros s1 s2 s3 H1 H2; by etrans]. Qed.
Next Obligation. intros s env He. by apply rtc_once, step_on. Qed.
Next Obligation. intros s. apply off_moves. Qed.
Next Obligation. intros s env He. by apply rtc_once, step_reset. Qed.
Next Obligation. intros s. apply rtc_once, step_send. by left. Qed.
Next Obligation. intros s. apply rtc_once, step_send. by right. Qed.
Next Obligation. apply on_file. Qed.
Next Obligation.
  intros s. left. destruct (power_off_facts s) as [Hc _]. unfold flash_file.
  change (pc_cmdline (pc_off s).1) with (sup_cmdline (Supervisor.power_off s).1). unfold sup_cmdline. by rewrite Hc.
Qed.
Next Obligation.
  intros s env. change (pc_reset s env) with (Supervisor.reset s env). unfold Supervisor.reset.
  destruct (s_client s) eqn:E; [|apply on_file].
  left. pose proof (send_file s SystemReset) as Hf. by destruct (send s SystemReset) as [s' [b|e]].
Qed.
Next Obligation. intros s. apply send_file. Qed.
Next Obligation. intros s. apply send_file. Qed.

Lemma power_off_pids s : same_pids (s_procs s) (s_procs (Supervisor.power_off s).1).
Proof.
  unfold Supervisor.power_off, off_begin. destruct (s_client s) as [c|]; [|by intros ?].
  apply (off_end_procs (Sup None None (s_procs s) (s_log s)) (c, s_proc s)).
Qed.

(** A restart ends with a client that is another one. *)
Lemma restart_new_client s env b c :
  coherent s -> env_ok env -> s_client s = Some c ->
  (Supervisor.power_on (Supervisor.power_off s).1 env).2 = Ok b ->
  is_running (Supervisor.power_on (Supervisor.power_off s).1 env).1 = true /\
  exists c', s_client (Supervisor.power_on (Supervisor.power_off s).1 env).1 = Some c' /\ c' <> c.
Proof.
  intros Hs He Hc Hr. destruct (power_off_facts s) as [Hcl Hpr].
  assert (coherent (Supervisor.power_off s).1) as Hs1 by (split; intros pid; by rewrite ?Hcl, ?Hpr).
  pose proof (power_on_outcome _ env Hs1 He) as Ho. unfold on_outcome in Ho. rewrite Hr in Ho.
  destruct b.
  - destruct Ho as (pid & args & _ & Hn & Hps & Hp' & Hc' & _). split.
    + unfold is_running, poll. rewrite Hc', Hp', Hps, lookup_insert_eq. done.
    + exists pid. split; [done|]. intros ->. destruct Hs as [_ Hk]. apply Hk, power_off_pids in Hc.
      rewrite Hn in Hc. by destruct Hc.
  - destruct Ho as (_ & Hx & _). rewrite Hcl in Hx. by destruct Hx.
Qed.

Lemma upload_restarts {HU : Unicode} {HR : Runtime} (cf : config) (w : web sup) q h i mb c :
  coherent (w_sup w) -> host_ok h -> s_client (w_sup w) = Some c ->
  (api_firmware_upload cf w q h).2 = Ok (200, BFirmware i mb true) ->
  is_running (w_sup (api_firmware_upload cf w q h).1) = true /\
  exists c', s_client (w_sup (api_firmware_upload cf w q h).1) = Some c' /\ c' <> c.
Proof.
  intros Hs Hh Hc. unfold api_firmware_upload. fold (firmware_name q). destruct (negb _); [done|].
  case_bool_decide; [done|]. destruct (_ <? _); [done|].
  destruct (save_upload cf w _ _) as [w1|e] eqn:E1; [|done]. apply save_upload_inv in E1.
  assert (w_sup w1 = w_sup w) as Hs1 by by rewrite E1. clear E1.
  destruct (detect _ _) as [j|e]; [|by case_bool_decide].
  destruct (pc_running (w_sup w1)); [|done]. set (w3 := log _ _ _ _).
  unfold power_on_. pose proof (restart_new_client (w_sup w) (launch_env cf w3 h)) as Hn.
  assert (w_sup w3 = (Supervisor.power_off (w_sup w)).1) as Hw3.
  { cbn. destruct (write_back_facts w1 (ho_left h)) as (-> & _). by rewrite Hs1. }
  rewrite <- Hw3 in Hn.
  change (pc_on (w_sup w3)) with (Supervisor.power_on (w_sup w3)).
  destruct (Supervisor.power_on (w_sup w3) (launch_env cf w3 h)) as [s' [b|e]].
  - intros _. eapply Hn; [done|exact (host_env_ok cf w3 h Hh)|done|done].
  - by destruct (is_exception e).
Qed.

(** ** The machine *)

Record server := Server { sv_web : web sup; sv_pc : pc; sv_clock : nat }.

Inductive event :=
| EReq (q : req)                      (* a request is served *)
| EThread (a : action)                (* the pump's thread takes a step *)
| EExit (pid : nat) (code : Z)        (* an emulator ends on its own *)
| EFlash (data : list Z)              (* the emulator writes its flash back *)
| ELine (source text : list Z).       (* the stderr reader logs a line *)

Definition thread_action (a : action) : Prop :=
  match a with ATake | AGrab | APublish => True | _ => False end.
Definition event_ok (contents : list (list Z)) (e : event) : Prop :=
  match e with
  | EReq q => req_ok contents q
  | EThread a => thread_action a
  | EFlash data => data ∈ contents
  | _ => True
  end.

Section machine.
Context {HU : Unicode} {HR : Runtime} (cf : config).
Context (guests : nat -> Lcd.guest) (encode : list (list Z) -> result (list Z)).

(** [on_fallback], as [create_app] passes it. *)
Definition fallback_text (e : exn) : list Z :=
  lit "panel unavailable, drawing from guest RAM at " ++ address_text (default 0 (fst <$> cf_told cf))
  ++ lit ": " ++ str_exn e.

(** The pump's part of the server. *)
Definition pump_world (sv : server) : Stream.world :=
  World (w_pump (sv_web sv)) (sv_pc sv) (sv_clock sv) false.

Definition thread (sv : server) (a : action) : server :=
  let w := sv_web sv in
  let w' := Stream.step guests encode (pump_world sv) a in
  let told := drop (length (pm_fallbacks (w_pump w))) (pm_fallbacks (Stream.w_pump w')) in
  let v := View (vw_info (w_view w)) (Stream.w_pump w') (w_log w) in
  Server (set_view w (foldl (fun v e => log_ v (lit "qemu") (fallback_text e) None) v told))
    (w_pc w') (w_clock w').

Definition exit_process (w : web sup) (pid : nat) (code : Z) : web sup :=
  match s_procs (w_sup w) !! pid with
  | Some p => set_sup w (set_procs (w_sup w) (<[pid := exited p code]> (s_procs (w_sup w))))
  | None => w
  end.

Definition handle (sv : server) (e : event) : server :=
  match e with
  | EReq q => Server (serve cf guests (sv_web sv) q) (sv_pc sv) (sv_clock sv)
  | EThread a => thread sv a
  | EFlash data => Server (write_back (sv_web sv) (Some data)) (sv_pc sv) (sv_clock sv)
  | EExit pid code => Server (exit_process (sv_web sv) pid code) (sv_pc sv) (sv_clock sv)
  | ELine source text =>
      Server (set_view (sv_web sv) (log_ (w_view (sv_web sv)) source text None)) (sv_pc sv) (sv_clock sv)
  end.
Definition run_server (sv : server) (es : list event) : server := foldl handle sv es.

(** What any run changes of a server. *)
Section changes.
Context (f0 : list Z) (left : list (list Z)).

Record refines (sv sv' : server) : Prop := Refines {
  rf_sup : rtc Supervisor.step (Sys (w_sup (sv_web sv)) []) (Sys (w_sup (sv_web sv')) []);
  rf_pump : exists acts, Forall (fun a => a <> AStop) acts /\
    Stream.run guests encode (pump_world sv) acts = pump_world sv';
  rf_log : log_grows (w_log (sv_web sv)) (w_log (sv_web sv'));
  rf_files : images_ok cf f0 (sv_web sv) -> images_ok cf f0 (sv_web sv') /\
    forall p, ~ entry cf p -> kept f0 left (sv_web sv) (sv_web sv') p
}.

Lemma files_trans (w1 w2 w3 : web sup) :
  (images_ok cf f0 w1 -> images_ok cf f0 w2 /\ forall p, ~ entry cf p -> kept f0 left w1 w2 p) ->
  (images_ok cf f0 w2 -> images_ok cf f0 w3 /\ forall p, ~ entry cf p -> kept f0 left w2 w3 p) ->
  images_ok cf f0 w1 -> images_ok cf f0 w3 /\ forall p, ~ entry cf p -> kept f0 left w1 w3 p.
Proof.
  intros F1 F2 Hi. destruct (F1 Hi) as [Hi2 K1]. destruct (F2 Hi2) as [Hi3 K2]. split; [done|]. intros p Hp.
  unfold kept. destruct (K2 p Hp) as [->|K]; [exact (K1 p Hp)|by right].
Qed.
Lemma files_same (w w' : web sup) :
  w_fs w' = w_fs w -> w_flash w' = w_flash w -> flash_file (w_sup w') = flash_file (w_sup w) ->
  images_ok cf f0 w -> images_ok cf f0 w' /\ forall p, ~ entry cf p -> kept f0 left w w' p.
Proof. unfold images_ok, kept. intros -> -> ->. intros Hi. split; [done|]. intros p _. by left. Qed.

#[export] Instance refines_pre : PreOrder refines.
Proof.
  split.
  - intros sv. split; [apply rtc_refl|by exists []|done|by apply files_same].
  - intros s1 s2 s3 [S1 (a1 & A1 & P1) L1 F1] [S2 (a2 & A2 & P2) L2 F2]. split.
    + by etrans.
    + exists (a1 ++ a2). split; [by apply Forall_app|]. unfold Stream.run in *. by rewrite foldl_app, P1.
    + by etrans.
    + by apply files_trans with (sv_web s2).
Qed.
End changes.

Lemma stop_stays w a :
  a <> AStop -> w_stop (Stream.step guests encode w a) = w_stop w.
Proof.
  intros Ha. destruct a; cbn [Stream.step]; try done.
  - destruct (w_pc w), (pm_grabber (Stream.w_pump w)), (w_stop w) eqn:E; cbn; by rewrite ?E.
  - destruct (w_pc w); [done| |done]. by destruct (_grab _ _ _ _) as [[? ?] []].
  - by destruct (w_pc w).
Qed.

Lemma notes_log v (es : list exn) f :
  let v' := foldl (fun v e => log_ v (lit "qemu") (f e) None) v es in
  vw_pump v' = vw_pump v /\ log_grows (vw_log v) (vw_log v').
Proof.
  revert v. induction es as [|x es IH]; intros v; [done|]. cbn [foldl].
  destruct (IH (log_ v (lit "qemu") (f x) None)) as [Hp Hl]. split; [by rewrite Hp|].
  etrans; [|exact Hl]. by exists [Line (rt_now (cursor (vw_log v) + 1)) None (lit "qemu") (f x)].
Qed.

(** A step of the thread is a step of the pump's machine, and lines logged. *)
Lemma thread_world sv a :
  thread_action a ->
  pump_world (thread sv a) = Stream.step guests encode (pump_world sv) a /\
  log_grows (w_log (sv_web sv)) (w_log (sv_web (thread sv a))).
Proof.
  intros Ha. assert (a <> AStop) as Hs by (by intros ->).
  pose proof (stop_stays (pump_world sv) a Hs) as Hst. unfold thread.
  set (w' := Stream.step _ _ _ a) in *. set (told := drop _ _).
  destruct (notes_log (View (vw_info (w_view (sv_web sv))) (Stream.w_pump w') (w_log (sv_web sv))) told fallback_text)
    as [Hp Hl]. split; [|exact Hl]. transitivity (World (Stream.w_pump w') (w_pc w') (w_clock w') false).
  - unfold pump_world. cbn [sv_web sv_pc sv_clock]. f_equal. exact Hp.
  - change (w_stop w' = false) in Hst. clearbody w'. destruct w'. cbn in *. by rewrite Hst.
Qed.

Lemma thread_refines f0 left sv a : thread_action a -> refines f0 left sv (thread sv a).
Proof.
  intros Ha. destruct (thread_world sv a Ha) as [Hw Hl].
  split; [apply rtc_refl| |exact Hl|by apply files_same].
  exists [a]. split; [|exact (eq_sym Hw)]. repeat constructor. by intros ->.
Qed.

Lemma handle_refines f0 left sv e : event_ok left e -> refines f0 left sv (handle sv e).
Proof.
  intros He. destruct e as [q|a|pid code|data|source text]; cbn [handle].
  - destruct (evolves_serve cf guests encode f0 left q He (sv_web sv)) as [Es Ef El (acts & Ha & Hr)].
    split; cbn [sv_web]; try done. exists acts. split; [|apply Hr].
    eapply Forall_impl; [exact Ha|]. by intros [].
  - by apply thread_refines.
  - unfold exit_process. destruct (s_procs (w_sup (sv_web sv)) !! pid) as [p|] eqn:Hp; [|by destruct sv].
    split; cbn [sv_web]; [by apply rtc_once, step_exit|by exists []|done|].
    apply files_same; [done|done|]. unfold flash_file. cbn. unfold sup_cmdline. cbn.
    destruct (s_client _) as [c|]; [|done]. cbn. destruct (decide (c = pid)) as [->|Hne].
    + by rewrite lookup_insert_eq, Hp.
    + by rewrite lookup_insert_ne by congruence.
  - destruct (evolves_back cf guests encode f0 left (sv_web sv) (Host None false (Ok tt) [] (Some data)))
      as [Es Ef El _]; [by intros d [= <-]|]. cbn [ho_left] in *.
    split; cbn [sv_web]; [exact Es| |exact El|exact Ef]. exists []. split; [done|]. unfold pump_world. cbn [sv_web sv_pc sv_clock].
    unfold w_pump. by destruct (write_back_facts (sv_web sv) (Some data)) as (_ & _ & _ & _ & -> & _).
  - split; cbn [sv_web]; [apply rtc_refl|by exists []| |by apply files_same].
    by exists [Line (rt_now (cursor (w_log (sv_web sv)) + 1)) None source text].
Qed.

(** Every run of the server is, seen by each part, a run of that part's own
    machine: steps of the supervisor, actions of the pump, lines added to the
    log; and files change as [kept] says. *)
Lemma run_refines f0 left sv es : Forall (event_ok left) es -> refines f0 left sv (run_server sv es).
Proof.
  intros He. revert sv. unfold run_server. induction He as [|e es He Hes IH]; intros sv; [done|]. cbn [foldl].
  etrans; [by apply handle_refines|apply IH].
Qed.

(** A pump bound to a dead connection, with no picture on the way, keeps its
    picture through anything but a power action. *)
Definition no_power_event (e : event) : Prop := match e with EReq q => no_power q | _ => True end.

Lemma frozen_step left sv c e :
  event_ok left e -> no_power_event e -> bound_dead guests c (pump_world sv) ->
  bound_dead guests c (pump_world (handle sv e)) /\
  Stream.latest (w_pump (sv_web (handle sv e))) = Stream.latest (w_pump (sv_web sv)).
Proof.
  intros He Hn Hd. assert (forall w', same_screen (sv_web sv) w' ->
    bound_dead guests c (pump_world (Server w' (sv_pc sv) (sv_clock sv))) /\
    Stream.latest (w_pump w') = Stream.latest (w_pump (sv_web sv))) as Hsame.
  { intros w' [E1 E2]. split; [|exact E1]. destruct Hd as (Hc & Ht & Hpc). split; [by rewrite <- Hc|by split]. }
  destruct e as [q|a|pid code|data|source text]; cbn [handle].
  - apply Hsame. by apply (screen_serve cf guests encode left).
  - destruct (thread_world sv a He) as [Hw _].
    destruct (bound_dead_step guests encode c (pump_world sv) a He Hd) as [Hd' Hp]. rewrite <- Hw in Hd', Hp.
    split; [exact Hd'|exact Hp].
  - apply Hsame, same_screen_pump. unfold exit_process. by destruct (_ !! pid).
  - apply Hsame, same_screen_pump.
    destruct (write_back_facts (sv_web sv) (Some data)) as (_ & _ & _ & _ & E & _). exact (f_equal vw_pump E).
  - apply Hsame. by apply same_screen_pump.
Qed.

Lemma frozen_run left sv c es :
  Forall (event_ok left) es -> Forall no_power_event es -> bound_dead guests c (pump_world sv) ->
  gr_client <$> pm_grabber (w_pump (sv_web (run_server sv es))) = Some c /\
  Stream.latest (w_pump (sv_web (run_server sv es))) = Stream.latest (w_pump (sv_web sv)).
Proof.
  intros He. revert sv. unfold run_server. induction He as [|e es He Hes IH]; intros sv Hn Hd; [by destruct Hd|].
  apply Forall_cons in Hn as [Hn Hns]. destruct (frozen_step left sv c e He Hn Hd) as [Hd' Hl].
  cbn [foldl]. destruct (IH _ Hns Hd') as [H1 H2]. by rewrite H2.
Qed.

(** A server that was just started, with the emulator off. *)
Definition fresh_server (cap : nat) (fs : fsys) (image : image_slot) (flash : list Z) (fa sa : Z) : server :=
  Server (Web (sup_init ∅) fs image boot_key_init flash [] (View None (Stream.init None fa sa) (log_init cap)))
    Idle 0.


(** C34. A firmware upload freezes the screen.  An upload that restarts the
    emulator leaves the radio running on another client, but nothing binds the
    pump to it: the pump stays bound to the client of the process that was
    stopped.  If that connection is dead from the upload on, and the pump's
    thread had not already read a picture from it (it may have begun to), then
    whatever happens next - other requests of any kind, steps of the pump's
    thread, emulators ending or writing their flash, logged lines - the
    picture stays the old one, as long as no power action is requested. *)
Theorem upload_freezes_screen left sv q h c i mb es :
  coherent (w_sup (sv_web sv)) -> host_ok h ->
  match sv_pc sv with Idle => True | Took gr => gr_client gr = c | Read _ _ => False end ->
  s_client (w_sup (sv_web sv)) = Some c -> gr_client <$> pm_grabber (w_pump (sv_web sv)) = Some c ->
  (forall t, (sv_clock sv <= t)%nat -> guests c t = None) ->
  (api_firmware_upload cf (sv_web sv) q h).2 = Ok (200, BFirmware i mb true) ->
  Forall (event_ok left) es -> Forall no_power_event es ->
  let sv1 := handle sv (EReq (QFirmware q h)) in
  let sv' := run_server sv1 es in
  is_running (w_sup (sv_web sv1)) = true /\
  (exists c', s_client (w_sup (sv_web sv1)) = Some c' /\ c' <> c) /\
  gr_client <$> pm_grabber (w_pump (sv_web sv')) = Some c /\
  Stream.latest (w_pump (sv_web sv')) = Stream.latest (w_pump (sv_web sv)).
Proof.
  intros Hco Hh Hpc Hcl Hb Hd Hr He Hn. cbv zeta. cbn [handle serve]. set (sv1 := Server _ _ _).
  destruct (stays_firmware cf same_screen (fun _ => True) (sv_web sv) q h Hh I) as [E1 E2].
  assert (bound_dead guests c (pump_world sv1)) as Hbd by (split; [by etrans|by split]).
  destruct (frozen_run left sv1 c es He Hn Hbd) as [H1 H2].
  destruct (upload_restarts cf (sv_web sv) q h i mb c Hco Hh Hcl Hr) as [Hrun Hc'].
  split; [done|]. split; [done|]. split; [done|]. rewrite H2. exact E1.
Qed.
End machine.

(** ** A concrete server *)

#[local] Existing Instance ascii_tables.
#[local] Existing Instance plain_runtime.

(** The first emulator shows a screen for five commands; then its connection
    is dead, as is every other's. *)
Definition short_lived : nat -> Lcd.guest := fun c t =>
  if bool_decide (c = 0%nat) && bool_decide (t < 5)%nat
  then Some (Snapshot (Some (Panel (hex_text (zrep 1024 1)) false 0 true)) (fun _ => [])) else None.

Definition booted : server :=
  fresh_server 100 {[flash_img := File not_fw true; fw_path := File fw_image true]} (Some old_image) flash_img 0 0.
Definition on_request : event := EReq (QPower (lit "on") (PowerBody None HoldAbsent) here host0).
Definition showing : server :=
  run_server cf0 short_lived plain booted [on_request; EThread ATake; EThread AGrab; EThread APublish].

(** Off leaves the flash changed. *)
Definition off_request : event := EReq (QPower (lit "off") (PowerBody None HoldAbsent) here (host_left [4; 5])).


(** A status poll, a key press and the flash written back, and the thread. *)
Definition busy_events : list event :=
  [EThread ATake; EReq (QKey (KeyBody (Some (lit "MENU")) None HoldAbsent here) [QReleaseAll]); EThread AGrab;
   EFlash [4]; EThread APublish; ELine (lit "serial") (lit "hello"); EThread ATake].

Lemma upload_freezes_screen_witness :
  Stream.latest (w_pump (sv_web showing)) <> None /\
  let sv1 := handle cf0 short_lived plain showing (EReq (QFirmware (upload fw_image) host0)) in
  is_running (w_sup (sv_web sv1)) = true /\
  Stream.latest (w_pump (sv_web (run_server cf0 short_lived plain sv1 busy_events)))
    = Stream.latest (w_pump (sv_web showing)).
Proof.
  split; [vm_compute; discriminate|]. cbv zeta.
  assert (coherent (w_sup (sv_web showing))) as Hco.
  { refine (proj1 (pc_on_law (sup_init ∅) (launch_env cf0 (sv_web booted) host0) _ I)). split; intros pid; discriminate. }
  assert (forall t, (sv_clock showing <= t)%nat -> short_lived 0%nat t = None) as Hd.
  { assert (sv_clock showing = 5%nat) as -> by (vm_compute; reflexivity). intros t Ht. unfold short_lived.
    rewrite (bool_decide_eq_false_2 (t < 5)%nat) by lia. reflexivity. }
  assert (exists i mb, (api_firmware_upload cf0 (sv_web showing) (upload fw_image) host0).2
            = Ok (200, BFirmware i mb true)) as (i & mb & Hr) by (do 2 eexists; vm_compute; reflexivity).
  assert (Forall (event_ok [[4]]) busy_events /\ Forall no_power_event busy_events) as [He Hn]
    by (split; repeat constructor).
  pose proof (upload_freezes_screen cf0 short_lived plain [[4]] showing (upload fw_image) host0 0%nat i mb busy_events
    Hco (conj I I) ltac:(vm_compute; exact I) ltac:(vm_compute; reflexivity) ltac:(vm_compute; reflexivity)
    Hd Hr He Hn) as H.
  exact (conj (proj1 H) (proj2 (proj2 (proj2 H)))).
Defined.
