(* ===== verification/Setup.v ===== *)
(** Finding the pieces and starting the server: [src/tools/uvk5_testenv.py]
    (where a QEMU, a gdb and a firmware are looked for),
    [src/tools/fetch_firmware.py] (which puts a firmware there), and
    [_default_qemu], [_default_firmware], [upload_dir] and [main] of
    [src/tools/webui.py], up to the arguments argparse has parsed.  The network
    is an argument. *)
From S2P Require Import Slots Apps.
From S2P Require Import Prelude Text Sha256 Endpoint Paths Image Logs Lcd Stream Supervisor Files Views WebUI Server.
Open Scope Z_scope.
Set Warnings "-register-all".

(** ** The host *)

(** The environment, the files and directories, what [shutil.which] finds on
    PATH, and the checkout's own directory. *)
Record place := Place {
  pl_env : list Z -> option (list Z);
  pl_fs : fsys;
  pl_dirs : list (list Z);
  pl_which : list Z -> option (list Z);
  pl_root : list Z
}.

(** [os.path.exists]. *)
Definition exists_ (p : place) (path : list Z) : bool :=
  bool_decide (is_Some (pl_fs p !! path)) || bool_decide (path ∈ pl_dirs p).

(** [glob.glob(dir + "/*" + suffix)]: entries of the directory itself, hidden
    ones excluded. *)
Definition matches (dir suffix path : list Z) : bool :=
  let name := drop (length dir + 1) path in
  bool_decide (take (length dir + 1) path = dir ++ [SLASH]) && negb (bool_decide (SLASH ∈ name))
  && negb (bool_decide (take 1 name = [46]))
  && bool_decide (drop (length name - length suffix) name = suffix).
Definition entries_of (p : place) : list (list Z) := (map_to_list (pl_fs p)).*1 ++ pl_dirs p.
Definition glob (p : place) (dir suffix : list Z) : list (list Z) :=
  List.filter (matches dir suffix) (entries_of p).
(** ** What is looked for, and where *)

Definition FIRMWARE_DIR (p : place) : list Z := slash (slash (pl_root p) (lit "assets")) (lit "firmware").

(** The first variable of the list that names something that exists. *)
Fixpoint env_path (p : place) (vars : list (list Z)) : option (list Z) :=
  match vars with
  | [] => None
  | var :: vars =>
      match pl_env p var with
      | Some ((_ :: _) as value) => if exists_ p value then Some (path_str value) else env_path p vars
      | _ => env_path p vars
      end
  end.

(** The first name of the list that is on PATH. *)
Fixpoint on_path (p : place) (names : list (list Z)) : option (list Z) :=
  match names with
  | [] => None
  | name :: names => match pl_which p name with
                     | Some ((_ :: _) as found) => Some (path_str found)
                     | _ => on_path p names
                     end
  end.

Definition sibling (p : place) : list Z := child (child (parent (pl_root p)) (lit "qemu-7.2")) (lit "build").

Definition qemu (p : place) : option (list Z) :=
  match env_path p (map lit ["QEMU"; "UVK5_QEMU"]%string) with
  | Some q => Some q
  | None =>
      match on_path p [lit "qemu-system-arm"] with
      | Some q => Some q
      | None => List.find (exists_ p) (map (child (sibling p)) (map lit ["qemu-system-arm"; "qemu-system-arm.exe"]%string))
      end
  end.

Definition gdb (p : place) : option (list Z) :=
  match env_path p (map lit ["GDB"; "UVK5_GDB"]%string) with
  | Some g => Some g
  | None => on_path p (map lit ["gdb-multiarch"; "arm-none-eabi-gdb"]%string)
  end.

Definition FIRMWARE_VARS : list (list Z) := map lit ["ELF"; "UVK5_FIRMWARE"; "UVK5_MULTIBOOT_IMAGE"]%string.
Definition patterns (p : place) : list (list Z * list Z) :=
  [(FIRMWARE_DIR p, lit ".bin"); (FIRMWARE_DIR p, lit ".elf");
   (slash (pl_root p) (lit "work"), lit ".bin"); (slash (pl_root p) (lit "work"), lit ".elf")].

Fixpoint first_hit (p : place) (pats : list (list Z * list Z)) : option (list Z) :=
  match pats with
  | [] => None
  | (dir, suffix) :: pats => match sorted (glob p dir suffix) with
                             | hit :: _ => Some (path_str hit)
                             | [] => first_hit p pats
                             end
  end.

Definition firmware (p : place) : option (list Z) :=
  match env_path p FIRMWARE_VARS with
  | Some f => Some f
  | None => first_hit p (patterns p)
  end.

(** [missing]: the message for the first absent item. *)
Fixpoint missing (p : place) (items : list (option (list Z) * list Z * list Z)) : option (list Z) :=
  match items with
  | [] => None
  | (path, what, how) :: items =>
      match path with
      | Some ((_ :: _) as path) =>
          if exists_ p path then missing p items
          else Some (what ++ lit " is missing (" ++ path ++ lit "); " ++ how)
      | _ => Some (what ++ lit " is missing (not found); " ++ how)
      end
  end.

Definition skip (message : list Z) : list Z * Z := (lit "SKIP: " ++ message, 0).

(** [os.makedirs(d, exist_ok=True)]: the directory and what leads to it. *)
Definition leading (d : list Z) : list (list Z) :=
  List.filter (fun q => negb (bool_decide (q = [])))
    (map (fun n => take n d) (List.filter (fun n => bool_decide (d !! n = Some SLASH)) (seq 0 (length d)))).
Definition makedirs (p : place) (d : list Z) : result place :=
  if bool_decide (is_Some (pl_fs p !! d)) then raise OSError "File exists: %r" d
  else Ok (Place (pl_env p) (pl_fs p) (pl_dirs p ++ leading d ++ [d]) (pl_which p) (pl_root p)).

(** [open(path, "wb")], [fh.write(data)]. *)
Definition write_file (p : place) (path data : list Z) : result place :=
  if bool_decide (path ∈ pl_dirs p) then raise OSError "Is a directory: %r" path
  else Ok (Place (pl_env p) (exec_all (pl_fs p) (write_ops path data)) (pl_dirs p) (pl_which p) (pl_root p)).

(** ** Fetching a firmware *)

Section fetching.
(** [urlopen(url).read()]. *)
Context (net : list Z -> result (list Z)).

Definition BASE : list Z := lit "https://cdn.jsdelivr.net/gh/armel/uv-k1-k5v3-firmware-custom@main/".
Definition RELEASES : list (list Z * (list Z * list Z)) :=
  [(lit "fieldops-v6.0.0", (lit "archive/f4hwn.fieldops.v6.0.0.bin", lit "application image with the multi-system boot menu"));
   (lit "fusion-v6.0.0", (lit "archive/f4hwn.fusion.v6.0.0.bin", lit "application image with the multi-system boot menu"));
   (lit "fusion-v5.9.0", (lit "archive/f4hwn.fusion.v5.9.0.bin", lit "application image, no boot menu"))].
Definition release (name : list Z) : option (list Z * list Z) :=
  snd <$> List.find (fun r => bool_decide (r.1 = name)) RELEASES.

(** [fetch]: what the host becomes, what is printed, and the file's path. *)
Definition fetch (p : place) (name dest_dir : list Z) : place * list (list Z) * result (list Z) :=
  match release name with
  | None => (p, [], raise SystemExit "unknown release %r; --list shows what there is" name)
  | Some (path, _) =>
      match makedirs p dest_dir with
      | Raise e => (p, [], Raise e)
      | Ok p =>
          let out := slash dest_dir (basename path) in
          let url := BASE ++ path in
          let said := [lit "fetching " ++ url] in
          match net url with
          | Raise e => (p, said, Raise e)
          | Ok blob =>
              if bool_decide (blob = []) then (p, said, raise SystemExit "empty response from %s" url)
              else match write_file p out blob with
                   | Raise e => (p, said, Raise e)
                   | Ok p => (p, said ++ [lit "wrote " ++ out ++ lit " (" ++ decimal (zlen blob) ++ lit " bytes)";
                                          lit "sha256 " ++ sha256 blob], Ok out)
                   end
          end
      end
  end.

Fixpoint fetch_all (p : place) (names : list (list Z)) : place * list (list Z) * result unit :=
  match names with
  | [] => (p, [], Ok tt)
  | name :: names =>
      match fetch p name (FIRMWARE_DIR p) with
      | (p, said, Raise e) => (p, said, Raise e)
      | (p, said, Ok _) => let '(p, said', r) := fetch_all p names in (p, said ++ said', r)
      end
  end.

(** [main] of fetch_firmware.py, from the parsed arguments. *)
Definition fetch_names (all : bool) (names : list (list Z)) : list (list Z) :=
  if all then sorted (map fst RELEASES) else match names with [] => [lit "fieldops-v6.0.0"] | _ => names end.
Definition fetch_main (p : place) (list_ all : bool) (names : list (list Z)) : place * list (list Z) * result Z :=
  if list_ then
    (p, concat (map (fun n => match release n with
                              | Some (path, why) => [padded 18 n ++ [32] ++ padded 40 path ++ [32] ++ why]
                              | None => []
                              end) (sorted (map fst RELEASES))), Ok 0)
  else
    match fetch_all p (fetch_names all names) with
    | (p, said, Raise e) => (p, said, Raise e)
    | (p, said, Ok _) => (p, said ++ [[]; lit "tests look in " ++ FIRMWARE_DIR p
                                          ++ lit " now; UVK5_MULTIBOOT_IMAGE overrides the path"], Ok 0)
    end.
End fetching.

(** ** Starting the server *)

(** [upload_dir]. *)
Definition UPLOAD_DIR (p : place) : list Z := slash (slash (pl_root p) (lit "work")) (lit "firmware").
Definition upload_dir (p : place) : list Z := default (UPLOAD_DIR p) (pl_env p (lit "UVK5_UPLOAD_DIR")).

Definition _default_qemu (p : place) : list Z := default (lit "qemu-system-arm") (qemu p).
Definition _default_firmware (p : place) : option (list Z) := firmware p.

(** The arguments of [main], and what they are when the command line is
    empty. *)
Record opts := Opts {
  op_qmp : list Z; op_frame : option Z; op_status : option Z; op_attach : bool;
  op_qemu : list Z; op_elf : option (list Z); op_flash : list Z; op_serial : Z; op_gdb : Z
}.
Definition default_opts (p : place) : opts :=
  Opts (lit "/tmp/uvk5-qmp.sock") None None false (_default_qemu p) (_default_firmware p)
    (slash (slash (pl_root p) (lit "assets")) (lit "flash.img")) 4445 1234.

Section starting.
Context {HR : Runtime}.

(** [told_addresses], the [or 0], and the supervisor, slots and log that
    [main] hands to [create_app]. *)
Definition told (o : opts) : option (Z * Z) :=
  match op_frame o, op_status o with Some f, Some s => Some (f, s) | _, _ => None end.
Definition main_config (p : place) (o : opts) : config :=
  Config (op_qemu o) (op_qmp o) (op_gdb o) (Some (op_serial o)) (upload_dir p) true true true true (told o).

(** [os.path.expanduser] of an argument that may be [None]. *)
Definition expanduser (home : list Z) (p : option (list Z)) : result (list Z) :=
  match p with
  | None => raise TypeError "expected str, bytes or os.PathLike object, not NoneType" []
  | Some p => Ok (match p with 126 :: 47 :: r => home ++ [47] ++ r | [126] => home | _ => p end)
  end.

(** The image slot, and the line logged when there is no image. *)
Definition main_image (p : place) (home : list Z) (o : opts) : result (image_slot * list (list Z)) :=
  path ← expanduser home (op_elf o);
  match slot_set (contents (pl_fs p)) None (ArgPath path) with
  | Ok (s, _) => Ok (s, [])
  | Raise e => if bool_decide (exn_cls e = ImageError)
               then Ok (None, [lit "no firmware loaded yet: " ++ str_exn e]) else Raise e
  end.

(** [main] up to [app.run]: the server it starts.  [connect] is what
    connecting to the emulator somebody else started meets, [ps] the
    processes of the host. *)
Definition main (p : place) (home : list Z) (o : opts) (ps : procs) (connect : result nat)
    : result (config * server) :=
  '(image, lines) ← main_image p home o;
  s ← (if op_attach o then c ← connect; Ok (adopt (sup_init ps) c) else Ok (sup_init ps));
  let log := foldl (fun lb text => add lb (Line (rt_now (cursor lb + 1)) None (lit "firmware") text))
               (log_init 500) lines in
  let pump := Stream.init (s_client s) (default 0 (op_frame o)) (default 0 (op_status o)) in
  Ok (main_config p o, Server (Web s (pl_fs p) image boot_key_init (op_flash o) [] (View None pump log)) Idle 0).
End starting.

(** ** The search *)

Lemma elem_of_entries p q : q ∈ entries_of p <-> exists_ p q = true.
Proof.
  unfold entries_of, exists_. rewrite elem_of_app, orb_true_iff, !bool_decide_eq_true. apply or_iff_compat_r.
  rewrite list_elem_of_fmap. split.
  - intros ([q' f] & -> & Hf). apply elem_of_map_to_list in Hf. by exists f.
  - intros [f Hf]. exists (q, f). split; [done|]. by apply elem_of_map_to_list.
Qed.
Lemma elem_of_glob p dir suffix q :
  q ∈ glob p dir suffix <-> exists_ p q = true /\ matches dir suffix q = true.
Proof.
  unfold glob. rewrite list_elem_of_In, filter_In, <- list_elem_of_In, elem_of_entries. done.
Qed.

(** What a variable may name. *)
Definition usable (p : place) (var value : list Z) : Prop :=
  pl_env p var = Some value /\ value <> [] /\ exists_ p value = true.

Lemma env_path_spec p vars :
  match env_path p vars with
  | Some f => exists before var after value, vars = before ++ var :: after /\ usable p var value /\
      f = path_str value /\ forall v w, v ∈ before -> ~ usable p v w
  | None => forall v w, v ∈ vars -> ~ usable p v w
  end.
Proof.
  induction vars as [|var vars IH]; cbn [env_path]; [by intros v w []%not_elem_of_nil|].
  assert (forall r, (forall w, ~ usable p var w) ->
    match r with
    | Some f => exists before var after value, vars = before ++ var :: after /\ usable p var value /\
        f = path_str value /\ forall v w, v ∈ before -> ~ usable p v w
    | None => forall v w, v ∈ vars -> ~ usable p v w
    end ->
    match r with
    | Some f => exists before var' after value, var :: vars = before ++ var' :: after /\ usable p var' value /\
        f = path_str value /\ forall v w, v ∈ before -> ~ usable p v w
    | None => forall v w, v ∈ var :: vars -> ~ usable p v w
    end) as Hskip.
  { intros [f|] Hno.
    - intros (before & v & after & value & -> & Hu & Hf & Hb). exists (var :: before), v, after, value.
      split; [done|]. split; [done|]. split; [done|]. intros u w [->|Hu']%elem_of_cons; [apply Hno|by apply Hb].
    - intros Hn v w [->|Hv]%elem_of_cons; [apply Hno|by apply Hn]. }
  destruct (pl_env p var) as [[|c value]|] eqn:E.
  - apply Hskip; [|exact IH]. intros w (Hw & Hne & _). congruence.
  - destruct (exists_ p (c :: value)) eqn:Ee.
    + exists [], var, vars, (c :: value). split; [done|]. split; [done|]. split; [done|].
      by intros v w []%not_elem_of_nil.
    + apply Hskip; [|exact IH]. intros w (Hw & _ & He). congruence.
  - apply Hskip; [|exact IH]. intros w (Hw & _ & _). congruence.
Qed.

(** What a pattern may hit. *)
Definition hit_of (p : place) (pat : list Z * list Z) (q : list Z) : Prop :=
  exists_ p q = true /\ matches pat.1 pat.2 q = true.

Lemma first_hit_spec p pats :
  match first_hit p pats with
  | Some f => exists before pat after q, pats = before ++ pat :: after /\ hit_of p pat q /\ f = path_str q /\
      (forall q', hit_of p pat q' -> str_le q q' = true) /\ forall pat' q', pat' ∈ before -> ~ hit_of p pat' q'
  | None => forall pat q, pat ∈ pats -> ~ hit_of p pat q
  end.
Proof.
  induction pats as [|[dir suffix] pats IH]; cbn [first_hit]; [by intros pat q []%not_elem_of_nil|].
  destruct (sorted (glob p dir suffix)) as [|h t] eqn:E.
  - apply sorted_nil in E.
    assert (forall q, ~ hit_of p (dir, suffix) q) as Hno.
    { intros q Hq. apply elem_of_glob in Hq. cbn in Hq. rewrite E in Hq. by apply not_elem_of_nil in Hq. }
    destruct (first_hit p pats) as [f|].
    + destruct IH as (before & pat & after & q & -> & Hq & Hf & Hmin & Hb).
      exists ((dir, suffix) :: before), pat, after, q. split; [done|]. split; [done|]. split; [done|]. split; [done|].
      intros pat' q' [->|Hp]%elem_of_cons; [apply Hno|by apply Hb].
    + intros pat q [->|Hp]%elem_of_cons; [apply Hno|by apply IH].
  - apply sorted_head in E as [Hh Hmin]. exists [], (dir, suffix), pats, h.
    split; [done|]. split; [by apply elem_of_glob|]. split; [done|]. split; [|by intros ? ? []%not_elem_of_nil].
    intros q' Hq. apply Hmin. by apply elem_of_glob.
Qed.

(** Where a firmware is found.  [firmware] answers with the first of the
    three variables that names something that exists, a variable that is
    empty or stale being passed over; failing those, with the least name, by
    code points, of the first of the four patterns that has an entry; and with
    nothing only when neither a variable nor a pattern has anything. *)
Theorem firmware_search p :
  match firmware p with
  | Some f =>
      (exists before var after value, FIRMWARE_VARS = before ++ var :: after /\ usable p var value /\
         f = path_str value /\ forall v w, v ∈ before -> ~ usable p v w) \/
      ((forall v w, v ∈ FIRMWARE_VARS -> ~ usable p v w) /\
       exists before pat after q, patterns p = before ++ pat :: after /\ hit_of p pat q /\ f = path_str q /\
         (forall q', hit_of p pat q' -> str_le q q' = true) /\ forall pat' q', pat' ∈ before -> ~ hit_of p pat' q')
  | None => (forall v w, v ∈ FIRMWARE_VARS -> ~ usable p v w) /\ forall pat q, pat ∈ patterns p -> ~ hit_of p pat q
  end.
Proof.
  unfold firmware. pose proof (env_path_spec p FIRMWARE_VARS) as He.
  destruct (env_path p FIRMWARE_VARS) as [f|]; [by left|].
  pose proof (first_hit_spec p (patterns p)) as Hh. destruct (first_hit p (patterns p)) as [f|]; [by right|done].
Qed.

(** An entry of a directory. *)
Lemma matches_entry dir suffix name :
  matches dir suffix (dir ++ SLASH :: name) =
    negb (bool_decide (SLASH ∈ name)) && negb (bool_decide (take 1 name = [46]))
    && bool_decide (drop (length name - length suffix) name = suffix).
Proof.
  unfold matches. assert (dir ++ SLASH :: name = (dir ++ [SLASH]) ++ name) as -> by by rewrite <- app_assoc.
  assert (length dir + 1 = length (dir ++ [SLASH]))%nat as -> by by rewrite length_app.
  rewrite take_app_length, drop_app_length, bool_decide_eq_true_2 by done. done.
Qed.
Lemma matches_short dir suffix q : (length q <= length dir)%nat -> matches dir suffix q = false.
Proof.
  intros Hl. unfold matches. rewrite bool_decide_eq_false_2; [done|]. intros E. apply (f_equal length) in E.
  rewrite length_take, length_app in E. cbn in E. lia.
Qed.

(** ** A firmware fetched is a firmware found *)

Lemma leading_short d q : q ∈ leading d ++ [d] -> (length q <= length d)%nat.
Proof.
  rewrite elem_of_app, list_elem_of_singleton. intros [Hq| ->]; [|done]. unfold leading in Hq.
  apply list_elem_of_In, filter_In in Hq as [Hq _]. apply in_map_iff in Hq as (n & <- & _). rewrite length_take. lia.
Qed.

Lemma env_path_unset p vars : (forall v, v ∈ vars -> pl_env p v = None) -> env_path p vars = None.
Proof.
  induction vars as [|v vars IH]; intros Hn; [done|]. cbn [env_path]. rewrite Hn by by left.
  apply IH. intros u Hu. apply Hn. by right.
Qed.

Definition FIELDOPS : list Z := lit "f4hwn.fieldops.v6.0.0.bin".
Definition FIELDOPS_URL : list Z := BASE ++ lit "archive/f4hwn.fieldops.v6.0.0.bin".

Lemma firmware_dir_tidy p : tidy (pl_root p) -> tidy (FIRMWARE_DIR p).
Proof.
  intros Ht. unfold FIRMWARE_DIR. apply tidy_slash; [apply tidy_slash; [done|]|]; by apply part_ok_lit.
Qed.

Section fetched.
Context (net : list Z -> result (list Z)).
Context (p : place) (blob : list Z).
Hypothesis Hroot : tidy (pl_root p).
Hypothesis Hfile : pl_fs p !! FIRMWARE_DIR p = None.
Hypothesis Hnone : forall q, ~ hit_of p (FIRMWARE_DIR p, lit ".bin") q.
Hypothesis Hnet : net FIELDOPS_URL = Ok blob.
Hypothesis Hblob : blob <> [].

Definition fetched_path : list Z := slash (FIRMWARE_DIR p) FIELDOPS.
Definition fetched : place :=
  Place (pl_env p) (exec_all (pl_fs p) (write_ops fetched_path blob))
    (pl_dirs p ++ leading (FIRMWARE_DIR p) ++ [FIRMWARE_DIR p]) (pl_which p) (pl_root p).

Lemma fetched_matches : matches (FIRMWARE_DIR p) (lit ".bin") fetched_path = true.
Proof.
  unfold fetched_path. destruct (tidy_slash (FIRMWARE_DIR p) FIELDOPS) as [_ ->].
  - by apply firmware_dir_tidy.
  - by apply part_ok_lit.
  - rewrite matches_entry. reflexivity.
Qed.

Lemma fetch_fieldops :
  exists said, fetch net p (lit "fieldops-v6.0.0") (FIRMWARE_DIR p) = (fetched, said, Ok fetched_path).
Proof.
  unfold fetch. change (release (lit "fieldops-v6.0.0")) with
    (Some (lit "archive/f4hwn.fieldops.v6.0.0.bin", lit "application image with the multi-system boot menu")).
  cbv iota beta. unfold makedirs. rewrite Hfile, bool_decide_eq_false_2 by (by intros [? ?]). cbv zeta beta iota.
  change (basename (lit "archive/f4hwn.fieldops.v6.0.0.bin")) with FIELDOPS. fold FIELDOPS_URL fetched_path.
  rewrite Hnet, bool_decide_eq_false_2 by done. unfold write_file. cbn [pl_dirs pl_fs pl_env pl_which pl_root].
  rewrite bool_decide_eq_false_2; [by eexists|]. rewrite elem_of_app. intros [Hd|Hl%leading_short].
  - apply (Hnone fetched_path). split; [|exact fetched_matches]. cbn. unfold exists_.
    by rewrite (bool_decide_eq_true_2 _ Hd), orb_true_r.
  - pose proof fetched_matches as Hm. by rewrite matches_short in Hm.
Qed.

Lemma exists_fetched q :
  exists_ fetched q = true -> q = fetched_path \/ exists_ p q = true \/ (length q <= length (FIRMWARE_DIR p))%nat.
Proof.
  unfold exists_, fetched. cbn [pl_fs pl_dirs]. rewrite !orb_true_iff, !bool_decide_eq_true, exec_write.
  case_decide as E; [by left|]. intros [Hq|Hq]; [right; left; by left|]. apply elem_of_app in Hq as [Hq|Hq];
    [right; left; by right|right; right; by apply leading_short].
Qed.

Lemma firmware_fetched :
  (forall v, v ∈ FIRMWARE_VARS -> pl_env p v = None) -> firmware fetched = Some fetched_path.
Proof.
  intros Hv. unfold firmware. rewrite (env_path_unset fetched FIRMWARE_VARS Hv). unfold patterns.
  change (FIRMWARE_DIR fetched) with (FIRMWARE_DIR p). cbn [first_hit].
  assert (fetched_path ∈ glob fetched (FIRMWARE_DIR p) (lit ".bin")) as Hin.
  { apply elem_of_glob. split; [|exact fetched_matches]. unfold exists_, fetched. cbn [pl_fs].
    rewrite exec_write, decide_True, bool_decide_eq_true_2 by done. done. }
  destruct (sorted _) as [|h t] eqn:E.
  { apply sorted_nil in E. rewrite E in Hin. by apply not_elem_of_nil in Hin. }
  apply sorted_head in E as [Hh _]. apply elem_of_glob in Hh as [He Hm].
  assert (h = fetched_path) as ->.
  { apply exists_fetched in He as [->|[He|Hl]]; [done| |].
    - exfalso. by apply (Hnone h).
    - by rewrite matches_short in Hm. }
  f_equal. apply path_str_tidy, tidy_slash; [by apply firmware_dir_tidy|by apply part_ok_lit].
Qed.
End fetched.

(** ** Properties *)

Lemma slot_set_detected (fs : files) path data k sp reset :
  fs !! path = Some data -> bootable data k sp reset ->
  slot_set fs None (ArgPath path) =
    Ok (Some (ImageInfo path k (offset_of k) (zlen data) sp reset), ImageInfo path k (offset_of k) (zlen data) sp reset).
Proof.
  intros Hf Hb. unfold slot_set.
  assert (detect fs path = Ok (ImageInfo path k (offset_of k) (zlen data) sp reset)) as ->; [|done].
  apply detect_ok_iff. by exists data.
Qed.

(** C35. Fetch, then start.  In a checkout with no firmware and none of the
    three variables set, running fetch_firmware.py with no arguments on a
    network that answers with a bootable image succeeds; the firmware that is
    then found is that file, and the web server started with no arguments
    comes up with the emulator off, a dark screen, an empty log and that image
    in its slot, with the load offset its vector table calls for. *)
Theorem fetched_firmware_starts {HR : Runtime} net p blob k sp reset home ps connect :
  tidy (pl_root p) -> pl_fs p !! FIRMWARE_DIR p = None ->
  (forall q, ~ hit_of p (FIRMWARE_DIR p, lit ".bin") q) -> (forall v, v ∈ FIRMWARE_VARS -> pl_env p v = None) ->
  net FIELDOPS_URL = Ok blob -> bootable blob k sp reset ->
  let out := slash (FIRMWARE_DIR p) FIELDOPS in
  exists p' said cf sv,
    fetch_main net p false false [] = (p', said, Ok 0) /\ firmware p' = Some out /\
    main p' home (default_opts p') ps connect = Ok (cf, sv) /\
    w_image (sv_web sv) = Some (ImageInfo out k (offset_of k) (zlen blob) sp reset) /\
    w_fs (sv_web sv) !! out = Some (File blob false) /\
    is_running (w_sup (sv_web sv)) = false /\ Stream.latest (w_pump (sv_web sv)) = None /\
    lb_entries (w_log (sv_web sv)) = [].
Proof.
  intros Hroot Hfile Hnone Hv Hnet Hb. cbv zeta. fold (fetched_path p).
  assert (blob <> []) as Hne by (intros ->; by destruct Hb as [[] _]).
  destruct (fetch_fieldops net p blob Hroot Hfile Hnone Hnet Hne) as [said Hf].
  pose proof (firmware_fetched p blob Hroot Hnone Hv) as Hfw.
  assert (contents (pl_fs (fetched p blob)) !! fetched_path p = Some blob) as Hc.
  { unfold contents, fetched. cbn [pl_fs]. by rewrite lookup_fmap, exec_write, decide_True. }
  unfold fetch_main. cbn [fetch_names fetch_all]. rewrite Hf. eexists (fetched p blob), _, _, _.
  split; [reflexivity|]. split; [exact Hfw|]. unfold main, main_image.
  cbn [default_opts op_elf op_attach op_frame op_status]. unfold _default_firmware. rewrite Hfw.
  assert (expanduser home (Some (fetched_path p)) = Ok (fetched_path p)) as ->.
  { unfold expanduser. destruct (tidy_slash (FIRMWARE_DIR p) FIELDOPS) as [(parts & _ & _ & Hs) _];
      [by apply firmware_dir_tidy|by apply part_ok_lit|]. unfold fetched_path. by rewrite Hs. }
  cbn [mbind result_bind]. rewrite (slot_set_detected _ _ _ _ _ _ Hc Hb). split; [reflexivity|].
  cbn [sv_web w_image w_fs w_sup fetched pl_fs]. split; [done|].
  split; [by rewrite exec_write, decide_True|]. done.
Qed.

(** A server started without --attach is a fresh one, after the line about
    its image if it has none; so what [Server] proves of fresh servers holds
    of it. *)
Theorem started_server {HU : Unicode} {HR : Runtime} guests encode p home o ps connect cf sv :
  op_attach o = false -> main p home o ps connect = Ok (cf, sv) ->
  exists image lines, main_image p home o = Ok (image, lines) /\ (length lines <= 1)%nat /\
    sv = run_server cf guests encode
           (Server (Web (sup_init ps) (pl_fs p) image boot_key_init (op_flash o) []
              (View None (Stream.init None (default 0 (op_frame o)) (default 0 (op_status o))) (log_init 500))) Idle 0)
           (map (ELine (lit "firmware")) lines).
Proof.
  intros Ha. unfold main. rewrite Ha. destruct (main_image p home o) as [[image lines]|e] eqn:E; [|done].
  cbn [mbind result_bind]. intros [= _ <-]. exists image, lines. split; [done|].
  unfold main_image in E. destruct (expanduser home (op_elf o)) as [path|]; [|done]. cbn [mbind result_bind] in E.
  destruct (slot_set _ _ _) as [[s i]|e]; [injection E as <- <-; split; [cbn; lia|done]|].
  case_bool_decide; [|done]. injection E as <- <-. split; [cbn; lia|]. reflexivity.
Qed.

(** With no --elf and no firmware in the checkout, which the help text
    calls the normal case, the server does not start: expanding the missing
    path raises TypeError, and only ImageError is caught. *)
Theorem main_without_firmware_fails {HR : Runtime} p home ps connect :
  firmware p = None ->
  exists e, main p home (default_opts p) ps connect = Raise e /\ exn_cls e = TypeError.
Proof.
  intros Hf. unfold main, main_image, default_opts, _default_firmware. cbn [op_elf]. rewrite Hf. by eexists.
Qed.

(** Attached to an emulator started elsewhere, the server shows it and does
    not stop it: Off is refused and changes nothing. *)
Theorem attached_server_refuses_off {HU : Unicode} {HR : Runtime} p home o ps c cf sv b ip h :
  op_attach o = true -> main p home o ps (Ok c) = Ok (cf, sv) ->
  gr_client <$> pm_grabber (w_pump (sv_web sv)) = Some c /\
  exists answer, api_power cf (sv_web sv) (lit "off") b ip h = (sv_web sv, Ok (409, answer)).
Proof.
  intros Ha. unfold main. rewrite Ha. destruct (main_image p home o) as [[image lines]|e]; [|done].
  cbn [mbind result_bind]. intros [= <- <-]. split; [done|]. by apply api_power_off_refused.
Qed.

(** ** A concrete checkout *)

#[local] Existing Instance plain_runtime.

Definition checkout : place :=
  Place (fun _ => None) {[lit "/home/u/emu/assets/flash.img" := File not_fw true]} [lit "/home/u/emu"]
    (fun _ => None) (lit "/home/u/emu").

Lemma checkout_tidy : tidy (pl_root checkout).
Proof.
  exists (map lit ["home"; "u"; "emu"]%string). split; [done|]. split; [|reflexivity].
  apply Forall_map. repeat (constructor; [by apply part_ok_lit|]). constructor.
Qed.

Lemma fetched_firmware_starts_witness :
  exists p' said cf sv,
    fetch_main (fun _ => Ok fw_image) checkout false false [] = (p', said, Ok 0) /\
    main p' (lit "/home/u") (default_opts p') ∅ (Ok 0%nat) = Ok (cf, sv) /\
    w_image (sv_web sv) =
      Some (ImageInfo (lit "/home/u/emu/assets/firmware/f4hwn.fieldops.v6.0.0.bin") FullFlash 0 12
              (Some 0x20004000) (Some 0x08000005)).
Proof.
  destruct (fetched_firmware_starts (fun _ => Ok fw_image) checkout fw_image FullFlash
              (Some 0x20004000) (Some 0x08000005) (lit "/home/u") ∅ (Ok 0%nat))
    as (p' & said & cf & sv & H1 & _ & H2 & H3 & _).
  - exact checkout_tidy.
  - vm_compute. reflexivity.
  - intros q [He Hm]. apply elem_of_entries in He. unfold entries_of, checkout in He. cbn [pl_fs pl_dirs] in He.
    rewrite map_to_list_singleton in He. cbn in He.
    apply elem_of_cons in He as [->|[->|[]%not_elem_of_nil]%elem_of_cons]; vm_compute in Hm; discriminate Hm.
  - reflexivity.
  - reflexivity.
  - exact fw_bootable.
  - exists p', said, cf, sv. split; [exact H1|]. split; [exact H2|]. rewrite H3. vm_compute. reflexivity.
Defined.

(** A stale variable is passed over, a directory is not. *)
Example stale_variable :
  firmware (Place (fun v => if bool_decide (v = lit "ELF") then Some (lit "/gone.elf") else None)
              {[lit "/r/work/b.bin" := File [] true; lit "/r/work/a.bin" := File [] true]} [] (fun _ => None) (lit "/r"))
    = Some (lit "/r/work/a.bin").
Proof. vm_compute. reflexivity. Qed.
Example fetch_list :
  (fetch_main (fun _ => Ok []) checkout true false []).2 = Ok 0.
Proof. vm_compute. reflexivity. Qed.
Example path_str_forms : path_str (lit "//a/./b//c/") = lit "//a/b/c" /\ path_str (lit "./x") = lit "x".
Proof. split; vm_compute; reflexivity. Qed.
