(* ===== verification/DocCheck.v ===== *)
(** [src/tools/check_docs.py]: the documentation's claims checked against the
    tree, each check as it is written, its regular expressions those of
    [Regex].  What a path holds and whether it exists is an argument; the
    progress lines that are printed are not modelled, the failures are. *)
From S2P Require Import Prelude Text Regex Endpoint Paths.
From stdpp Require Import sorting.
Open Scope Z_scope.
Set Warnings "-register-all".

(** The checkout, the firmware tree, what [read_text] returns and what
    [exists] and [is_dir] answer. *)
Record world := World {
  w_sim : list Z; w_fw : list Z;
  w_text : list Z -> result (list Z);
  w_exists : list Z -> bool;
  w_isdir : list Z -> bool
}.

Definition PAIRS : list (list Z * list Z) :=
  [(lit "README.md", lit "README.zh-CN.md"); (lit "AGENTS.md", lit "AGENTS.zh-CN.md");
   (lit "docs/reverse-proxy.md", lit "docs/reverse-proxy.zh-CN.md")].
Definition DOCS : list (list Z) := concat (map (fun p => [p.1; p.2]) PAIRS).
Definition READMES : list (list Z) := map lit ["README.md"; "README.zh-CN.md"]%string.

Definition MEMORY_MAP : list (list Z * list Z) :=
  map (fun p => (lit p.1, lit p.2))
    [("PY32_FLASH_BASE", "0x08000000"); ("PY32_SRAM_BASE", "0x20000000"); ("PY32_RCC_BASE", "0x40021000");
     ("PY32_SPI1_BASE", "0x40013000"); ("PY32_SPI2_BASE", "0x40003800"); ("PY32_ADC1_BASE", "0x40012400");
     ("PY32_APP_OFFSET", "0x2800")]%string.

Definition LINE_REFS : list (list Z * Z * list Z) :=
  map (fun p => (lit p.1.1, p.1.2, lit p.2))
    [(("app/app.c"%string, 1697), "CheckRadioInterrupts"%string); (("app/app.c"%string, 910), "REG_0C"%string);
     (("app/app.c"%string, 1417), "REG_0C"%string); (("app/app.c"%string, 915), "uint16_t"%string);
     (("app/app.c"%string, 1027), "SquelchLost"%string); (("app/app.c"%string, 482), "StartListening"%string);
     (("app/app.c"%string, 1374), "BATTERY_SAVE"%string); (("app/app.c"%string, 1700), "TRANSMIT"%string);
     (("driver/gpio.h"%string, 31), "PTT"%string); (("driver/gpio.h"%string, 34), "AUDIO_PATH"%string);
     (("driver/bk4819.c"%string, 743), "SetFrequency"%string); (("settings.c"%string, 263), "KEY_1_SHORT"%string);
     (("settings.c"%string, 423), "mic_bar"%string); (("ui/main.c"%string, 2370), "Rx"%string);
     (("app/menu.c"%string, 2311), "Direction"%string); (("app/menu.c"%string, 1826), "gMenuListCount"%string)].

Definition WINDOW : Z := 4.

(** ** The expressions *)

Definition word (c : Z) : bool := in_range 97 122 c || in_range 48 57 c || (c =? 95).   (* [a-z0-9_] *)

(** [tools/([a-z0-9_]+\.(?:py|sh))]. *)
Definition TOOLS : list Z := lit "tools/".
Definition TOOL_NAME : re := Cat (many (Chr word)) (Cat (str (lit ".")) (Alt (str (lit "py")) (str (lit "sh")))).
Definition TOOL : re := Cat (str TOOLS) (Grp 1 TOOL_NAME).

(** [\]\(([^)]+\.md)\)]. *)
Definition LINK : re :=
  Cat (str (lit "](")) (Cat (Grp 1 (Cat (many (Chr (fun c => negb (c =? 41)))) (str (lit ".md")))) (str (lit ")"))).

(** [^(#+) (.+)$] over lines. *)
Definition HEADING : re :=
  Cat Bol (Cat (Grp 1 (many (one 35))) (Cat (one 32) (Cat (Grp 2 (many dot)) (Eol true)))).

Section texts.
Context {HU : Unicode} {HR : Runtime}.

(** [#define SYM\s+(\S+)], and a backslash before the end of a line. *)
Definition DEFINE (sym : list Z) : re :=
  Cat (str (lit "#define " ++ sym)) (Cat (many (Chr is_space)) (Grp 1 (many (Chr (fun c => negb (is_space c)))))).
Definition CONTINUED : re := Cat (one 92) (Cat (Star true (Chr is_space)) (Cat (one 10) (Star true (Chr is_space)))).

(** A tool and what is passed to it, and a long flag. *)
Definition CALL : re := Cat TOOL (Grp 2 (Star true dot)).
Definition FLAG : re :=
  Grp 1 (Cat (str (lit "--")) (Cat (Chr (in_range 97 122)) (many (Chr (fun c => in_range 97 122 c || (c =? 45)))))).

(** [sorted(set(l))]. *)
Definition sorted_set (l : list (list Z)) : list (list Z) := sorted (remove_dups l).

(** ** What can be wrong *)

Inductive problem :=
| ToolMissing (doc tool : list Z)
| TestUndocumented (doc tool : list Z)
| LinkBroken (doc target : list Z)
| HeadingCount (en : list Z) (n : Z) (zh : list Z) (m : Z)
| HeadingDepth (zh : list Z) (i : Z) (en text : list Z)
| SymUndefined (sym : list Z)
| SymDiffers (sym documented value : list Z)
| FlagUnknown (flag tool : list Z)
| RefLost (name : list Z)
| RefPastEnd (name : list Z) (line n : Z)
| RefDrifted (name : list Z) (line : Z) (needle : list Z).

(** The message of [fail]. *)
Definition problem_text (p : problem) : list Z :=
  match p with
  | ToolMissing doc tool => doc ++ lit " names tools/" ++ tool ++ lit ", which does not exist"
  | TestUndocumented doc tool => doc ++ lit " does not mention " ++ tool ++ lit ", which run_tests.sh runs"
  | LinkBroken doc target => doc ++ lit " links to " ++ target ++ lit ", which does not exist"
  | HeadingCount en n zh m =>
      en ++ lit " has " ++ decimal n ++ lit " headings, " ++ zh ++ lit " has " ++ decimal m
  | HeadingDepth zh i en text =>
      zh ++ lit " heading " ++ decimal i ++ lit " is at a different depth than " ++ en ++ lit "'s (" ++ repr_str text ++ lit ")"
  | SymUndefined sym => sym ++ lit " is documented but not defined in the model"
  | SymDiffers sym documented value => lit "docs say " ++ sym ++ lit " is " ++ documented ++ lit ", model says " ++ value
  | FlagUnknown flag tool => lit "docs pass " ++ flag ++ lit " to " ++ tool ++ lit ", which does not accept it"
  | RefLost name => name ++ lit " is referenced but not found in the firmware tree"
  | RefPastEnd name line n =>
      name ++ lit ":" ++ decimal line ++ lit " is past the end of the file (" ++ decimal n ++ lit " lines)"
  | RefDrifted name line needle =>
      name ++ lit ":" ++ decimal line ++ lit " has no " ++ repr_str needle ++ lit " nearby -- the reference has drifted"
  end.

(** A loop that collects what each round finds. *)
Fixpoint each {A} (f : A -> result (list problem)) (l : list A) : result (list problem) :=
  match l with
  | [] => Ok []
  | x :: l => ps ← f x; qs ← each f l; Ok (ps ++ qs)
  end.

(** ** The checks *)

Definition check_tools_exist (w : world) : result (list problem) :=
  each (fun doc =>
    text ← w_text w (child (w_sim w) doc);
    Ok (concat (map (fun tool => if w_exists w (child (child (w_sim w) (lit "tools")) tool) then []
                                 else [ToolMissing doc tool])
                  (sorted_set (findall TOOL text))))) READMES.

Definition check_tests_documented (w : world) : result (list problem) :=
  runner ← w_text w (child (child (w_sim w) (lit "tools")) (lit "run_tests.sh"));
  let in_runner := sorted_set (findall TOOL runner) in
  each (fun doc =>
    text ← w_text w (child (w_sim w) doc);
    Ok (concat (map (fun tool => if contains tool text then [] else [TestUndocumented doc tool]) in_runner))) READMES.

(** [path.parent / target]. *)
Definition under (dir target : list Z) : list Z :=
  if starts_with [SLASH] target then path_str target else child dir target.

Definition check_links (w : world) : result (list problem) :=
  each (fun doc =>
    let path := child (w_sim w) doc in
    text ← w_text w path;
    Ok (concat (map (fun target =>
                  if starts_with (lit "http") target then []
                  else if w_exists w (under (parent path) target) then [] else [LinkBroken doc target])
                (findall LINK text)))) DOCS.

Definition headings (text : list Z) : list (list Z * list Z) :=
  map (fun m => (default [] (group 1 m.2), default [] (group 2 m.2))) (finditer HEADING text).

Fixpoint depths (zh_name en_name : list Z) (i : Z) (pairs : list ((list Z * list Z) * (list Z * list Z))) : list problem :=
  match pairs with
  | [] => []
  | ((en_lvl, en_txt), (zh_lvl, _)) :: pairs =>
      (if bool_decide (en_lvl = zh_lvl) then [] else [HeadingDepth zh_name (i + 1) en_name en_txt])
      ++ depths zh_name en_name (i + 1) pairs
  end.

Definition check_pairs (w : world) : result (list problem) :=
  each (fun '(en_name, zh_name) =>
    en_text ← w_text w (child (w_sim w) en_name);
    zh_text ← w_text w (child (w_sim w) zh_name);
    let en := headings en_text in let zh := headings zh_text in
    Ok (if negb (length en =? length zh)%nat then [HeadingCount en_name (zlen en) zh_name (zlen zh)]
        else depths zh_name en_name 0 (combine en zh))) PAIRS.

Definition check_memory_map (w : world) : result (list problem) :=
  model ← w_text w (child (child (w_sim w) (lit "qemu")) (lit "py32f071.c"));
  Ok (concat (map (fun '(sym, documented) =>
        match search (DEFINE sym) [] model with
        | None => [SymUndefined sym]
        | Some (_, e) =>
            let value := default [] (group 1 e) in
            if contains (lower documented) (lower value) then [] else [SymDiffers sym documented value]
        end) MEMORY_MAP)).

(** [claims], as pairs of a tool and a flag passed to it. *)
Definition claims (joined : list Z) : list (list Z * list Z) :=
  concat (map (fun m => map (fun flag => (default [] (group 1 m.2), flag)) (findall FLAG (default [] (group 2 m.2))))
            (finditer CALL joined)).

Fixpoint texts (w : world) (docs : list (list Z)) : result (list (list Z)) :=
  match docs with
  | [] => Ok []
  | doc :: docs => t ← w_text w (child (w_sim w) doc); ts ← texts w docs; Ok (t :: ts)
  end.

Definition check_documented_flags (w : world) : result (list problem) :=
  ts ← texts w DOCS;
  let cs := claims (sub CONTINUED [32] (Text.join [10] ts)) in
  each (fun tool =>
    let path := child (child (w_sim w) (lit "tools")) tool in
    if w_exists w path then
      src ← w_text w path;
      Ok (concat (map (fun flag => if contains flag src then [] else [FlagUnknown flag tool])
            (sorted_set (map snd (List.filter (fun c => bool_decide (c.1 = tool)) cs)))))
    else Ok []) (sorted_set (map fst cs)).

(** [resolve_fw]: the first of five places. *)
Fixpoint replace (fuel : nat) (old s : list Z) : list Z :=
  match fuel, s with
  | O, _ => s
  | _, [] => []
  | S fuel, c :: t => if starts_with old s then replace fuel old (drop (length old) s) else c :: replace fuel old t
  end.
Definition resolve_fw (w : world) (name : list Z) : option (list Z) :=
  let name := replace (S (length name)) (lit "App/") name in
  List.find (w_exists w)
    (child (w_fw w) name :: map (fun d => child (child (w_fw w) d) name) (map lit ["app"; "driver"; "helper"; "ui"]%string)).

(** The order of the references: by file, then by line. *)
Definition ref_le (a b : list Z * Z * list Z) : Prop :=
  negb (bool_decide (a.1.1 = b.1.1)) && str_le a.1.1 b.1.1 || bool_decide (a.1.1 = b.1.1) && (a.1.2 <=? b.1.2) = true.
#[export] Instance ref_le_dec : RelDecision ref_le := fun a b => bool_eq_dec _ true.

Definition check_line_refs (w : world) : result (list problem) :=
  if negb (w_isdir w (w_fw w)) then Ok []
  else each (fun '(name, line, needle) =>
         match resolve_fw w name with
         | None => Ok [RefLost name]
         | Some path =>
             text ← w_text w path;
             let lines := splitlines [] text in
             Ok (if zlen lines <? line then [RefPastEnd name line (zlen lines)]
                 else
                   let window := Text.join [10] (slice (Z.max 0 (line - WINDOW - 1)) (line + WINDOW) lines) in
                   if contains (lower needle) (lower window) then [] else [RefDrifted name line needle])
         end) (merge_sort ref_le LINE_REFS).

(** [main]: every failure, and the exit status. *)
Definition checks : list (world -> result (list problem)) :=
  [check_tools_exist; check_tests_documented; check_links; check_pairs; check_memory_map; check_documented_flags;
   check_line_refs].
Definition problems (w : world) : result (list problem) := each (fun check => check w) checks.
Definition main (w : world) : result (list problem * Z) :=
  ps ← problems w; Ok (ps, if bool_decide (ps = []) then 0 else 1).
End texts.

(** ** Small texts *)

Example findall_tools :
  findall TOOL (lit "run tools/key.py, then tools/run.sh; tools/x and tools/y.pyc")
    = map lit ["key.py"; "run.sh"; "y.py"]%string.
Proof. vm_compute. reflexivity. Qed.
Example findall_links :
  findall LINK (lit "[a](docs/x.md) [b](http://h/y.md) [c](z.md#top)") = map lit ["docs/x.md"; "http://h/y.md"]%string.
Proof. vm_compute. reflexivity. Qed.
Example headings_lines :
  headings (lit "# One" ++ [10] ++ lit "text" ++ [10] ++ lit "### Two" ++ [10] ++ lit "#no")
    = [(lit "#", lit "One"); (lit "###", lit "Two")].
Proof. vm_compute. reflexivity. Qed.
Example claims_joined :
  @claims (@sub (CONTINUED (HU := ascii_tables)) [32] (lit "tools/a.py --one x \" ++ [10] ++ lit "   --two"))
    = [(lit "a.py", lit "--one"); (lit "a.py", lit "--two")].
Proof. vm_compute. reflexivity. Qed.
Example splitlines_ends :
  splitlines [] (lit "a" ++ [13; 10; 10] ++ lit "b" ++ [10]) = [lit "a"; []; lit "b"].
Proof. vm_compute. reflexivity. Qed.

(** ** The names a text gives *)

Definition ext_ok (e : list Z) : Prop := e = lit ".py" \/ e = lit ".sh".
Definition name_ok (n : list Z) : Prop := n <> [] /\ Forall (fun c => word c = true) n.

Lemma reach_tool_name x y :
  reach TOOL_NAME x y <-> exists w, (exists n e, name_ok n /\ ext_ok e /\ w = n ++ e) /\ after w x y.
Proof.
  unfold TOOL_NAME, many. rewrite reach_cat_iff. split.
  - intros (x1 & (n & Hne & Hn & H1)%reach_many_iff & (x2 & H2%reach_str_iff & H3)%reach_cat_iff).
    apply reach_alt_iff in H3 as [H3%reach_str_iff|H3%reach_str_iff];
      [exists (n ++ lit ".py")|exists (n ++ lit ".sh")]; (split; [eexists _, _; split; [by split|]; split; [|done]; first [by left|by right]|]);
      apply after_app; (exists x1; split; [done|]);
      [change (lit ".py") with (lit "." ++ lit "py")|change (lit ".sh") with (lit "." ++ lit "sh")]; apply after_app; by exists x2.
  - intros (w & (n & e & [Hne Hn] & He & ->) & (x1 & H1 & H2)%after_app). exists x1. split; [apply reach_many_iff; by exists n|].
    apply reach_cat_iff. destruct He as [->| ->];
      [change (lit ".py") with (lit "." ++ lit "py") in H2|change (lit ".sh") with (lit "." ++ lit "sh") in H2];
      apply after_app in H2 as (x2 & H2 & H3); (exists x2; split; [by apply reach_str_iff|]); apply reach_alt_iff;
      [left|right]; by apply reach_str_iff.
Qed.

Lemma reach_tool l s g y :
  reach TOOL (State l s g) y <->
  exists n e, name_ok n /\ ext_ok e /\ s = TOOLS ++ n ++ e ++ st_rest y /\
    st_left y = reverse (TOOLS ++ n ++ e) ++ l /\ st_caps y = (1%nat, n ++ e) :: g.
Proof.
  unfold TOOL. rewrite reach_cat_iff. split.
  - intros (x1 & (R1 & L1 & C1)%reach_str_iff & H).
    apply (reach_text_grp 1 _ TOOL_NAME x1 y (reach_tool_name x1)) in H as (w & (n & e & Hn & He & ->) & R2 & L2 & C2).
    cbn [st_left st_rest st_caps] in *. exists n, e. do 2 (split; [done|]). split; [by rewrite R1, R2, <- app_assoc|].
    split; [by rewrite L2, L1, (reverse_app TOOLS), <- app_assoc|by rewrite C2, C1].
  - intros (n & e & Hn & He & Hs & L & C). exists (State (reverse TOOLS ++ l) (n ++ e ++ st_rest y) g).
    split; [apply reach_str_iff; by split|].
    apply (reach_text_grp 1 _ TOOL_NAME _ y (reach_tool_name _)). exists (n ++ e). split; [by exists n, e|].
    cbn [st_left st_rest st_caps]. split; [by rewrite <- app_assoc|]. split; [|done].
    by rewrite L, (reverse_app TOOLS), <- app_assoc.
Qed.

Lemma tool_shrinks x y : reach TOOL x y -> (length (st_rest y) < length (st_rest x))%nat.
Proof.
  destruct x as [l s g]. intros (n & e & _ & _ & -> & _)%reach_tool. cbn [st_rest]. rewrite !length_app. change (length TOOLS) with 6%nat. lia.
Qed.

(** A word is cut at the first character that is none. *)
Lemma word_cut n m a b :
  Forall (fun c => word c = true) n -> Forall (fun c => word c = true) m ->
  n ++ 46 :: a = m ++ 46 :: b -> n = m /\ a = b.
Proof.
  intros Hn. revert m. induction Hn as [|c n Hc Hn IH]; intros m Hm E; destruct Hm as [|d m Hd Hm]; cbn in E.
  - by injection E as ->.
  - by injection E as <- _.
  - by injection E as -> _.
  - injection E as -> E. destruct (IH m Hm E) as [-> ->]. done.
Qed.

(** A name cannot start inside another one. *)
Lemma no_overlap d n e r n' e' r' :
  name_ok n -> ext_ok e -> d <> [] -> (length d < length (TOOLS ++ n ++ e))%nat ->
  TOOLS ++ n ++ e ++ r = d ++ TOOLS ++ n' ++ e' ++ r' -> False.
Proof.
  intros [_ Hn] He Hd Hl E. set (X := TOOLS ++ n ++ e) in *.
  assert (forall k, (k < 6)%nat -> (X ++ r) !! (length d + k)%nat = TOOLS !! k) as Hat.
  { intros k Hk. unfold X. rewrite <- !app_assoc, E, lookup_app_r by lia.
    replace (length d + k - length d)%nat with k by lia. by rewrite lookup_app_l. }
  assert (forall i c, (X ++ r) !! i = Some c -> (6 <= i)%nat -> (i < 6 + length n)%nat -> word c = true) as Hword.
  { intros i c Hc H1 H2. unfold X in Hc. rewrite <- !app_assoc, lookup_app_r in Hc by (cbn; lia).
    change (length TOOLS) with 6%nat in Hc. rewrite lookup_app_l in Hc by lia.
    apply list_elem_of_lookup_2 in Hc. rewrite Forall_forall in Hn. by apply Hn. }
  assert ((X ++ r) !! (6 + length n)%nat = Some 46) as Hdot.
  { unfold X. rewrite <- !app_assoc, lookup_app_r by (cbn; lia). change (length TOOLS) with 6%nat.
    rewrite lookup_app_r by lia. replace (6 + length n - 6 - length n)%nat with 0%nat by lia.
    destruct He as [->| ->]; done. }
  assert ((X ++ r) !! (length d) = Some 116) as Ht
    by (pose proof (Hat 0%nat ltac:(lia)) as H0; by rewrite Nat.add_0_r in H0).
  assert ((X ++ r) !! (length d + 5)%nat = Some 47) as Hslash by (by rewrite Hat by lia).
  unfold X in Hl. rewrite !length_app in Hl. change (length TOOLS) with 6%nat in Hl.
  destruct (decide (length d < 6)%nat) as [H6|H6].
  - (* inside "tools/" itself *)
    assert ((X ++ r) !! length d = TOOLS !! length d) as Ht'.
    { unfold X. rewrite <- !app_assoc. by rewrite lookup_app_l. }
    rewrite Ht in Ht'. destruct (length d) as [|[|[|[|[|[|]]]]]] eqn:El; try discriminate Ht'.
    destruct d; [done|discriminate El].
  - destruct (decide (length d + 5 < 6 + length n)%nat) as [Hin|Hout].
    + assert (word 47 = true) by (apply (Hword _ _ Hslash); lia). done.
    + destruct (decide (length d <= 6 + length n)%nat) as [Hle|Hgt].
      * assert ((X ++ r) !! (length d + (6 + length n - length d))%nat = TOOLS !! (6 + length n - length d)%nat) as Hk
          by (apply Hat; lia).
        replace (length d + (6 + length n - length d))%nat with (6 + length n)%nat in Hk by lia.
        rewrite Hdot in Hk. destruct (6 + length n - length d)%nat as [|[|[|[|[|[|]]]]]]; discriminate Hk.
      * (* inside the extension *)
        assert (exists k, (0 < k < length e)%nat /\ (X ++ r) !! length d = e !! k) as (k & Hk & He').
        { exists (length d - 6 - length n)%nat. split; [lia|]. unfold X.
          rewrite <- !app_assoc, lookup_app_r by (cbn; lia). change (length TOOLS) with 6%nat.
          rewrite lookup_app_r by lia. by rewrite lookup_app_l by lia. }
        rewrite Ht in He'. destruct He as [->| ->], k as [|[|[|]]]; cbn in Hk; try lia; discriminate He'.
Qed.

(** Every name in a text is found. *)
Lemma findall_complete text pre n e post :
  text = pre ++ TOOLS ++ n ++ e ++ post -> name_ok n -> ext_ok e -> n ++ e ∈ findall TOOL text.
Proof.
  intros Ht Hn He.
  set (e' := State (reverse (TOOLS ++ n ++ e) ++ reverse pre ++ []) post [(1%nat, n ++ e)]).
  assert (reach TOOL (State (reverse pre ++ []) (TOOLS ++ n ++ e ++ post) []) e') as Hr
    by (apply reach_tool; by exists n, e).
  destruct (scan_covers TOOL tool_shrinks (S (length text)) [] text pre _ e' ltac:(lia) Ht Hr) as (b & f & Hin & H1 & H2).
  pose proof (scan_sound TOOL tool_shrinks _ _ _ _ _ Hin) as (pb & Hs & Hb & Hrb). rewrite Hb in Hrb.
  apply reach_tool in Hrb as (n2 & e2 & Hn2 & He2 & Hrest & _ & Hcaps).
  assert (exists d, st_rest b = d ++ TOOLS ++ n ++ e ++ post) as [d Hd].
  { exists (drop (length pb) pre).
    assert (length pb <= length pre)%nat as Hle.
    { pose proof (f_equal length Hs) as Hl. rewrite Ht in Hl. rewrite length_app in Hl. rewrite (length_app pb) in Hl. lia. }
    pose proof (f_equal (drop (length pb)) Hs) as Hdr. rewrite drop_app_length in Hdr.
    rewrite <- Hdr, Ht. by rewrite drop_app_le. }
  destruct (decide (d = [])) as [->|Hne].
  - cbn [app] in Hd. rewrite Hd in Hrest. apply app_inv_head in Hrest.
    assert (n = n2 /\ e = e2) as [-> ->].
    { destruct Hn as [_ Hn], Hn2 as [_ Hn2].
      destruct He as [->| ->], He2 as [->| ->]; apply word_cut in Hrest as [-> Hx]; done. }
    unfold findall. apply list_elem_of_In, in_map_iff. exists (b, f). split; [|by apply list_elem_of_In].
    cbn [snd]. unfold group. by rewrite Hcaps.
  - exfalso. rewrite Hrest in Hd. apply (no_overlap d n2 e2 (st_rest f) n e post Hn2 He2 Hne); [|exact Hd].
    apply (f_equal length) in Hd. rewrite !length_app in *. lia.
Qed.

(** ** What a clean run means *)

Lemma elem_of_sorted_set x l : x ∈ sorted_set l <-> x ∈ l.
Proof. unfold sorted_set, sorted. by rewrite merge_sort_Permutation, elem_of_remove_dups. Qed.

Lemma each_nil {A} (f : A -> result (list problem)) l :
  each f l = Ok [] -> forall x, x ∈ l -> f x = Ok [].
Proof.
  induction l as [|y l IH]; cbn [each]; intros E x Hx; [by apply not_elem_of_nil in Hx|].
  destruct (f y) as [ps|] eqn:Ef; [|done]. cbn [mbind result_bind] in E.
  destruct (each f l) as [qs|] eqn:El; [|done]. cbn [mbind result_bind] in E. injection E as E.
  apply app_eq_nil in E as [-> ->]. apply elem_of_cons in Hx as [->|Hx]; [done|by apply IH].
Qed.

Lemma concat_map_nil {A B} (f : A -> list B) l : concat (map f l) = [] -> forall x, x ∈ l -> f x = [].
Proof.
  induction l as [|y l IH]; cbn [map concat]; intros E x Hx; [by apply not_elem_of_nil in Hx|].
  apply app_eq_nil in E as [E1 E2]. apply elem_of_cons in Hx as [->|Hx]; [done|by apply IH].
Qed.

(** What a clean run means.  When check_docs.py exits with status 0,
    every name of the form tools/NAME.py or tools/NAME.sh that occurs
    anywhere in either README is a file of the tools directory, and every such
    name in run_tests.sh occurs in both READMEs: the scan for names misses
    none of them, wherever it stands and whatever stands around it. *)
Theorem clean_run {HU : Unicode} w ps :
  main w = Ok (ps, 0) ->
  (forall doc text pre n e post,
     doc ∈ READMES -> w_text w (child (w_sim w) doc) = Ok text ->
     text = pre ++ TOOLS ++ n ++ e ++ post -> name_ok n -> ext_ok e ->
     w_exists w (child (child (w_sim w) (lit "tools")) (n ++ e)) = true) /\
  (forall runner pre n e post doc text,
     w_text w (child (child (w_sim w) (lit "tools")) (lit "run_tests.sh")) = Ok runner ->
     runner = pre ++ TOOLS ++ n ++ e ++ post -> name_ok n -> ext_ok e ->
     doc ∈ READMES -> w_text w (child (w_sim w) doc) = Ok text -> exists a b, text = a ++ (n ++ e) ++ b).
Proof.
  unfold main. destruct (problems w) as [qs|] eqn:Ep; [|done]. cbn [mbind result_bind].
  case_bool_decide as Hq; [|done]. intros _. subst qs. pose proof (each_nil _ _ Ep) as Hc. split.
  - intros doc text pre n e post Hd Ht Hs Hn He.
    assert (check_tools_exist w = Ok []) as E by (apply (Hc check_tools_exist); by left).
    pose proof (each_nil _ _ E doc Hd) as Hdoc. cbv beta in Hdoc. rewrite Ht in Hdoc. cbn [mbind result_bind] in Hdoc.
    injection Hdoc as Hdoc.
    assert (n ++ e ∈ sorted_set (findall TOOL text)) as Hin
      by (apply elem_of_sorted_set; by apply (findall_complete text pre n e post)).
    pose proof (concat_map_nil _ _ Hdoc _ Hin) as Hx. cbv beta in Hx. by destruct (w_exists _ _).
  - intros runner pre n e post doc text Hr Hs Hn He Hd Ht.
    assert (check_tests_documented w = Ok []) as E by (apply (Hc check_tests_documented); right; by left).
    unfold check_tests_documented in E. rewrite Hr in E. cbn [mbind result_bind] in E.
    pose proof (each_nil _ _ E doc Hd) as Hdoc. cbv beta in Hdoc. rewrite Ht in Hdoc. cbn [mbind result_bind] in Hdoc.
    injection Hdoc as Hdoc.
    assert (n ++ e ∈ sorted_set (findall TOOL runner)) as Hin
      by (apply elem_of_sorted_set; by apply (findall_complete runner pre n e post)).
    pose proof (concat_map_nil _ _ Hdoc _ Hin) as Hx. cbv beta in Hx.
    destruct (contains (n ++ e) text) eqn:Ec; [|done]. by apply contains_iff.
Qed.

(** ** Drift that goes unnoticed *)

#[local] Existing Instance ascii_tables.

(** A small tree: one README, the model, and a tool. *)
Definition tree (readme model tool : list Z) : world :=
  World (lit "/r") (lit "/fw")
    (fun p => if bool_decide (p = lit "/r/README.md") then Ok readme
              else if bool_decide (p = lit "/r/README.zh-CN.md") then Ok readme
              else if bool_decide (p = lit "/r/qemu/py32f071.c") then Ok model
              else if bool_decide (p = lit "/r/tools/a.py") then Ok tool else Ok [])
    (fun p => bool_decide (p = lit "/r/tools/a.py")) (fun _ => false).

Definition model_text (offset : list Z) : list Z :=
  Text.join [10] (map (fun p => lit "#define " ++ p.1 ++ [32] ++ (if bool_decide (p.1 = lit "PY32_APP_OFFSET") then offset else p.2))
                    MEMORY_MAP).

(** The checks are for the text of a flag or an address anywhere in what the
    code says, so a flag that is the beginning of another one, and an address
    that is the beginning of a longer one, pass: a document that gives --fram
    for --frame-addr, and a model whose application offset is 0x28000 where
    the documents say 0x2800, are reported clean. *)
Theorem prefixes_go_unnoticed :
  main (tree (lit "tools/a.py --fram 1") (model_text (lit "0x28000")) (lit "--frame-addr")) = Ok ([], 0).
Proof. vm_compute. reflexivity. Qed.

Example drift_noticed :
  main (tree (lit "tools/b.py" ++ [10] ++ lit "tools/a.py --frame") (model_text (lit "0x2C00")) (lit "--flash"))
    = Ok ([ToolMissing (lit "README.md") (lit "b.py"); ToolMissing (lit "README.zh-CN.md") (lit "b.py");
           SymDiffers (lit "PY32_APP_OFFSET") (lit "0x2800") (lit "0x2C00"); FlagUnknown (lit "--frame") (lit "a.py")], 1).
Proof. vm_compute. reflexivity. Qed.

(** The rest of a line belongs to the first tool it names: the same flag of
    the same tool on one line with another tool is not checked against its
    own tool, and is not reported at all when the first one is missing. *)
Example second_tool_on_a_line :
  main (tree (lit "tools/b.py, tools/a.py --frame") (model_text (lit "0x2800")) (lit "--flash"))
    = Ok ([ToolMissing (lit "README.md") (lit "b.py"); ToolMissing (lit "README.zh-CN.md") (lit "b.py")], 1).
Proof. vm_compute. reflexivity. Qed.

Lemma clean_run_witness :
  main (tree (lit "see tools/a.py.") (model_text (lit "0x2800")) []) = Ok ([], 0) /\
  w_exists (tree (lit "see tools/a.py.") (model_text (lit "0x2800")) []) (lit "/r/tools/a.py") = true.
Proof.
  assert (main (tree (lit "see tools/a.py.") (model_text (lit "0x2800")) []) = Ok ([], 0)) as E by (vm_compute; reflexivity).
  split; [exact E|]. destruct (clean_run _ _ E) as [H _].
  refine (H (lit "README.md") (lit "see tools/a.py.") (lit "see ") (lit "a") (lit ".py") (lit ".") _ eq_refl eq_refl _ _).
  - by left.
  - split; [discriminate|]. by repeat constructor.
  - by left.
Defined.
