(* ===== verification/Commands.v ===== *)
(** The command lines that work on files and on the serial port, from their
    parsed arguments to what they write, print and exit with: [build],
    [describe] and the script of [src/tools/uvk5_slots.py], and the [main] of
    [src/tools/bin2elf.py], [src/tools/elf2bin.py],
    [src/tools/uvk5_serial_flash.py] and [src/tools/uvk5_buffers.py]. *)
From S2P Require Slots.
From S2P Require Import Prelude Text Struct SerialFlash Flasher Image ElfTools Endpoint Lcd Buffers Files.
Open Scope Z_scope.
Set Warnings "-register-all".

(** What a command prints, on its output and on its error stream. *)
Inductive said := Out (line : list Z) | Err (line : list Z).

(** [x or y] of an optional string argument: an empty one counts as absent. *)
Definition or_else {A} (x : option (list A)) (y : list A) : list A :=
  match x with Some ((_ :: _) as x) => x | _ => y end.
Definition given {A} (x : option (list A)) : bool := match x with Some (_ :: _) => true | _ => false end.

(** ["%08x"] and the like, with the prefix. *)
Definition hex0x (dig : Z -> Z) (width : nat) (n : Z) : list Z := lit "0x" ++ hex dig width n.

Definition write_file (fs : fsys) (path data : list Z) : fsys := exec_all fs (write_ops path data).

(** ** uvk5_slots.py *)

Module SlotsTool.

(** An entry of [slots]: slot, file, name, version. *)
Abbreviation entry := (Z * list Z * list Z * list Z)%type.

Definition put (fs : fsys) (buf : list Z) (e : entry) : result (list Z) :=
  let '(slot, path, name, version) := e in
  image ← load_image fs path; Slots.write_slot buf slot image name version.

Definition build (fs : fsys) (base_path : list Z) (slots : list entry) (out_path : list Z)
    (erase_state_sectors : bool) : fsys * result (list Z) :=
  match (buf ← load_image fs base_path; foldM (put fs) buf slots) with
  | Raise e => (fs, Raise e)
  | Ok buf => (write_file fs out_path (if erase_state_sectors then Slots.erase_state buf else buf), Ok out_path)
  end.

Definition slot_line (slot base : Z) (r : option Slots.slot_header) : list Z :=
  lit "  slot " ++ decimal slot ++ lit " @" ++ hex0x hex_lower 6 base ++
  match r with
  | None => lit ": empty"
  | Some h =>
      [32] ++ padded 16 (Slots.sh_name h) ++ [32] ++ padded 16 (Slots.sh_fw_version h) ++ [32]
      ++ padded_left 7 (decimal (Slots.sh_image_size h)) ++ lit " bytes crc "
      ++ hex hex_lower 8 (Slots.sh_image_crc32 h) ++ [32]
      ++ (if Slots.sh_crc_ok h then lit "ok" else lit "MISMATCH")
  end.

Definition title (path buf : list Z) : list Z := path ++ lit " (" ++ decimal (zlen buf) ++ lit " bytes)".

Definition describe_rows (buf : list Z) : result (list (list Z)) :=
  foldM (fun rows slot => r ← Slots.read_slot buf slot; base ← Slots.slot_base slot;
                          Ok (rows ++ [slot_line slot base (fst <$> r)])) [] [0; 1; 2; 3; 4].

Definition describe (fs : fsys) (path : list Z) : result (list Z) :=
  buf ← load_image fs path; rows ← describe_rows buf; Ok (join [10] (title path buf :: rows)).

Record args := Args {
  a_image : list Z; a_base : option (list Z); a_slot : list Z; a_bin : list (list Z); a_name : list (list Z);
  a_out : option (list Z)
}.

(** [args.bin[i]]. *)
Definition bin_at (a : args) (i : nat) : result (list Z) :=
  match a_bin a !! i with Some b => Ok b | None => raise IndexError "list index out of range" [] end.

(** The loop that pairs the options by position. *)
Definition entry_at (a : args) (i : nat) (slot : Z) : result entry :=
  name ← match a_name a !! i with Some n => Ok n | None => b ← bin_at a i; Ok (basename b) end;
  b ← bin_at a i; Ok (slot, b, name, []).
Definition entries (a : args) : result (list entry) :=
  foldM (fun out i => e ← entry_at a i (nth i (a_slot a) 0); Ok (out ++ [e])) [] (seq 0 (length (a_slot a))).

(** The script. *)
Definition main (fs : fsys) (a : args) : fsys * list said * result unit :=
  let '(fs, printed, r) :=
    match a_base a, a_out a with
    | Some ((_ :: _) as base), Some ((_ :: _) as out) =>
        match entries a with
        | Raise e => (fs, [], Raise e)
        | Ok slots =>
            match build fs base slots out true with
            | (fs, Raise e) => (fs, [], Raise e)
            | (fs, Ok out) => (fs, [Out (lit "wrote " ++ out)], Ok tt)
            end
        end
    | _, _ => (fs, [], Ok tt)
    end in
  match r with
  | Raise e => (fs, printed, Raise e)
  | Ok _ =>
      match describe fs (or_else (a_out a) (a_image a)) with
      | Raise e => (fs, printed, Raise e)
      | Ok text => (fs, printed ++ [Out text], Ok tt)
      end
  end.
End SlotsTool.

(** ** bin2elf.py *)

Module Bin2Elf.

(** [args.image.rsplit(".", 1)[0] + ".elf"]. *)
Definition default_out (image : list Z) : list Z :=
  (if bool_decide (46 ∈ image) then (rpartition 46 image).1 else image) ++ lit ".elf".

Definition main (fs : fsys) (image : list Z) (out : option (list Z)) (base : Z) : fsys * list said * result Z :=
  match (data ← load_image fs image; elf ← build_elf data base; Ok (data, elf)) with
  | Raise e => (fs, [], Raise e)
  | Ok (data, elf) =>
      let out := or_else out (default_out image) in
      let fs := write_file fs out elf in
      match unpack_from [fI; fI] data 0 with
      | Raise e => (fs, [], Raise e)
      | Ok (sp, (reset, _)) =>
          (fs, [Out (image ++ lit " -> " ++ out);
                Out (lit "  " ++ decimal (zlen data) ++ lit " bytes at " ++ hex0x hex_lower 8 base);
                Out (lit "  initial SP " ++ hex0x hex_lower 8 sp ++ lit ", entry " ++ hex0x hex_lower 8 reset)],
           Ok 0)
      end
  end.
End Bin2Elf.

(** ** elf2bin.py *)

Module Elf2Bin.

(** [p.replace("\\", "/").split("/")[-1]]. *)
Definition name (p : list Z) : list Z :=
  default [] (last (split_on 47 (map (fun c => if c =? 92 then 47 else c) p))).

Definition main (fs : fsys) (elf bin : list Z) (min : option Z) (quiet : bool) : fsys * list said * result Z :=
  match (blob ← load_image fs elf; r ← flatten blob min; secs ← sections blob; Ok (r, default [] secs)) with
  | Raise e => (fs, [], Raise e)
  | Ok ((base, out), secs) =>
      let fs := write_file fs bin out in
      (fs, if quiet then [] else
           Out (name elf ++ lit " -> " ++ name bin ++ lit ": " ++ decimal (zlen out) ++ lit " bytes at "
                ++ hex0x hex_upper 8 base ++ lit " (" ++ decimal (zlen secs) ++ lit " allocated section(s), "
                ++ decimal (zlen (List.filter has_content secs)) ++ lit " of them with content)")
           :: if (0x1000 <? zlen out) && bool_decide (min = Some 0x20000280)
              then [Err (lit "WARNING: " ++ decimal (zlen out) ++ lit " bytes exceeds the 4096-byte overlay budget")]
              else [],
       Ok 0)
  end.
End Elf2Bin.

(** ** uvk5_serial_flash.py *)

Module FlashTool.
Section tool.
Context {D : Type} `{Transport D}.

(** [accepts] is what connecting to the endpoint meets, [d] the device behind
    it; [waits] half-second pumps fit in the wait for the device and [shakes]
    50 ms ones in the handshake's ten seconds. *)
Definition main (fs : fsys) (endpoint image : list Z) (pages : option Z) (accepts : list bool)
    (waits shakes : nat) (now : Z) (d : D) : result (flasher D * list said * Z) :=
  data ← load_image fs image;
  _ ← open_transport endpoint accepts;
  '(bl_ver, s) ← wait_for_device waits (Flasher [] d);
  '(_, s) ← handshake shakes bl_ver 3 s;
  '(written, s) ← program data pages 3 now s;
  Ok (s, [Out (lit "programmed " ++ decimal written ++ lit " page(s) from " ++ image)], 0).
End tool.
End FlashTool.

(** ** uvk5_buffers.py *)

Module BuffersTool.
Section tool.
Context {HR : Runtime}.

(** [str(exc).splitlines()[0]]. *)
Definition first_line (e : exn) : result (list Z) :=
  match splitlines [] (str_exn e) with
  | l :: _ => Ok l
  | [] => raise IndexError "list index out of range" []
  end.

(** [x] printed when it is neither [None] nor 0. *)
Definition address (label : list Z) (x : option Z) : list Z :=
  label ++ match x with
           | Some a => if a =? 0 then lit "(not found)" else hex0x hex_upper 8 a
           | None => lit "(not found)"
           end.

Definition report (b : buffers) : list said :=
  map Out ([address (lit "frame  ") (bf_frame b); address (lit "status ") (bf_status b);
            lit "how    " ++ how_text (bf_how b)] ++
           match bf_score b, bf_total b with
           | Some s, Some t => [lit "match  " ++ decimal s ++ [47] ++ decimal t ++ lit " bytes"]
           | _, _ => []
           end).

(** [connect] is what constructing the client meets, [image] what the file
    behind --image holds. *)
Definition main (qmp : list Z) (connect : result guest) (image : option (option (list Z)))
    : list said * result Z :=
  match connect with
  | Raise e =>
      if is_exception e then
        match first_line e with
        | Raise e => ([], Raise e)
        | Ok l => ([Err (lit "cannot reach QMP at " ++ qmp ++ lit ": " ++ l);
                    Err (lit "if the web UI is running it holds the one QMP client")], Ok 2)
        end
      else ([], Raise e)
  | Ok g =>
      match (discover (Some g) None image 0%nat).2 with
      | Raise e => ([], Raise e)
      | Ok b => (report b, Ok 0)
      end
  end.
End tool.
End BuffersTool.

(** ** What the commands do *)

Lemma bind_Ok {A B} (a : A) (f : A -> result B) : (Ok a ≫= f) = f a.
Proof. done. Qed.

Lemma write_file_load fs path data : load_image (write_file fs path data) path = Ok data.
Proof. unfold load_image, write_file. by rewrite exec_write, decide_True. Qed.

Lemma write_file_other fs path data p : p <> path -> write_file fs path data !! p = fs !! p.
Proof. intros. unfold write_file. by rewrite exec_write, decide_False. Qed.

Module SlotsToolFacts.
Import SlotsTool.

(** What an entry puts where, and when it fits. *)
Definition image_of (fs : fsys) (e : entry) : list Z :=
  let '(_, path, _, _) := e in match load_image fs path with Ok b => b | Raise _ => [] end.
Definition op_of (fs : fsys) (e : entry) : Slots.slot_op :=
  let '(slot, _, name, version) := e in Slots.OpWrite slot (image_of fs e) name version.
Definition fits (fs : fsys) (e : entry) : Prop :=
  is_ok (load_image fs e.1.1.2) = true /\ Slots.op_ok (op_of fs e) = true.

Definition base_of (slot : Z) : Z := Slots.SLOT_BACKUP_BASE + slot * Slots.SLOT_STRIDE.

(** What a slot reads as after the entries: the last one for it, or what it
    held before. *)
Definition reading (fs : fsys) (slot : Z) (before : result (option (Slots.slot_header * list Z))) (es : list entry) :=
  foldl (fun r e => let '(s, _, name, version) := e in
           if decide (slot = s) then Ok (Some (Slots.written_header s (base_of s) (image_of fs e) name version, image_of fs e))
           else r) before es.

Lemma put_ok fs buf m e : Slots.represents buf m -> fits fs e ->
  exists b, put fs buf e = Ok b /\ Slots.represents b (Slots.spec_op m (op_of fs e)) /\
    forall slot, 0 <= slot < Slots.SLOT_COUNT ->
      Slots.read_slot b slot = reading fs slot (Slots.read_slot buf slot) [e].
Proof.
  destruct e as [[[slot path] name] version]. unfold fits, put, op_of, reading, image_of. cbn.
  intros Hm [Hf Hok]. destruct (load_image fs path) as [image|]; [|done]. cbn [mbind result_bind].
  assert (0 <= slot < Slots.SLOT_COUNT /\ zlen image <= Slots.SLOT_STRIDE - Slots.SLOT_IMAGE_OFFSET) as [Hs Hl] by lia.
  destruct (Slots.write_represents buf m slot image name version Hm Hs Hl) as (b & Hw & Hb).
  exists b. split; [done|]. split; [done|]. intros s Hr. by apply (Slots.write_reads buf m).
Qed.

Lemma puts_ok fs es : Forall (fits fs) es -> forall buf m, Slots.represents buf m ->
  exists b, foldM (put fs) buf es = Ok b /\ Slots.represents b (foldl Slots.spec_op m (map (op_of fs) es)) /\
    forall slot, 0 <= slot < Slots.SLOT_COUNT -> Slots.read_slot b slot = reading fs slot (Slots.read_slot buf slot) es.
Proof.
  induction 1 as [|e es He Hes IH]; intros buf m Hm; [by exists buf|].
  destruct (put_ok fs buf m e Hm He) as (b & Hp & Hb & Hr). destruct (IH b _ Hb) as (b' & Hf & Hb' & Hr').
  exists b'. cbn [foldM map foldl]. rewrite Hp. split; [exact Hf|]. split; [exact Hb'|].
  intros slot Hs. rewrite Hr', Hr by done. done.
Qed.

Lemma describe_rows_ok buf m : Slots.represents buf m ->
  exists rows, describe_rows buf = Ok rows /\
    forall slot r, 0 <= slot < Slots.SLOT_COUNT -> Slots.read_slot buf slot = Ok r ->
      rows !! Z.to_nat slot = Some (slot_line slot (base_of slot) (fst <$> r)).
Proof.
  intros Hm. pose proof (fun s => represents_reads buf m s Hm) as Hall. unfold describe_rows.
  destruct (Hall 0) as [r0 H0]; [by split|]. destruct (Hall 1) as [r1 H1]; [by split|].
  destruct (Hall 2) as [r2 H2]; [by split|]. destruct (Hall 3) as [r3 H3]; [by split|].
  destruct (Hall 4) as [r4 H4]; [by split|]. cbn [foldM].
  rewrite H0, H1, H2, H3, H4. cbn [mbind result_bind]. rewrite !Slots.slot_base_ok by (split; done).
  cbn [mbind result_bind app]. eexists. split; [reflexivity|]. intros slot r Hs Hr.
  unfold Slots.SLOT_COUNT in Hs.
  assert (slot = 0 \/ slot = 1 \/ slot = 2 \/ slot = 3 \/ slot = 4) as Hc by lia.
  destruct Hc as [->|[->|[->|[-> | ->]]]];
    first [rewrite H0 in Hr|rewrite H1 in Hr|rewrite H2 in Hr|rewrite H3 in Hr|rewrite H4 in Hr];
    by injection Hr as <-.
Qed.
End SlotsToolFacts.

Import SlotsToolFacts.

(** Building a flash image from the command line.  When every pair of
    options names a file that fits a slot of a base image that represents a
    table, the script writes the output file and nothing else, the file
    represents the table with each entry put in its slot, later ones over
    earlier ones, and the summary it prints has, for every slot, the line of
    what that slot now reads as: the name, version, size and checksum of the
    last entry for it, marked ok, or what the base image had there. *)
Theorem slots_tool_builds fs a base out buf m es :
  SlotsTool.a_base a = Some base -> SlotsTool.a_out a = Some out -> base <> [] -> out <> [] ->
  load_image fs base = Ok buf -> Slots.represents buf m ->
  SlotsTool.entries a = Ok es -> Forall (fits fs) es ->
  exists fs' buf' rows,
    SlotsTool.main fs a = (fs', [Out (lit "wrote " ++ out); Out (join [10] (SlotsTool.title out buf' :: rows))], Ok tt) /\
    load_image fs' out = Ok buf' /\ (forall p, p <> out -> fs' !! p = fs !! p) /\
    Slots.represents buf' (foldl Slots.spec_op m (map (op_of fs) es)) /\
    forall slot, 0 <= slot < Slots.SLOT_COUNT -> exists r,
      reading fs slot (Slots.read_slot buf slot) es = Ok r /\
      rows !! Z.to_nat slot = Some (SlotsTool.slot_line slot (base_of slot) (fst <$> r)).
Proof.
  intros Hb Ho Hbn Hon Hl Hm He Hf. destruct (puts_ok fs es Hf buf m Hm) as (b & Hp & Hr & Hread).
  pose proof (Slots.erase_state_represents b _ Hr) as Hr'.
  destruct (describe_rows_ok _ _ Hr') as (rows & Hd & Hrows).
  exists (write_file fs out (Slots.erase_state b)), (Slots.erase_state b), rows.
  split; [|split; [apply write_file_load|split; [intros; by apply write_file_other|split; [exact Hr'|]]]].
  - assert (SlotsTool.build fs base es out true = (write_file fs out (Slots.erase_state b), Ok out)) as Hbuild
      by (unfold SlotsTool.build; rewrite Hl; cbn [mbind result_bind]; by rewrite Hp).
    assert (SlotsTool.describe (write_file fs out (Slots.erase_state b)) out
      = Ok (join [10] (SlotsTool.title out (Slots.erase_state b) :: rows))) as Hdesc
      by (unfold SlotsTool.describe; by rewrite write_file_load, bind_Ok, Hd, bind_Ok).
    unfold SlotsTool.main. rewrite Hb, Ho, He.
    destruct base as [|b0 base]; [done|]. destruct out as [|o0 out]; [done|]. rewrite Hbuild. cbn [or_else].
    by rewrite Hdesc.
  - intros slot Hs. destruct (represents_reads _ _ slot Hr' Hs) as [r Hrd]. exists r.
    split; [|by apply Hrows]. rewrite <- Hread by done. by rewrite <- (Slots.erase_state_reads b _ slot Hr Hs).
Qed.

(** Two slots of an erased image, one of them written twice. *)
Definition builder : SlotsTool.args :=
  SlotsTool.Args [] (Some (lit "erased.img")) [2; 0; 2] (map lit ["a.bin"; "d/b.bin"; "c.bin"]%string) [lit "Alpha"]
    (Some (lit "out.img")).
Definition builder_files : fsys :=
  <[lit "erased.img" := File (zrep 0x200000 0xff) true]> (<[lit "a.bin" := File [1; 2; 3] true]>
    (<[lit "d/b.bin" := File [4] true]> (<[lit "c.bin" := File [5; 6] true]> ∅))).
Definition builder_entries : list SlotsTool.entry :=
  [(2, lit "a.bin", lit "Alpha", []); (0, lit "d/b.bin", lit "b.bin", []); (2, lit "c.bin", lit "c.bin", [])].

Lemma slots_tool_builds_witness :
  exists fs' buf' rows,
    SlotsTool.main builder_files builder = (fs', [Out (lit "wrote out.img"); Out (join [10] (SlotsTool.title (lit "out.img") buf' :: rows))], Ok tt) /\
    rows !! 2%nat = Some (lit "  slot 2 @0x060000 c.bin" ++ repeat 32 35 ++ lit "2 bytes crc " ++ hex hex_lower 8 (crc32 [5; 6]) ++ lit " ok") /\
    rows !! 1%nat = Some (lit "  slot 1 @0x040000: empty").
Proof.
  pose proof (Slots.represents_erased 0x200000 ltac:(vm_compute; discriminate)) as Hm.
  assert (forall s, 0 <= s < Slots.SLOT_COUNT -> Slots.read_slot (zrep 0x200000 0xff) s = Ok None) as Hn.
  { intros s Hs. destruct Hm as [_ Hm]. destruct (Hm s Hs) as (r & Hr & Hc & _).
    rewrite lookup_empty in Hc. by destruct r as [[h im]|]. }
  assert (load_image builder_files (lit "erased.img") = Ok (zrep 0x200000 0xff)) as Hl
    by (unfold load_image, builder_files; by rewrite lookup_insert_eq).
  assert (SlotsTool.entries builder = Ok builder_entries) as He by reflexivity.
  destruct (slots_tool_builds builder_files builder (lit "erased.img") (lit "out.img") (zrep 0x200000 0xff) ∅
    builder_entries eq_refl eq_refl ltac:(discriminate) ltac:(discriminate) Hl Hm He)
    as (fs' & buf' & rows & Hmain & _ & _ & _ & Hr).
  - repeat (constructor; [split; reflexivity|]). constructor.
  - exists fs', buf', rows. split; [exact Hmain|]. split.
    + destruct (Hr 2) as (r & E & Hrow); [by split|]. change (Z.to_nat 2) with 2%nat in Hrow. rewrite Hrow.
      rewrite Hn in E by (by split). vm_compute in E. injection E as <-. vm_compute. reflexivity.
    + destruct (Hr 1) as (r & E & Hrow); [by split|]. change (Z.to_nat 1) with 1%nat in Hrow. rewrite Hrow.
      rewrite Hn in E by (by split). vm_compute in E. injection E as <-. vm_compute. reflexivity.
Defined.

(** A file for each slot, or an IndexError. *)
Example missing_bin :
  SlotsTool.main builder_files
    (SlotsTool.Args (lit "x.img") (Some (lit "erased.img")) [1] [] [lit "Alpha"] (Some (lit "out.img")))
    = (builder_files, [], raise IndexError "list index out of range" []).
Proof. reflexivity. Qed.

(** C8. The flashing command.  Take any bootloader that announces itself at
    least every 200 ms with one ASCII version and loses at most two page
    requests or replies in a row; its messages may be cut anywhere between
    two readings but after their first byte, and the client starts between
    two messages.  For an image of at most 65535 pages, if at least one
    half-second round fits in the wait and fifteen 50 ms rounds in the
    handshake, the command answers the announcements exactly three times, with
    the first four characters of the version, and programs: it ends with
    status 0 and the number of pages, and the device's flash holds exactly the
    pages of the file, over what it held before. *)
Theorem flash_command_writes_image {D} `{Announcer D} fs endpoint path f accepts waits shakes now (d : D) :
  fs !! path = Some f -> zlen (f_data f) <= 65535 * PAGE_SIZE ->
  is_ok (open_transport endpoint accepts) = true -> (0 < waits)%nat -> (15 <= shakes)%nat ->
  dev_quiet d -> dev_carry d = [] -> (dev_drops d <= 2)%nat ->
  exists s,
    FlashTool.main fs endpoint path None accepts waits shakes now d
      = Ok (s, [Out (lit "programmed " ++ decimal (page_count (f_data f) None) ++ lit " page(s) from " ++ path)], 0) /\
    dev_hellos (fl_dev s) = dev_hellos d ++ replicate 3 (hello (dev_version d)) /\
    (forall i, dev_pages (fl_dev s) !! i =
       if decide (0 <= i < page_count (f_data f) None) then Some (page_at (f_data f) i) else dev_pages d !! i) /\
    concat (map (page_at (f_data f)) (zrange (page_count (f_data f) None))) = f_data f.
Proof.
  intros Hf Hl Ho Hw Hs Hq Hc Hd. unfold FlashTool.main, load_image. rewrite Hf, bind_Ok.
  destruct (open_transport endpoint accepts) as [t|]; [|done]. rewrite bind_Ok.
  destruct (wait_for_device_ok waits d Hq Hw) as (ms & d1 & E & Hms & Hc1 & (Hq1 & Hp1 & Hd1 & Hv1) & Hh1).
  rewrite Hc in E. rewrite E, bind_Ok, <- Hv1.
  destruct (handshake_ok shakes 3 ms d1 Hq1 Hms Hc1 ltac:(lia) ltac:(lia)) as (d2 & -> & (_ & Hp2 & Hd2 & _) & Hh2).
  rewrite bind_Ok.
  destruct (program_writes_image (f_data f) now d2 Hl) as (d3 & -> & Hh3 & Hp3 & Hcc); [by rewrite Hd2, Hd1|].
  rewrite bind_Ok. exists (Flasher (dev_carry d3) d3). split; [done|]. cbn [fl_dev].
  split; [by rewrite Hh3, Hh2, Hh1|]. split; [|exact Hcc]. intros i. by rewrite Hp3, Hp2, Hp1.
Qed.

Lemma flash_command_writes_image_witness :
  exists s : flasher boot,
    FlashTool.main (<[lit "fw.bin" := File (zrep 300 7) true]> ∅) (lit "127.0.0.1:4568") (lit "fw.bin") None [false; true]
      40 200 1234 (Boot ∅ [] [LostReply; Acked; LostRequest; LostRequest] 2 130 [])
      = Ok (s, [Out (lit "programmed 2 page(s) from fw.bin")], 0) /\
    dev_hellos (fl_dev s) = replicate 3 (lit "AAAA") /\ dev_pages (fl_dev s) !! 1 = Some (zrep 44 7).
Proof.
  destruct (flash_command_writes_image (<[lit "fw.bin" := File (zrep 300 7) true]> ∅) (lit "127.0.0.1:4568") (lit "fw.bin")
    (File (zrep 300 7) true) [false; true] 40 200 1234 (Boot ∅ [] [LostReply; Acked; LostRequest; LostRequest] 2 130 []))
    as (s & Hm & Hh & Hp & _).
  - by rewrite lookup_insert_eq.
  - vm_compute. discriminate.
  - reflexivity.
  - lia.
  - lia.
  - split; [reflexivity|]. split; vm_compute; discriminate.
  - reflexivity.
  - vm_compute. auto.
  - exists s. split; [exact Hm|]. split; [exact Hh|]. rewrite Hp. reflexivity.
Defined.

(** A version with a byte beyond ASCII in its first four: the wait decodes it
    with a replacement character, which the handshake cannot encode. *)
Example garbled_version :
  handshake_reply (decode_replace (until_nul [0xff; 53; 46; 48; 0])) = raise UnicodeEncodeError "'ascii' codec can't encode character" [].
Proof. reflexivity. Qed.

(** Wrapping an image from the command line.  Whenever the image is
    accepted and its base leaves room for the headers, the command writes one
    file, named after the image when no name is given; an ELF loader that
    reads it places exactly the image's bytes at the base and starts at its
    reset vector; the lines it prints give the sizes and addresses; and it is
    not an input for elf2bin, which finds no section in it and stops without
    writing anything. *)
Theorem bin2elf_output fs image out base data elf :
  load_image fs image = Ok data -> build_elf data base = Ok elf -> 84 <= Z.land base 0xFFFF ->
  let target := or_else out (Bin2Elf.default_out image) in
  exists fs' lines,
    Bin2Elf.main fs image out base = (fs', lines, Ok 0) /\
    lines !! 1%nat = Some (Out (lit "  " ++ decimal (zlen data) ++ lit " bytes at " ++ hex0x hex_lower 8 base)) /\
    load_image fs' target = Ok elf /\ (forall p, p <> target -> fs' !! p = fs !! p) /\
    elf_load elf = Ok (word data 4, [(base, data)]) /\
    forall bin min quiet, Elf2Bin.main fs' target bin min quiet
      = (fs', [], raise SystemExit "no allocated sections; nothing to extract" []).
Proof.
  intros Hl Hb Hr target. pose proof (build_elf_loads _ _ _ Hr Hb) as (Hload & _).
  exists (write_file fs target elf).
  assert (exists sp reset, unpack_from [fI; fI] data 0 = Ok (sp, (reset, tt))) as (sp & reset & Hu).
  { apply build_elf_inv in Hb as (Hz & _). unfold unpack_from. change (0 + calcsize [fI; fI]) with 8.
    rewrite (proj2 (Z.leb_le _ _)) by done. destruct (Struct.unpack [fI; fI] (slice 0 8 data)) as [sp [reset []]]. by eexists _, _. }
  eexists. split; [unfold Bin2Elf.main; rewrite Hl, bind_Ok, Hb, bind_Ok, Hu; reflexivity|].
  split; [done|]. split; [apply write_file_load|]. split; [intros; by apply write_file_other|]. split; [exact Hload|].
  intros bin min quiet. unfold Elf2Bin.main, flatten. rewrite write_file_load, bind_Ok.
  by rewrite (built_no_sections _ _ _ Hb).
Qed.

Definition tiny_image : list Z := le_enc 4 0x20001000 ++ le_enc 4 0x08002809 ++ [0; 0; 0; 0].

Lemma bin2elf_output_witness :
  exists elf fs' lines,
    build_elf tiny_image APP_BASE_DEFAULT = Ok elf /\
    Bin2Elf.main (<[lit "fw.v1.bin" := File tiny_image true]> ∅) (lit "fw.v1.bin") None APP_BASE_DEFAULT = (fs', lines, Ok 0) /\
    load_image fs' (lit "fw.v1.elf") = Ok elf.
Proof.
  destruct (build_elf tiny_image APP_BASE_DEFAULT) as [elf|] eqn:Hb; [|vm_compute in Hb; discriminate].
  destruct (bin2elf_output (<[lit "fw.v1.bin" := File tiny_image true]> ∅) (lit "fw.v1.bin") None APP_BASE_DEFAULT tiny_image elf)
    as (fs' & lines & Hm & _ & Hl & _).
  - unfold load_image. by rewrite lookup_insert_eq.
  - exact Hb.
  - vm_compute. discriminate.
  - exists elf, fs', lines. split; [reflexivity|]. split; [exact Hm|exact Hl].
Defined.

(** The last dot of the path is taken for the extension's, also when it is in
    the name of a directory. *)
Example dotted_directory : Bin2Elf.default_out (lit "fw.v5/app") = lit "fw.elf".
Proof. reflexivity. Qed.

Example buffers_report :
  BuffersTool.report (Buffers (Some 0x200012BE) None SramSearchWeak (Some 800) (Some 1024))
    = map (fun s => Out (lit s)) ["frame  0x200012BE"; "status (not found)"; "how    sram search (weak match)";
                                  "match  800/1024 bytes"]%string.
Proof. vm_compute. reflexivity. Qed.
