(* ===== verification/SlotTool.v ===== *)
(** What the slot tool of [src/tools/uvk5_slots_serial.py] says: the progress
    [write] and [install] log, the lines of [main] and the reason it gives when
    the radio refuses.  The client itself is in [SlotsSerial]; without its
    lines the tool is the one modelled there. *)
From S2P Require Import Prelude Text Struct Flasher Slots SlotsSerial Endpoint Commands.
Open Scope Z_scope.

Definition STATUS : list (Z * list Z) :=
  map (fun p => (p.1, lit p.2))
    [(0, "ok"); (1, "no/invalid slot header"); (2, "header format too new"); (3, "image not marked committed");
     (4, "image size out of range"); (5, "image CRC mismatch"); (6, "external flash timed out");
     (7, "slot index out of range"); (8, "timestamp mismatch"); (9, "restore stub RAM mismatch")]%string.
(** [STATUS.get(status, status)], as text. *)
Definition status_text (status : Z) : list Z :=
  match List.find (fun p => p.1 =? status) STATUS with Some p => p.2 | None => decimal status end.

(** The text of a [SlotError]: its format with its numbers, every [%s] a
    status. *)
Fixpoint fill (format : list Z) (args : list Z) : list Z :=
  match format with
  | 37 :: 115 :: format =>                                               (* %s *)
      match args with a :: args => status_text a ++ fill format args | [] => [] end
  | 37 :: 120 :: format =>                                               (* %x *)
      match args with a :: args => hex hex_lower 1 a ++ fill format args | [] => [] end
  | 37 :: 48 :: 56 :: 120 :: format =>                                   (* %08x *)
      match args with a :: args => hex hex_lower 8 a ++ fill format args | [] => [] end
  | c :: format => c :: fill format args
  | [] => []
  end.
Definition error_text (e : exn) : list Z := fill (lit (exn_fmt e)) (exn_args e).

(** ** Running and saying *)

(** A part of the tool: it changes the client, prints, and returns or
    raises. *)
Definition W (D A : Type) : Type := radio D -> radio D * list said * result A.
#[export] Instance W_ret D : MRet (W D) := fun _ a s => (s, [], Ok a).
#[export] Instance W_bind D : MBind (W D) := fun _ _ f m s =>
  match m s with
  | (s, l, Ok a) => let '(s, l', r) := f a s in (s, l ++ l', r)
  | (s, l, Raise e) => (s, l, Raise e)
  end.
Definition silent {D A} (m : M D A) : W D A := fun s => let '(s, r) := m s in (s, [], r).
Definition tell {D} (lines : list said) : W D unit := fun s => (s, lines, Ok tt).
Definition say {D} (line : said) : W D unit := tell [line].
Fixpoint forW {D A} (l : list A) (body : A -> W D unit) : W D unit :=
  match l with [] => mret tt | x :: l => _ ← body x; forW l body end.
(** Without its lines. *)
Definition quiet {D A} (m : W D A) : M D A := fun s => let '(s, _, r) := m s in (s, r).

Section tool.
Context {D : Type} `{Link D} (polls : Z -> nat).
(** The seconds since a transfer began, [%.1f], when its chunk is done. *)
Context (elapsed : Z -> Z -> list Z).

Definition progress (offset : Z) (blob : list Z) (k : Z) : list said :=
  let start := k * CHUNK in
  if ((k + 1) mod 100 =? 0) || (zlen blob <=? start + CHUNK)
  then [Out (lit "  " ++ padded_left 6 (decimal (start + zlen (slice start (start + CHUNK) blob)))
             ++ lit "/" ++ decimal (zlen blob) ++ lit " bytes, " ++ elapsed offset k ++ lit "s")]
  else [].
Definition write_said (slot offset : Z) (blob : list Z) : W D unit :=
  forW (zrange (chunk_count (zlen blob))) (fun k =>
    _ ← silent (write_chunk polls slot offset blob k);
    tell (progress offset blob k)).

Definition erase_line (slot : Z) : said := Out (lit "erase slot " ++ decimal slot).
Definition write_line (header image : list Z) : said :=
  Out (lit "write header (" ++ decimal (zlen header) ++ lit " bytes) and image (" ++ decimal (zlen image) ++ lit " bytes)").
Definition valid_line (slot crc : Z) : said :=
  Out (lit "slot " ++ decimal slot ++ lit " validates: crc " ++ hex hex_lower 8 crc).

Definition install_said (slot : Z) (image name version : list Z) : W D Z :=
  header ← silent (lift (build_header image name version));
  _ ← say (erase_line slot);
  status ← silent (erase polls slot);
  if negb (status =? 0) then silent (lift (raise SlotError "erase: %s" [status])) else
  _ ← say (write_line header image);
  _ ← write_said slot 0 header;
  _ ← write_said slot SLOT_IMAGE_OFFSET image;
  '(status, crc) ← silent (validate polls slot);
  if negb (status =? 0) then silent (lift (raise SlotError "validate: %s" [status])) else
  if negb (crc =? Z.land (crc32 image) 0xFFFFFFFF)
  then silent (lift (raise SlotError "device CRC %08x does not match the host's %08x"
                       [crc; Z.land (crc32 image) 0xFFFFFFFF]))
  else _ ← say (valid_line slot crc); mret crc.

(** [main] once connected: [image] is the file's bytes, [None] under --info. *)
Definition info_said (slot : Z) : W D Z :=
  '(status, header) ← silent (info polls slot);
  _ ← say (Out (lit "slot " ++ decimal slot ++ lit ": " ++ status_text status));
  _ ← (if status =? 0 then say (Out (lit "  header: " ++ concat (map (hex hex_lower 2) header))) else mret tt);
  mret 0.
Definition main_said (slot : Z) (image : option (list Z)) (name version : list Z) : W D Z := fun s =>
  let body : W D Z :=
    _ ← silent (session polls);
    match image with
    | None => info_said slot
    | Some image => _ ← install_said slot image name version; mret 0
    end in
  match body s with
  | (s, l, Raise e) =>
      if decide (exn_cls e = SlotError) then (s, l ++ [Err (lit "failed: " ++ error_text e)], Ok 1)
      else (s, l, Raise e)
  | r => r
  end.

(** ** Without its lines it is the tool of [SlotsSerial] *)

Lemma quiet_bind {A B} (m : W D A) (f : A -> W D B) (m' : M D A) (f' : A -> M D B) s :
  quiet m s = m' s -> (forall a s, quiet (f a) s = f' a s) -> quiet (m ≫= f) s = (m' ≫= f') s.
Proof.
  unfold quiet. intros Hm Hf. unfold mbind, W_bind, M_bind. rewrite <- Hm.
  destruct (m s) as [[s1 l] [a|e]]; [|done]. rewrite <- Hf. by destruct (f a s1) as [[s2 l2] r].
Qed.

Lemma quiet_silent {A} (m : M D A) s : quiet (silent m) s = m s.
Proof. unfold quiet, silent. by destruct (m s). Qed.

Lemma quiet_say {A} line (m : W D A) (m' : M D A) s :
  (forall s, quiet m s = m' s) -> quiet (_ ← say line; m) s = m' s.
Proof.
  intros Hm. rewrite <- Hm. unfold quiet, say, tell, mbind, W_bind. by destruct (m s) as [[s1 l] r].
Qed.

Lemma quiet_for {A} (l : list A) (body : A -> W D unit) (body' : A -> M D unit) :
  (forall a s, quiet (body a) s = body' a s) -> forall s, quiet (forW l body) s = forM l body' s.
Proof.
  intros Hb. induction l as [|x l IH]; intros s; [done|]. cbn [forW forM].
  apply quiet_bind; [apply Hb|intros _; apply IH].
Qed.

Lemma quiet_write slot offset blob s : quiet (write_said slot offset blob) s = write polls slot offset blob s.
Proof.
  unfold write_said, write. apply quiet_for. intros k s'. unfold quiet, silent. unfold mbind, W_bind.
  by destruct (write_chunk polls slot offset blob k s') as [s1 [[]|e]].
Qed.

Lemma quiet_install slot image name version s :
  quiet (install_said slot image name version) s = install polls slot image name version s.
Proof.
  unfold install_said, install. apply quiet_bind; [apply quiet_silent|]. intros header s1. apply quiet_say.
  clear s s1. intros s. apply quiet_bind; [apply quiet_silent|]. intros status s1. clear s.
  destruct (negb (status =? 0)); [apply quiet_silent|]. apply quiet_say. clear s1. intros s.
  apply quiet_bind; [apply quiet_write|]. intros _ s1. apply quiet_bind; [apply quiet_write|]. intros _ s2.
  apply quiet_bind; [apply quiet_silent|]. intros [status' crc] s3.
  destruct (negb (status' =? 0)); [apply quiet_silent|]. destruct (negb _); [apply quiet_silent|].
  by apply quiet_say.
Qed.

Lemma quiet_catch (b : W D Z) (b' : M D Z) s : quiet b s = b' s ->
  quiet (fun s => match b s with
                  | (s, l, Raise e) =>
                      if decide (exn_cls e = SlotError) then (s, l ++ [Err (lit "failed: " ++ error_text e)], Ok 1)
                      else (s, l, Raise e)
                  | r => r
                  end) s
  = match b' s with
    | (s, Raise e) => if decide (exn_cls e = SlotError) then (s, Ok 1) else (s, Raise e)
    | r => r
    end.
Proof. intros <-. unfold quiet. destruct (b s) as [[s1 l] [a|e]]; [done|]. by destruct (decide _). Qed.

Lemma quiet_main slot image name version s :
  quiet (main_said slot image name version) s = main polls slot image name version s.
Proof.
  unfold main_said, main. apply quiet_catch. apply quiet_bind; [apply quiet_silent|]. intros _ s1.
  destruct image as [image|].
  - apply quiet_bind; [apply quiet_install|]. done.
  - unfold info_said. apply quiet_bind; [apply quiet_silent|]. intros [status header] s2.
    apply quiet_say. intros s3. by destruct (status =? 0).
Qed.

(** ** What it says *)

(** A transfer's lines are progress. *)
Definition is_out (line : said) : Prop := match line with Out _ => True | Err _ => False end.

Definition only_out {A} (m : W D A) : Prop := forall s, Forall is_out (m s).1.2.

Lemma only_out_bind {A B} (m : W D A) (f : A -> W D B) : only_out m -> (forall a, only_out (f a)) -> only_out (m ≫= f).
Proof.
  intros Hm Hf s. specialize (Hm s). unfold mbind, W_bind. destruct (m s) as [[s1 l] [a|e]]; [|done].
  specialize (Hf a s1). destruct (f a s1) as [[s2 l2] r]. cbn [fst snd] in *. by apply Forall_app.
Qed.

Lemma only_out_silent {A} (m : M D A) : only_out (silent m).
Proof. intros s. unfold silent. by destruct (m s). Qed.

Lemma only_out_say line : is_out line -> only_out (say line).
Proof. intros Hl s. by repeat constructor. Qed.

Lemma only_out_for {A} (l : list A) body : (forall a, only_out (body a)) -> only_out (forW l body).
Proof.
  intros Hb. induction l as [|x l IH]; [by intros s|]. cbn [forW]. by apply only_out_bind.
Qed.

Lemma only_out_write slot offset blob : only_out (write_said slot offset blob).
Proof.
  apply only_out_for. intros k. apply only_out_bind; [apply only_out_silent|]. intros _ s. unfold tell, progress.
  cbn. case_match; by repeat constructor.
Qed.

Lemma only_out_install slot image name version : only_out (install_said slot image name version).
Proof.
  unfold install_said.
  repeat first [ apply only_out_silent | apply only_out_write | by apply only_out_say | done
               | apply only_out_bind | progress intros | progress case_match ].
Qed.

(** [ends m Q]: if [m] returns, [Q] holds of what it returns and of its last
    line. *)
Definition ends {A} (m : W D A) (Q : A -> option said -> Prop) : Prop :=
  forall s s' l a, m s = (s', l, Ok a) -> Q a (last l).

Lemma ends_after {A B} (m : W D A) (f : A -> W D B) Q :
  (forall a, ends (f a) (fun b line => is_Some line /\ Q b line)) ->
  ends (m ≫= f) (fun b line => is_Some line /\ Q b line).
Proof.
  intros Hf s s' l b. unfold mbind, W_bind. destruct (m s) as [[s1 l1] [a|e]]; [|done].
  destruct (f a s1) as [[s2 l2] r] eqn:E. intros [= <- <- ->]. specialize (Hf a s1 s2 l2 b E) as [[x Hx] HQ].
  rewrite last_app, Hx. rewrite Hx in HQ. eauto.
Qed.

Lemma ends_raise {A} (e : exn) Q : @ends A (silent (lift (Raise e))) Q.
Proof. by intros s s' l a. Qed.

(** An installation that succeeds ends by saying so. *)
Lemma install_ends slot image name version :
  ends (install_said slot image name version) (fun crc line =>
    is_Some line /\ crc = Z.land (crc32 image) 0xFFFFFFFF /\ line = Some (valid_line slot crc)).
Proof.
  unfold install_said. do 2 (apply ends_after; intros ?). apply ends_after; intros status.
  destruct (negb (status =? 0)); [apply ends_raise|]. do 3 (apply ends_after; intros ?).
  apply ends_after; intros [status' crc]. destruct (negb (status' =? 0)); [apply ends_raise|].
  destruct (negb _) eqn:E; [apply ends_raise|]. apply negb_false_iff, Z.eqb_eq in E.
  intros s s' l b. unfold say, tell, mbind, W_bind. cbn. intros [= <- <- <-]. subst crc. eauto.
Qed.

(** What the tool tells the user of an installation is what happened: exit
    status 0 comes with the line that says the slot validates, its checksum
    the file's, and with no error; exit status 1 with one error line, the
    last, that gives the reason of the failure; and what goes beyond that is
    no failure of the protocol.  And its lines change nothing: the status and
    the radio are those of the tool that says nothing. *)
Theorem tool_reports slot image name version s :
  let '(s', l, r) := main_said slot (Some image) name version s in
  main polls slot (Some image) name version s = (s', r) /\
  match r with
  | Ok status =>
      (status = 0 /\ Forall is_out l /\ last l = Some (valid_line slot (Z.land (crc32 image) 0xFFFFFFFF))) \/
      (status = 1 /\ exists l' e, l = l' ++ [Err (lit "failed: " ++ error_text e)] /\ Forall is_out l' /\
         exn_cls e = SlotError)
  | Raise e => Forall is_out l /\ exn_cls e <> SlotError
  end.
Proof.
  pose proof (quiet_main slot (Some image) name version s) as Hq. unfold quiet in Hq. unfold main_said in *.
  set (body := silent (session polls) ≫= _) in *.
  assert (Forall is_out (body s).1.2) as Ho.
  { apply only_out_bind; [apply only_out_silent|]. intros _.
    apply only_out_bind; [apply only_out_install|]. intros _ s0. apply Forall_nil. exact I. }
  assert (ends body (fun _ line => line = Some (valid_line slot (Z.land (crc32 image) 0xFFFFFFFF)) )) as He.
  { intros s0 s' l a. unfold body, mbind, W_bind, silent. destruct (session polls s0) as [s1 [v|e]]; [|done].
    destruct (install_said slot image name version s1) as [[s2 l2] [crc|e]] eqn:E; [|done].
    intros [= <- <- <-]. cbn [app]. rewrite app_nil_r.
    by destruct (install_ends _ _ _ _ _ _ _ _ E) as (_ & -> & ->). }
  assert (ends body (fun a _ => a = 0)) as Hz.
  { intros s0 s' l a. unfold body, mbind, W_bind, silent. destruct (session polls s0) as [s1 [v|e]]; [|done].
    destruct (install_said slot image name version s1) as [[s2 l2] [crc|e]]; [|done]. by intros [= _ _ <-]. }
  specialize (He s). specialize (Hz s). destruct (body s) as [[s1 l] [a|e]]; cbn [fst snd] in Ho.
  - split; [done|]. left. split; [by eapply Hz|]. split; [done|]. by eapply He.
  - destruct (decide (exn_cls e = SlotError)); [|by split]. split; [done|]. right. eauto 6.
Qed.
End tool.

(** The reasons as they are printed. *)
Example reasons :
  map error_text [Exn SlotError "validate: %s" [5]; Exn SlotError "0x0724 offset 0x%x: %s" [4296; 6];
                  Exn SlotError "erase: %s" [77]; Exn SlotError "device CRC %08x does not match the host's %08x" [1; 0xcafe]]
  = map lit ["validate: image CRC mismatch"; "0x0724 offset 0x10c8: external flash timed out"; "erase: 77";
             "device CRC 00000001 does not match the host's 0000cafe"]%string.
Proof. vm_compute. reflexivity. Qed.
