(* ===== verification/Probes.v ===== *)
(** The command-line probes: [src/tools/panel_dump.py] (the panel as text or a
    PNG), [src/tools/gpio_watch.py] (whether a held key reaches the port,
    through gdb), and [src/tools/qom_get.py], [src/tools/qom_ls.py] and
    [src/tools/wiring_check.py] (properties of the machine over QMP).  gdb is
    an argument; so is [str] of a JSON value and the text of an exception. *)
From S2P Require Qmp.
From S2P Require Import Prelude Text Regex Endpoint MakeFlash Lcd Files Commands.
Open Scope Z_scope.
Set Warnings "-register-all".

(** ** panel_dump.py *)

Module PanelDump.

Inductive mapping := Identity | MirrorCols | MirrorRows | Both.
Definition mirrors_cols (m : mapping) : bool := match m with MirrorCols | Both => true | _ => false end.
Definition mirrors_rows (m : mapping) : bool := match m with MirrorRows | Both => true | _ => false end.
Definition mapping_text (m : mapping) : list Z :=
  match m with
  | Identity => lit "identity" | MirrorCols => lit "mirror-cols" | MirrorRows => lit "mirror-rows" | Both => lit "both"
  end.

Definition mapped (m : mapping) (pixels : grid) : grid :=
  let pixels := if mirrors_cols m then map reverse pixels else pixels in
  if mirrors_rows m then reverse pixels else pixels.

Definition ascii_row (row : list Z) : list Z := map (fun value => if value =? 0 then 46 else 35) row.

Section dump.
Context {HR : Runtime} (compress : list Z -> list Z).

(** [len(pixels[0])]. *)
Definition width (pixels : grid) : result Z :=
  match pixels with row :: _ => Ok (zlen row) | [] => raise IndexError "list index out of range" [] end.

Definition main (fs : fsys) (qmp : list Z) (connect : result guest) (m : mapping) (png : option (list Z)) (scale : Z)
    : fsys * list said * result Z :=
  match connect with
  | Raise e =>
      if is_exception e then
        match BuffersTool.first_line e with
        | Raise e => (fs, [], Raise e)
        | Ok l => (fs, [Err (lit "cannot reach QMP at " ++ qmp ++ lit ": " ++ l);
                        Err (lit "if the web UI is running it is holding the one QMP client; stop it, or use");
                        Err (lit "--qmp with the endpoint of an emulator started by tools/run.sh instead.")], Ok 2)
        end
      else (fs, [], Raise e)
  | Ok g =>
      match (panel_pixels g 0%nat).2 with
      | Raise e => (fs, [], Raise e)
      | Ok pixels =>
          let pixels := mapped m pixels in
          match png with
          | Some ((_ :: _) as path) =>
              match encode_png compress pixels scale with
              | Raise e => (exec_all fs [FOpen path], [], Raise e)
              | Ok b =>
                  let fs := write_file fs path b in
                  match width pixels with
                  | Raise e => (fs, [], Raise e)
                  | Ok w => (fs, [Out (lit "wrote " ++ path ++ lit " (" ++ decimal w ++ lit " x " ++ decimal (zlen pixels) ++ lit ")")],
                             Ok 0)
                  end
              end
          | _ =>
              match width pixels with
              | Raise e => (fs, [], Raise e)
              | Ok w => (fs, Out (lit "panel " ++ decimal w ++ lit " x " ++ decimal (zlen pixels) ++ lit ", "
                                  ++ decimal (lit_count pixels) ++ lit " pixels lit, mapping " ++ mapping_text m)
                             :: map (fun row => Out (ascii_row row)) pixels, Ok 0)
              end
          end
      end
  end.
End dump.
End PanelDump.

(** ** The QMP client the probes share *)

(** What [json.loads] returns. *)
Inductive value :=
| VNull | VBool (b : bool) | VInt (n : Z) | VStr (s : list Z) | VList (l : list value) | VObj (fields : list (list Z * value)).

Definition field (key : list Z) (fields : list (list Z * value)) : option value :=
  snd <$> List.find (fun f => bool_decide (f.1 = key)) fields.

(** How far a script gets.  These sockets have no timeout, so a [recv] with
    nothing to read waits for ever: [Blocks] is a script waiting in it, with
    what it has read.  [Unfinished] is a loop out of fuel, which [scripts_end]
    excludes. *)
Inductive ran (A : Type) :=
| Ended (q : Qmp.qmp) (r : result A)
| Blocks (q : Qmp.qmp)
| Unfinished.
Arguments Ended {A}. Arguments Blocks {A}. Arguments Unfinished {A}.

(** A script: it goes on from the connection and what was done so far. *)
Definition IO (A : Type) : Type := Qmp.qmp -> ran A.
#[export] Instance IO_ret : MRet IO := fun _ a q => Ended q (Ok a).
#[export] Instance IO_bind : MBind IO := fun _ _ f m q =>
  match m q with
  | Ended q (Ok a) => f a q
  | Ended q (Raise e) => Ended q (Raise e)
  | Blocks q => Blocks q
  | Unfinished => Unfinished
  end.
Definition pure_ {A} (r : result A) : IO A := fun q => Ended q r.
Definition print (line : list Z) : IO unit := fun q => Ended (Qmp.say line q) (Ok tt).
Fixpoint for_ {A} (l : list A) (f : A -> IO unit) : IO unit :=
  match l with [] => mret tt | x :: l => _ ← f x; for_ l f end.

(** Whether [_read] waits for ever: no line among what arrives, and the
    connection, whose closing is an empty read, stays open. *)
Fixpoint waits (chunks : list (list Z)) (buf : list Z) : bool :=
  if bool_decide (Qmp.NEWLINE ∈ buf) then false
  else match chunks with
       | [] => true
       | [] :: _ => false
       | c :: chunks => waits chunks (buf ++ c)
       end.

Section client.
Context (dumps : Qmp.payload -> list Z) (loads : list Z -> result (gmap (list Z) value)).
(** What the script raises on a closed connection, and what it does with an
    error reply. *)
Context (closed : exn) (on_error : value -> result value).

Definition read : IO (gmap (list Z) value) := fun q =>
  if waits (Qmp.q_in q) (Qmp.q_buf q) then Blocks (Qmp.Qmp (Qmp.pending q) [] (Qmp.q_out q))
  else let '(q, r) := Qmp._read_json loads closed q in Ended q r.

(** The loop of [cmd] and of [command]: unlike [QmpClient], they look for
    "return" first. *)
Fixpoint await (fuel : nat) : IO value :=
  match fuel with
  | O => fun _ => Unfinished
  | S fuel =>
      msg ← read;
      match msg !! lit "return", msg !! lit "error" with
      | Some v, _ => mret v
      | None, Some e => pure_ (on_error e)
      | None, None => await fuel
      end
  end.

Definition cmd (p : Qmp.payload) : IO value := fun q =>
  let q := Qmp.Qmp (Qmp.q_buf q) (Qmp.q_in q) (Qmp.q_out q ++ [Qmp.Sent (dumps p ++ [Qmp.NEWLINE])]) in
  await (S (length (Qmp.pending q))) q.

(** The constructor, once connected: the greeting, then capabilities. *)
Definition connect : IO unit :=
  _ ← read;
  _ ← cmd (Qmp.Payload (lit "qmp_capabilities") []);
  mret tt.
End client.

(** ** qom_get.py, qom_ls.py and wiring_check.py *)

Section scripts.
Context (dumps : Qmp.payload -> list Z) (loads : list Z -> result (gmap (list Z) value)).
(** [json.dumps(v)] and [str(v)]. *)
Context (dumps_value str_value : value -> list Z).

(** [msg["error"].get("desc", "?")]. *)
Definition desc (e : value) : result value :=
  match e with
  | VObj fields => Ok (default (VStr [63]) (field (lit "desc") fields))
  | _ => raise AttributeError "object has no attribute 'get'" []
  end.
(** ["QMP error: " + desc], which ends the two short scripts. *)
Definition exit_on_error (e : value) : result value :=
  d ← desc e;
  match d with
  | VStr d => raise SystemExit "QMP error: %s" d
  | _ => raise TypeError "can only concatenate str" []
  end.
(** [{"__error__": desc}], which wiring_check goes on with. *)
Definition error_value (e : value) : result value := d ← desc e; Ok (VObj [(lit "__error__", d)]).

(** The four clients, which differ in what they say of a closed connection
    and in what they do with an error. *)
Definition connection_closed : exn := Exn SystemExit "QMP connection closed" [].
Definition closed : exn := Exn SystemExit "QMP closed" [].
Definition qom_get_command : Qmp.payload -> IO value := cmd dumps loads connection_closed exit_on_error.
Definition qom_get_connect : IO unit := connect dumps loads connection_closed exit_on_error.
Definition qom_ls_command : Qmp.payload -> IO value := cmd dumps loads connection_closed exit_on_error.
Definition qom_ls_connect : IO unit := connect dumps loads connection_closed exit_on_error.
Definition wiring_cmd : Qmp.payload -> IO value := cmd dumps loads closed error_value.
Definition wiring_connect : IO unit := connect dumps loads closed error_value.
Definition gpio_cmd : Qmp.payload -> IO value := cmd dumps loads closed exit_on_error.
Definition gpio_connect : IO unit := connect dumps loads closed exit_on_error.

Definition qom_get_payload (path property : list Z) : Qmp.payload :=
  Qmp.Payload (lit "qom-get") [(lit "path", Qmp.ArgStr path); (lit "property", Qmp.ArgStr property)].
Definition qom_list_payload (path : list Z) : Qmp.payload :=
  Qmp.Payload (lit "qom-list") [(lit "path", Qmp.ArgStr path)].

(** [for it in v]: the elements of what the emulator answered. *)
Definition elements (v : value) : result (list value) :=
  match v with
  | VList l => Ok l
  | VObj fields => Ok (map (fun f => VStr f.1) fields)
  | VStr s => Ok (map (fun c => VStr [c]) s)
  | _ => raise TypeError "object is not iterable" []
  end.
(** [it["name"]], formatted or searched as a string; [it.get("type", "")]. *)
Definition name_of (it : value) : result (list Z) :=
  match it with
  | VObj fields => match field (lit "name") fields with
                   | Some (VStr s) => Ok s
                   | Some _ => raise TypeError "unsupported format string" []
                   | None => raise LookupError "'name'" []
                   end
  | _ => raise TypeError "string indices must be integers" []
  end.
Definition type_of (it : value) : result value :=
  match it with
  | VObj fields => Ok (default (VStr []) (field (lit "type") fields))
  | _ => raise AttributeError "object has no attribute 'get'" []
  end.

(** qom_get.py: the arguments after the script's name. *)
Definition qom_get_main (usage : list Z) (argv : list (list Z)) : IO Z :=
  match argv with
  | path :: property :: _ =>
      _ ← qom_get_connect;
      v ← qom_get_command (qom_get_payload path property);
      _ ← print (dumps_value v); mret 0
  | _ => _ ← print usage; mret 2
  end.

(** qom_ls.py. *)
Definition ls_line (it : value) : result (list Z) :=
  kind ← type_of it;
  match kind with
  | VStr kind =>
      name ← name_of it;
      Ok ((if starts_with (lit "child<") kind then lit "dir" else lit "   ") ++ lit "  " ++ padded 24 name ++ [32] ++ kind)
  | _ => raise AttributeError "object has no attribute 'startswith'" []
  end.
Definition qom_ls_main (argv : list (list Z)) : IO Z :=
  let root := match argv with root :: _ => root | [] => lit "/machine" end in
  _ ← qom_ls_connect;
  v ← qom_ls_command (qom_list_payload root);
  items ← pure_ (elements v);
  _ ← for_ items (fun it => line ← pure_ (ls_line it); print line);
  mret 0.

(** wiring_check.py: [get], whose value a line prints, and its sections. *)
Definition get (path prop : list Z) : IO (list Z) :=
  r ← wiring_cmd (qom_get_payload path prop);
  match r with
  | VObj fields => match field (lit "__error__") fields with
                   | Some (VStr d) => mret (lit "ERR: " ++ d)
                   | Some _ => pure_ (raise TypeError "can only concatenate str" [])
                   | None => mret (str_value r)
                   end
  | VStr s => mret s
  | _ => mret (str_value r)
  end.

Definition child_line (width : nat) (it : value) : result (list Z) :=
  name ← name_of it; kind ← type_of it;
  Ok (lit "   " ++ padded width name ++ [32] ++ match kind with VStr k => k | v => str_value v end).

Definition cell (label : list Z) (n : Z) : list Z := label ++ [91] ++ decimal n ++ [93].
Definition GPIOB : list Z := lit "/machine/soc/b".
(** The pin of column [c], counted from 1. *)
Definition column_pin (c : Z) : Z := 6 - (c - 1).

(** [int(it["name"][7:-1])]. *)
Definition pin_of (name : list Z) : result Z := int_of (removelast (drop 7 name)).

Definition list_matching (path : list Z) (wanted : list Z -> result bool) : IO unit :=
  v ← wiring_cmd (qom_list_payload path);
  items ← pure_ (elements v);
  for_ items (fun it =>
    name ← pure_ (name_of it);
    w ← pure_ (wanted name);
    if w : bool then line ← pure_ (child_line 12 it); print line else mret tt).

Definition wiring_main : IO Z :=
  _ ← wiring_connect;
  _ ← print (lit "== /machine children ==");
  v ← wiring_cmd (qom_list_payload (lit "/machine"));
  items ← pure_ (elements v);
  _ ← for_ items (fun it => line ← pure_ (child_line 20 it); print line);
  _ ← print (10 :: lit "== GPIOB column outputs (pins 6..3 = cols 1..4) ==");
  _ ← for_ [1; 2; 3; 4] (fun c =>
        let pin := cell (lit "pin-out") (column_pin c) in
        r ← get GPIOB pin; print (lit "   " ++ pin ++ lit " -> " ++ r));
  _ ← print (10 :: lit "== keypad row outputs (rows 0..3 -> pins 15..12) ==");
  _ ← for_ [0; 1; 2; 3] (fun r =>
        let row := cell (lit "row") r in
        v ← get Qmp.KEYPAD_PATH row; print (lit "   " ++ row ++ lit " -> " ++ v));
  _ ← print (10 :: lit "== keypad col input objects (targets of the wiring above) ==");
  _ ← list_matching Qmp.KEYPAD_PATH (fun name => Ok (starts_with (lit "col[") name || starts_with (lit "row[") name));
  _ ← print (10 :: lit "== GPIOB pin-in objects for the row pins ==");
  _ ← list_matching GPIOB (fun name =>
        if starts_with (lit "pin-in[") name then n ← pin_of name; Ok (12 <=? n) else Ok false);
  mret 0.

(** ** gpio_watch.py *)

Definition GPIOB_BASE : Z := 0x50000400.
Definition GPIO_IDR : Z := 0x10.
Definition GPIO_ODR : Z := 0x14.

(** The script gdb is given, a line each. *)
Definition gdb_script (addresses : list Z) : list (list Z) :=
  [lit "set confirm off"; lit "set pagination off"; lit "target remote :1234"]
  ++ map (fun a => lit "x/1xw " ++ hex0x hex_lower 1 a) addresses ++ [lit "detach"; lit "quit"; []].

Context {HU : Unicode}.
Definition is_hex (c : Z) : bool := in_range 48 57 c || in_range 97 102 c || in_range 65 70 c.
Definition HEX : re := Cat (str (lit "0x")) (many (Chr is_hex)).
Definition beside (c : Z) : bool := negb ((c =? 58) || (c =? 10)).        (* [^:\n] *)
Definition WORD : re :=
  Cat Bol (Cat (Grp 1 HEX) (Cat (Star true (Chr beside)) (Cat (one 58) (Cat (Star true (Chr is_space)) (Grp 2 HEX))))).

(** The dictionary [read_words] returns, from what gdb printed. *)
Definition note_word (values : result (gmap Z Z)) (m : state * state) : result (gmap Z Z) :=
  values ← values;
  a ← int_hex (default [] (group 1 m.2)); v ← int_hex (default [] (group 2 m.2));
  Ok (<[a := v]> values).
Definition parse_words (out : list Z) : result (gmap Z Z) := foldl note_word (Ok ∅) (finditer WORD out).

Definition level (word pin : Z) : list Z :=
  if Z.land (Z.shiftr word pin) 1 =? 0 then lit "LOW" else lit "high".
Definition pin_text (kind : list Z) (n pin word : Z) : list Z :=
  kind ++ decimal n ++ lit "(p" ++ decimal pin ++ lit ")=" ++ level word pin.
Definition describe (idr odr : Z) : list Z * list Z :=
  (join [32] (map (fun r => pin_text (lit "row") r (15 - r) idr) [0; 1; 2; 3]),
   join [32] (map (fun c => pin_text (lit "col") c (column_pin c) odr) [1; 2; 3; 4])).

(** gdb: what it prints, given what was done to the machine before. *)
Context (gdb : list Qmp.effect -> list (list Z) -> list Z).
Definition read_words (addresses : list Z) : IO (gmap Z Z) := fun q =>
  Ended q (parse_words (gdb (Qmp.q_out q) (gdb_script addresses))).

Definition press (key : list Z) : IO unit := _ ← gpio_cmd (Qmp.key_payload key); mret tt.
Definition sleep (ms : Z) : IO unit := fun q => Ended (Qmp.sleep ms q) (Ok tt).

Definition hex04 (n : Z) : list Z := hex0x hex_lower 4 n.                  (* {n:#06x} *)
Definition verdict (idr0 idr1 : Z) : list Z :=
  if idr0 =? idr1
  then 10 :: lit "no change in IDR: the row lines are not reaching the GPIO port, or the scan had every column high at sample time"
  else 10 :: lit "IDR changed (bits " ++ hex04 (Z.lxor idr0 idr1) ++ lit ") -- the matrix is wired through".

Definition gpio_main (argv : list (list Z)) : IO Z :=
  let key := match argv with key :: _ => key | [] => lit "MENU" end in
  let idr := GPIOB_BASE + GPIO_IDR in let odr := GPIOB_BASE + GPIO_ODR in
  _ ← gpio_connect;
  _ ← press []; _ ← sleep 200;
  base ← read_words [idr; odr];
  let idr0 := default 0 (base !! idr) in let odr0 := default 0 (base !! odr) in
  _ ← press key; _ ← sleep 200;
  held ← read_words [idr; odr];
  let idr1 := default 0 (held !! idr) in let odr1 := default 0 (held !! odr) in
  _ ← press [];
  _ ← print (lit "released: IDR=" ++ hex04 idr0 ++ lit " ODR=" ++ hex04 odr0);
  _ ← print (lit "  " ++ (describe idr0 odr0).1);
  _ ← print (lit "held " ++ key ++ lit ": IDR=" ++ hex04 idr1 ++ lit " ODR=" ++ hex04 odr1);
  _ ← print (lit "  " ++ (describe idr1 odr1).1);
  _ ← print (lit "  " ++ (describe idr1 odr1).2);
  _ ← print (verdict idr0 idr1);
  mret 0.

(** The script itself never gets there: line 25 reads [os.environ] and
    nothing imports [os].  [gpio_main] is what its [main] would do. *)
Definition gpio_script : IO Z := pure_ (raise NameError "name 'os' is not defined" []).
End scripts.

(** ** Every script ends *)

(** [_read] waits only once everything that arrived is read and no line is
    left of it, and only on a connection that is not closed. *)
Lemma waits_drained : forall chunks buf,
  waits chunks buf = true -> ([] ∉ chunks) /\ Qmp.NEWLINE ∉ buf ++ concat chunks.
Proof.
  induction chunks as [|c chunks IH]; intros buf; cbn [waits]; case_bool_decide as Hb; try done; intros Hw.
  - cbn [concat]. rewrite app_nil_r. split; [apply not_elem_of_nil|done].
  - destruct c as [|b c]; [done|]. destruct (IH _ Hw) as [Hc Hn]. rewrite <- app_assoc in Hn. split; [|done].
    rewrite elem_of_cons. by intros [|].
Qed.

(** A line is returned before the connection is seen closed. *)
Lemma read_line_before closed : forall chunks buf line rest chunks',
  Qmp.read_line closed chunks buf = (Ok line, rest, chunks') -> exists before, chunks = before ++ chunks' /\ ([] ∉ before).
Proof.
  induction chunks as [|c chunks IH]; intros buf line rest chunks'; cbn [Qmp.read_line];
    (case_bool_decide; [destruct (partition _ _); intros [= _ _ <-]; exists []; split; [done|apply not_elem_of_nil]|]); [done|].
  destruct c as [|b c]; [done|]. intros (before & -> & Hb)%IH. exists ((b :: c) :: before). split; [done|].
  rewrite elem_of_cons. by intros [|].
Qed.

(** Never out of fuel; waiting for ever only for an emulator that keeps the
    connection open, once all it sent is read, with no line left of it; and
    past a closed connection only by an exception. *)
Definition settles {A} (q : Qmp.qmp) (o : ran A) : Prop :=
  match o with
  | Ended q' (Ok _) => exists before, Qmp.q_in q = before ++ Qmp.q_in q' /\ ([] ∉ before)
  | Ended _ (Raise _) => True
  | Blocks q' => ([] ∉ Qmp.q_in q) /\ Qmp.q_in q' = [] /\ Qmp.NEWLINE ∉ Qmp.q_buf q'
  | Unfinished => False
  end.
Definition ends {A} (m : IO A) : Prop := forall q, settles q (m q).

Create HintDb ends.

Lemma settles_after {A} before q q' (o : ran A) :
  Qmp.q_in q = before ++ Qmp.q_in q' -> ([] ∉ before) -> settles q' o -> settles q o.
Proof.
  intros Hq Hb. destruct o as [q2 [a|e]|q2|]; cbn [settles]; [|done| |done].
  - intros (b2 & Hq' & Hb2). exists (before ++ b2). rewrite Hq, Hq', app_assoc, elem_of_app. split; [done|]. by intros [].
  - intros [Hi Ho]. rewrite Hq, elem_of_app. split; [|done]. by intros [].
Qed.

Lemma ends_bind {A B} (m : IO A) (f : A -> IO B) : ends m -> (forall a, ends (f a)) -> ends (m ≫= f).
Proof.
  intros Hm Hf q. specialize (Hm q). unfold mbind, IO_bind.
  destruct (m q) as [q' [a|e]|q'|]; [|done|done|done].
  destruct Hm as (before & Hq & Hb). apply (settles_after _ _ _ _ Hq Hb), Hf.
Qed.

Lemma settles_read loads closed : ends (read loads closed).
Proof.
  intros q. unfold read. destruct (waits (Qmp.q_in q) (Qmp.q_buf q)) eqn:Hw.
  - by destruct (waits_drained _ _ Hw).
  - unfold Qmp._read_json.
    destruct (Qmp.read_line closed (Qmp.q_in q) (Qmp.q_buf q)) as [[[line|e] rest] chunks] eqn:E; cbn [mbind result_bind].
    + apply read_line_before in E. by destruct (loads line).
    + done.
Qed.

(** The loop of [cmd] takes a message a round, and a message takes a byte. *)
Lemma await_settles loads closed on_error fuel : forall q,
  (length (Qmp.pending q) < fuel)%nat -> settles q (await loads closed on_error fuel q).
Proof.
  induction fuel as [|fuel IH]; intros q Hf; [lia|]. cbn [await]. unfold mbind, IO_bind.
  pose proof (settles_read loads closed q) as Hr. unfold read in *.
  destruct (waits (Qmp.q_in q) (Qmp.q_buf q)); [done|]. unfold Qmp._read_json in *.
  destruct (Qmp.read_line closed (Qmp.q_in q) (Qmp.q_buf q)) as [[[line|e] rest] chunks] eqn:E;
    cbn [mbind result_bind] in *; [|done].
  destruct (loads line) as [msg|e]; [|done]. apply Qmp.read_line_shrinks in E.
  destruct Hr as (before & Hq & Hb). apply (settles_after before _ _ _ Hq Hb).
  destruct (msg !! lit "return"); [|destruct (msg !! lit "error") as [v|]].
  - exists []. split; [done|apply not_elem_of_nil].
  - unfold pure_. destruct (on_error v); [|done]. exists []. split; [done|apply not_elem_of_nil].
  - apply IH. unfold Qmp.pending in *. cbn [Qmp.q_buf Qmp.q_in]. lia.
Qed.

Lemma ends_cmd dumps loads closed on_error p : ends (cmd dumps loads closed on_error p).
Proof.
  intros q. unfold cmd. set (q1 := Qmp.Qmp _ _ _).
  apply (settles_after [] q q1); [done|apply not_elem_of_nil|]. apply await_settles. lia.
Qed.
Lemma ends_pure {A} (r : result A) : ends (pure_ r).
Proof. intros q. destruct r; [|done]. exists []. split; [done|apply not_elem_of_nil]. Qed.
Lemma ends_ret {A} (a : A) : ends (mret a).
Proof. apply (ends_pure (Ok a)). Qed.
Lemma ends_print line : ends (print line).
Proof. intros q. exists []. split; [done|apply not_elem_of_nil]. Qed.
Lemma ends_sleep ms : ends (sleep ms).
Proof. intros q. exists []. split; [done|apply not_elem_of_nil]. Qed.
Lemma ends_read_words {HU : Unicode} gdb addresses : ends (read_words gdb addresses).
Proof. intros q. apply (ends_pure (parse_words (gdb (Qmp.q_out q) (gdb_script addresses))) q). Qed.
Lemma ends_for {A} (l : list A) f : (forall a, ends (f a)) -> ends (for_ l f).
Proof. intros Hf. induction l; [apply ends_ret|]. cbn. by apply ends_bind. Qed.

#[export] Hint Resolve ends_cmd ends_ret ends_pure ends_print ends_sleep ends_read_words settles_read : ends.

(** Takes a script apart. *)
Ltac script_ends :=
  repeat (first [ progress intros | solve [auto with ends] | apply ends_bind | apply ends_for
                | progress case_match ]).

(** C36. The probes end, or wait for an emulator that says nothing.  Whatever
    the emulator sends, in whatever pieces, events, errors, answers of any
    shape, and whatever gdb prints, the loops of the three scripts over QMP,
    and of what main of gpio_watch would do (the script itself raises NameError at
    its line 25), do not run away.  If the connection is ever closed the
    script ends, with a result or an exception.  As the sockets have no timeout
    it may wait for ever instead: only in recv, on a connection that stays
    open, with everything that arrived read and no line left of it.  An
    emulator that sends nothing, as one whose QMP another client holds, makes
    each of them wait so, with nothing sent and nothing printed. *)
Theorem probes_end {HU : Unicode} dumps loads dumps_value str_value gdb usage path property more argv :
  Forall (fun script : IO Z =>
      (forall q, script q <> Unfinished) /\
      (forall q, [] ∈ Qmp.q_in q -> exists q' r, script q = Ended q' r) /\
      (forall q q', script q = Blocks q' -> ([] ∉ Qmp.q_in q) /\ Qmp.q_in q' = [] /\ Qmp.NEWLINE ∉ Qmp.q_buf q') /\
      script (Qmp.Qmp [] [] []) = Blocks (Qmp.Qmp [] [] []))
    [qom_get_main dumps loads dumps_value usage (path :: property :: more); qom_ls_main dumps loads argv;
     wiring_main dumps loads str_value; gpio_main dumps loads gdb argv].
Proof.
  assert (forall m : IO Z, ends m -> m (Qmp.Qmp [] [] []) = Blocks (Qmp.Qmp [] [] []) ->
      (forall q, m q <> Unfinished) /\
      (forall q, [] ∈ Qmp.q_in q -> exists q' r, m q = Ended q' r) /\
      (forall q q', m q = Blocks q' -> ([] ∉ Qmp.q_in q) /\ Qmp.q_in q' = [] /\ Qmp.NEWLINE ∉ Qmp.q_buf q') /\
      m (Qmp.Qmp [] [] []) = Blocks (Qmp.Qmp [] [] [])) as Hall.
  { intros m Hm H0. split; [|split; [|split]]; [..|done].
    - intros q E. specialize (Hm q). by rewrite E in Hm.
    - intros q Hin. specialize (Hm q). destruct (m q) as [q' r|q'|]; [by eexists _, _|by destruct Hm|done].
    - intros q q' E. specialize (Hm q). by rewrite E in Hm. }
  repeat (apply Forall_cons; split); [..|by apply Forall_nil]; (apply Hall; [|reflexivity]).
  - unfold qom_get_main, qom_get_connect, connect, qom_get_command. script_ends.
  - unfold qom_ls_main, qom_ls_connect, connect, qom_ls_command. script_ends.
  - unfold wiring_main, wiring_connect, connect, list_matching, get, wiring_cmd. script_ends.
  - unfold gpio_main, gpio_connect, connect, press, gpio_cmd. script_ends.
Qed.

(** ** What gdb prints, read back *)

(** gdb's output, a line each: a word it was asked for, with the symbol it
    may put after the address, and lines without a colon. *)
Inductive gline := Noise (text : list Z) | Word (a : Z) (sym : list Z) (v : Z).

Definition gline_text (l : gline) : list Z :=
  match l with
  | Noise t => t
  | Word a sym v => hex0x hex_lower 1 a ++ sym ++ [58; 9] ++ hex0x hex_lower 8 v
  end.
Definition gdb_text (ls : list gline) : list Z := concat (map (fun l => gline_text l ++ [10]) ls).

Definition beside_ok (s : list Z) : Prop := Forall (fun c => beside c = true) s.
Definition gline_ok (l : gline) : Prop :=
  match l with
  | Noise t => beside_ok t
  | Word a sym v => 0 <= a /\ 0 <= v /\ beside_ok sym /\ match sym with c :: _ => is_hex c = false | [] => True end
  end.
Definition words_of (ls : list gline) : list (Z * Z) :=
  omap (fun l => match l with Word a _ v => Some (a, v) | Noise _ => None end) ls.
(** The dictionary, a later line winning. *)
Definition memory (ls : list gline) : gmap Z Z := foldl (fun m w => <[w.1 := w.2]> m) ∅ (words_of ls).

Lemma hex_lower_is_hex d : 0 <= d < 16 -> is_hex (hex_lower d) = true.
Proof.
  assert (Forall (fun d => is_hex (hex_lower d) = true) (zrange 16)) as H by (repeat constructor).
  intros Hd. rewrite Forall_forall in H. by apply H, elem_of_zrange.
Qed.

Lemma digit_of_hex d : 0 <= d < 16 -> digit_of (hex_lower d) = Some d.
Proof.
  assert (Forall (fun d => digit_of (hex_lower d) = Some d) (zrange 16)) as H by (repeat constructor).
  intros Hd. rewrite Forall_forall in H. by apply H, elem_of_zrange.
Qed.

Lemma int_base_hex ds : Forall (fun d => 0 <= d < 16) ds -> forall acc b, ds <> [] ->
  int_base 16 acc b (map hex_lower ds) = Some (foldl (fun a d => a * 16 + d) acc ds).
Proof.
  induction 1 as [|d ds Hd Hds IH]; intros acc b Hne; [done|]. cbn [map int_base foldl].
  rewrite digit_of_hex by done. rewrite (proj2 (Z.ltb_lt _ _)) by lia.
  destruct ds as [|d2 ds]; [done|]. cbn [map]. rewrite <- (IH (acc * 16 + d) true) by done. done.
Qed.

(** A formatted number, as the expression and [int] see it. *)
Lemma hex0x_digits width n : 0 <= n ->
  exists w, hex0x hex_lower width n = lit "0x" ++ w /\ w <> [] /\ Forall (fun c => is_hex c = true) w /\
    int_hex (lit "0x" ++ w) = Ok n.
Proof.
  intros Hn. destruct (hex_spell hex_lower width n Hn eq_refl) as (ds & E & Hne & Hd & Hs).
  exists (map hex_lower ds). unfold hex0x. rewrite E. split; [done|]. split; [by destruct ds|]. split.
  - apply Forall_map. eapply Forall_impl; [exact Hd|]. intros d. apply hex_lower_is_hex.
  - unfold int_hex. change (lit "0x" ++ map hex_lower ds) with (48 :: 120 :: map hex_lower ds).
    cbn [Z.eqb]. rewrite (int_base_hex ds Hd 0 true Hne), Hs. by destruct ds.
Qed.

(** The expression needs a colon before the end of the line. *)
Lemma cut_absurd t u s r : beside_ok t -> beside_ok u -> t ++ 10 :: s <> u ++ 58 :: r.
Proof.
  intros Ht. revert u. induction Ht as [|c t Hc Ht IH]; intros [|d u] Hu He; cbn in He.
  - done.
  - injection He as <- He. apply Forall_cons in Hu as [Hd _]. done.
  - injection He as -> He. done.
  - injection He as <- He. apply Forall_cons in Hu as [_ Hu]. by apply (IH u).
Qed.

Lemma hex_beside w : Forall (fun c => is_hex c = true) w -> beside_ok w.
Proof.
  intros Hw. eapply Forall_impl; [exact Hw|]. intros c. unfold is_hex, in_range, beside. cbn. lia.
Qed.

Lemma reach_hex x z : reach HEX x z -> exists w, beside_ok w /\ st_rest x = w ++ st_rest z.
Proof.
  unfold HEX. intros (y & Hy%reach_str_iff & (w & _ & Hw & Hz)%reach_many_iff)%reach_cat_iff.
  destruct Hy as (R1 & _), Hz as (R2 & _). exists (lit "0x" ++ w). rewrite R1, R2, <- app_assoc. split; [|done].
  apply Forall_app. split; [by repeat constructor|by apply hex_beside].
Qed.

Section reading_back.
Context {HU : Unicode}.

Lemma noise_no_match t l s : beside_ok t -> match_ WORD (State l (t ++ 10 :: s) []) Some = None.
Proof.
  intros Ht. destruct (match_ WORD _ _) as [e|] eqn:E; [|done]. exfalso.
  apply match_sound in E as (e' & Hr & _). unfold WORD in Hr.
  apply reach_cat_iff in Hr as (x1 & [_ ->]%reach_bol_iff & Hr).
  apply reach_cat_iff in Hr as (x2 & (y & Hh & ->)%reach_grp_iff & Hr). apply reach_hex in Hh as (w & Hw & Rw).
  apply reach_cat_iff in Hr as (x3 & (w2 & Hw2 & R2)%reach_run_iff & Hr).
  apply reach_cat_iff in Hr as (x4 & (c & Hc & R3)%reach_chr_iff & _).
  apply Z.eqb_eq in Hc as <-. apply after_capture in R2. destruct R3 as (R3 & _).
  cbn [st_rest] in Rw. rewrite R2, R3 in Rw.
  apply (cut_absurd t (w ++ w2) s (st_rest x4) Ht); [by apply Forall_app|]. by rewrite Rw, <- !app_assoc.
Qed.

(** A line without a word is passed over. *)
Lemma beside_not_newline t : beside_ok t -> Forall (fun c => c <> 10) t.
Proof. intros Ht. eapply Forall_impl; [exact Ht|]. intros c. unfold beside. cbn. lia. Qed.

Lemma search_noise t l s : beside_ok t ->
  search WORD l (t ++ 10 :: s) = search WORD (10 :: reverse t ++ l) s.
Proof.
  intros Ht. pose proof (noise_no_match t l s Ht) as Hn. destruct t as [|c t].
  - cbn [app reverse] in *. by apply search_past.
  - cbn [app] in *. rewrite search_past by done. apply Forall_cons in Ht as [Hc Ht].
    unfold WORD. rewrite search_to_line.
    + by rewrite reverse_cons, <- app_assoc.
    + intros ->. done.
    + by apply beside_not_newline.
Qed.

(** A line with a word is one match, whose groups are the two numbers. *)
Lemma match_word l da sym dv s :
  match l with [] => True | c :: _ => c = 10 end ->
  da <> [] -> Forall (fun c => is_hex c = true) da -> beside_ok sym ->
  match sym with c :: _ => is_hex c = false | [] => True end ->
  dv <> [] -> Forall (fun c => is_hex c = true) dv ->
  exists e, match_ WORD (State l ((lit "0x" ++ da) ++ sym ++ [58; 9] ++ (lit "0x" ++ dv) ++ 10 :: s) []) Some = Some e /\
    st_rest e = 10 :: s /\ (exists c l', st_left e = c :: l' /\ c <> 10) /\
    group 1 e = Some (lit "0x" ++ da) /\ group 2 e = Some (lit "0x" ++ dv).
Proof.
  intros Hl Hda Hha Hsym Hhead Hdv Hhv.
  set (x0 := State l _ []).
  set (l1 := reverse (lit "0x" ++ da) ++ l). set (g1 := [(1%nat, lit "0x" ++ da)]).
  set (l2 := reverse [58; 9] ++ reverse sym ++ l1).
  set (e := State (reverse (lit "0x" ++ dv) ++ l2) (10 :: s) ((2%nat, lit "0x" ++ dv) :: g1)).
  exists e. split; [|split; [done|split; [|done]]].
  2: { destruct (reverse dv) as [|c r] eqn:E; [apply (f_equal length) in E; rewrite length_reverse in E; by destruct dv|].
    exists c, (r ++ reverse (lit "0x") ++ l2). unfold e. cbn [st_left]. rewrite reverse_app, E. cbn [app].
    rewrite <- app_assoc. split; [done|]. intros ->.
    assert (10 ∈ dv) as Hin by (apply elem_of_reverse; rewrite E; by left).
    rewrite Forall_forall in Hhv. by specialize (Hhv _ Hin). }
  assert (at_bol x0 = true) as Hbol by (destruct l as [|c l]; [done|]; cbn in Hl; by subst c).
  unfold WORD. cbn [match_]. rewrite Hbol.
  unfold HEX at 1. cbn [match_]. fold (many (Chr is_hex)). unfold x0 at 1. rewrite <- (app_assoc (lit "0x")). rewrite match_str.
  apply match_many_greedy; [done|done| |].
  { destruct sym as [|c sym]; [done|exact Hhead]. }
  assert (capture 1 x0 (State (reverse da ++ reverse (lit "0x") ++ l) (sym ++ [58; 9] ++ (lit "0x" ++ dv) ++ 10 :: s) [])
    = State l1 (sym ++ [58; 9] ++ (lit "0x" ++ dv) ++ 10 :: s) g1) as ->.
  { unfold capture. cbn [st_left st_rest st_caps]. rewrite (between_text x0 _ (lit "0x" ++ da)).
    - unfold l1, g1. f_equal. by rewrite reverse_app, <- app_assoc.
    - cbn [st_left]. by rewrite reverse_app, <- app_assoc. }
  apply match_run_greedy; [done|done|].
  cbn [match_ one st_rest app]. rewrite Z.eqb_refl. cbn [st_left st_caps].
  apply (match_run_greedy is_space [9]); [by repeat constructor|done|].
  unfold HEX. cbn [match_]. fold (many (Chr is_hex)). rewrite <- (app_assoc (lit "0x")). rewrite match_str.
  apply match_many_greedy; [done|done|done|].
  unfold capture, e. cbn [st_left st_rest st_caps].
  rewrite (between_text _ _ (lit "0x" ++ dv)).
  - do 2 f_equal. unfold l2, l1. by rewrite (reverse_app (lit "0x") dv), <- app_assoc.
  - cbn [st_left]. by rewrite reverse_app, <- app_assoc.
Qed.

Definition groups (ms : list (state * state)) : list (option (list Z) * option (list Z)) :=
  map (fun m => (group 1 m.2, group 2 m.2)) ms.
Definition word_groups (w : Z * Z) : option (list Z) * option (list Z) :=
  (Some (hex0x hex_lower 1 w.1), Some (hex0x hex_lower 8 w.2)).

Lemma scan_search_eq fuel r l s l' s' : search r l s = search r l' s' -> scan fuel r l s = scan fuel r l' s'.
Proof. intros E. destruct fuel; [done|]. cbn [scan]. by rewrite E. Qed.

Lemma search_empty l : search WORD l [] = None.
Proof. cbn [search]. unfold WORD. cbn [match_]. by destruct (at_bol _). Qed.

Lemma scan_gdb ls : Forall gline_ok ls -> forall fuel l,
  (length (gdb_text ls) < fuel)%nat -> match l with [] => True | c :: _ => c = 10 end ->
  groups (scan fuel WORD l (gdb_text ls)) = map word_groups (words_of ls).
Proof.
  induction 1 as [|g ls Hg Hls IH]; intros fuel l Hf Hl.
  - destruct fuel; [done|]. cbn [gdb_text map concat scan]. by rewrite search_empty.
  - cbn [gdb_text map concat] in *. fold (gdb_text ls) in *. rewrite <- app_assoc in *. cbn [app] in *.
    destruct g as [t|a sym v].
    + cbn [gline_text gline_ok] in *. rewrite (scan_search_eq _ _ _ _ _ _ (search_noise t l (gdb_text ls) Hg)).
      rewrite length_app in Hf. cbn [length] in Hf. apply IH; [lia|done].
    + destruct Hg as (Ha & Hv & Hsym & Hhead).
      destruct (hex0x_digits 1 a Ha) as (da & Eda & Hda & Hha & _).
      destruct (hex0x_digits 8 v Hv) as (dv & Edv & Hdv & Hhv & _).
      unfold words_of. cbn [omap list_omap map]. unfold word_groups at 1. cbn [fst snd].
      cbn [gline_text] in *. rewrite Eda, Edv in *. rewrite <- !app_assoc in *.
      destruct (match_word l da sym dv (gdb_text ls) Hl Hda Hha Hsym Hhead Hdv Hhv)
        as (e & Hm & Hr & (c & l' & Hleft & Hc) & H1 & H2). rewrite <- !app_assoc in Hm.
      destruct fuel as [|fuel]; [lia|]. cbn [scan]. rewrite (search_here _ _ _ _ Hm). cbn [st_rest]. rewrite Hr, Hleft.
      rewrite (proj2 (Nat.ltb_lt _ _)) by (rewrite !length_app; cbn [length]; lia).
      cbn [groups map snd]. rewrite H1, H2. f_equal.
      assert (search WORD (c :: l') (10 :: gdb_text ls) = search WORD (10 :: c :: l') (gdb_text ls)) as Es
        by (by apply (search_to_line _ [] (gdb_text ls) (c :: l'))).
      rewrite (scan_search_eq _ _ _ _ _ _ Es).
      apply IH; [|done]. rewrite !length_app in Hf. cbn [length] in Hf. lia.
Qed.

Lemma note_words ms ws : groups ms = map word_groups ws -> Forall (fun w => 0 <= w.1 /\ 0 <= w.2) ws ->
  forall m, foldl note_word (Ok m) ms = Ok (foldl (fun m w => <[w.1 := w.2]> m) m ws).
Proof.
  revert ms. induction ws as [|[a v] ws IH]; intros [|x ms] Hg Hw m; try done.
  cbn [groups map] in Hg. unfold word_groups in Hg at 1. injection Hg as H1 H2 Hg. cbn [fst snd] in *.
  apply Forall_cons in Hw as [[Ha Hv] Hw]. cbn [fst snd] in Ha, Hv.
  destruct (hex0x_digits 1 a Ha) as (da & Ea & _ & _ & Ia). destruct (hex0x_digits 8 v Hv) as (dv & Ev & _ & _ & Iv).
  cbn [foldl]. unfold note_word at 2. cbn [mbind result_bind]. rewrite H1, H2, Ea, Ev. cbn [from_option id].
  rewrite Ia, Iv. cbn [mbind result_bind]. by apply IH.
Qed.

(** Whatever words gdb prints, among whatever lines, [read_words] has them. *)
Lemma parse_gdb_text ls : Forall gline_ok ls -> parse_words (gdb_text ls) = Ok (memory ls).
Proof.
  intros Hls. unfold parse_words, finditer, memory. apply note_words.
  - apply scan_gdb; [done|lia|done].
  - unfold words_of. induction Hls as [|[t|a sym v] ls Hg Hls IH]; cbn; [constructor|done|].
    constructor; [|done]. cbn. destruct Hg as (? & ? & _). done.
Qed.
End reading_back.

(** ** The scripts against an emulator that answers *)

Lemma IO_bind_ok {A B} (m : IO A) (f : A -> IO B) q q' a : m q = Ended q' (Ok a) -> (m ≫= f) q = f a q'.
Proof. unfold mbind, IO_bind. by intros ->. Qed.

Section answered.
Context (dumps : Qmp.payload -> list Z) (loads : list Z -> result (gmap (list Z) value)).
Context (closed : exn) (on_error : value -> result value).

(** A line that is on its way is read, not waited for. *)
Lemma waits_chunked chunks : forall buf,
  Qmp.chunked chunks -> Qmp.NEWLINE ∈ buf ++ concat chunks -> waits chunks buf = false.
Proof.
  induction chunks as [|c chunks IH]; intros buf Hc Hin; cbn [waits]; case_bool_decide as Hb; try done.
  - cbn [concat] in Hin. by rewrite app_nil_r in Hin.
  - apply Forall_cons in Hc as [Hne Hc]. destruct c; [done|]. apply IH; [done|]. by rewrite <- app_assoc.
Qed.

Lemma read_stream line msg rest q :
  Qmp.says loads line msg -> Qmp.chunked (Qmp.q_in q) -> Qmp.pending q = line ++ Qmp.NEWLINE :: rest ->
  exists q', read loads closed q = Ended q' (Ok msg) /\ Qmp.pending q' = rest /\ Qmp.chunked (Qmp.q_in q') /\
    Qmp.q_out q' = Qmp.q_out q.
Proof.
  intros Hs Hc Hp. destruct (Qmp.read_json_stream loads closed line msg rest q Hs Hc Hp) as (q' & E & H).
  exists q'. split; [|done]. unfold read. rewrite waits_chunked, E; [done|done|].
  fold (Qmp.pending q). rewrite Hp. set_solver.
Qed.

Lemma await_stream events reply msg v : forall fuel q rest,
  (length events < fuel)%nat -> Forall (Qmp.is_event loads) events -> Qmp.says loads reply msg ->
  msg !! lit "return" = Some v -> Qmp.chunked (Qmp.q_in q) -> Qmp.pending q = Qmp.wire (events ++ [reply]) ++ rest ->
  exists q', await loads closed on_error fuel q = Ended q' (Ok v) /\
    Qmp.pending q' = rest /\ Qmp.chunked (Qmp.q_in q') /\ Qmp.q_out q' = Qmp.q_out q.
Proof.
  induction events as [|ev events IH]; intros [|fuel] q rest Hf Hev Hs Hv Hc Hp; cbn [length] in Hf; try lia;
    cbn [await]; cbn [app] in Hp; rewrite Qmp.wire_cons, <- app_assoc in Hp; cbn [app] in Hp.
  - destruct (read_stream reply msg _ q Hs Hc Hp) as (q' & E & Hp' & Hc' & Ho').
    rewrite (IO_bind_ok _ _ _ _ _ E).
    exists q'. rewrite Hv. cbn [Qmp.wire map concat app] in Hp'. done.
  - apply Forall_cons in Hev as [(m & Hsay & Hne & Hnr) Hev].
    destruct (read_stream ev m _ q Hsay Hc Hp) as (q' & E0 & Hp' & Hc' & Ho').
    rewrite (IO_bind_ok _ _ _ _ _ E0).
    rewrite Hne, Hnr. destruct (IH fuel q' rest) as (q2 & E & ? & ? & Ho2); try done; [lia|].
    exists q2. by rewrite E, Ho2.
Qed.

Definition sent (p : Qmp.payload) : Qmp.effect := Qmp.Sent (dumps p ++ [Qmp.NEWLINE]).

Lemma cmd_group g p q rest :
  Qmp.group_ok loads g -> Qmp.chunked (Qmp.q_in q) -> Qmp.pending q = Qmp.wire (g.1 ++ [g.2]) ++ rest ->
  exists q' v, cmd dumps loads closed on_error p q = Ended q' (Ok v) /\
    Qmp.pending q' = rest /\ Qmp.chunked (Qmp.q_in q') /\ Qmp.q_out q' = Qmp.q_out q ++ [sent p].
Proof.
  intros (Hev & msg & v & Hs & _ & Hv) Hc Hp. unfold cmd. set (q1 := Qmp.Qmp _ _ _).
  destruct (await_stream g.1 g.2 msg v (S (length (Qmp.pending q1))) q1 rest) as (q' & H1 & H2); try done.
  - change (Qmp.pending q1) with (Qmp.pending q). rewrite Hp, length_app.
    pose proof (Qmp.length_wire (g.1 ++ [g.2])) as Hl. rewrite length_app in Hl. cbn [length] in Hl. lia.
  - by exists q', v.
Qed.

Lemma connect_ok chunks greeting_line hello g rest :
  Qmp.says loads greeting_line hello -> Qmp.group_ok loads g -> Qmp.chunked chunks ->
  concat chunks = Qmp.wire [greeting_line] ++ Qmp.wire (g.1 ++ [g.2]) ++ rest ->
  exists q, connect dumps loads closed on_error (Qmp.Qmp [] chunks []) = Ended q (Ok tt) /\
    Qmp.pending q = rest /\ Qmp.chunked (Qmp.q_in q) /\
    Qmp.q_out q = [sent (Qmp.Payload (lit "qmp_capabilities") [])].
Proof.
  intros Hs Hg Hc Hp. unfold Qmp.wire in Hp at 1. cbn [map concat] in Hp. rewrite app_nil_r, <- app_assoc in Hp.
  cbn [app] in Hp. unfold connect.
  destruct (read_stream greeting_line hello _ (Qmp.Qmp [] chunks []) Hs Hc Hp)
    as (q0 & E0 & P0 & C0 & O0).
  rewrite (IO_bind_ok _ _ _ _ _ E0).
  destruct (cmd_group g (Qmp.Payload (lit "qmp_capabilities") []) q0 _ Hg C0 P0) as (q1 & v & E1 & P1 & C1 & O1).
  rewrite (IO_bind_ok _ _ _ _ _ E1). exists q1. split; [done|]. split; [done|]. split; [done|]. by rewrite O1, O0.
Qed.
End answered.

(** The two registers in what gdb printed, and what the script prints. *)
Definition register (ls : list gline) (offset : Z) : Z := default 0 (memory ls !! (GPIOB_BASE + offset)).
Definition gpio_report (key : list Z) (ls0 ls1 : list gline) : list (list Z) :=
  let idr0 := register ls0 GPIO_IDR in let odr0 := register ls0 GPIO_ODR in
  let idr1 := register ls1 GPIO_IDR in let odr1 := register ls1 GPIO_ODR in
  [lit "released: IDR=" ++ hex04 idr0 ++ lit " ODR=" ++ hex04 odr0; lit "  " ++ (describe idr0 odr0).1;
   lit "held " ++ key ++ lit ": IDR=" ++ hex04 idr1 ++ lit " ODR=" ++ hex04 odr1;
   lit "  " ++ (describe idr1 odr1).1; lit "  " ++ (describe idr1 odr1).2; verdict idr0 idr1].

(** gpio_watch tells what gdb read.  Against an emulator that answers and
    a gdb that prints the words of the two registers, once after the release
    and once after the press, each among any lines without a colon, with or
    without symbols: the script negotiates, releases the keypad, reads,
    presses the key, reads, and releases it again; and it prints the
    registers' values, the level of every row and column, and the bits of the
    input register that differ, or that none does. *)
Theorem gpio_watch_reports {HU : Unicode} dumps loads gdb argv chunks greeting_line hello gs rest ls0 ls1 :
  let key := match argv with key :: _ => key | [] => lit "MENU" end in
  let script := gdb_script [GPIOB_BASE + GPIO_IDR; GPIOB_BASE + GPIO_ODR] in
  let released := [sent dumps (Qmp.Payload (lit "qmp_capabilities") []); sent dumps (Qmp.key_payload []); Qmp.Slept 200] in
  let held := released ++ [sent dumps (Qmp.key_payload key); Qmp.Slept 200] in
  Qmp.says loads greeting_line hello -> length gs = 4%nat -> Forall (Qmp.group_ok loads) gs -> Qmp.chunked chunks ->
  concat chunks = Qmp.wire [greeting_line] ++ Qmp.groups_wire gs ++ rest ->
  Forall gline_ok ls0 -> Forall gline_ok ls1 ->
  gdb released script = gdb_text ls0 -> gdb held script = gdb_text ls1 ->
  exists q, gpio_main dumps loads gdb argv (Qmp.Qmp [] chunks []) = Ended q (Ok 0) /\
    Qmp.q_out q = held ++ [sent dumps (Qmp.key_payload [])] ++ map Qmp.Printed (gpio_report key ls0 ls1).
Proof.
  intros key script released held Hs Hl Hg Hc Hp Hw0 Hw1 G0 G1.
  destruct gs as [|g1 [|g2 [|g3 [|g4 [|]]]]]; try done. repeat (apply Forall_cons in Hg as [? Hg]).
  unfold Qmp.groups_wire in Hp. cbn [map concat] in Hp. rewrite app_nil_r, <- !app_assoc in Hp.
  destruct (connect_ok dumps loads closed exit_on_error chunks greeting_line hello g1 _ Hs H Hc Hp)
    as (q1 & E1 & P1 & C1 & O1).
  destruct (cmd_group dumps loads closed exit_on_error g2 (Qmp.key_payload []) q1 _ H0 C1 P1) as (q2 & v2 & E2 & P2 & C2 & O2).
  destruct (cmd_group dumps loads closed exit_on_error g3 (Qmp.key_payload key) (Qmp.sleep 200 q2) _ H1 C2 P2)
    as (q3 & v3 & E3 & P3 & C3 & O3).
  destruct (cmd_group dumps loads closed exit_on_error g4 (Qmp.key_payload []) (Qmp.sleep 200 q3) _ H2 C3 P3)
    as (q4 & v4 & E4 & P4 & C4 & O4).
  assert (Qmp.q_out (Qmp.sleep 200 q2) = released) as R2 by (cbn [Qmp.sleep Qmp.q_out]; by rewrite O2, O1).
  assert (Qmp.q_out (Qmp.sleep 200 q3) = held) as R3
    by (cbn [Qmp.sleep Qmp.q_out]; rewrite O3, R2; unfold held; by rewrite <- app_assoc).
  eexists. split.
  - unfold gpio_main. fold key. rewrite (IO_bind_ok _ _ _ _ _ E1).
    rewrite (IO_bind_ok (press dumps loads []) _ _ q2 tt) by (unfold press; by rewrite (IO_bind_ok _ _ _ _ _ E2)).
    rewrite (IO_bind_ok (sleep 200) _ _ _ tt eq_refl).
    rewrite (IO_bind_ok (read_words gdb _) _ _ (Qmp.sleep 200 q2) (memory ls0))
      by (unfold read_words; fold script; rewrite R2, G0; by rewrite parse_gdb_text).
    rewrite (IO_bind_ok (press dumps loads key) _ _ q3 tt) by (unfold press; by rewrite (IO_bind_ok _ _ _ _ _ E3)).
    rewrite (IO_bind_ok (sleep 200) _ _ _ tt eq_refl).
    rewrite (IO_bind_ok (read_words gdb _) _ _ (Qmp.sleep 200 q3) (memory ls1))
      by (unfold read_words; fold script; rewrite R3, G1; by rewrite parse_gdb_text).
    rewrite (IO_bind_ok (press dumps loads []) _ _ q4 tt) by (unfold press; by rewrite (IO_bind_ok _ _ _ _ _ E4)).
    repeat rewrite (IO_bind_ok (print _) _ _ _ tt eq_refl). reflexivity.
  - cbn [Qmp.say Qmp.q_out]. rewrite O4, R3. unfold gpio_report, register. cbn [map]. by rewrite <- !app_assoc.
Qed.

Definition toy_loads (line : list Z) : result (gmap (list Z) value) :=
  let '(key, v) := partition 32 line in Ok {[key := VStr v]}.
Definition toy_gdb (done_ : list Qmp.effect) (script : list (list Z)) : list Z :=
  gdb_text (Noise (lit "0x08001234 in main ()") ::
    (if (length done_ <=? 3)%nat then [Word 0x50000410 [] 0xffff; Word 0x50000414 (lit " <odr>") 0x78]
     else [Word 0x50000410 [] 0xefff; Word 0x50000414 (lit " <odr>") 0x38])).

#[local] Existing Instance ascii_tables.
#[local] Existing Instance plain_runtime.

Lemma gpio_watch_reports_witness :
  exists q, gpio_main Qmp.toy_dumps toy_loads toy_gdb [lit "EXIT"]
      (Qmp.Qmp [] [lit "QMP" ++ [10] ++ lit "ret"; lit "urn" ++ [10] ++ lit "return" ++ [10]; lit "return" ++ [10] ++ lit "return" ++ [10]] [])
      = Ended q (Ok 0) /\
    drop 6 (Qmp.q_out q) = map (fun s => Qmp.Printed (lit s))
      ["released: IDR=0xffff ODR=0x0078"; "  row0(p15)=high row1(p14)=high row2(p13)=high row3(p12)=high";
       "held EXIT: IDR=0xefff ODR=0x0038"; "  row0(p15)=high row1(p14)=high row2(p13)=high row3(p12)=LOW";
       "  col1(p6)=LOW col2(p5)=high col3(p4)=high col4(p3)=high"]%string
      ++ [Qmp.Printed (10 :: lit "IDR changed (bits 0x1000) -- the matrix is wired through")].
Proof.
  assert (Qmp.group_ok toy_loads ([], lit "return")) as Hg.
  { split; [constructor|]. exists {[lit "return" := VStr []]}, (VStr []). split; [|split; reflexivity].
    split; [|reflexivity]. refine (bool_decide_unpack _ _). vm_compute. exact I. }
  destruct (gpio_watch_reports Qmp.toy_dumps toy_loads toy_gdb [lit "EXIT"]
    [lit "QMP" ++ [10] ++ lit "ret"; lit "urn" ++ [10] ++ lit "return" ++ [10]; lit "return" ++ [10] ++ lit "return" ++ [10]]
    (lit "QMP") {[lit "QMP" := VStr []]} [([], lit "return"); ([], lit "return"); ([], lit "return"); ([], lit "return")] []
    [Noise (lit "0x08001234 in main ()"); Word 0x50000410 [] 0xffff; Word 0x50000414 (lit " <odr>") 0x78]
    [Noise (lit "0x08001234 in main ()"); Word 0x50000410 [] 0xefff; Word 0x50000414 (lit " <odr>") 0x38])
    as (q & Hq & Ho).
  - split; [|reflexivity]. refine (bool_decide_unpack _ _). vm_compute. exact I.
  - reflexivity.
  - repeat (constructor; [exact Hg|]). constructor.
  - repeat constructor; discriminate.
  - reflexivity.
  - by repeat constructor.
  - by repeat constructor.
  - reflexivity.
  - reflexivity.
  - exists q. split; [exact Hq|]. rewrite Ho. vm_compute. reflexivity.
Defined.

(** ** What panel_dump prints *)

(** The pixel the mapping shows at row [y], column [x]. *)
Definition source_row (m : PanelDump.mapping) (y : Z) : Z := if PanelDump.mirrors_rows m then LCD_HEIGHT - 1 - y else y.
Definition source_col (m : PanelDump.mapping) (x : Z) : Z := if PanelDump.mirrors_cols m then LCD_WIDTH - 1 - x else x.

Lemma drawn_rows P pixels : drawn P pixels -> drawn (fun y x => P (LCD_HEIGHT - 1 - y) x) (reverse pixels).
Proof.
  intros [Hl Hp]. split; [unfold zlen in *; by rewrite length_reverse|]. intros y row Hy.
  pose proof (lookup_lt_Some _ _ _ Hy) as Hlt. rewrite length_reverse in Hlt.
  rewrite reverse_lookup in Hy by done. destruct (Hp _ row Hy) as [Hw Hr]. split; [done|].
  intros x v Hx. rewrite (Hr x v Hx). unfold zlen in Hl.
  by replace (Z.of_nat (length pixels - S y)) with (LCD_HEIGHT - 1 - Z.of_nat y) by lia.
Qed.

Lemma drawn_cols P pixels : drawn P pixels -> drawn (fun y x => P y (LCD_WIDTH - 1 - x)) (map reverse pixels).
Proof.
  intros [Hl Hp]. split; [by rewrite zlen_map|]. intros y row Hy. rewrite list_lookup_fmap in Hy.
  destruct (pixels !! y) as [r|] eqn:E; [|done]. injection Hy as <-. destruct (Hp y r E) as [Hw Hr].
  split; [unfold zlen in *; by rewrite length_reverse|]. intros x v Hx.
  pose proof (lookup_lt_Some _ _ _ Hx) as Hlt. rewrite length_reverse in Hlt.
  rewrite reverse_lookup in Hx by done. rewrite (Hr _ v Hx). unfold zlen in Hw.
  by replace (Z.of_nat (length r - S x)) with (LCD_WIDTH - 1 - Z.of_nat x) by lia.
Qed.

Lemma drawn_mapped m P pixels : drawn P pixels ->
  drawn (fun y x => P (source_row m y) (source_col m x)) (PanelDump.mapped m pixels).
Proof.
  intros Hd. unfold PanelDump.mapped, source_row, source_col.
  destruct m; cbn [PanelDump.mirrors_cols PanelDump.mirrors_rows];
    [done|by apply drawn_cols|by apply drawn_rows|].
  apply (drawn_rows (fun y x => P y (LCD_WIDTH - 1 - x))). by apply drawn_cols.
Qed.


