(* ===== verification/Page.v ===== *)
(** The page that [render_index] of [src/tools/webui.py] serves, its buttons
    and keys: the grid it renders, and the script's handling of pointers, the
    keyboard and PTT, from the events of the browser to the requests it sends
    and through the server's handlers, which may overlap, to the radio. *)
From S2P Require Import Slots Apps.
From S2P Require Import Prelude Text Endpoint Supervisor Files WebUI.
Open Scope Z_scope.

(** ** The keypad that is rendered *)

Definition KEY_GRID : list (list (list Z)) :=
  map (map lit) [["MENU"; "UP"; "DOWN"; "EXIT"]; ["1"; "2"; "3"; "STAR"];
                 ["4"; "5"; "6"; "0"]; ["7"; "8"; "9"; "F"]]%string.
Definition SIDE_KEYS : list (list Z) := map lit ["SIDE1"; "SIDE2"]%string.

(** [BINDINGS], the JSON of [KEY_BINDINGS]. *)
Definition KEY_BINDINGS : list (list Z * list Z) :=
  map (fun p => (lit p.1, lit p.2))
    [("ArrowUp", "UP"); ("ArrowDown", "DOWN"); ("Enter", "MENU"); ("Escape", "EXIT");
     ("KeyF", "F"); ("KeyM", "MENU"); ("BracketLeft", "SIDE1"); ("BracketRight", "SIDE2");
     ("Digit0", "0"); ("Digit1", "1"); ("Digit2", "2"); ("Digit3", "3"); ("Digit4", "4");
     ("Digit5", "5"); ("Digit6", "6"); ("Digit7", "7"); ("Digit8", "8"); ("Digit9", "9")]%string.
Definition binding (code : list Z) : option (list Z) :=
  snd <$> List.find (fun p => bool_decide (p.1 = code)) KEY_BINDINGS.

(** An attribute's value, in double quotes. *)
Definition quoted (s : list Z) : list Z := [34] ++ s ++ [34].

Definition key_button (k : list Z) : list Z :=
  lit "<button class=" ++ quoted (lit "key") ++ lit " data-key=" ++ quoted k ++ lit ">"
  ++ (if bool_decide (k = lit "STAR") then lit "*" else k) ++ lit "</button>".
Definition grid_row (row : list (list Z)) : list Z :=
  lit "<div class='row'>" ++ join [] (map key_button row) ++ lit "</div>".
Definition grid : list Z := join [10] (map grid_row KEY_GRID).

Definition side_button (k : list Z) : list Z :=
  lit "<button class=" ++ quoted (lit "key side") ++ lit " data-key=" ++ quoted k ++ lit ">" ++ k ++ lit "</button>".
Definition ptt_button : list Z :=
  lit "<button class=" ++ quoted (lit "key side ptt") ++ lit " id=" ++ quoted (lit "ptt") ++ lit ">PTT</button>".
Definition sides : list Z := join [] (map side_button SIDE_KEYS) ++ ptt_button.

(** [document.querySelectorAll('.key[data-key]')]: the keys of the buttons. *)
Definition button_keys : list (list Z) := concat KEY_GRID ++ SIDE_KEYS.

(** ** The script's state *)

(** Times are in microseconds, the resolution [performance.now()] is given
    at or a multiple of it. *)
Definition MIN_HOLD_MS : Z := 60.

(** What the page asks of the server. *)
Inductive fetch :=
| FKey (key : list Z) (hold_ms : Z)
| FPtt (held : bool)
| FReleaseAll.

(** [pressedAt], a Map in its order of insertion; the buttons marked active;
    and [pttHeld], which is also how the PTT button is drawn. *)
Record pad := Pad {
  pd_pressed : list (list Z * Z);
  pd_active : gset (list Z);
  pd_ptt : bool
}.
Definition pad_init : pad := Pad [] ∅ false.

Definition started (p : pad) (key : list Z) : option Z :=
  snd <$> List.find (fun e => bool_decide (e.1 = key)) (pd_pressed p).

Definition mark (p : pad) (key : list Z) (on : bool) : pad :=
  Pad (pd_pressed p) (if on then {[key]} ∪ pd_active p else pd_active p ∖ {[key]}) (pd_ptt p).

(** [Math.round(Math.max(now - started, MIN_HOLD_MS))]. *)
Definition hold_sent (started now : Z) : Z := (Z.max (now - started) (MIN_HOLD_MS * 1000) + 500) / 1000.

Definition down (now : Z) (key : list Z) (p : pad) : pad :=
  match started p key with
  | Some _ => p
  | None => mark (Pad (pd_pressed p ++ [(key, now)]) (pd_active p) (pd_ptt p)) key true
  end.

Definition up (now : Z) (key : list Z) (p : pad) : pad * list fetch :=
  match started p key with
  | None => (p, [])
  | Some t =>
      (mark (Pad (List.filter (fun e => negb (bool_decide (e.1 = key))) (pd_pressed p)) (pd_active p) (pd_ptt p))
         key false, [FKey key (hold_sent t now)])
  end.

Definition setPtt (held : bool) (p : pad) : pad * list fetch :=
  if bool_decide (held = pd_ptt p) then (p, [])
  else (Pad (pd_pressed p) (pd_active p) held, [FPtt held]).

(** ** Events *)

Inductive pad_event :=
| PointerDown (key : list Z) | PointerUp (key : list Z)       (* on a button with data-key *)
| PointerLeave (key : list Z) | PointerCancel (key : list Z)
| KeyDown (code : list Z) (repeat : bool) | KeyUp (code : list Z)
| PttDown | PttUp | PttLeave | PttCancel
| Blur | PageHide.

(** [[...pressedAt.keys()].forEach(up)]: the keys are copied first. *)
Fixpoint up_all (now : Z) (keys : list (list Z)) (p : pad) : pad * list fetch :=
  match keys with
  | [] => (p, [])
  | key :: keys => let '(p, fs) := up now key p in let '(p, fs') := up_all now keys p in (p, fs ++ fs')
  end.

Definition on_event (now : Z) (ev : pad_event) (p : pad) : pad * list fetch :=
  match ev with
  | PointerDown key => (down now key p, [])
  | PointerUp key | PointerLeave key | PointerCancel key => up now key p
  | KeyDown code repeat =>
      match binding code with
      | Some key => if repeat then (p, []) else (down now key p, [])
      | None => (p, [])
      end
  | KeyUp code => match binding code with Some key => up now key p | None => (p, []) end
  | PttDown => setPtt true p
  | PttUp | PttLeave | PttCancel => setPtt false p
  | Blur => let '(p, fs) := up_all now (map fst (pd_pressed p)) p in (p, fs ++ [FReleaseAll])
  | PageHide => if pd_ptt p then setPtt false p else (p, [])
  end.

(** A run of the page over events and the times they arrive at. *)
Fixpoint page (evs : list (Z * pad_event)) (p : pad) : pad * list fetch :=
  match evs with
  | [] => (p, [])
  | (now, ev) :: evs =>
      let '(p, fs) := on_event now ev p in let '(p, fs') := page evs p in (p, fs ++ fs')
  end.

(** ** The requests, served *)

Section served.
Context `{Unicode} `{Runtime} {S : Type} `{PowerControl S} (cf : config) (ip : list Z).

(** What the server does with a request of the page, if it is served alone. *)
Definition serve_fetch (w : web S) (f : fetch) : web S * result response :=
  match f with
  | FKey key hold => api_key w (KeyBody (Some key) None (HoldInt hold) ip) (fun w => w)
  | FPtt held => api_ptt w (Some held) ip
  | FReleaseAll => api_release_all w
  end.

(** The page does not wait for its requests, and the server has a thread for
    each.  Where a handler lets others in: a key is held until its release is
    sent, and release-all lets go of PTT after the keys. *)
Inductive job := Holding (key : list Z) | Unkeying.

Definition begin (w : web S) (f : fetch) : web S * option job :=
  match f with
  | FKey key hold =>
      let hold := Z.min hold MAX_HOLD_MS in
      let w := log w (lit "key") (tap_text key hold) ip in
      match set_press w key with
      | Ok w => (tell w (GSleep hold), Some (Holding key))
      | Raise e => (if bool_decide (exn_cls e = LookupError)
                    then log w (lit "key") (key ++ lit " ignored: emulator is off") ip else w, None)
      end
  | FPtt held => ((api_ptt w (Some held) ip).1, None)
  | FReleaseAll => match set_press w [] with Ok w => (w, Some Unkeying) | Raise _ => (w, None) end
  end.
Definition finish (w : web S) (j : job) : web S :=
  match j with
  | Holding key =>
      match set_press w [] with
      | Ok w => w
      | Raise e => if bool_decide (exn_cls e = LookupError)
                   then log w (lit "key") (key ++ lit " ignored: emulator is off") ip else w
      end
  | Unkeying => match set_ptt w false with Ok w => w | Raise _ => w end
  end.

(** The server, the requests that are on their way, and those being served;
    they arrive, and their handlers go on, in any order. *)
Record desk := Desk { dk_web : web S; dk_sent : list fetch; dk_jobs : list job }.
Inductive serves : desk -> desk -> Prop :=
| serves_begin w fs1 f fs2 jobs :
    serves (Desk w (fs1 ++ f :: fs2) jobs) (Desk (begin w f).1 (fs1 ++ fs2) (option_list (begin w f).2 ++ jobs))
| serves_finish w fs jobs1 j jobs2 :
    serves (Desk w fs (jobs1 ++ j :: jobs2)) (Desk (finish w j) fs (jobs1 ++ jobs2)).

(** What the keypad model is sent. *)
Definition effect (f : fetch) : list guest :=
  match f with
  | FKey key hold => [GPress key; GSleep (Z.min hold MAX_HOLD_MS); GPress []]
  | FPtt held => [GPtt held]
  | FReleaseAll => [GPress []; GPtt false]
  end.
End served.

(** ** Presses, key by key *)

(** What an event does to one key: it goes down or up, or nothing. *)
Definition edge (key : list Z) (ev : pad_event) : option bool :=
  match ev with
  | PointerDown k => if bool_decide (k = key) then Some true else None
  | PointerUp k | PointerLeave k | PointerCancel k => if bool_decide (k = key) then Some false else None
  | KeyDown code repeat =>
      if bool_decide (binding code = Some key) && negb repeat then Some true else None
  | KeyUp code => if bool_decide (binding code = Some key) then Some false else None
  | Blur => Some false
  | _ => None
  end.

(** The presses of one key: from each time it goes down, while up, to the
    next time it goes up. *)
Fixpoint taps (key : list Z) (since : option Z) (evs : list (Z * pad_event)) : list (Z * Z) :=
  match evs with
  | [] => []
  | (now, ev) :: evs =>
      match edge key ev, since with
      | Some true, None => taps key (Some now) evs
      | Some false, Some t => (t, now) :: taps key None evs
      | _, _ => taps key since evs
      end
  end.
(** The requests for them. *)
Definition presses (key : list Z) (since : option Z) (evs : list (Z * pad_event)) : list fetch :=
  map (fun tap => FKey key (hold_sent tap.1 tap.2)) (taps key since evs).

(** A request that says how long the key was down: to the nearest
    millisecond, and no less than the debounce floor. *)
Definition measured (key : list Z) (tap : Z * Z) (f : fetch) : Prop :=
  exists ms, f = FKey key ms /\ Z.max (tap.2 - tap.1) 60000 - 500 < 1000 * ms <= Z.max (tap.2 - tap.1) 60000 + 500.

Lemma presses_measured key taps : Forall2 (measured key) taps (map (fun tap => FKey key (hold_sent tap.1 tap.2)) taps).
Proof.
  induction taps as [|[t0 t1] taps IH]; constructor; [|exact IH]. eexists. split; [done|]. cbn [fst snd].
  unfold hold_sent, MIN_HOLD_MS.
  pose proof (Z.div_mod (Z.max (t1 - t0) (60 * 1000) + 500) 1000 ltac:(lia)).
  pose proof (Z.mod_pos_bound (Z.max (t1 - t0) (60 * 1000) + 500) 1000 ltac:(lia)). lia.
Qed.

(** The other requests: PTT each time it changes, and release-all whenever
    the window loses the focus. *)
Fixpoint signals (held : bool) (evs : list (Z * pad_event)) : list fetch :=
  match evs with
  | [] => []
  | (_, ev) :: evs =>
      match ev, held with
      | PttDown, false => FPtt true :: signals true evs
      | (PttUp | PttLeave | PttCancel | PageHide), true => FPtt false :: signals false evs
      | Blur, _ => FReleaseAll :: signals held evs
      | _, _ => signals held evs
      end
  end.

Definition is_key (key : list Z) (f : fetch) : bool :=
  match f with FKey k _ => bool_decide (k = key) | _ => false end.


(** Several lists, interleaved: each keeps its order. *)
Inductive interleaved {A} : list (list A) -> list A -> Prop :=
| interleaved_done ls : Forall (fun l => l = []) ls -> interleaved ls []
| interleaved_step ls ls' x l xs : ls ≡ₚ (x :: l) :: ls' -> interleaved (l :: ls') xs -> interleaved ls (x :: xs).

Lemma interleaved_perm {A} (ls ls' : list (list A)) xs : ls' ≡ₚ ls -> interleaved ls' xs -> interleaved ls xs.
Proof.
  intros Hp Hi. destruct Hi as [ls0 Hl|ls0 ls1 x l xs0 Hp' Hi].
  - constructor. by rewrite <- Hp.
  - econstructor; [|exact Hi]. by rewrite <- Hp.
Qed.
Lemma interleaved_empty {A} (ls : list (list A)) xs : interleaved ls xs -> interleaved ([] :: ls) xs.
Proof.
  induction 1 as [ls Hl|ls ls' x l xs Hp Hi IH]; [constructor; by constructor|].
  apply (interleaved_step _ ([] :: ls') x l); [rewrite Hp; constructor|].
  eapply interleaved_perm; [|exact IH]. constructor.
Qed.
Lemma interleaved_first {A} (l l' : list A) ls xs :
  interleaved (l' :: ls) xs -> interleaved ((l ++ l') :: ls) (l ++ xs).
Proof.
  intros Hi. induction l as [|x l IH]; [exact Hi|]. cbn [app]. by apply (interleaved_step _ ls x (l ++ l')).
Qed.

(** ** One key *)

Lemma find_app_none {A} (f : A -> bool) l x :
  List.find f l = None -> List.find f (l ++ [x]) = if f x then Some x else None.
Proof. induction l as [|y l IH]; cbn; [by destruct (f x)|]. destruct (f y); [done|exact IH]. Qed.
Lemma find_app_some {A} (f : A -> bool) l x y : List.find f l = Some y -> List.find f (l ++ [x]) = Some y.
Proof. induction l as [|z l IH]; cbn; [done|]. destruct (f z); [done|exact IH]. Qed.

Lemma started_none_snoc p key k now :
  started p key = None ->
  (snd <$> List.find (fun e => bool_decide (e.1 = key)) (pd_pressed p ++ [(k, now)])) =
  if bool_decide (k = key) then Some now else None.
Proof.
  unfold started. intros Hn. destruct (List.find _ (pd_pressed p)) eqn:E; [done|].
  rewrite find_app_none by done. cbn. by case_bool_decide.
Qed.

Lemma started_down now k p key :
  started (down now k p) key =
  match started p key with
  | Some t => Some t
  | None => if bool_decide (k = key) then Some now else None
  end.
Proof.
  unfold down. destruct (started p k) as [t|] eqn:Ek.
  - destruct (started p key) eqn:E; [done|]. case_bool_decide as Hk; [subst; congruence|done].
  - unfold started at 1, mark. cbn [pd_pressed]. destruct (started p key) as [t|] eqn:E.
    + unfold started in E. destruct (List.find _ (pd_pressed p)) as [[k' t']|] eqn:Ef; [|done].
      by rewrite (find_app_some _ _ _ _ Ef).
    + by apply started_none_snoc.
Qed.

Lemma find_filter key k (l : list (list Z * Z)) :
  List.find (fun e => bool_decide (e.1 = key)) (List.filter (fun e => negb (bool_decide (e.1 = k))) l) =
  if bool_decide (k = key) then None else List.find (fun e => bool_decide (e.1 = key)) l.
Proof.
  induction l as [|[k' t] l IH]; cbn; [by case_bool_decide|].
  destruct (bool_decide (k' = k)) eqn:E; cbn.
  - apply bool_decide_eq_true in E as ->. rewrite IH. by case_bool_decide.
  - apply bool_decide_eq_false in E. rewrite IH. case_bool_decide as Hk; [|done].
    case_bool_decide; [congruence|done].
Qed.

Lemma started_up now k p key :
  started (up now k p).1 key = if bool_decide (k = key) then None else started p key.
Proof.
  unfold up. destruct (started p k) as [t|] eqn:Ek.
  - cbn. unfold started. cbn [pd_pressed mark]. rewrite find_filter. by case_bool_decide.
  - cbn. case_bool_decide; [congruence|done].
Qed.

Lemma up_sends now k p key :
  List.filter (is_key key) (up now k p).2 =
  if bool_decide (k = key)
  then match started p key with Some t => [FKey key (hold_sent t now)] | None => [] end else [].
Proof.
  unfold up. destruct (started p k) as [t|] eqn:Ek; cbn [snd List.filter is_key].
  - case_bool_decide as H; [|done]. subst. by rewrite Ek.
  - case_bool_decide as H; [|done]. subst. by rewrite Ek.
Qed.

Lemma up_all_key now keys p key :
  started (up_all now keys p).1 key = (if bool_decide (key ∈ keys) then None else started p key) /\
  List.filter (is_key key) (up_all now keys p).2 =
    (if bool_decide (key ∈ keys)
     then match started p key with Some t => [FKey key (hold_sent t now)] | None => [] end else []).
Proof.
  revert p. induction keys as [|k keys IH]; intros p; cbn [up_all].
  - rewrite bool_decide_eq_false_2 by set_solver. done.
  - pose proof (started_up now k p key) as Hs. pose proof (up_sends now k p key) as Hf.
    destruct (up now k p) as [p1 fs]. cbn [fst snd] in *. destruct (IH p1) as [IH1 IH2].
    destruct (up_all now keys p1) as [p2 fs']. cbn [fst snd] in *.
    rewrite List.filter_app, Hf, IH1, IH2, Hs. destruct (decide (k = key)) as [->|Hne].
    + rewrite !(bool_decide_eq_true_2 (key = key)) by done.
      rewrite (bool_decide_eq_true_2 (key ∈ key :: keys)) by by left.
      case_bool_decide; by rewrite app_nil_r.
    + rewrite !(bool_decide_eq_false_2 (k = key)) by done.
      rewrite (bool_decide_ext (key ∈ k :: keys) (key ∈ keys)) by (rewrite elem_of_cons; naive_solver). done.
Qed.

Lemma started_in p key t : started p key = Some t -> key ∈ map fst (pd_pressed p).
Proof.
  unfold started. destruct (List.find _ _) as [[k t']|] eqn:E; [|done]. intros _.
  apply List.find_some in E as [Hin Hk]. apply bool_decide_eq_true in Hk. cbn in Hk. subst.
  apply list_elem_of_In, List.in_map_iff. by exists (key, t').
Qed.

Lemma blur_key now p key :
  started (up_all now (map fst (pd_pressed p)) p).1 key = None /\
  List.filter (is_key key) (up_all now (map fst (pd_pressed p)) p).2 =
    match started p key with Some t => [FKey key (hold_sent t now)] | None => [] end.
Proof.
  destruct (up_all_key now (map fst (pd_pressed p)) p key) as [-> ->].
  destruct (started p key) as [t|] eqn:E.
  - by rewrite bool_decide_eq_true_2 by by eapply started_in.
  - by case_bool_decide.
Qed.

(** What an event does to one key is what its edge says. *)
Lemma on_event_key now ev p key :
  let r := on_event now ev p in
  match edge key ev, started p key with
  | Some true, None => started r.1 key = Some now /\ List.filter (is_key key) r.2 = []
  | Some false, Some t => started r.1 key = None /\ List.filter (is_key key) r.2 = [FKey key (hold_sent t now)]
  | _, _ => started r.1 key = started p key /\ List.filter (is_key key) r.2 = []
  end.
Proof.
  assert (forall k, let r := (down now k p, @nil fetch) in
    match (if bool_decide (k = key) then Some true else None), started p key with
    | Some true, None => started r.1 key = Some now /\ List.filter (is_key key) r.2 = []
    | Some false, Some t => started r.1 key = None /\ List.filter (is_key key) r.2 = [FKey key (hold_sent t now)]
    | _, _ => started r.1 key = started p key /\ List.filter (is_key key) r.2 = []
    end) as Hd.
  { intros k. cbn. rewrite started_down. case_bool_decide; by destruct (started p key). }
  assert (forall k, let r := up now k p in
    match (if bool_decide (k = key) then Some false else None), started p key with
    | Some true, None => started r.1 key = Some now /\ List.filter (is_key key) r.2 = []
    | Some false, Some t => started r.1 key = None /\ List.filter (is_key key) r.2 = [FKey key (hold_sent t now)]
    | _, _ => started r.1 key = started p key /\ List.filter (is_key key) r.2 = []
    end) as Hu.
  { intros k. cbn. rewrite started_up, up_sends. case_bool_decide; by destruct (started p key). }
  assert (forall b, let r := setPtt b p in
    started r.1 key = started p key /\ List.filter (is_key key) r.2 = []) as Hp.
  { intros b. unfold setPtt. by case_bool_decide. }
  destruct ev as [k|k|k|k|code rep|code| | | | | |]; cbn [on_event edge];
    [apply Hd|apply Hu|apply Hu|apply Hu| | |apply Hp|apply Hp|apply Hp|apply Hp| |].
  - destruct (binding code) as [k|]; [|done]. destruct rep; cbn [negb]; [by rewrite andb_false_r|].
    rewrite andb_true_r. specialize (Hd k). rewrite (bool_decide_ext (Some k = Some key) (k = key)) by naive_solver.
    exact Hd.
  - destruct (binding code) as [k|]; [|done]. specialize (Hu k).
    rewrite (bool_decide_ext (Some k = Some key) (k = key)) by naive_solver. exact Hu.
  - destruct (blur_key now p key) as [H1 H2]. destruct (up_all _ _ _) as [p' fs]. cbn in *.
    rewrite List.filter_app, H2. cbn [List.filter is_key]. rewrite app_nil_r. by destruct (started p key).
  - destruct (pd_ptt p); [apply Hp|done].
Qed.

Lemma page_key evs p key :
  List.filter (is_key key) (page evs p).2 = presses key (started p key) evs.
Proof.
  revert p. induction evs as [|[now ev] evs IH]; intros p; [done|]. cbn [page presses].
  pose proof (on_event_key now ev p key) as He. destruct (on_event now ev p) as [p1 fs]. cbn [fst snd] in He.
  specialize (IH p1). destruct (page evs p1) as [p2 fs']. cbn [snd] in *.
  rewrite List.filter_app, IH. unfold presses. cbn [taps].
  destruct (edge key ev) as [[|]|], (started p key); by destruct He as [-> ->].
Qed.

Definition is_signal (f : fetch) : bool := match f with FKey _ _ => false | _ => true end.

Lemma up_quiet now k p : List.filter is_signal (up now k p).2 = [] /\ pd_ptt (up now k p).1 = pd_ptt p.
Proof. unfold up. by destruct (started p k). Qed.
Lemma up_all_quiet now keys p :
  List.filter is_signal (up_all now keys p).2 = [] /\ pd_ptt (up_all now keys p).1 = pd_ptt p.
Proof.
  revert p. induction keys as [|k keys IH]; intros p; [done|]. cbn [up_all].
  destruct (up_quiet now k p) as [H1 H2]. destruct (up now k p) as [p1 fs]. cbn [fst snd] in *.
  destruct (IH p1) as [H3 H4]. destruct (up_all now keys p1) as [p2 fs']. cbn [fst snd] in *.
  by rewrite List.filter_app, H1, H3, H4.
Qed.

Lemma page_signals evs : forall p, List.filter is_signal (page evs p).2 = signals (pd_ptt p) evs.
Proof.
  assert (forall now k p, pd_ptt (down now k p) = pd_ptt p) as Hdown
    by (intros now k p; unfold down; by destruct (started p k)).
  induction evs as [|[now ev] evs IH]; intros p; [done|]. cbn [page signals].
  assert (List.filter is_signal (on_event now ev p).2 ++ signals (pd_ptt (on_event now ev p).1) evs
    = match ev, pd_ptt p with
      | PttDown, false => FPtt true :: signals true evs
      | (PttUp | PttLeave | PttCancel | PageHide), true => FPtt false :: signals false evs
      | Blur, _ => FReleaseAll :: signals (pd_ptt p) evs
      | _, _ => signals (pd_ptt p) evs
      end) as He.
  { assert (forall k, List.filter is_signal (up now k p).2 ++ signals (pd_ptt (up now k p).1) evs = signals (pd_ptt p) evs) as Hup
      by (intros k; by destruct (up_quiet now k p) as [-> ->]).
    assert (forall b, List.filter is_signal (setPtt b p).2 ++ signals (pd_ptt (setPtt b p).1) evs
      = if bool_decide (b = pd_ptt p) then signals (pd_ptt p) evs else FPtt b :: signals b evs) as Hset
      by (intros b; unfold setPtt; by case_bool_decide).
    destruct ev as [k|k|k|k|code again|code| | | | | |]; cbn [on_event]; rewrite ?Hup; try done.
    - cbn. by rewrite Hdown.
    - destruct (binding code) as [k|]; [|done]. destruct again; [done|]. cbn. by rewrite Hdown.
    - destruct (binding code) as [k|]; [apply Hup|done].
    - rewrite Hset. by destruct (pd_ptt p).
    - rewrite Hset. by destruct (pd_ptt p).
    - rewrite Hset. by destruct (pd_ptt p).
    - rewrite Hset. by destruct (pd_ptt p).
    - destruct (up_all_quiet now (map fst (pd_pressed p)) p) as [H1 H2]. destruct (up_all _ _ _) as [p1 fs].
      cbn [fst snd] in *. by rewrite List.filter_app, H1, H2.
    - destruct (pd_ptt p) eqn:E; [by rewrite Hset|by cbn; rewrite E]. }
  rewrite <- He. destruct (on_event now ev p) as [p1 fs]. cbn [fst snd]. specialize (IH p1).
  destruct (page evs p1) as [p2 fs']. cbn [snd] in *. by rewrite List.filter_app, IH.
Qed.

(** The page measures every press and sends it once.  Whatever pointers,
    keyboard and focus do, in any order and on any keys at once, the requests
    for a key are exactly its own presses: one for each time it went down,
    sent when it next goes up, with the time between the two (and at least
    the debounce floor).  No press is sent twice, none is lost, and no other
    key's events change it. *)
Theorem page_presses evs key :
  List.filter (is_key key) (page evs pad_init).2 = presses key None evs.
Proof. apply page_key. Qed.

(** A press held past the firmware's threshold, one below it, and a repeat. *)
Example two_presses :
  (page [(1000, KeyDown (lit "Enter") false); (2000, KeyDown (lit "Enter") true);
         (401000, PointerDown (lit "5")); (451000, KeyUp (lit "Enter")); (452000, PointerLeave (lit "5"));
         (453000, PointerUp (lit "5"))] pad_init).2
    = [FKey (lit "MENU") 450; FKey (lit "5") 60].
Proof. vm_compute. reflexivity. Qed.

(** ** The requests the page sends *)

(** Events come from the page's own buttons. *)
Definition pad_event_ok (ev : pad_event) : Prop :=
  match ev with
  | PointerDown k | PointerUp k | PointerLeave k | PointerCancel k => k ∈ button_keys
  | _ => True
  end.
Definition fetch_ok (f : fetch) : Prop :=
  match f with FKey key hold => key ∈ KEYS /\ MIN_HOLD_MS <= hold | _ => True end.
Definition pad_ok (p : pad) : Prop := Forall (fun e => e.1 ∈ KEYS) (pd_pressed p).

Lemma button_keys_valid k : k ∈ button_keys <-> k ∈ KEYS.
Proof.
  split; revert k; rewrite <- Forall_forall; refine (bool_decide_unpack _ _); vm_compute; exact I.
Qed.
Lemma binding_valid code k : binding code = Some k -> k ∈ KEYS.
Proof.
  unfold binding. destruct (List.find _ _) as [[c k']|] eqn:E; [|done]. intros [= <-].
  apply List.find_some in E as [Hin _]. apply list_elem_of_In in Hin.
  assert (Forall (fun p => p.2 ∈ KEYS) KEY_BINDINGS) as Hall
    by (refine (bool_decide_unpack _ _); vm_compute; exact I).
  rewrite Forall_forall in Hall. exact (Hall _ Hin).
Qed.

Lemma hold_sent_min t now : MIN_HOLD_MS <= hold_sent t now.
Proof. unfold hold_sent, MIN_HOLD_MS. apply Z.div_le_lower_bound; lia. Qed.

Lemma down_ok now k p : k ∈ KEYS -> pad_ok p -> pad_ok (down now k p).
Proof.
  intros Hk Hp. unfold down. destruct (started p k); [done|]. apply Forall_app. split; [done|].
  by apply Forall_singleton.
Qed.
Lemma up_ok now k p : pad_ok p -> pad_ok (up now k p).1 /\ Forall fetch_ok (up now k p).2.
Proof.
  intros Hp. unfold up. destruct (started p k) as [t|] eqn:E; [|done]. split.
  - unfold pad_ok in *. cbn. rewrite Forall_forall in *. intros e He.
    apply list_elem_of_In, List.filter_In in He as [He _]. apply Hp. by apply list_elem_of_In.
  - constructor; [|constructor]. split; [|apply hold_sent_min].
    apply started_in, list_elem_of_In, List.in_map_iff in E as ([k' t'] & <- & Hin).
    unfold pad_ok in Hp. rewrite Forall_forall in Hp. by apply (Hp (k', t')), list_elem_of_In.
Qed.
Lemma up_all_ok now keys p :
  pad_ok p -> pad_ok (up_all now keys p).1 /\ Forall fetch_ok (up_all now keys p).2.
Proof.
  revert p. induction keys as [|k keys IH]; intros p Hp; [done|]. cbn [up_all].
  destruct (up_ok now k p Hp) as [H1 H2]. destruct (up now k p) as [p1 fs]. cbn in *.
  destruct (IH p1 H1) as [H3 H4]. destruct (up_all now keys p1) as [p2 fs']. cbn in *.
  split; [done|]. by apply Forall_app.
Qed.

Lemma setPtt_ok b p : pad_ok p -> pad_ok (setPtt b p).1 /\ Forall fetch_ok (setPtt b p).2.
Proof. intros Hp. unfold setPtt. case_bool_decide; [done|]. split; [done|by repeat constructor]. Qed.

Lemma on_event_ok now ev p :
  pad_event_ok ev -> pad_ok p -> pad_ok (on_event now ev p).1 /\ Forall fetch_ok (on_event now ev p).2.
Proof.
  intros He Hp. destruct ev as [k|k|k|k|code rep|code| | | | | |]; cbn [on_event].
  - split; [|done]. apply down_ok; [by apply button_keys_valid|done].
  - by apply up_ok.
  - by apply up_ok.
  - by apply up_ok.
  - destruct (binding code) as [k|] eqn:E; [|done]. destruct rep; [done|]. split; [|done].
    apply down_ok; [by eapply binding_valid|done].
  - destruct (binding code); [by apply up_ok|done].
  - by apply setPtt_ok.
  - by apply setPtt_ok.
  - by apply setPtt_ok.
  - by apply setPtt_ok.
  - destruct (up_all_ok now (map fst (pd_pressed p)) p Hp) as [H1 H2].
    destruct (up_all _ _ _) as [p1 fs]. split; [done|]. apply Forall_app. split; [done|by repeat constructor].
  - destruct (pd_ptt p); [by apply setPtt_ok|done].
Qed.

Lemma page_ok evs p :
  Forall (fun e => pad_event_ok e.2) evs -> pad_ok p -> Forall fetch_ok (page evs p).2.
Proof.
  intros He. revert p. induction He as [|[now ev] evs He Hes IH]; intros p Hp; [constructor|]. cbn [page].
  destruct (on_event_ok now ev p He Hp) as [H1 H2]. destruct (on_event now ev p) as [p1 fs]. cbn in *.
  specialize (IH p1 H1). destruct (page evs p1) as [p2 fs']. by apply Forall_app.
Qed.

(** ** Served by the radio *)

Section radio.
Context {HU : Unicode} {HR : Runtime} {S : Type} {HP : PowerControl S} (ip : list Z).

(** The emulator is on and answers. *)
Definition radio_on (w : web S) : Prop := is_Some (pc_client (w_sup w)) /\ pc_answers (w_sup w) = true.

Lemma normalise_KEYS k : k ∈ KEYS -> normalise (Some k) = k /\ is_valid k = true.
Proof.
  intros Hk. assert (normalise (Some k) = k) as E.
  { revert k Hk. apply Forall_forall. unfold KEYS. repeat (constructor; [reflexivity|]). constructor. }
  split; [done|]. unfold is_valid. rewrite E. by apply bool_decide_eq_true_2.
Qed.

Lemma set_press_on w v : radio_on w -> set_press w v = Ok (tell w (GPress v)).
Proof. intros [[c Hc] Ha]. unfold set_press. by rewrite Hc, Ha. Qed.
Lemma set_ptt_on w b : radio_on w -> set_ptt w b = Ok (tell w (GPtt b)).
Proof. intros [[c Hc] Ha]. unfold set_ptt. by rewrite Hc, Ha. Qed.

(** A request of the page is accepted, and the keypad model gets exactly it. *)
Lemma serve_fetch_on w f :
  radio_on w -> fetch_ok f ->
  let '(w', r) := serve_fetch ip w f in
  (exists b, r = Ok (200, b)) /\ w_guest w' = w_guest w ++ effect f /\ w_sup w' = w_sup w.
Proof.
  intros Hw Hf. destruct f as [key hold|held|]; cbn [serve_fetch].
  - destruct Hf as [Hk Hh]. destruct (normalise_KEYS key Hk) as [En Ev]. unfold api_key. cbn [kb_key kb_action kb_hold kb_ip].
    rewrite En, Ev. cbn [negb]. change (lower (strip (or_else None (lit "tap")))) with (lit "tap").
    rewrite bool_decide_eq_false_2 by (intros E; apply E; do 2 right; by left).
    unfold hold_of. rewrite (proj2 (Z.ltb_ge hold 0)) by (unfold MIN_HOLD_MS in Hh; lia).
    unfold press. rewrite !bool_decide_eq_false_2 by done.
    rewrite set_press_on by exact Hw. rewrite set_press_on by exact Hw.
    split; [by eexists|]. split; [|done]. cbn. by rewrite <- !app_assoc.
  - unfold api_ptt. rewrite set_ptt_on by exact Hw. split; [by eexists|]. done.
  - unfold api_release_all. rewrite set_press_on by exact Hw. rewrite set_ptt_on by exact Hw.
    split; [by eexists|]. split; [|done]. cbn. by rewrite <- app_assoc.
Qed.

(** A key request with other requests served during its hold. *)
Lemma key_overlap w key hold others :
  fetch_ok (FKey key hold) ->
  (api_key w (KeyBody (Some key) None (HoldInt hold) ip) others).1 =
  match begin ip w (FKey key hold) with
  | (w, Some j) => finish ip (others w) j
  | (w, None) => w
  end.
Proof.
  intros [Hk Hh]. destruct (normalise_KEYS key Hk) as [En Ev]. unfold api_key. cbn [kb_key kb_action kb_hold kb_ip].
  rewrite En, Ev. cbn [negb]. change (lower (strip (or_else None (lit "tap")))) with (lit "tap").
  rewrite bool_decide_eq_false_2 by (intros E; apply E; do 2 right; by left).
  unfold hold_of. rewrite (proj2 (Z.ltb_ge hold 0)) by (unfold MIN_HOLD_MS in Hh; lia).
  unfold press, begin, finish. rewrite !(bool_decide_eq_false_2 (lit "tap" = _)) by done.
  destruct (set_press _ key) as [w1|e]; [|by case_bool_decide].
  destruct (set_press _ []) as [w2|e]; [done|]. by case_bool_decide.
Qed.
Lemma release_overlap w :
  (api_release_all w).1 =
  match begin ip w FReleaseAll with (w, Some j) => finish ip w j | (w, None) => w end.
Proof.
  unfold api_release_all, begin, finish. destruct (set_press w []) as [w1|e]; [|by case_bool_decide].
  destruct (set_ptt w1 false) as [w2|e]; [done|]. by case_bool_decide.
Qed.

(** What a request has still to send. *)
Definition rest (j : job) : list guest := match j with Holding _ => [GPress []] | Unkeying => [GPtt false] end.

Lemma begin_on w f :
  radio_on w -> exists sent, effect f = sent ++ default [] (rest <$> (begin ip w f).2) /\
    w_guest (begin ip w f).1 = w_guest w ++ sent /\ w_sup (begin ip w f).1 = w_sup w.
Proof.
  intros Hw. destruct f as [key hold|held|]; cbn [begin].
  - rewrite set_press_on by exact Hw. exists [GPress key; GSleep (Z.min hold MAX_HOLD_MS)].
    cbn. by rewrite <- !app_assoc.
  - unfold api_ptt. rewrite set_ptt_on by exact Hw. by exists [GPtt held].
  - rewrite set_press_on by exact Hw. by exists [GPress []].
Qed.
Lemma finish_on w j :
  radio_on w -> w_guest (finish ip w j) = w_guest w ++ rest j /\ w_sup (finish ip w j) = w_sup w.
Proof. intros Hw. destruct j; cbn [finish]; [by rewrite set_press_on|by rewrite set_ptt_on]. Qed.

(** The commands of every request, each in their order, interleaved. *)
Lemma serves_interleaved d d' :
  rtc (serves ip) d d' -> radio_on (dk_web d) -> dk_sent d' = [] -> dk_jobs d' = [] ->
  exists gs, w_guest (dk_web d') = w_guest (dk_web d) ++ gs /\ w_sup (dk_web d') = w_sup (dk_web d) /\
    interleaved (map effect (dk_sent d) ++ map rest (dk_jobs d)) gs.
Proof.
  induction 1 as [d|d d1 d' Hs Hr IH]; intros Hw Hf Hj.
  - exists []. rewrite app_nil_r, Hf, Hj. split; [done|]. split; [done|]. constructor. constructor.
  - destruct Hs as [w fs1 f fs2 jobs|w fs jobs1 j jobs2]; cbn [dk_web dk_sent dk_jobs] in *.
    + destruct (begin_on w f Hw) as (sent & He & Hg & Hs). destruct (begin ip w f) as [w1 j]. cbn [fst snd] in *.
      destruct IH as (gs & Hgs & Hsup & Hi); [unfold radio_on; by rewrite Hs|done|done|].
      exists (sent ++ gs). rewrite Hgs, Hg, Hsup, app_assoc. split; [done|]. split; [done|].
      rewrite map_app in *. cbn [map]. apply (interleaved_perm _ (effect f :: map effect fs1 ++ map effect fs2 ++ map rest jobs)).
      { rewrite <- app_assoc. cbn [app]. by rewrite <- Permutation_middle. }
      rewrite He. apply interleaved_first. rewrite map_app in Hi. destruct j as [j|]; cbn [option_list map app fmap option_fmap option_map from_option id] in *.
      * eapply interleaved_perm; [|exact Hi]. rewrite <- !app_assoc. symmetry.
        rewrite (app_assoc (map effect fs1)), Permutation_middle, <- app_assoc. done.
      * apply interleaved_empty. by rewrite <- app_assoc in Hi.
    + destruct (finish_on w j Hw) as [Hg Hs].
      destruct IH as (gs & Hgs & Hsup & Hi); [unfold radio_on; by rewrite Hs|done|done|].
      exists (rest j ++ gs). rewrite Hgs, Hg, Hsup, app_assoc. split; [done|]. split; [done|].
      rewrite !map_app in *. cbn [map].
      apply (interleaved_perm _ (rest j :: map effect fs ++ map rest jobs1 ++ map rest jobs2)).
      { by rewrite !app_assoc, <- Permutation_middle. }
      rewrite <- (app_nil_r (rest j)). rewrite <- app_assoc. apply interleaved_first. by apply interleaved_empty.
Qed.

(** Every request ends with the release of what it pressed. *)
Definition pressed_last (gs : list guest) : option (list Z) :=
  foldl (fun last g => match g with GPress v => Some v | _ => last end) None gs.
Definition lets_go (gs : list guest) : Prop := pressed_last gs = None \/ pressed_last gs = Some [].

Lemma pressed_last_cons g gs :
  pressed_last (g :: gs) = match pressed_last gs with
                           | Some v => Some v
                           | None => match g with GPress v => Some v | _ => None end
                           end.
Proof.
  unfold pressed_last. cbn [foldl]. generalize (match g with GPress v => Some v | _ => @None (list Z) end).
  induction gs as [|g' gs IH]; intros o; cbn [foldl]; [done|]. destruct g'; [|apply IH|apply IH].
  rewrite IH. by destruct (foldl _ None gs).
Qed.

Lemma released_after ls gs :
  interleaved ls gs -> Forall lets_go ls -> forall kp,
  kp.1 = [] \/ Exists (fun l => is_Some (pressed_last l)) ls ->
  (foldl (fun kp g => match g with GPress v => (v, kp.2) | GPtt held => (kp.1, held) | GSleep _ => kp end) kp gs).1 = [].
Proof.
  induction 1 as [ls Hls|ls ls' g l gs Hp Hi IH]; intros Hg kp Hk.
  - cbn. destruct Hk as [|Hk]; [done|]. apply Exists_exists in Hk as (l & Hl & Hs).
    rewrite Forall_forall in Hls. rewrite (Hls l Hl) in Hs. by destruct Hs.
  - rewrite Hp in Hg. apply Forall_cons in Hg as [Hl Hg].
    assert (Exists (fun l => is_Some (pressed_last l)) ls -> Exists (fun l => is_Some (pressed_last l)) ((g :: l) :: ls')) as Hex
      by (intros H; by rewrite Hp in H).
    unfold lets_go in Hl. rewrite pressed_last_cons in Hl. cbn [foldl]. apply IH.
    + constructor; [|done]. unfold lets_go. destruct (pressed_last l); [exact Hl|by left].
    + destruct (pressed_last l) as [v|] eqn:El; [right; left; by rewrite El|].
      destruct g as [v|ms|held]; cbn [fst]; [destruct Hl as [|[= ->]]; [done|by left]|..];
        (destruct Hk as [Hk|Hk]; [by left|right]; apply Hex in Hk; inversion Hk as [? ? [v Hv]|]; subst;
         [rewrite pressed_last_cons, El in Hv; done|by right]).
Qed.

(** C5. What the user does is what the radio gets.  For any events on the
    page's own buttons and keys, with the times they happen at: the requests
    for each key are its presses, in order, each with the time it was down, to
    the nearest millisecond and at least the debounce floor of 60 ms; the
    others are PTT whenever it changes, and release-all when the window loses
    the focus.  The server of a running radio answers each with 200.  It
    serves them as they come, in any order and overlapping, a handler for
    each: what the keypad model is sent is the commands of all of them
    interleaved, those of each in their order - a key's press, its hold of at
    most five seconds, and its release - and nothing else; and once all are
    served no key is held.  So a hold may be cut short, by another key's
    release or by release-all.  (Requests of other clients and power actions
    are left out here.) *)
Theorem page_reaches_radio w evs w' :
  radio_on w -> Forall (fun e => pad_event_ok e.2) evs ->
  let fs := (page evs pad_init).2 in
  rtc (serves ip) (Desk w fs []) (Desk w' [] []) ->
  (forall key, Forall2 (measured key) (taps key None evs) (List.filter (is_key key) fs)) /\
  List.filter is_signal fs = signals false evs /\
  Forall (fun f => forall v, radio_on v -> exists b, (serve_fetch ip v f).2 = Ok (200, b)) fs /\
  exists gs, w_guest w' = w_guest w ++ gs /\ interleaved (map effect fs) gs /\ (keypad gs).1 = [].
Proof.
  intros Hw He fs Hr. pose proof (page_ok evs pad_init He (Forall_nil_2 _)) as Hf. fold fs in Hf.
  split; [intros key; unfold fs; rewrite page_key; apply presses_measured|].
  split; [apply (page_signals evs pad_init)|]. split.
  - eapply Forall_impl; [exact Hf|]. intros f Hok v Hv. pose proof (serve_fetch_on v f Hv Hok) as Hs.
    destruct (serve_fetch ip v f) as [v' r]. by destruct Hs.
  - destruct (serves_interleaved _ _ Hr Hw eq_refl eq_refl) as (gs & Hg & _ & Hi).
    cbn [dk_web dk_sent dk_jobs map] in *. rewrite app_nil_r in Hi. exists gs. split; [done|]. split; [done|].
    unfold keypad. apply (released_after _ _ Hi); [|by left]. apply Forall_map, Forall_forall. intros f _.
    destruct f; [by right|by left|by right].
Qed.
End radio.

(** ** PTT *)

(** Whether PTT is held at the radio after requests. *)
Definition ptt_after (held : bool) (fs : list fetch) : bool :=
  foldl (fun held f => match f with FKey _ _ => held | FPtt b => b | FReleaseAll => false end) held fs.

Lemma ptt_after_app held fs1 fs2 : ptt_after held (fs1 ++ fs2) = ptt_after (ptt_after held fs1) fs2.
Proof. unfold ptt_after. by rewrite foldl_app. Qed.

Lemma keypad_ptt fs : (keypad (concat (map effect fs))).2 = ptt_after false fs.
Proof.
  unfold keypad. enough (forall kp, (foldl (fun kp g => match g with
    | GPress v => (v, kp.2) | GPtt held => (kp.1, held) | GSleep _ => kp end) kp (concat (map effect fs))).2
    = ptt_after kp.2 fs) as H by apply H. unfold ptt_after.
  induction fs as [|f fs IH]; intros kp; [done|]. cbn [map concat foldl]. rewrite foldl_app, IH. by destruct f.
Qed.

Lemma up_ptt now k p held : pd_ptt (up now k p).1 = pd_ptt p /\ ptt_after held (up now k p).2 = held.
Proof. unfold up. by destruct (started p k). Qed.
Lemma up_all_ptt now keys p held :
  pd_ptt (up_all now keys p).1 = pd_ptt p /\ ptt_after held (up_all now keys p).2 = held.
Proof.
  revert p. induction keys as [|k keys IH]; intros p; [done|]. cbn [up_all].
  destruct (up_ptt now k p held) as [H1 H2]. destruct (up now k p) as [p1 fs]. cbn [fst snd] in *.
  destruct (IH p1) as [H3 H4]. destruct (up_all now keys p1) as [p2 fs']. cbn [fst snd] in *.
  rewrite ptt_after_app, H2, H3. done.
Qed.
Lemma down_ptt now k p : pd_ptt (down now k p) = pd_ptt p.
Proof. unfold down. by destruct (started p k). Qed.
Lemma setPtt_ptt b p : pd_ptt (setPtt b p).1 = b /\ ptt_after (pd_ptt p) (setPtt b p).2 = b.
Proof. unfold setPtt. case_bool_decide; by subst. Qed.

Definition releases_ptt (ev : pad_event) : bool :=
  match ev with PttUp | PttLeave | PttCancel | PageHide => true | _ => false end.

(** One event, from a radio whose PTT is held only if the page holds it. *)
Lemma on_event_ptt now ev p held :
  (held = true -> pd_ptt p = true) ->
  let r := on_event now ev p in
  (ptt_after held r.2 = true -> pd_ptt r.1 = true) /\
  (held = pd_ptt p -> ev <> Blur -> ptt_after held r.2 = pd_ptt r.1) /\
  (releases_ptt ev = true -> pd_ptt r.1 = false).
Proof.
  intros Hh. assert (forall b, let r := setPtt b p in
    (ptt_after held r.2 = true -> pd_ptt r.1 = true) /\ (held = pd_ptt p -> ptt_after held r.2 = pd_ptt r.1) /\
    pd_ptt r.1 = b) as Hs.
  { intros b. cbv zeta. destruct (setPtt_ptt b p) as [H1 H2]. rewrite H1. split; [|split; [by intros ->|done]].
    unfold setPtt. case_bool_decide; [by subst|]. done. }
  destruct ev as [k|k|k|k|code rep|code| | | | | |]; cbv zeta; cbn [on_event fst snd releases_ptt].
  - rewrite down_ptt. done.
  - destruct (up_ptt now k p held) as [-> ->]. done.
  - destruct (up_ptt now k p held) as [-> ->]. done.
  - destruct (up_ptt now k p held) as [-> ->]. done.
  - destruct (binding code) as [k|]; [|done]. destruct rep; [done|]. cbn [fst snd]. rewrite down_ptt. done.
  - destruct (binding code) as [k|]; [|done]. destruct (up_ptt now k p held) as [-> ->]. done.
  - destruct (Hs true) as (?&?&?). naive_solver.
  - destruct (Hs false) as (?&?&?). naive_solver.
  - destruct (Hs false) as (?&?&?). naive_solver.
  - destruct (Hs false) as (?&?&?). naive_solver.
  - destruct (up_all_ptt now (map fst (pd_pressed p)) p held) as [H1 H2].
    destruct (up_all _ _ _) as [p1 fs]. cbn [fst snd] in *. rewrite ptt_after_app. by split; [|split].
  - destruct (pd_ptt p) eqn:E; [|cbn; rewrite E; by split; [|split]].
    destruct (Hs false) as (?&?&?). naive_solver.
Qed.

Lemma page_app evs1 evs2 p :
  page (evs1 ++ evs2) p =
  ((page evs2 (page evs1 p).1).1, (page evs1 p).2 ++ (page evs2 (page evs1 p).1).2).
Proof.
  revert p. induction evs1 as [|[now ev] evs1 IH]; intros p; cbn [app page fst snd]; [by destruct (page evs2 p)|].
  destruct (on_event now ev p) as [p1 fs]. rewrite IH. destruct (page evs1 p1) as [p2 fs']. cbn.
  by rewrite app_assoc.
Qed.

Lemma page_ptt evs :
  let '(p, fs) := page evs pad_init in
  (ptt_after false fs = true -> pd_ptt p = true) /\
  (Forall (fun e => e.2 <> Blur) evs -> ptt_after false fs = pd_ptt p).
Proof.
  induction evs as [|[now ev] evs IH] using rev_ind; [done|]. rewrite page_app.
  destruct (page evs pad_init) as [p fs]. destruct IH as [IH1 IH2]. cbn [fst snd page].
  destruct (on_event_ptt now ev p (ptt_after false fs) IH1) as (H1 & H2 & _).
  destruct (on_event now ev p) as [p1 fs1]. cbn [fst snd] in *. rewrite app_nil_r, ptt_after_app.
  split; [done|]. intros [Ha Hb]%Forall_app. apply H2; [by apply IH2|]. by inversion Hb.
Qed.

(** The radio never transmits behind the user's back, as long as its requests
    are served in the order they were sent.  After any events,
    if the keypad model holds PTT then the page shows it held; as long as the
    window keeps the focus the two agree; and letting go of the button,
    dragging off it, losing the pointer or closing the page releases it. *)
Theorem ptt_follows_button evs now ev :
  let '(p, fs) := page (evs ++ [(now, ev)]) pad_init in
  let held := (keypad (concat (map effect fs))).2 in
  (held = true -> pd_ptt p = true) /\
  (Forall (fun e => e.2 <> Blur) evs -> ev <> Blur -> held = pd_ptt p) /\
  (releases_ptt ev = true -> held = false /\ pd_ptt p = false).
Proof.
  pose proof (page_ptt (evs ++ [(now, ev)])) as H. pose proof (page_ptt evs) as H0.
  rewrite page_app in *. destruct (page evs pad_init) as [p fs]. cbn [fst snd page] in *.
  destruct H0 as [H0 _]. destruct (on_event_ptt now ev p (ptt_after false fs) H0) as (_ & _ & H3).
  destruct (on_event now ev p) as [p1 fs1]. cbn [fst snd] in *. rewrite keypad_ptt.
  destruct H as [H1 H2]. split; [done|]. split.
  - intros Ha Hb. apply H2. apply Forall_app. split; [done|]. by repeat constructor.
  - intros Hr. specialize (H3 Hr). split; [|done]. destruct (ptt_after false _) eqn:E; [|done].
    rewrite H1 in H3 by done. done.
Qed.

(** PTT pressed and let go sends two requests and waits for neither; served
    the other way round, they leave the radio keyed with the page showing it
    is not. *)
Theorem ptt_served_backwards {HU : Unicode} {HR : Runtime} {S : Type} {HP : PowerControl S} ip (w : web S) t0 t1 :
  radio_on w ->
  let '(p, fs) := page [(t0, PttDown); (t1, PttUp)] pad_init in
  pd_ptt p = false /\
  exists w', rtc (serves ip) (Desk w fs []) (Desk w' [] []) /\ w_guest w' = w_guest w ++ [GPtt false; GPtt true].
Proof.
  intros Hw. split; [done|]. eexists. split.
  - eapply rtc_l; [apply (serves_begin ip w [FPtt true] (FPtt false) [])|].
    eapply rtc_l; [apply (serves_begin ip _ [] (FPtt true) [])|]. apply rtc_refl.
  - cbn [begin fst]. unfold api_ptt. rewrite (set_ptt_on w) by exact Hw. cbn [fst].
    rewrite set_ptt_on by exact Hw. cbn. by rewrite <- app_assoc.
Qed.

(** Losing the focus while PTT is held leaves the button red.  The blur
    releases PTT at the radio, the page still shows it held, and pressing the
    button again sends nothing until it has been let go. *)
Theorem blur_leaves_ptt_red t0 t1 t2 :
  let '(p, fs) := page [(t0, PttDown); (t1, Blur)] pad_init in
  pd_ptt p = true /\ (keypad (concat (map effect fs))).2 = false /\ on_event t2 PttDown p = (p, []).
Proof. done. Qed.

(** ** Concrete events *)

#[local] Existing Instance ascii_tables.
#[local] Existing Instance plain_runtime.

Definition menu_then_digit : list (Z * pad_event) :=
  [(0, PointerDown (lit "MENU")); (10000, KeyDown (lit "Digit5") false); (9000000, PointerUp (lit "MENU"));
   (9100000, PttDown); (9200000, Blur)].

(** MENU's hold is under way when PTT, the digit and release-all come; the
    digit takes MENU's place, and release-all lets go of it. *)
Definition crossed : web sup :=
  let b w f := (begin here w f).1 in
  let w := b (b (b w0 (FKey (lit "MENU") 9000)) (FPtt true)) (FKey (lit "5") 9190) in
  let w := finish here (b w FReleaseAll) Unkeying in
  finish here (finish here w (Holding (lit "5"))) (Holding (lit "MENU")).

Lemma page_reaches_radio_witness :
  let fs := (page menu_then_digit pad_init).2 in
  fs = [FKey (lit "MENU") 9000; FPtt true; FKey (lit "5") 9190; FReleaseAll] /\
  Forall2 (measured (lit "5")) [(10000, 9200000)] (List.filter (is_key (lit "5")) fs) /\
  w_guest crossed = [GPress (lit "MENU"); GSleep 5000; GPtt true; GPress (lit "5"); GSleep 5000;
                     GPress []; GPtt false; GPress []; GPress []] /\
  exists gs, w_guest crossed = gs /\ interleaved (map effect fs) gs /\ (keypad gs).1 = [].
Proof.
  cbv zeta.
  assert ((page menu_then_digit pad_init).2
    = [FKey (lit "MENU") 9000; FPtt true; FKey (lit "5") 9190; FReleaseAll]) as E by (vm_compute; reflexivity).
  assert (rtc (serves here) (Desk w0 (page menu_then_digit pad_init).2 []) (Desk crossed [] [])) as Hr.
  { rewrite E. eapply rtc_l; [apply (serves_begin here w0 [])|]. cbn [app].
    eapply rtc_l; [apply (serves_begin here _ [])|]. cbn [app].
    eapply rtc_l; [apply (serves_begin here _ [])|]. cbn [app].
    eapply rtc_l; [apply (serves_begin here _ [])|].
    eapply rtc_l; [apply (serves_finish here _ [] [] Unkeying [Holding (lit "5"); Holding (lit "MENU")])|].
    eapply rtc_l; [apply (serves_finish here _ [] [] (Holding (lit "5")) [Holding (lit "MENU")])|].
    eapply rtc_l; [apply (serves_finish here _ [] [] (Holding (lit "MENU")) [])|]. apply rtc_refl. }
  pose proof (page_reaches_radio here w0 menu_then_digit crossed
    ltac:(split; [exists 0%nat; reflexivity|vm_compute; reflexivity])) as H.
  assert (Forall (fun e => pad_event_ok e.2) menu_then_digit) as He.
  { repeat constructor; refine (bool_decide_unpack _ _); vm_compute; exact I. }
  destruct (H He Hr) as (Hk & _ & _ & gs & Hg & Hi). split; [exact E|]. split; [exact (Hk (lit "5"))|].
  split; [vm_compute; reflexivity|]. exists gs. split; [exact Hg|exact Hi].
Defined.

(** The page has a button for every key of the model, and no other. *)
Lemma page_buttons k : k ∈ button_keys <-> is_valid k = true /\ normalise (Some k) = k.
Proof.
  rewrite button_keys_valid. split; [intros Hk; by destruct (normalise_KEYS k Hk)|].
  intros [Hv Hn]. unfold is_valid in Hv. apply bool_decide_eq_true in Hv. by rewrite Hn in Hv.
Qed.
