(* ===== verification/Panes.v ===== *)
(** The rest of the script [render_index] of [src/tools/webui.py] serves: the
    power buttons and the stream's reconnection, the status line, the log
    pane, the tables of slots and apps, and the firmware label.  The JSON the
    handlers answer with is a value here, so that what the script reads of it
    is what [jsonify] was given. *)
From S2P Require Import Slots Apps.
From S2P Require Import Prelude Text Endpoint Image Logs Stream Supervisor Files Views WebUI.
From S2P Require RadioApps.
Open Scope Z_scope.
Set Warnings "-register-all".

(** ** JSON, as the script reads it *)

Inductive json :=
| JNull | JBool (b : bool) | JNum (n : Z) | JStr (s : list Z) | JObj (fields : list (list Z * json)).

(** [v.key]; [None] is undefined. *)
Definition get (key : list Z) (v : json) : option json :=
  match v with
  | JObj fields => snd <$> List.find (fun f => bool_decide (f.1 = key)) fields
  | _ => None
  end.
Definition truthy (v : option json) : bool :=
  match v with
  | None | Some JNull | Some (JBool false) | Some (JNum 0) | Some (JStr []) => false
  | _ => true
  end.
(** A value in a string concatenation. *)
Definition as_text (v : option json) : list Z :=
  match v with
  | None => lit "undefined" | Some JNull => lit "null"
  | Some (JBool b) => if b then lit "true" else lit "false"
  | Some (JNum n) => decimal n | Some (JStr s) => s
  | Some (JObj _) => lit "[object Object]"
  end.
(** [a || b]. *)
Definition or_text (v : option json) (d : list Z) : list Z := if truthy v then as_text v else d.

(** ** The firmware label *)

Definition opt_hex (v : option Z) : json :=
  match v with None => JNull | Some z => JStr (lit "0x" ++ hex hex_lower 8 z) end.

(** [dict(info.as_dict(), multiboot=...)]. *)
Definition firmware_json (i : image_info) (multiboot : option bool) : json :=
  JObj [(lit "name", JStr (basename (ii_path i))); (lit "path", JStr (ii_path i));
        (lit "kind", JStr (kind_text (ii_kind i))); (lit "app_offset", JNum (ii_app_offset i));
        (lit "size", JNum (ii_size i)); (lit "sp", opt_hex (ii_sp i)); (lit "reset", opt_hex (ii_reset i));
        (lit "multiboot", match multiboot with None => JNull | Some b => JBool b end)].

(** The note of a mismatch. *)
Definition restored_text (banner : list Z) : list Z :=
  lit "the device reports " ++ banner
  ++ lit ", which is not in the image we asked it to boot: the bootloader most likely restored the internal flash from an external slot first".

Definition running_json (r : option (list Z * bool * bool)) : json :=
  match r with
  | None => JNull
  | Some (banner, matches, note) =>
      JObj [(lit "banner", JStr banner); (lit "matches_uploaded", JBool matches);
            (lit "note", if note then JStr (restored_text banner) else JNull)]
  end.

(** What GET /api/firmware answers. *)
Definition api_firmware_json `{Unicode} (lb : log_buffer) (image : image_slot)
    (file : list Z -> option (list Z)) : json :=
  let '(loaded, _, running) := api_firmware lb image file in
  JObj [(lit "loaded", JBool loaded);
        (lit "firmware", match image with
                         | None => JNull
                         | Some i => firmware_json i (image_has_multiboot <$> file (ii_path i))
                         end);
        (lit "running", running_json running)].

Definition fwLabel (fw : json) : list Z :=
  as_text (get (lit "name") fw) ++ lit " (" ++ as_text (get (lit "kind") fw) ++ lit ")"
  ++ (match get (lit "multiboot") fw with
      | Some (JBool false) => lit " - no multi-system menu" | _ => [] end)
  ++ (match get (lit "running") fw with
      | Some running =>
          if truthy (Some running) && truthy (get (lit "banner") running) then
            lit " | device reports: " ++ as_text (get (lit "banner") running)
            ++ (match get (lit "matches_uploaded") running with
                | Some (JBool false) => lit "  <-- NOT this image" | _ => [] end)
          else []
      | None => []
      end).

(** [pollFirmware]: the label it shows. *)
Definition firmware_label (info : json) : list Z :=
  match get (lit "firmware") info with
  | Some fw => if truthy (Some fw) then fwLabel fw else lit "none loaded - drop a .bin here"
  | None => lit "none loaded - drop a .bin here"
  end.

(** [loadFirmware], when the server answered. *)
Definition upload_label (ok : bool) (info : json) : list Z :=
  if ok then
    match get (lit "firmware") info with
    | Some fw => fwLabel fw ++ (if truthy (get (lit "restarted") info) then lit " - rebooting" else lit " - press On")
    | None => []
    end
  else or_text (get (lit "error") info) (lit "upload failed").

(** ** Status *)

(** [jsonify] of /api/status: the fields the script reads. *)
Definition panel_json (p : option (bool * Z * bool)) : json :=
  match p with
  | None => JNull
  | Some (invert, contrast, display) =>
      JObj [(lit "invert", JBool invert); (lit "contrast", JNum contrast); (lit "display", JBool display)]
  end.
Definition status_json (b : status_body) : json :=
  match b with
  | Off => JObj [(lit "powered", JBool false); (lit "status", JStr (lit "off"))]
  | Unreachable _ => JObj [(lit "powered", JBool false); (lit "status", JStr (lit "unreachable"))]
  | Powered info speaker panel _ _ _ =>
      JObj ([(lit "powered", JBool true);
             (lit "speaker", match speaker with None => JNull | Some b => JBool b end);
             (lit "panel", panel_json panel)] ++ map (fun f => (f.1, JStr f.2)) info)
  end.

(** What the page shows of it. *)
Record shown := Shown {
  sh_power : list Z;        (* #powerstate *)
  sh_screen_off : bool;     (* the class that hides the frame *)
  sh_speaker : bool;
  sh_panel : list Z;
  sh_status : list Z
}.

Definition MIDDOT : list Z := [32; 0xb7; 32].
Definition panel_text (panel : option json) : list Z :=
  match panel with
  | Some p =>
      if truthy panel then
        join MIDDOT
          ([lit "CTR " ++ as_text (get (lit "contrast") p)]
           ++ (if truthy (get (lit "invert") p) then [lit "INV"] else [])
           ++ (if truthy (get (lit "display") p) then [] else [lit "PANEL OFF"]))
      else []
  | None => []
  end.

(** [poll]: [None] is a request that failed. *)
Definition poll_shows (reply : option json) : shown :=
  match reply with
  | Some s =>
      let powered := truthy (get (lit "powered") s) in
      Shown (if powered then lit "on" else lit "off") (negb powered) (truthy (get (lit "speaker") s))
        (panel_text (get (lit "panel") s))
        (if powered then lit "guest: " ++ or_text (get (lit "status") s) (lit "unknown")
         else lit "powered off -- press On to boot")
  | None => Shown (lit "off") true false [] (lit "server unreachable")
  end.

(** ** The power buttons and the stream *)

Inductive ask :=
| AskPower (action : list Z) (boot : option (list Z))
| AskStatus
| AskStream                (* img.src = '/stream?t=...' *)
| AskFrame.                (* img.src = '/frame.png?t=...' *)

(** The stream's reconnection is declared inside the click handler's
    [finally]: every click makes another copy, with its own [streamRetries],
    its own error listener and its own five-second timer.  [br_polls] counts
    the quarter-second timers, which nothing ever clears, and
    [br_reconnects] the one-second timeouts that are running. *)
Record bar := Bar {
  br_disabled : bool;
  br_retries : list Z;      (* one per copy *)
  br_reconnects : nat;
  br_polls : nat;
  br_status : list Z
}.
Definition bar_init : bar := Bar false [] 0 0 [].

Inductive bar_event :=
| Click (action : list Z) (boot : option (list Z)) (confirmed : bool)
| Answer (action : list Z) (failure : option (list Z))  (* the text of a refusal, or of a failed request *)
| StreamError
| ReconnectTimer                (* one of the one-second timeouts *)
| FiveSeconds (blank : bool)    (* every copy's timer; blank: nothing was drawn *)
| FrameTimers.                  (* the quarter-second timers *)

(** One copy's error listener. *)
Definition retry (b : bar) : bar :=
  Bar (br_disabled b) (br_retries b) (S (br_reconnects b)) (br_polls b) (br_status b).
Definition poll_frames (b : bar) : bar :=
  Bar (br_disabled b) (br_retries b) (br_reconnects b) (S (br_polls b)) (br_status b).
Definition on_stream_error (b : bar) : bar :=
  let counts := map (fun n => n + 1) (br_retries b) in
  foldl (fun b n => if n <=? 2 then retry b else poll_frames b)
    (Bar (br_disabled b) counts (br_reconnects b) (br_polls b) (br_status b)) counts.

Definition bar_step (b : bar) (ev : bar_event) : bar * list ask :=
  match ev with
  | Click action boot confirmed =>
      if br_disabled b then (b, [])
      else if bool_decide (action = lit "off") && negb confirmed then (b, [])
      else (Bar true (br_retries b) (br_reconnects b) (br_polls b) (br_status b), [AskPower action boot])
  | Answer action failure =>
      (Bar false (br_retries b ++ [0]) (br_reconnects b) (br_polls b)
         (match failure with Some text => text | None => br_status b end), [AskStatus; AskStream])
  | StreamError => (on_stream_error b, [])
  | ReconnectTimer =>
      match br_reconnects b with
      | O => (b, [])
      | S n => (Bar (br_disabled b) (br_retries b) n (br_polls b) (br_status b), [AskStream])
      end
  | FiveSeconds blank => (b, if blank then map (fun _ => AskStream) (br_retries b) else [])
  | FrameTimers => (b, repeat AskFrame (br_polls b))
  end.

Fixpoint bar_run (b : bar) (evs : list bar_event) : bar * list ask :=
  match evs with
  | [] => (b, [])
  | ev :: evs => let '(b, a) := bar_step b ev in let '(b, a') := bar_run b evs in (b, a ++ a')
  end.

(** ** The log pane *)

Definition MAX_LOG_LINES : nat := 500.

(** One entry, as it is appended. *)
Definition entry_text (e : entry) : list Z :=
  e_time e ++ lit " " ++ (match e_ip e with Some ((_ :: _) as ip) => ip | _ => lit "-" end)
  ++ lit " [" ++ e_source e ++ lit "] " ++ e_text e ++ [10].

(** [lines.slice(-MAX_LOG_LINES).join('\n')] when there are more. *)
Definition trim_lines (text : list Z) : list Z :=
  let lines := split_on 10 text in
  if (MAX_LOG_LINES <? length lines)%nat
  then join [10] (drop (length lines - MAX_LOG_LINES) lines) else text.

Record pane := Pane { pn_cursor : Z; pn_text : list Z }.
Definition pane_init : pane := Pane 0 [].

(** [pollLogs], when the reply arrives. *)
Definition pane_reply (p : pane) (es : list entry) (cursor : Z) : pane :=
  if bool_decide (es = []) then Pane cursor (pn_text p)
  else Pane cursor (trim_lines (pn_text p ++ concat (map entry_text es))).

(** The pane and the polls that are under way: each asked from the cursor the
    pane had when it began.  The timer begins one every two seconds, whether
    or not the last has been answered. *)
Inductive pane_event :=
| PollBegins
| PollAnswered (k : nat).     (* the server answers the [k]-th poll under way, and the reply arrives *)

Definition pane_step (lb : log_buffer) (s : pane * list Z) (ev : pane_event) : pane * list Z :=
  let '(p, polls) := s in
  match ev with
  | PollBegins => (p, polls ++ [pn_cursor p])
  | PollAnswered k =>
      match polls !! k with
      | Some since => (pane_reply p (entries lb since) (cursor lb), take k polls ++ drop (S k) polls)
      | None => (p, polls)
      end
  end.

(** ** The tables *)

(** A row of [/api/slots]. *)
Definition slot_json (r : json_row) : json :=
  JObj ([(lit "slot", JNum (r_slot r)); (lit "base", JNum (r_base r));
         (lit "empty", JBool (match r_header r with None => true | _ => false end))]
        ++ match r_header r with
           | None => []
           | Some h => [(lit "name", JStr (Slots.sh_name h)); (lit "fw_version", JStr (Slots.sh_fw_version h));
                        (lit "image_size", JNum (Slots.sh_image_size h)); (lit "crc_ok", JBool (Slots.sh_crc_ok h))]
           end).

(** [tr.innerHTML] of a slot's row. *)
Definition slot_label (s : json) : list Z :=
  if truthy (get (lit "empty") s) then lit "<i>empty</i>"
  else or_text (get (lit "name") s) (lit "?") ++ lit " " ++ or_text (get (lit "fw_version") s) [].
Definition slot_size (s : json) : list Z :=
  if truthy (get (lit "empty") s) then []
  else as_text (get (lit "image_size") s) ++ lit " B"
       ++ (if truthy (get (lit "crc_ok") s) then [] else lit "  CRC MISMATCH").
Definition slot_html (s : json) : list Z :=
  lit "<td>slot " ++ as_text (get (lit "slot") s)
  ++ (match get (lit "slot") s with Some (JNum 0) => lit " (Main)" | _ => [] end)
  ++ lit "</td><td>" ++ slot_label s ++ lit "</td><td>" ++ slot_size s ++ lit "</td><td></td>".

(** What the page does to the user and the server in one exchange. *)
Inductive act :=
| Disable (on : bool) | Alert (text : list Z) | Confirm (text : list Z)
| PutSlot (slot : Z) (name : list Z) | EraseSlot (slot : Z)
| PutApp (slot : Z) (force : bool) | EraseApp (slot : Z)
| PutFlash (name : list Z)
| Reload.     (* loadSlots or loadApps, then poll *)

(** A slot's file input: a file was chosen, and the server's [error]. *)
Definition slot_upload (slot : Z) (file : option (list Z)) (error : option (list Z)) : list act :=
  match file with
  | None => []
  | Some name =>
      [Disable true; PutSlot slot name]
      ++ (match error with
          | Some ((_ :: _) as e) => [Alert (lit "slot " ++ decimal slot ++ lit ": " ++ e)] | _ => [] end)
      ++ [Reload]
  end.
Definition slot_erase (slot : Z) (yes : bool) (error : option (list Z)) : list act :=
  Confirm (lit "Erase slot " ++ decimal slot ++ lit "?") ::
  if yes then
    [Disable true; EraseSlot slot]
    ++ (match error with
        | Some ((_ :: _) as e) => [Alert (lit "slot " ++ decimal slot ++ lit ": " ++ e)] | _ => [] end)
    ++ [Reload]
  else [].

(** An app's file input: the first answer's error, the user's, and the
    second answer's error. *)
Definition app_upload (slot : Z) (file : bool) (error1 : option (list Z)) (yes : bool) (error2 : option (list Z))
  : list act :=
  let alert e := match e with
                 | Some ((_ :: _) as e) => [Alert (lit "app " ++ decimal slot ++ lit ": " ++ e)] | _ => [] end in
  if negb file then []
  else
    [Disable true; PutApp slot false] ++
    match error1 with
    | Some e =>
        if contains (lit "already holds") e then
          Confirm (lit "app " ++ decimal slot ++ lit ": " ++ e ++ lit " -- overwrite it?") ::
          if yes then [PutApp slot true] ++ alert error2 ++ [Reload] else [Disable false]
        else alert error1 ++ [Reload]
    | None => [Reload]
    end.

Definition app_erase (slot : Z) (yes : bool) (error : option (list Z)) : list act :=
  Confirm (lit "Erase app slot " ++ decimal slot ++ lit "?") ::
  if yes then
    [Disable true; EraseApp slot]
    ++ (match error with
        | Some ((_ :: _) as e) => [Alert (lit "app " ++ decimal slot ++ lit ": " ++ e)] | _ => [] end)
    ++ [Reload]
  else [].

(** The flash image's file input.  The question's text is passed to [confirm]
    as two arguments, of which it shows the first. *)
Definition flash_upload (file : option (list Z)) (yes : bool) (error : option (list Z)) : list act :=
  match file with
  | None => []
  | Some name =>
      Confirm (lit "Use " ++ name ++ lit " as the external flash image? Slots, settings") ::
      if yes then
        [PutFlash name] ++ (match error with Some ((_ :: _) as e) => [Alert e] | _ => [] end) ++ [Reload]
      else []
  end.

(** Everything the tables let the user do, with what the server and the user
    answer on the way. *)
Inductive gesture :=
| ChooseSlot (slot : Z) (file : option (list Z)) (error : option (list Z))
| ClickEraseSlot (slot : Z) (yes : bool) (error : option (list Z))
| ChooseApp (slot : Z) (file : bool) (error1 : option (list Z)) (yes : bool) (error2 : option (list Z))
| ClickEraseApp (slot : Z) (yes : bool) (error : option (list Z))
| ChooseFlash (file : option (list Z)) (yes : bool) (error : option (list Z)).
Definition acts (g : gesture) : list act :=
  match g with
  | ChooseSlot slot file error => slot_upload slot file error
  | ClickEraseSlot slot yes error => slot_erase slot yes error
  | ChooseApp slot file error1 yes error2 => app_upload slot file error1 yes error2
  | ClickEraseApp slot yes error => app_erase slot yes error
  | ChooseFlash file yes error => flash_upload file yes error
  end.

(** The text of an app's row, and what the radio said of it. *)
Definition app_json (r : app_row) : json :=
  match r with
  | AppEmpty slot base => JObj [(lit "slot", JNum slot); (lit "base", JNum base); (lit "state", JStr (lit "empty"))]
  | AppHere slot base i =>
      JObj [(lit "slot", JNum slot); (lit "base", JNum base); (lit "state", JStr (lit "app"));
            (lit "name", JStr (i_name i)); (lit "version", JStr (i_version i));
            (lit "code_size", JNum (i_code_size i)); (lit "shortcut", JStr (i_shortcut i));
            (lit "committed", JBool (i_committed i)); (lit "crc32", JNum (i_crc32 i))]
  | AppOther slot base s =>
      JObj [(lit "slot", JNum slot); (lit "base", JNum base);
            (lit "state", JStr (match s with
                                | Apps.SlotApp _ _ _ => lit "app"
                                | Apps.SlotUnreadable _ _ => lit "app (unreadable header)"
                                | Apps.SlotFirmware _ _ _ => lit "firmware"
                                | Apps.SlotUnknown _ _ _ => lit "unknown" end));
            (lit "name", JStr (match s with
                               | Apps.SlotApp _ _ i => i_name i
                               | Apps.SlotUnreadable _ _ => lit "FAP1"
                               | Apps.SlotFirmware _ _ magic | Apps.SlotUnknown _ _ magic => magic end))]
  end.

Definition app_what (s : json) : list Z :=
  match get (lit "state") s with
  | Some (JStr state) =>
      if bool_decide (state = lit "app") then
        as_text (get (lit "name") s) ++ lit " " ++ as_text (get (lit "version") s)
        ++ (if truthy (get (lit "shortcut") s) && negb (bool_decide (as_text (get (lit "shortcut") s) = lit "none"))
            then MIDDOT ++ as_text (get (lit "shortcut") s) else [])
      else if bool_decide (state = lit "empty") then lit "<i>Empty</i>"
      else lit "<i>" ++ state ++ lit "</i>" ++ [32; 0x2014; 32] ++ lit "not an app"
  | _ => []
  end.
Definition app_size (s : json) : list Z :=
  match get (lit "state") s with
  | Some (JStr state) => if bool_decide (state = lit "app") then as_text (get (lit "code_size") s) ++ lit " B" else []
  | _ => []
  end.

(** [radioApps]: what the last "Ask the radio" left, an error or a list. *)
Inductive radio_apps := NotAsked | AskFailed (error : list Z) | Asked (slots : list json).
Definition app_said (r : radio_apps) (slot : Z) : list Z :=
  match r with
  | Asked slots =>
      match slots !! Z.to_nat slot with
      | Some a => match get (lit "status") a with
                  | Some (JNum 0) => lit "radio: " ++ as_text (get (lit "name") a)
                  | status => lit "radio: status " ++ as_text status
                  end
      | None => []
      end
  | _ => []
  end.
(** What /api/apps/radio answers of a slot: the decoded reply, under the slot
    asked about. *)
Definition radio_json `{Runtime} (r : RadioApps.row) : json :=
  let slot := (lit "slot", JNum r.1) in
  match r.2 with
  | ReplyShort => JObj [(lit "status", JNull); (lit "note", JStr (lit "short reply")); slot]
  | ReplyBare _ status => JObj [slot; (lit "status", JNum status)]
  | ReplyMagic _ status magic => JObj [slot; (lit "status", JNum status); (lit "magic", JStr magic)]
  | ReplyNote _ status e => JObj [slot; (lit "status", JNum status); (lit "note", JStr (str_exn e))]
  | ReplyApp _ status i =>
      JObj [slot; (lit "status", JNum status); (lit "name", JStr (i_name i)); (lit "version", JStr (i_version i));
            (lit "code_size", JNum (i_code_size i)); (lit "crc32", JNum (i_crc32 i));
            (lit "shortcut", JStr (i_shortcut i)); (lit "committed", JBool (i_committed i));
            (lit "magic", JStr (lit "FAP1"))]
  end.
Definition app_html (r : radio_apps) (slot : Z) (s : json) : list Z :=
  lit "<td>app " ++ decimal (slot + 1) ++ (if slot <? 8 then [] else lit " (after the menu)")
  ++ lit "</td><td>" ++ app_what s ++ lit "</td><td>" ++ app_size s ++ lit "</td><td>" ++ app_said r slot
  ++ lit "</td><td></td>".

(** ** The log pane *)

Definition last_lines (n : nat) {A} (l : list A) : list A := drop (length l - n) l.

Lemma last_lines_drop {A} n k (l : list A) : (k <= length l - n)%nat -> last_lines n (drop k l) = last_lines n l.
Proof. intros Hk. unfold last_lines. rewrite length_drop, drop_drop. f_equal. lia. Qed.

Lemma trim_lines_alt text : trim_lines text = join [10] (last_lines MAX_LOG_LINES (split_on 10 text)).
Proof.
  unfold trim_lines, last_lines. destruct (MAX_LOG_LINES <? length (split_on 10 text))%nat eqn:E; [done|].
  apply Nat.ltb_ge in E. replace (length (split_on 10 text) - MAX_LOG_LINES)%nat with 0%nat by lia.
  by rewrite drop_0, join_split.
Qed.

(** The lines of a trimmed text are the last of its lines. *)
Lemma split_trim text : split_on 10 (trim_lines text) = last_lines MAX_LOG_LINES (split_on 10 text).
Proof.
  rewrite trim_lines_alt. apply split_join.
  - pose proof (split_on_ne 10 text) as Hne. intros E. apply (f_equal length) in E. unfold last_lines in E.
    rewrite length_drop in E. destruct (split_on 10 text); [done|]. cbn [length] in E. unfold MAX_LOG_LINES in E. lia.
  - unfold last_lines. apply Forall_drop, Forall_forall. apply split_on_part.
Qed.

Lemma split_on_glue c s t L x y M :
  split_on c s = L ++ [x] -> split_on c t = y :: M -> split_on c (s ++ t) = L ++ (x ++ y) :: M.
Proof.
  revert L x. induction s as [|a s IH]; intros L x Hs Ht.
  - cbn in Hs. destruct L as [|l L]; cbn in Hs; [|by destruct L]. injection Hs as <-. exact Ht.
  - cbn [split_on app] in *. destruct (a =? c).
    + destruct L as [|l L]; cbn in Hs.
      * injection Hs as E. by destruct (split_on_ne c s).
      * injection Hs as <- Hs. by rewrite (IH L x Hs Ht).
    + destruct (split_on c s) as [|p ps] eqn:E; [by destruct (split_on_ne c s)|].
      destruct L as [|l L]; cbn in Hs.
      * injection Hs as <- ->. by rewrite (IH [] p eq_refl Ht).
      * injection Hs as <- ->. by rewrite (IH (p :: L) x eq_refl Ht).
Qed.

Lemma trim_trim_app a b : trim_lines (trim_lines a ++ b) = trim_lines (a ++ b).
Proof.
  rewrite (trim_lines_alt (trim_lines a ++ b)), (trim_lines_alt (a ++ b)). f_equal.
  destruct (List.exists_last (split_on_ne 10 a)) as (L0 & x0 & Ea).
  destruct (split_on 10 b) as [|y M] eqn:Eb; [by destruct (split_on_ne 10 b)|].
  rewrite (split_on_glue 10 a b _ _ _ _ Ea Eb).
  set (k := (length (L0 ++ [x0]) - MAX_LOG_LINES)%nat).
  assert (k <= length L0)%nat as Hk by (unfold k, MAX_LOG_LINES; rewrite length_app; cbn; lia).
  assert (split_on 10 (trim_lines a) = drop k L0 ++ [x0]) as Et.
  { rewrite split_trim, Ea. unfold last_lines. fold k. by rewrite drop_app_le. }
  rewrite (split_on_glue 10 (trim_lines a) b _ _ _ _ Et Eb).
  rewrite <- (drop_app_le L0 _ k) by done. apply last_lines_drop. unfold k.
  rewrite !length_app. cbn [length]. lia.
Qed.

(** The pane after a reply. *)
Lemma pane_reply_text p es c : pn_text (pane_reply p es c) = trim_lines (pn_text p ++ concat (map entry_text es))
  \/ pn_text (pane_reply p es c) = pn_text p.
Proof. unfold pane_reply. case_bool_decide; [by right|by left]. Qed.

Lemma trim_idem text : (length (split_on 10 text) <= MAX_LOG_LINES)%nat -> trim_lines text = text.
Proof. intros Hl. unfold trim_lines. by rewrite (proj2 (Nat.ltb_ge _ _) Hl). Qed.

Lemma length_trim text : (length (split_on 10 (trim_lines text)) <= MAX_LOG_LINES)%nat.
Proof. rewrite split_trim. unfold last_lines. rewrite length_drop. lia. Qed.

Lemma pane_steps_bounded evs s :
  (length (split_on 10 (pn_text s.1)) <= MAX_LOG_LINES)%nat ->
  (length (split_on 10 (pn_text (foldl (fun s '(lb, ev) => pane_step lb s ev) s evs).1)) <= MAX_LOG_LINES)%nat.
Proof.
  revert s. induction evs as [|[lb ev] evs IH]; intros [p polls] Hs; [done|]. cbn [foldl]. apply IH.
  destruct ev as [|k]; cbn [pane_step fst]; [done|]. destruct (polls !! k) as [since|]; [|done]. cbn [fst].
  destruct (pane_reply_text p (entries lb since) (cursor lb)) as [->| ->]; [apply length_trim|done].
Qed.

(** C31. The log pane does not grow.  However the polls of a session overlap
    and whatever the server's log holds at each answer, also entries whose
    text has line breaks of its own, the pane never shows more than
    [MAX_LOG_LINES] lines. *)
Theorem pane_bounded evs :
  (length (split_on 10 (pn_text (foldl (fun s '(lb, ev) => pane_step lb s ev) (pane_init, []) evs).1))
     <= MAX_LOG_LINES)%nat.
Proof. apply pane_steps_bounded. cbn. unfold MAX_LOG_LINES. lia. Qed.

(** A poll that is answered before the next begins. *)
Definition poll_once (p : pane) (lb : log_buffer) : pane :=
  pane_reply p (entries lb (pn_cursor p)) (cursor lb).

Lemma poll_once_steps p lb : pane_step lb (pane_step lb (p, []) PollBegins) (PollAnswered 0) = (poll_once p lb, []).
Proof. done. Qed.

(** A session of such polls, with the lines logged before each. *)
Definition session (cap : nat) (rounds : list (list line)) : pane :=
  (foldl (fun '(p, lb) ls => let lb := foldl add lb ls in (poll_once p lb, lb)) (pane_init, log_init cap) rounds).1.

Lemma session_text cap rounds : forall hist p,
  Forall (fun ls => length ls <= cap)%nat rounds ->
  pn_cursor p = zlen hist -> pn_text p = trim_lines (concat (map entry_text (numbered 0 hist))) ->
  pn_text (foldl (fun '(p, lb) ls => let lb := foldl add lb ls in (poll_once p lb, lb))
             (p, foldl add (log_init cap) hist) rounds).1
    = trim_lines (concat (map entry_text (numbered 0 (hist ++ concat rounds)))).
Proof.
  induction rounds as [|ls rounds IH]; intros hist p Hl Hc Ht; cbn [foldl concat]; [by rewrite app_nil_r|].
  apply Forall_cons in Hl as [Hl Hls]. rewrite <- foldl_app, app_assoc. apply IH; [done|..].
  - unfold poll_once, pane_reply, cursor. rewrite adds_window. by case_bool_decide.
  - unfold poll_once. rewrite Hc, entries_since. replace (length ls - cap)%nat with 0%nat by lia. rewrite drop_0.
    rewrite numbered_app, map_app, concat_app, <- trim_trim_app, <- Ht.
    unfold pane_reply. case_bool_decide as E; cbn [pn_text]; [|done].
    rewrite Z.add_0_l, E. cbn. rewrite app_nil_r, Ht. symmetry. apply trim_idem, length_trim.
Qed.

(** The log pane is the tail of the log.  With each poll answered before
    the next begins, and no more lines logged between two polls than the
    server keeps, the pane shows exactly the last [MAX_LOG_LINES] lines of
    everything that was ever logged, each entry once and in order. *)
Theorem pane_shows_tail cap rounds :
  Forall (fun ls => length ls <= cap)%nat rounds ->
  pn_text (session cap rounds) = trim_lines (concat (map entry_text (numbered 0 (concat rounds)))).
Proof. intros Hl. by apply (session_text cap rounds [] pane_init). Qed.

Lemma pane_shows_tail_witness :
  pn_text (session 10 [[Line (lit "1") None (lit "qemu") (lit "a")]; []; [Line (lit "2") (Some (lit "h")) (lit "key") (lit "b")]])
    = lit "1 - [qemu] a" ++ [10] ++ lit "2 h [key] b" ++ [10].
Proof.
  etransitivity; [apply (pane_shows_tail 10); repeat constructor; cbn; lia|]. vm_compute. reflexivity.
Defined.

(** Polls that overlap show lines twice.  The timer begins a poll whether or
    not the last has been answered, and both ask from the same cursor: each
    appends what the other has appended. *)
Theorem overlapping_polls_duplicate lb es :
  entries lb 0 = es -> es <> [] -> (length (split_on 10 (concat (map entry_text (es ++ es)))) <= MAX_LOG_LINES)%nat ->
  foldl (pane_step lb) (pane_init, []) [PollBegins; PollBegins; PollAnswered 0; PollAnswered 0] =
    (Pane (cursor lb) (concat (map entry_text (es ++ es))), []).
Proof.
  intros He Hne Hl. cbn [foldl pane_step pane_init pn_cursor app lookup list_lookup take drop]. rewrite He.
  unfold pane_reply. rewrite !bool_decide_eq_false_2 by done. cbn [pn_text app]. rewrite trim_trim_app.
  rewrite map_app, concat_app in *. by rewrite trim_idem.
Qed.

Lemma overlapping_polls_duplicate_witness :
  pn_text (foldl (pane_step (add (log_init 9) (Line (lit "1") None (lit "qemu") (lit "a")))) (pane_init, [])
    [PollBegins; PollBegins; PollAnswered 0; PollAnswered 0]).1
    = lit "1 - [qemu] a" ++ [10] ++ lit "1 - [qemu] a" ++ [10].
Proof.
  rewrite (overlapping_polls_duplicate (add (log_init 9) (Line (lit "1") None (lit "qemu") (lit "a"))) _ eq_refl).
  - vm_compute. reflexivity.
  - discriminate.
  - unfold MAX_LOG_LINES. vm_compute. lia.
Defined.

(** ** The stream *)

Lemma bar_run_app evs1 evs2 b :
  bar_run b (evs1 ++ evs2) =
  ((bar_run (bar_run b evs1).1 evs2).1, (bar_run b evs1).2 ++ (bar_run (bar_run b evs1).1 evs2).2).
Proof.
  revert b. induction evs1 as [|ev evs1 IH]; intros b; cbn [app bar_run fst snd]; [by destruct (bar_run b evs2)|].
  destruct (bar_step b ev) as [b1 a]. rewrite IH. destruct (bar_run b1 evs1) as [b2 a']. cbn [fst snd].
  by rewrite app_assoc.
Qed.

Definition no_answer (ev : bar_event) : Prop := match ev with Answer _ _ => False | _ => True end.
Definition unwatched (b : bar) : Prop := br_retries b = [] /\ br_reconnects b = 0%nat /\ br_polls b = 0%nat.

Lemma unwatched_step b ev :
  no_answer ev -> unwatched b ->
  unwatched (bar_step b ev).1 /\ (AskStream ∉ (bar_step b ev).2) /\ (AskFrame ∉ (bar_step b ev).2).
Proof.
  intros Hev (Hr & Hc & Hp). destruct ev as [action boot yes|action f| | |blank|]; cbn [bar_step]; [|done|..].
  - destruct (br_disabled b); [by repeat split; try set_solver|].
    destruct (bool_decide _ && negb yes); [by repeat split; try set_solver|].
    split; [done|]. split; apply not_elem_of_cons; (split; [done|set_solver]).
  - unfold on_stream_error. rewrite Hr. cbn. split; [done|set_solver].
  - rewrite Hc. split; [done|set_solver].
  - rewrite Hr. split; [done|]. destruct blank; set_solver.
  - rewrite Hp. split; [done|set_solver].
Qed.

(** A page that has not switched the power never gets its stream back.
    The code that reconnects the stream only runs inside the answer to a
    power button, so before the first one no error, timer or click makes the
    page ask for the stream or for a frame again: after the server is
    restarted the picture stays what it was. *)
Theorem stream_not_reconnected evs :
  Forall no_answer evs -> (AskStream ∉ (bar_run bar_init evs).2) /\ (AskFrame ∉ (bar_run bar_init evs).2).
Proof.
  intros Hev. assert (unwatched bar_init) as Hb by done. revert Hb. generalize bar_init.
  induction Hev as [|ev evs Hev Hevs IH]; intros b Hb; [cbn; set_solver|]. cbn [bar_run].
  destruct (unwatched_step b ev Hev Hb) as (H1 & H2 & H3). destruct (bar_step b ev) as [b1 a]. cbn [fst snd] in *.
  specialize (IH b1 H1). destruct (bar_run b1 evs) as [b2 a']. cbn [fst snd] in *.
  rewrite !not_elem_of_app. naive_solver.
Qed.

Lemma stream_not_reconnected_witness :
  AskStream ∉ (bar_run bar_init [StreamError; StreamError; FiveSeconds true; Click (lit "on") None true; StreamError]).2.
Proof.
  refine (proj1 (stream_not_reconnected _ _)). repeat constructor.
Defined.

Lemma errors_fold counts b :
  Forall (fun n => 2 < n) counts ->
  br_polls (foldl (fun b n => if n <=? 2 then retry b else poll_frames b) b counts) = (br_polls b + length counts)%nat.
Proof.
  intros Hc. revert b. induction Hc as [|n counts Hn Hc IH]; intros b; cbn [foldl length]; [lia|].
  rewrite (proj2 (Z.leb_gt n 2)) by done. rewrite IH. cbn. lia.
Qed.

(** Every power action leaves another copy of the handlers, and once they
    have used up their retries every error makes each of them start a timer
    that fetches a frame every quarter of a second and is never stopped. *)
Theorem frame_timers_pile_up b :
  Forall (fun n => 2 <= n) (br_retries b) ->
  br_polls (bar_step b StreamError).1 = (br_polls b + length (br_retries b))%nat /\
  length (bar_step (bar_step b StreamError).1 FrameTimers).2 = (br_polls b + length (br_retries b))%nat.
Proof.
  intros Hr. assert (br_polls (on_stream_error b) = (br_polls b + length (br_retries b))%nat) as H.
  { unfold on_stream_error. rewrite errors_fold; [by rewrite length_map|].
    apply Forall_forall. intros n (m & -> & Hm)%list_elem_of_fmap.
    rewrite Forall_forall in Hr. specialize (Hr m Hm). lia. }
  cbn [bar_step fst snd]. split; [exact H|]. by rewrite repeat_length.
Qed.

Example three_actions_six_timers :
  br_polls (bar_run bar_init ([Answer (lit "on") None; Answer (lit "reset") None; Answer (lit "on") None]
    ++ [StreamError; StreamError; StreamError; StreamError])).1 = 6%nat.
Proof. vm_compute. reflexivity. Qed.

(** ** What the page tells the user *)

(** The power label, and the screen, follow the server's answer: on exactly
    when the emulator answered its status query. *)
Theorem page_shows_power {HU : Unicode} {HR : Runtime} told client image file query speaker panel v t :
  let '(_, _, b) := api_status told client image file query speaker panel v t in
  let s := poll_shows (Some (status_json b)) in
  (sh_power s = lit "on" <-> exists g info, client = Some g /\ query = Ok info) /\
  (sh_screen_off s = true <-> sh_power s = lit "off").
Proof.
  unfold api_status. destruct client as [g|]; [destruct query as [info|e]|].
  - destruct (asked speaker _ v) as [v1 sp]. destruct (asked panel _ v1) as [v2 pn].
    destruct (ensure_buffers _ _ _ v2 t) as [[v3 t3] b]. split; [|done]. split; [by eauto|done].
  - split; [|done]. split; [done|]. intros (? & ? & _ & ?). done.
  - split; [|done]. split; [done|]. intros (? & ? & ? & _). done.
Qed.

(** The script looks for what the device runs inside the firmware's object,
    where the handler does not put it: whatever the log says, and also when
    the radio runs another firmware than the one that was uploaded, the label
    is the same. *)
Theorem label_hides_running `{Unicode} lb lb' image file :
  firmware_label (api_firmware_json lb image file) = firmware_label (api_firmware_json lb' image file).
Proof. unfold api_firmware_json, api_firmware, firmware_label. by destruct image as [i|]. Qed.

(** The name in a slot's header is markup on the page: the row's HTML has
    every character of it as it is. *)
Theorem slot_name_is_markup r h :
  r_header r = Some h -> Slots.sh_name h <> [] ->
  exists before after, slot_html (slot_json r) = before ++ Slots.sh_name h ++ after.
Proof.
  intros Hh Hn. unfold slot_html.
  assert (exists rest, slot_label (slot_json r) = Slots.sh_name h ++ rest) as [rest ->].
  { unfold slot_label, slot_json. rewrite Hh. cbn. unfold or_text, truthy. cbn [as_text].
    destruct (Slots.sh_name h) as [|c n]; [done|]. by eexists. }
  set (a := as_text _). set (b := match get _ _ with Some _ => _ | None => _ end). set (c := slot_size _).
  exists (lit "<td>slot " ++ a ++ b ++ lit "</td><td>"), (rest ++ lit "</td><td>" ++ c ++ lit "</td><td></td>").
  by rewrite <- !app_assoc.
Qed.

(** The page sends a forced install only for the slot the user chose a file for, after the
    server refused the plain one because the slot already holds something,
    with that refusal shown in the question, and after the user agreed. *)
Theorem force_only_after_yes slot file error1 yes error2 slot' :
  PutApp slot' true ∈ app_upload slot file error1 yes error2 ->
  slot' = slot /\ yes = true /\
  exists e, error1 = Some e /\ contains (lit "already holds") e = true /\
    exists before after, app_upload slot file error1 yes error2 =
      before ++ Confirm (lit "app " ++ decimal slot ++ lit ": " ++ e ++ lit " -- overwrite it?") :: PutApp slot true :: after.
Proof.
  unfold app_upload. destruct file; cbn [negb]; [|by intros ?%elem_of_nil].
  assert (forall e : option (list Z), PutApp slot' true ∉ (match e with
    | Some ((_ :: _) as e) => [Alert (lit "app " ++ decimal slot ++ lit ": " ++ e)] | _ => [] end)) as Ha.
  { intros [[|c e]|]; set_solver. }
  destruct error1 as [e|].
  - destruct (contains (lit "already holds") e) eqn:Ec.
    + destruct yes.
      * intros Hin. assert (slot' = slot) as ->.
        { rewrite !elem_of_app, !elem_of_cons in Hin. specialize (Ha error2). set_solver. }
        split; [done|]. split; [done|]. exists e. split; [done|]. split; [done|].
        exists [Disable true; PutApp slot false], ((match error2 with
          | Some ((_ :: _) as e) => [Alert (lit "app " ++ decimal slot ++ lit ": " ++ e)] | _ => [] end) ++ [Reload]).
        done.
      * intros Hin. exfalso. rewrite !elem_of_app, !elem_of_cons in Hin. set_solver.
    + intros Hin. exfalso. specialize (Ha (Some e)). rewrite !elem_of_app, !elem_of_cons in Hin. set_solver.
  - intros Hin. exfalso. rewrite !elem_of_app, !elem_of_cons in Hin. set_solver.
Qed.

Lemma force_only_after_yes_witness :
  PutApp 3 true ∈ app_upload 3 true (Some (lit "slot 3 already holds firmware")) true None /\
  contains (lit "already holds") (lit "slot 3 already holds firmware") = true.
Proof.
  assert (PutApp 3 true ∈ app_upload 3 true (Some (lit "slot 3 already holds firmware")) true None) as Hin.
  { apply list_elem_of_In. vm_compute. tauto. }
  split; [exact Hin|]. destruct (force_only_after_yes 3 true (Some (lit "slot 3 already holds firmware")) true None 3 Hin)
    as (_ & _ & e & [= <-] & Hc & _). exact Hc.
Defined.

(** The requests the page asks about first, and those it sends as soon as a
    file is chosen. *)
Definition destroys (a : act) : bool :=
  match a with EraseSlot _ | EraseApp _ | PutApp _ true | PutFlash _ => true | _ => false end.
Definition puts (a : act) : bool := match a with PutSlot _ _ | PutApp _ false => true | _ => false end.
Definition agreed (g : gesture) : bool :=
  match g with
  | ClickEraseSlot _ yes _ | ChooseApp _ _ _ yes _ | ClickEraseApp _ yes _ | ChooseFlash _ yes _ => yes
  | ChooseSlot _ _ _ => false
  end.
Definition meant (g : gesture) : act :=
  match g with
  | ClickEraseSlot slot _ _ => EraseSlot slot
  | ChooseApp slot _ _ _ _ => PutApp slot true
  | ClickEraseApp slot _ _ => EraseApp slot
  | ChooseFlash file _ _ => PutFlash (default [] file)
  | ChooseSlot slot file _ => PutSlot slot (default [] file)
  end.

Lemma quiet_alert (f : list Z -> list Z) (e : option (list Z)) :
  Forall (fun a => destroys a = false) (match e with Some ((_ :: _) as e) => [Alert (f e)] | _ => [] end).
Proof. destruct e as [[|c e]|]; repeat constructor. Qed.

(** An act in a list of which only one destroys. *)
Lemma only_destroyer l1 q mid d l2 a :
  Forall (fun a => destroys a = false) l1 -> Forall (fun a => destroys a = false) mid ->
  Forall (fun a => destroys a = false) l2 -> a ∈ l1 ++ Confirm q :: mid ++ d :: l2 -> destroys a = true -> a = d.
Proof.
  rewrite !Forall_forall. intros H1 Hm H2 Hin Ha.
  rewrite elem_of_app, elem_of_cons, elem_of_app, elem_of_cons in Hin.
  destruct Hin as [Hin|[->|[Hin|[->|Hin]]]]; try done.
  - by rewrite (H1 a Hin) in Ha.
  - by rewrite (Hm a Hin) in Ha.
  - by rewrite (H2 a Hin) in Ha.
Qed.

Lemma no_destroyer l a : Forall (fun a => destroys a = false) l -> a ∈ l -> destroys a = true -> False.
Proof. rewrite Forall_forall. intros H Hin Ha. by rewrite (H a Hin) in Ha. Qed.

#[local] Ltac nothing_destroyed := intros Hin Ha; exfalso; revert Hin Ha; apply no_destroyer.

Lemma destroyer_asked g a :
  a ∈ acts g -> destroys a = true ->
  agreed g = true /\ a = meant g /\
  exists before q mid after, acts g = before ++ Confirm q :: mid ++ a :: after /\
    Forall (fun a => destroys a = false) (before ++ mid ++ after).
Proof.
  assert (forall before q mid after, acts g = before ++ Confirm q :: mid ++ meant g :: after -> agreed g = true ->
    Forall (fun a => destroys a = false) before -> Forall (fun a => destroys a = false) mid ->
    Forall (fun a => destroys a = false) after -> a ∈ acts g -> destroys a = true ->
    agreed g = true /\ a = meant g /\ exists before q mid after, acts g = before ++ Confirm q :: mid ++ a :: after /\
      Forall (fun a => destroys a = false) (before ++ mid ++ after)) as Hone.
  { intros before q mid after E Hy H1 Hm H2 Hin Ha. rewrite E in Hin |- *.
    pose proof (only_destroyer _ _ _ _ _ _ H1 Hm H2 Hin Ha) as ->. split; [done|]. split; [done|].
    exists before, q, mid, after. split; [done|]. by rewrite !Forall_app. }
  assert (Forall (fun a => destroys a = false) [Reload]) as Hr by by repeat constructor.
  assert (Forall (fun a => destroys a = false) [Disable true]) as Hd by by repeat constructor.
  destruct g as [slot [name|] e|slot [] e|slot [] e1 [] e2|slot [] e|[name|] [] e]; cbn [acts] in *;
    try (solve [intros Hin Ha; exfalso; revert Hin Ha; apply no_destroyer; by repeat constructor]).
  - nothing_destroyed. unfold slot_upload. rewrite !Forall_app. split; [by repeat constructor|].
    split; [apply quiet_alert|done].
  - eapply (Hone [] _ [Disable true]); try done. by apply Forall_app; split; [apply quiet_alert|].
  - destruct e1 as [e|]; [destruct (contains (lit "already holds") e) eqn:Ec|].
    + assert (app_upload slot true (Some e) true e2 = [Disable true; PutApp slot false]
        ++ Confirm (lit "app " ++ decimal slot ++ lit ": " ++ e ++ lit " -- overwrite it?") :: [] ++ PutApp slot true
           :: ((match e2 with Some ((_ :: _) as e) => [Alert (lit "app " ++ decimal slot ++ lit ": " ++ e)] | _ => [] end) ++ [Reload]))
        as E by (unfold app_upload; cbn [negb]; by rewrite Ec).
      eapply Hone; [exact E|done|by repeat constructor|done|].
      by apply Forall_app; split; [apply quiet_alert|].
    + nothing_destroyed. unfold app_upload. cbn [negb]. rewrite Ec, !Forall_app. split; [by repeat constructor|].
      split; [by destruct e; repeat constructor|done].
    + nothing_destroyed. by repeat constructor.
  - nothing_destroyed. unfold app_upload. cbn [negb]. rewrite Forall_app. split; [by repeat constructor|].
    destruct e1 as [e|]; [destruct (contains _ _)|done]; [by repeat constructor|].
    apply Forall_app. split; [by destruct e; repeat constructor|done].
  - eapply (Hone [] _ [Disable true]); try done. by apply Forall_app; split; [apply quiet_alert|].
  - eapply (Hone [] _ []); try done. by apply Forall_app; split; [apply (quiet_alert id)|].
Qed.

Lemma put_unasked g a : a ∈ acts g -> puts a = true ->
  match g with
  | ChooseSlot slot (Some name) _ => a = PutSlot slot name /\ forall q, Confirm q ∉ acts g
  | ChooseApp slot true _ _ _ => a = PutApp slot false
  | _ => False
  end /\ exists rest, acts g = Disable true :: a :: rest.
Proof.
  assert (forall (l : list act), Forall (fun x => puts x = false) l -> a ∈ l -> puts a = true -> False) as Hnot.
  { intros l Hl Hin Ha. rewrite Forall_forall in Hl. by rewrite (Hl a Hin) in Ha. }
  assert (forall (f : list Z -> list Z) (e : option (list Z)),
    Forall (fun x => puts x = false) (match e with Some ((_ :: _) as e) => [Alert (f e)] | _ => [] end)) as Hal
    by (intros f [[|c e]|]; repeat constructor).
  assert (forall (l : list act) d, a ∈ Disable true :: d :: l -> Forall (fun x => puts x = false) l -> puts a = true -> a = d) as Hfirst.
  { intros l d [->|[->|Hin]%elem_of_cons]%elem_of_cons Hl Ha; [done|done|]. exfalso. by apply (Hnot l Hl). }
  destruct g as [slot [name|] e|slot [] e|slot [] e1 yes e2|slot [] e|[name|] [] e]; cbn [acts] in *; intros Hin Ha;
    try (exfalso; revert Hin Ha; apply Hnot; repeat (constructor; [done|]); try apply Forall_app; auto; fail).
  - assert (a = PutSlot slot name) as ->.
    { eapply Hfirst; [exact Hin| |done]. apply Forall_app. split; [apply Hal|by repeat constructor]. }
    split; [|by eexists]. split; [done|]. intros q Hq. unfold slot_upload in Hq.
    rewrite !elem_of_app, !elem_of_cons in Hq. destruct e as [[|c e]|]; set_solver.
  - assert (a = PutApp slot false) as ->; [|split; [done|by eexists]].
    eapply Hfirst; [exact Hin| |done]. destruct e1 as [e|]; [|by repeat constructor].
    destruct (contains _ e).
    + destruct yes; [|by repeat constructor]. repeat (constructor; [done|]). apply Forall_app. split; [apply Hal|by repeat constructor].
    + apply Forall_app. split; [by destruct e; repeat constructor|by repeat constructor].
Qed.

(** C33. What the page asks before it does it.  Whatever the user does in the
    tables, and whatever the server answers: a slot or an app is erased, an
    app is forced over what a slot holds, and the flash image is replaced only
    where the user asked for just that, after a question that is answered
    with yes, and one such request at most is sent after it.  Choosing a file
    for a firmware slot or an app is not asked about: the request goes out at
    once.  For an app the server's install then refuses a slot that holds
    anything but an app; a firmware slot is overwritten whatever it holds, and
    no question comes at all. *)
Theorem questions_asked g a :
  a ∈ acts g ->
  (destroys a = true -> agreed g = true /\ a = meant g /\
     exists before q mid after, acts g = before ++ Confirm q :: mid ++ a :: after /\
       Forall (fun a => destroys a = false) (before ++ mid ++ after)) /\
  (puts a = true ->
     (exists rest, acts g = Disable true :: a :: rest) /\
     match g with
     | ChooseSlot slot (Some name) _ => a = PutSlot slot name /\ forall q, Confirm q ∉ acts g
     | ChooseApp slot true _ _ _ => a = PutApp slot false /\
         forall image blob r, wf_bytes blob -> install image slot blob false = Ok r -> free_for_app image slot
     | _ => False
     end).
Proof.
  intros Hin. split; [by apply destroyer_asked|]. intros Ha. destruct (put_unasked g a Hin Ha) as [Hg Hr].
  split; [exact Hr|]. destruct g as [|?|slot [] e1 yes e2|?|?]; try done. split; [done|].
  intros image blob [image' i] Hwf (_ & _ & _ & [?|?] & _)%install_iff; [done| |]; done.
Qed.

Lemma questions_asked_witness :
  (let g := ChooseApp 3 true (Some (lit "slot 3 already holds firmware")) true None in
   agreed g = true /\ PutApp 3 true = meant g) /\
  (let g := ChooseSlot 1 (Some (lit "fw.bin")) None in forall q, Confirm q ∉ acts g).
Proof.
  split; intros g.
  - assert (PutApp 3 true ∈ acts g) as Hin by (apply list_elem_of_In; vm_compute; tauto).
    destruct (questions_asked g (PutApp 3 true) Hin) as [H _]. destruct (H eq_refl) as (Hy & Hm & _). done.
  - assert (PutSlot 1 (lit "fw.bin") ∈ acts g) as Hin by (apply list_elem_of_In; vm_compute; tauto).
    destruct (questions_asked g _ Hin) as [_ H]. destruct (H eq_refl) as [_ [_ Hq]]. exact Hq.
Defined.

(** The rows are named from 1 and the questions about them from 0. *)
Example app_numbered_twice :
  app_html NotAsked 3 (JObj [(lit "state", JStr (lit "empty"))])
    = lit "<td>app 4</td><td><i>Empty</i></td><td></td><td></td><td></td>" /\
  app_erase 3 false None = [Confirm (lit "Erase app slot 3?")].
Proof. by vm_compute. Qed.

(** The table shows an app the radio confirmed. *)
Theorem confirmed_app_shown `{Runtime} (rows : list RadioApps.row) slot named i :
  map fst rows = slot_numbers -> (slot, ReplyApp named 0 i) ∈ rows ->
  app_said (Asked (map radio_json rows)) slot = lit "radio: " ++ i_name i.
Proof.
  intros Hn [k Hk]%list_elem_of_lookup.
  assert (k = Z.to_nat slot) as ->.
  { assert (slot_numbers !! k = Some slot) as Hs by (rewrite <- Hn; by rewrite list_lookup_fmap, Hk).
    assert (k < 16)%nat as Hlt by (apply lookup_lt_Some in Hs; exact Hs).
    do 16 (destruct k as [|k]; [by injection Hs as <-|]). lia. }
  unfold app_said. change (map radio_json rows) with (radio_json <$> rows).
  assert ((radio_json <$> rows) !! Z.to_nat slot = Some (radio_json (slot, ReplyApp named 0 i))) as ->; [|done].
  rewrite list_lookup_fmap. exact (f_equal (fmap radio_json) Hk).
Qed.

Lemma confirmed_app_shown_witness :
  @app_said (Asked (map (@radio_json plain_runtime)
     (map (fun s => (s, if s =? 3 then ReplyApp 3 0 beam_info else ReplyMagic s 1 [])) slot_numbers))) 3
  = lit "radio: Beam".
Proof.
  apply (@confirmed_app_shown plain_runtime _ 3 3 beam_info); [reflexivity|].
  apply list_elem_of_lookup. exists 3%nat. reflexivity.
Defined.
