(* ===== verification/Markup.v ===== *)
(** The static HTML that [render_index] of [src/tools/webui.py] serves, as the
    tree a browser makes of it, and what the page's script looks up in it.
    White space between elements is left out; the style sheet is in [Style],
    the script in [Page], [Panes] and [Tables]. *)
From S2P Require Import Prelude Text Endpoint Lcd Image Stream Supervisor Files Views WebUI Page Panes.
Open Scope Z_scope.
Set Warnings "-register-all".

(** ** Trees *)

Inductive html := El (tag : list Z) (attrs : list (list Z * list Z)) (children : list html) | Tx (text : list Z).

Definition el (tag : string) (attrs : list (list Z * list Z)) (children : list html) : html := El (lit tag) attrs children.
Definition at_ (name value : string) : list Z * list Z := (lit name, lit value).

Definition attr (name : list Z) (h : html) : option (list Z) :=
  match h with
  | El _ attrs _ => snd <$> List.find (fun a => bool_decide (a.1 = name)) attrs
  | Tx _ => None
  end.
(** The two names that are looked up everywhere, computed once. *)
Definition CLASS : list Z := Eval vm_compute in lit "class".
Definition ID : list Z := Eval vm_compute in lit "id".
Definition is_tag (tag : list Z) (h : html) : bool :=
  match h with El t _ _ => bool_decide (t = tag) | Tx _ => false end.
Definition has_class (c : list Z) (h : html) : bool :=
  match attr CLASS h with Some v => bool_decide (c ∈ split_on 32 v) | None => false end.
Definition has_id (id : list Z) (h : html) : bool := bool_decide (attr ID h = Some id).

(** Every node, in document order. *)
Fixpoint nodes (h : html) : list html :=
  h :: match h with El _ _ children => concat (map nodes children) | Tx _ => [] end.

(** [document.querySelectorAll], its selector as a test of a node. *)
Definition querySelectorAll (p : html -> bool) (doc : html) : list html := List.filter p (nodes doc).
Definition getElementById (id : list Z) (doc : html) : option html := head (querySelectorAll (has_id id) doc).
(** [document.querySelector('#id tag')]. *)
Definition querySelector (id tag : list Z) (doc : html) : option html :=
  head (concat (map (fun h => querySelectorAll (is_tag tag) h) (querySelectorAll (has_id id) doc))).

(** A button as text, as the f-strings of [render_index] write it. *)
Fixpoint markup (h : html) : list Z :=
  match h with
  | Tx text => text
  | El tag attrs children =>
      [60] ++ tag ++ concat (map (fun a => [32] ++ a.1 ++ [61] ++ quoted a.2) attrs) ++ [62]
      ++ concat (map markup children) ++ [60; 47] ++ tag ++ [62]
  end.

(** ** The page *)

Definition key_el (k : list Z) : html :=
  el "button" [at_ "class" "key"; (lit "data-key", k)] [Tx (if bool_decide (k = lit "STAR") then [42] else k)].
Definition grid_els : list html := map (fun row => el "div" [at_ "class" "row"] (map key_el row)) KEY_GRID.
Definition side_el (k : list Z) : html :=
  el "button" [at_ "class" "key side"; (lit "data-key", k)] [Tx k].
Definition ptt_el : html := el "button" [at_ "class" "key side ptt"; at_ "id" "ptt"] [Tx (lit "PTT")].
Definition side_els : list html := map side_el SIDE_KEYS ++ [ptt_el].

(** The elements that hold a note. *)
Definition hint (tag : string) (note : list Z) : html := el tag [at_ "class" "hint"] [Tx note].

Definition powerbar : html :=
  el "div" [at_ "class" "powerbar"]
    [el "button" [at_ "class" "pwr"; at_ "data-power" "on"] [Tx (lit "On")];
     el "button" [at_ "class" "pwr"; at_ "data-power" "on"; at_ "data-boot" "MENU";
                  at_ "title" "restart and hold MENU from reset, for the boot menu (Shift+M)"] [Tx (lit "Multiboot")];
     el "button" [at_ "class" "pwr"; at_ "data-power" "off"] [Tx (lit "Off")];
     el "button" [at_ "class" "pwr"; at_ "data-power" "reset"] [Tx (lit "Reset")];
     el "span" [at_ "id" "powerstate"] [Tx (lit "-")];
     el "span" [at_ "id" "speaker"; at_ "title" "the firmware has enabled the audio amplifier"] [Tx [128264]];
     el "span" [at_ "id" "panel"; at_ "title" "display controller: contrast, inversion, panel on/off"] []].

Definition fwbar : html :=
  el "div" [at_ "class" "fwbar"]
    [el "label" [at_ "for" "fwfile"] [Tx (lit "Firmware")];
     el "input" [at_ "type" "file"; at_ "id" "fwfile"; at_ "accept" ".bin,.elf"] [];
     el "span" [at_ "id" "fwstate"] [Tx (lit "-")];
     hint "span" (lit "or drop a .bin anywhere on the page")].

Definition slots_pane : html :=
  el "details" [at_ "class" "pane"; at_ "open" ""]
    [el "summary" [] [Tx (lit "Firmware slots "); el "span" [at_ "id" "flashstate"] [Tx (lit "-")]];
     el "div" [at_ "class" "fwbar"]
       [el "label" [at_ "class" "mini"]
          [Tx (lit "flash image"); el "input" [at_ "type" "file"; at_ "id" "flashfile"; at_ "accept" ".img,.bin"] []];
        hint "span" (join [10]
         [lit "the multi-system slots live in the external flash;";
          lit "    write a .bin into one, then press Multiboot. Edits go to a working copy of the image";
          lit "    (the file named above), so the one you loaded is never modified " ++ [0x2014] ++ lit " and a restart keeps";
          lit "    that copy rather than reverting to the original"])];
     el "table" [at_ "id" "slottable"] [el "tbody" [] []]].

Definition apps_pane : html :=
  el "details" [at_ "class" "pane"]
    [el "summary" [] [Tx (lit "Overlay apps "); el "span" [at_ "id" "appstate"] [Tx (lit "-")]];
     el "div" [at_ "class" "fwbar"]
       [el "button" [at_ "id" "appask"; at_ "title" "ask the running firmware what it sees in each app slot"]
          [Tx (lit "Ask the radio")];
        hint "span" (join [10]
         [lit "the Labs edition's apps live in the same external flash (16 slots";
          lit "    from 0x102000; the firmware's menu lists the first eight, numbered 1..8). Pick a .app for a slot to";
          lit "    install it " ++ [0x2014] ++ lit " no serial port and no browser permission are involved " ++ [0x2014] ++ lit " then press F then 7 on the";
          lit "    radio and MENU to run it"])];
     el "table" [at_ "id" "apptable"] [el "tbody" [] []]].

Definition screenwrap (width height : list Z) : html :=
  el "div" [at_ "class" "screenwrap"; at_ "id" "screenwrap"]
    [el "img" [at_ "id" "screen"; at_ "src" "/stream"; at_ "alt" "radio LCD";
               (lit "width", width); (lit "height", height)] []].

Definition body (width height : list Z) : html :=
  el "body" []
    [el "div" [at_ "class" "radio"]
       [powerbar; fwbar; slots_pane; apps_pane; screenwrap width height;
        el "div" [at_ "class" "body"]
          [el "div" [at_ "class" "sides"] side_els; el "div" [at_ "class" "pad"] grid_els];
        el "div" [at_ "id" "status"] [Tx (lit "connecting...")];
        el "details" [at_ "id" "logpane"; at_ "open" ""]
          [el "summary" [] [Tx (lit "Logs (firmware serial, qemu, power)")]; el "pre" [at_ "id" "logtext"] []];
        hint "p" (join [10]
         [lit "How long you hold a key is measured here and sent as one";
          lit "  number, so the firmware sees exactly the press you made. Hold past 400 ms for a";
          lit "  long press, which the firmware treats as a separate event and which repeats.";
          lit "  Arrows move, Enter is MENU, Esc is EXIT, digits map straight through. PTT is held";
          lit "  rather than measured, and releases if you drag off it or close the tab."])]].

(** Computed once, too. *)
Definition document (width height : list Z) : html := Eval vm_compute in
  el "html" [at_ "lang" "en"]
    [el "head" []
       [el "meta" [at_ "charset" "utf-8"] [];
        el "meta" [at_ "name" "viewport"; at_ "content" "width=device-width,initial-scale=1"] [];
        el "title" [] [Tx (lit "UV-K5 remote")]];
     body width height].

Definition render_index (scale : Z) : html := document (decimal (128 * scale)) (decimal (64 * scale)).

(** ** The script's lookups *)

(** The elements the script takes by their id. *)
Definition script_ids : list (list Z) :=
  map lit ["status"; "ptt"; "screen"; "speaker"; "panel"; "powerstate"; "screenwrap"; "logtext"; "flashstate";
           "flashfile"; "appstate"; "appask"; "fwstate"; "fwfile"]%string.
(** [document.querySelectorAll('.key[data-key]')], ['.pwr'] and the buttons
    [mark] finds for a key. *)
Definition key_buttons (doc : html) : list html :=
  querySelectorAll (fun h => has_class (lit "key") h && bool_decide (is_Some (attr (lit "data-key") h))) doc.
Definition power_buttons (doc : html) : list html := querySelectorAll (has_class (lit "pwr")) doc.
Definition marked (key : list Z) (doc : html) : list html :=
  querySelectorAll (fun h => bool_decide (attr (lit "data-key") h = Some key)) doc.
(** [btn.dataset.power], [btn.dataset.boot]. *)
Definition dataset (name : list Z) (h : html) : option (list Z) := attr (lit "data-" ++ name) h.

(** ** Properties *)

(** The buttons of the tree are the text the f-strings produce. *)
Lemma markup_buttons :
  map markup (map key_el (concat KEY_GRID)) = map key_button (concat KEY_GRID) /\
  concat (map markup side_els) = sides.
Proof. split; vm_compute; reflexivity. Qed.

(** What the script and the server assume of the page; the picture's size
    does not matter for it. *)
Section lookups.
Variables width height : list Z.
Let doc := document width height.

Lemma ids_nodup : NoDup (omap (attr (lit "id")) (nodes doc)).
Proof.
  match goal with |- NoDup ?l => let x := eval vm_compute in l in change (NoDup x) end.
  refine (bool_decide_unpack _ _). vm_compute. exact I.
Qed.

Lemma ids_found : Forall (fun id => is_Some (getElementById id doc)) script_ids.
Proof. unfold script_ids. cbn [map]. repeat (constructor; [eexists; vm_compute; reflexivity|]). constructor. Qed.

Lemma tables_found :
  Forall (fun id => is_Some (querySelector id (lit "tbody") doc)) (map lit ["slottable"; "apptable"]%string).
Proof. cbn [map]. repeat (constructor; [eexists; vm_compute; reflexivity|]). constructor. Qed.

Lemma keys_found : omap (dataset (lit "key")) (key_buttons doc) = SIDE_KEYS ++ concat KEY_GRID.
Proof. vm_compute. reflexivity. Qed.

Lemma marked_once k : k ∈ KEYS -> length (marked k doc) = 1%nat.
Proof.
  assert (Forall (fun k => length (marked k doc) = 1%nat) KEYS) as H.
  { unfold KEYS. cbn [map]. repeat (constructor; [vm_compute; reflexivity|]). constructor. }
  rewrite Forall_forall in H. apply H.
Qed.

Lemma power_buttons_ok : Forall (fun b => exists a, dataset (lit "power") b = Some a /\ a ∈ POWER_ACTIONS /\
  forall k, dataset (lit "boot") b = Some k -> k ∈ KEYS) (power_buttons doc).
Proof.
  match goal with |- Forall ?P ?l => let x := eval vm_compute in l in change (Forall P x) end.
  repeat constructor; eexists; (split; [vm_compute; reflexivity|]);
    (split; [refine (bool_decide_unpack _ _); vm_compute; exact I|]);
    intros k Hk; vm_compute in Hk; try discriminate.
  injection Hk as <-. refine (bool_decide_unpack _ _). vm_compute. exact I.
Qed.

Lemma screen_found : exists img, getElementById (lit "screen") doc = Some img /\
  attr (lit "width") img = Some width /\ attr (lit "height") img = Some height.
Proof. eexists. split; [vm_compute; reflexivity|]. split; vm_compute; reflexivity. Qed.
End lookups.

(** ** What the Multiboot button does *)

(** The body of the power request: a boot key if the button has one, and
    never how long to hold it. *)
Definition power_body_of (b : html) : power_body := PowerBody (dataset (lit "boot") b) HoldAbsent.

Lemma boot_button scale b k :
  b ∈ power_buttons (render_index scale) -> dataset (lit "boot") b = Some k ->
  dataset (lit "power") b = Some (lit "on") /\ k = lit "MENU".
Proof.
  assert (Forall (fun b => forall k, dataset (lit "boot") b = Some k ->
    dataset (lit "power") b = Some (lit "on") /\ k = lit "MENU") (power_buttons (render_index scale))) as H.
  { unfold render_index. generalize (decimal (128 * scale)) (decimal (64 * scale)). intros width height.
    match goal with |- Forall ?P ?l => let x := eval vm_compute in l in change (Forall P x) end.
    repeat (apply Forall_cons; split; [intros k' Hk; vm_compute in Hk; try discriminate;
      injection Hk as <-; split; vm_compute; reflexivity|]). apply Forall_nil. exact I. }
  rewrite Forall_forall in H. intros Hb. by apply H.
Qed.

(** The page's boot mode holds its key for a second and a half: the request
    names no time, the handler fills in 1500 ms and the launcher passes that
    on, so the eight seconds the machine has as its default, because the boot
    path may look at the keypad only after twenty, never apply. *)
Theorem multiboot_holds_short `{Unicode} `{Runtime} {S : Type} `{PowerControl S} (cf : config) (w : web S) scale b k ip h :
  pc_ok (w_sup w) -> host_ok h -> cf_supervisor cf = true -> cf_boot_key cf = true ->
  b ∈ power_buttons (render_index scale) -> dataset (lit "boot") b = Some k -> pc_running (w_sup w) = false ->
  let '(w', _) := api_power cf w (default [] (dataset (lit "power") b)) (power_body_of b) ip h in
  pc_running (w_sup w') = true ->
  exists args, pc_cmdline (w_sup w') = Some args /\
    po_env args = [(lit "UVK5_FLASH_IMAGE", w_flash w); (lit "UVK5_BOOT_KEY", lit "MENU");
                   (lit "UVK5_BOOT_KEY_MS", lit "1500")].
Proof.
  intros Hok Hh Hcs Hcb Hin Hboot Hoff. destruct (boot_button scale b k Hin Hboot) as [-> ->].
  change (default [] (Some (lit "on"))) with (lit "on"). unfold power_body_of. rewrite Hboot. unfold api_power.
  change (lower (strip (lit "on"))) with (lit "on").
  rewrite bool_decide_eq_false_2 by (intros E; apply E; by left). rewrite Hcs. cbn [negb].
  change (bool_decide (lit "on" = lit "off")) with false. cbn [andb].
  assert (boot_key_for cf (lit "on") (PowerBody (Some (lit "MENU")) HoldAbsent) (w_boot w)
    = (BootKey (Some (lit "MENU")) 1500, None)) as -> by (unfold boot_key_for; rewrite Hcb; reflexivity).
  unfold dispatch. change (bool_decide (lit "on" = lit "on")) with true. cbn iota.
  set (w1 := log _ _ _ _). assert (w_sup w1 = w_sup w /\ w_flash w1 = w_flash w /\
    w_boot w1 = BootKey (Some (lit "MENU")) 1500) as (Hs1 & Hf1 & Hb1).
  { unfold w1, log_boot_key. cbn [w_boot set_boot bk_name]. rewrite Hcb. done. }
  pose proof (pc_on_law (w_sup w1) (launch_env cf w1 h)) as Hlaw. rewrite Hs1 in Hlaw.
  specialize (Hlaw Hok (host_env_ok cf w1 h Hh)) as [_ Hlaw].
  unfold power_on_. rewrite Hs1. destruct (pc_on (w_sup w) (launch_env cf w1 h)) as [s [[|]|e]] eqn:Eon; cbn [fst snd] in Hlaw.
  - destruct Hlaw as (_ & Hrun & args & Hla & Hcmd). cbn. intros _. exists args. split; [done|].
    revert Hla. unfold launch_env, launch_args. rewrite Hb1, Hf1.
    destruct (w_image w1) as [i|]; cbn; [|done]. destruct (ho_popen h); [done|]. by intros [= <-].
  - destruct Hlaw as [Hrun _]. congruence.
  - destruct Hlaw as (_ & Hr1 & _). destruct (is_exception e); cbn; congruence.
Qed.
