(* ===== verification/Style.v ===== *)
(** How the page of [src/tools/webui.py] looks: the style sheet that
    [render_index] serves, the part of the cascade it uses, and what the
    script changes of the tree when a status arrives or a key is held.  The
    browser's own sheet and the layout are not modelled. *)
From S2P Require Import Prelude Text Endpoint Supervisor Files Views WebUI Page Panes Markup.
Open Scope Z_scope.
Set Warnings "-register-all".

(** ** Elements in their document *)

(** A place in the tree: which child, from the root down. *)
Definition place : Type := list nat.

Definition children (h : html) : list html := match h with El _ _ cs => cs | Tx _ => [] end.
Definition is_text (h : html) : bool := match h with Tx _ => true | El _ _ _ => false end.

(** An element as a selector sees it. *)
Record view := View { v_elt : html; v_root : bool; v_first : bool; v_hover : bool }.

(** The element at a place and the elements around it, the innermost first;
    [over] is where the pointer rests, below [h]. *)
Fixpoint views (h : html) (pos : place) (over : option place) (root first : bool) (around : list view)
    : option (list view) :=
  let me := View h root first (bool_decide (is_Some over)) in
  match pos with
  | [] => Some (me :: around)
  | i :: pos =>
      match children h !! i with
      | None => None
      | Some c =>
          views c pos (match over with Some (j :: over) => if Nat.eqb i j then Some over else None | _ => None end)
            false (forallb is_text (take i (children h))) (me :: around)
      end
  end.
Definition views_at (doc : html) (over : option place) (pos : place) : option (list view) :=
  views doc pos over true false [].

(** The places of the elements that pass a test, in document order. *)
Fixpoint places (p : html -> bool) (h : html) : list place :=
  (if p h then [[]] else [])
  ++ match h with
     | El _ _ cs =>
         (fix go (i : nat) (cs : list html) : list place :=
            match cs with [] => [] | c :: cs => map (cons i) (places p c) ++ go (S i) cs end) 0%nat cs
     | Tx _ => []
     end.

(** ** Selectors and rules *)

Inductive simple :=
| Tag (name : list Z) | Class (name : list Z) | Id (name : list Z) | Attr (name value : list Z)
| Root | Hover | Disabled | FirstChild | Not (s : simple).

Definition DISABLED : list Z := Eval vm_compute in lit "disabled".

Fixpoint meets (v : view) (s : simple) : bool :=
  match s with
  | Tag t => is_tag t (v_elt v)
  | Class c => has_class c (v_elt v)
  | Id i => has_id i (v_elt v)
  | Attr n x => bool_decide (attr n (v_elt v) = Some x)
  | Root => v_root v
  | Hover => v_hover v
  | Disabled => bool_decide (is_Some (attr DISABLED (v_elt v)))
  | FirstChild => v_first v
  | Not s => negb (meets v s)
  end.
Definition meets_all (v : view) (ss : list simple) : bool := forallb (meets v) ss.

(** A rule: what its element must be, what that must be in, and what it
    declares. *)
Inductive within := Child | Below.
Record rule := Rule {
  r_subject : list simple;
  r_within : option (within * list simple);
  r_declares : list (list Z * list Z)
}.

Definition applies (r : rule) (p : list view) : bool :=
  match p with
  | [] => false
  | v :: around =>
      meets_all v (r_subject r)
      && match r_within r with
         | None => true
         | Some (Child, ss) => match around with a :: _ => meets_all a ss | [] => false end
         | Some (Below, ss) => existsb (fun a => meets_all a ss) around
         end
  end.

(** Ids, then classes, attributes and states, then tags. *)
Fixpoint weight (s : simple) : nat * nat * nat :=
  match s with
  | Id _ => (1, 0, 0)%nat
  | Tag _ => (0, 0, 1)%nat
  | Not s => weight s
  | _ => (0, 1, 0)%nat
  end.
Definition specificity (r : rule) : nat * nat * nat :=
  foldr (fun s '(a, b, c) => let '(a', b', c') := weight s in (a + a', b + b', c + c')%nat) (0, 0, 0)%nat
    (r_subject r ++ match r_within r with Some (_, ss) => ss | None => [] end).
Definition at_least (x y : nat * nat * nat) : bool :=
  let '(a, b, c) := x in let '(a', b', c') := y in
  (a' <? a)%nat || (Nat.eqb a a' && ((b' <? b)%nat || (Nat.eqb b b' && (c' <=? c)%nat))).

(** The value a rule gives a property: of two declarations the later. *)
Definition value_of (prop : list Z) (r : rule) : option (list Z) :=
  snd <$> last (List.filter (fun d => bool_decide (d.1 = prop)) (r_declares r)).

(** The cascade: the most specific rule wins, of equals the later. *)
Definition cascade (sheet : list rule) (prop : list Z) (p : list view) : option (list Z) :=
  snd <$> foldl (fun best r =>
    match (if applies r p then value_of prop r else None) with
    | None => best
    | Some v => match best with
                | Some (s, _) => if at_least (specificity r) s then Some (specificity r, v) else best
                | None => Some (specificity r, v)
                end
    end) None sheet.

Definition INHERITED : list (list Z) := Eval vm_compute in
  map lit ["visibility"; "color"; "cursor"; "font"; "font-size"; "white-space"]%string.

(** The properties an element takes from around it when no rule gives it one,
    or one says "inherit". *)
Definition inherited (prop : list Z) : bool :=
  bool_decide (prop ∈ INHERITED).
Definition INHERIT : list Z := Eval vm_compute in lit "inherit".
Fixpoint computed (sheet : list rule) (prop : list Z) (p : list view) : option (list Z) :=
  match p with
  | [] => None
  | v :: around =>
      match cascade sheet prop p with
      | Some x => if bool_decide (x = INHERIT) then computed sheet prop around else Some x
      | None => if inherited prop then computed sheet prop around else None
      end
  end.

(** ** The sheet *)

Definition tag_ (name : string) : simple := Tag (lit name).
Definition class_ (name : string) : simple := Class (lit name).
Definition id_ (name : string) : simple := Id (lit name).
Definition attr_ (name value : string) : simple := Attr (lit name) (lit value).

(** The sheet, its strings computed once. *)
Definition style_sheet : list rule := Eval vm_compute in
  [
   Rule [Root] None [at_ "color-scheme" "dark"];
   Rule [tag_ "body"] None
     [at_ "margin" "0"; at_ "min-height" "100vh"; at_ "display" "grid"; at_ "place-items" "center";
      at_ "background" "#15171a"; at_ "color" "#c9d1d9";
      at_ "font" "14px/1.4 ui-monospace,SFMono-Regular,Menlo,monospace"];
   Rule [class_ "radio"] None
     [at_ "display" "flex"; at_ "flex-direction" "column"; at_ "align-items" "center"; at_ "gap" "14px";
      at_ "padding" "20px"; at_ "background" "#1e2126"; at_ "border" "1px solid #2d333b"; at_ "border-radius" "14px"];
   Rule [id_ "screen"] None [at_ "display" "block"; at_ "image-rendering" "pixelated"; at_ "background" "#c8d6b9"];
   Rule [class_ "body"] None [at_ "display" "flex"; at_ "gap" "14px"; at_ "align-items" "flex-start"];
   Rule [class_ "fwbar"] None
     [at_ "display" "flex"; at_ "gap" "8px"; at_ "align-items" "center"; at_ "flex-wrap" "wrap";
      at_ "font-size" "12px"; at_ "color" "#8b949e"; at_ "max-width" "420px"];
   Rule [tag_ "input"] (Some (Below, [class_ "fwbar"]))
     [at_ "color" "#c9d1d9"; at_ "font-size" "12px"; at_ "max-width" "190px"];
   Rule [class_ "hint"] (Some (Below, [class_ "fwbar"])) [at_ "opacity" ".75"];
   Rule [id_ "fwstate"] None [at_ "color" "#c9d1d9"];
   Rule [class_ "sides"] None [at_ "display" "flex"; at_ "flex-direction" "column"; at_ "gap" "8px"];
   Rule [class_ "pad"] None [at_ "display" "flex"; at_ "flex-direction" "column"; at_ "gap" "8px"];
   Rule [class_ "row"] None [at_ "display" "flex"; at_ "gap" "8px"];
   Rule [class_ "key"] None
     [at_ "width" "62px"; at_ "height" "44px"; at_ "font" "inherit"; at_ "font-weight" "600"; at_ "color" "#c9d1d9";
      at_ "background" "#2b3138"; at_ "border" "1px solid #3a424b"; at_ "border-radius" "8px";
      at_ "cursor" "pointer"; at_ "user-select" "none"; at_ "-webkit-user-select" "none";
      at_ "touch-action" "manipulation"];
   Rule [class_ "key"; Hover] None [at_ "background" "#343b44"];
   Rule [class_ "key"; class_ "active"] None
     [at_ "background" "#4b8bf5"; at_ "border-color" "#4b8bf5"; at_ "color" "#fff"];
   Rule [class_ "side"] None [at_ "width" "76px"];
   Rule [class_ "key"; class_ "ptt"; class_ "active"] None [at_ "background" "#da3633"; at_ "border-color" "#da3633"];
   Rule [class_ "hint"] None
     [at_ "color" "#6e7681"; at_ "font-size" "12px"; at_ "text-align" "center"; at_ "max-width" "430px"];
   Rule [id_ "status"] None [at_ "font-size" "12px"; at_ "color" "#6e7681"];
   Rule [class_ "powerbar"] None
     [at_ "display" "flex"; at_ "gap" "8px"; at_ "align-items" "center"; at_ "align-self" "stretch"];
   Rule [class_ "pwr"] None
     [at_ "padding" "6px 14px"; at_ "font" "inherit"; at_ "color" "#c9d1d9"; at_ "background" "#2b3138";
      at_ "border" "1px solid #3a424b"; at_ "border-radius" "6px"; at_ "cursor" "pointer"];
   Rule [class_ "pwr"; Hover; Not Disabled] None [at_ "background" "#343b44"];
   Rule [class_ "pwr"; Disabled] None [at_ "opacity" "0.5"; at_ "cursor" "default"];
   Rule [id_ "powerstate"] None [at_ "font-size" "12px"; at_ "color" "#6e7681"; at_ "margin-left" "auto"];
   Rule [id_ "powerstate"; class_ "on"] None [at_ "color" "#3fb950"];
   Rule [id_ "speaker"] None [at_ "font-size" "14px"; at_ "opacity" "0.25"; at_ "transition" "opacity 0.15s"];
   Rule [id_ "speaker"; class_ "on"] None [at_ "opacity" "1"];
   Rule [id_ "panel"] None
     [at_ "font-size" "11px"; at_ "color" "#8b949e"; at_ "margin-left" "8px"; at_ "letter-spacing" "0.3px"];
   Rule [class_ "screenwrap"] None
     [at_ "background" "#0b0d10"; at_ "border" "3px solid #0d1117"; at_ "border-radius" "4px"; at_ "line-height" "0"];
   Rule [id_ "screen"] (Some (Below, [class_ "screenwrap"; class_ "screen-off"])) [at_ "visibility" "hidden"];
   Rule [id_ "logpane"] None [at_ "align-self" "stretch"];
   Rule [tag_ "summary"] (Some (Below, [id_ "logpane"]))
     [at_ "font-size" "12px"; at_ "color" "#6e7681"; at_ "cursor" "pointer"; at_ "user-select" "none"];
   Rule [id_ "slottable"] None
     [at_ "width" "100%"; at_ "border-collapse" "collapse"; at_ "margin" "6px 0 0";
      at_ "font" "12px/1.5 ui-monospace,SFMono-Regular,Menlo,monospace"; at_ "color" "#8b949e"];
   Rule [tag_ "td"] (Some (Below, [id_ "slottable"]))
     [at_ "padding" "3px 6px"; at_ "border-top" "1px solid #2d333b"; at_ "white-space" "nowrap"];
   Rule [tag_ "td"; FirstChild] (Some (Below, [id_ "slottable"])) [at_ "color" "#c9d1d9"; at_ "width" "12em"];
   Rule [tag_ "input"; attr_ "type" "file"] (Some (Below, [id_ "slottable"]))
     [at_ "color" "#8b949e"; at_ "font" "inherit"; at_ "max-width" "14em"];
   Rule [tag_ "button"] (Some (Below, [id_ "slottable"]))
     [at_ "font" "inherit"; at_ "color" "#c9d1d9"; at_ "background" "#2b3138"; at_ "border" "1px solid #2d333b";
      at_ "border-radius" "4px"; at_ "padding" "1px 8px"];
   Rule [tag_ "button"; Hover] (Some (Below, [id_ "slottable"])) [at_ "background" "#343b44"];
   Rule [class_ "mini"] None [at_ "margin-left" "1em"];
   Rule [tag_ "input"] (Some (Below, [class_ "mini"])) [at_ "margin-left" "0.5em"];
   Rule [tag_ "details"; class_ "pane"] None [at_ "margin" "6px 0"];
   Rule [tag_ "summary"] (Some (Child, [tag_ "details"; class_ "pane"]))
     [at_ "cursor" "pointer"; at_ "color" "#c9d1d9"; at_ "font-size" "13px"; at_ "padding" "2px 0"];
   Rule [tag_ "summary"; Hover] (Some (Child, [tag_ "details"; class_ "pane"])) [at_ "color" "#fff"];
   Rule [id_ "logtext"] None
     [at_ "height" "180px"; at_ "min-height" "180px"; at_ "overflow-y" "auto"; at_ "margin" "6px 0 0";
      at_ "padding" "8px"; at_ "background" "#0d1117"; at_ "border" "1px solid #2d333b"; at_ "border-radius" "6px";
      at_ "white-space" "pre-wrap"; at_ "word-break" "break-all";
      at_ "font" "12px/1.45 ui-monospace,SFMono-Regular,Menlo,monospace"; at_ "color" "#8b949e"] ].

(** How an element of the page looks: its value of a property. *)
Definition look (doc : html) (over : option place) (prop : string) (pos : place) : option (list Z) :=
  p ← views_at doc over pos; computed style_sheet (lit prop) p.

(** ** What the script changes *)

(** The elements that pass a test, changed where they are. *)
Fixpoint update (p : html -> bool) (f : html -> html) (h : html) : html :=
  let h' := match h with El t a cs => El t a (map (update p f) cs) | Tx s => Tx s end in
  if p h then f h' else h'.

Definition set_attr (name value : list Z) (attrs : list (list Z * list Z)) : list (list Z * list Z) :=
  if existsb (fun a => bool_decide (a.1 = name)) attrs
  then map (fun a => if bool_decide (a.1 = name) then (name, value) else a) attrs
  else attrs ++ [(name, value)].

(** [el.classList.toggle(c, on)]. *)
Definition toggle (c : list Z) (on : bool) (h : html) : html :=
  match h with
  | Tx s => Tx s
  | El t attrs cs =>
      let names := match attr CLASS h with
                   | Some v => List.filter (fun n => negb (bool_decide (n = []))) (split_on 32 v)
                   | None => []
                   end in
      let others := List.filter (fun n => negb (bool_decide (n = c))) names in
      let names' := if on then (if bool_decide (c ∈ names) then names else names ++ [c]) else others in
      if bool_decide (names' = names) then h else El t (set_attr CLASS (join [32] names') attrs) cs
  end.
(** [el.textContent = s]; no text is one empty node here. *)
Definition set_text (s : list Z) (h : html) : html :=
  match h with El t attrs _ => El t attrs [Tx s] | Tx _ => h end.
Definition by_id (id : string) (f : html -> html) (doc : html) : html := update (has_id (lit id)) f doc.

Definition showSpeaker (on : bool) (doc : html) : html := by_id "speaker" (toggle (lit "on") on) doc.
Definition showPanel (text : list Z) (doc : html) : html := by_id "panel" (set_text text) doc.
Definition showPower (text : list Z) (powered : bool) (doc : html) : html :=
  by_id "screenwrap" (toggle (lit "screen-off") (negb powered))
    (by_id "powerstate" (fun h => toggle (lit "on") powered (set_text text h)) doc).
(** [poll], on the tree. *)
Definition show_status (s : shown) (doc : html) : html :=
  by_id "status" (set_text (sh_status s))
    (showPanel (sh_panel s) (showSpeaker (sh_speaker s) (showPower (sh_power s) (negb (sh_screen_off s)) doc))).

(** [mark], and the class [setPtt] gives the button. *)
Definition mark (key : list Z) (on : bool) (doc : html) : html :=
  update (fun h => bool_decide (attr (lit "data-key") h = Some key)) (toggle (lit "active") on) doc.
Definition mark_ptt (held : bool) (doc : html) : html := by_id "ptt" (toggle (lit "active") held) doc.
(** [b.disabled = on] of every power button. *)
Definition disable_power (on : bool) (doc : html) : html :=
  update (has_class (lit "pwr"))
    (fun h => match h with
              | El t attrs cs =>
                  El t (if on then set_attr DISABLED [] attrs
                        else List.filter (fun a => negb (bool_decide (a.1 = DISABLED))) attrs) cs
              | Tx _ => h
              end) doc.

(** ** Properties *)

(** The tree the page starts from, the two elements that have no class perhaps
    left with an empty one. *)
Definition touched (power speaker : bool) (doc : html) : html :=
  let empty (b : bool) (h : html) :=
    match h with El t attrs cs => if b then El t (set_attr CLASS [] attrs) cs else h | Tx _ => h end in
  by_id "speaker" (empty speaker) (by_id "powerstate" (empty power) doc).

(** A status wipes out the one before. *)
Lemma show_status_twice s s' e1 e2 width height :
  show_status s (show_status s' (touched e1 e2 (document width height))) =
    show_status s (touched (e1 || negb (sh_screen_off s')) (e2 || sh_speaker s') (document width height)).
Proof.
  destruct s as [t1 o1 k1 p1 u1], s' as [t2 o2 k2 p2 u2].
  destruct e1, e2, o1, k1, o2, k2; vm_compute; reflexivity.
Qed.

Lemma show_status_last s ss scale :
  exists e1 e2, show_status s (foldr show_status (render_index scale) ss)
    = show_status s (touched e1 e2 (render_index scale)).
Proof.
  assert (render_index scale = touched false false (render_index scale)) as E by (vm_compute; reflexivity).
  revert s. induction ss as [|s' ss IH]; intros s; [exists false, false; by rewrite <- E|].
  cbn [foldr]. destruct (IH s') as (e1 & e2 & ->). eexists _, _. apply show_status_twice.
Qed.

(** What one element shows: there is one with the id, and it looks and reads
    as said, wherever the pointer is. *)
Definition shows (doc : html) (id : string) (prop : string) (value : option (list Z)) : Prop :=
  exists pos, places (has_id (lit id)) doc = [pos] /\ forall over, look doc over prop pos = value.
Definition reads (doc : html) (id : string) (text : list Z) : Prop :=
  exists h, getElementById (lit id) doc = Some h /\ children h = [Tx text].

Ltac look_up := eexists; (split; [vm_compute; reflexivity|]); intros; vm_compute; reflexivity.

Lemma status_looks t off speaker panel status e1 e2 width height :
  let doc := show_status (Shown t off speaker panel status) (touched e1 e2 (document width height)) in
  shows doc "screen" "visibility" (if off then Some (lit "hidden") else None) /\
  shows doc "screenwrap" "background" (Some (lit "#0b0d10")) /\
  shows doc "screenwrap" "visibility" None /\
  shows doc "powerstate" "color" (Some (if off then lit "#6e7681" else lit "#3fb950")) /\
  shows doc "speaker" "opacity" (Some (if speaker then lit "1" else lit "0.25")).
Proof. cbv zeta. destruct off, speaker, e1, e2; repeat split; look_up. Qed.

Lemma status_reads t off speaker panel status e1 e2 width height :
  let doc := show_status (Shown t off speaker panel status) (touched e1 e2 (document width height)) in
  reads doc "powerstate" t /\ reads doc "panel" panel /\ reads doc "status" status.
Proof.
  cbv zeta. destruct off, speaker, e1, e2; repeat split;
    (eexists; split; [vm_compute; reflexivity|vm_compute; reflexivity]).
Qed.

(** C20. What the user sees is the last status.  Whatever statuses came before,
    after [poll] the panel's picture is hidden exactly when the server said
    the radio is off or did not answer, with the dark box behind it always
    there, wherever the pointer is; the power label is green exactly when the
    radio is on, the speaker is bright exactly when the firmware has the
    amplifier on, and the three texts are the status's. *)
Theorem status_is_seen scale ss reply :
  let s := poll_shows reply in
  let powered := match reply with Some v => truthy (get (lit "powered") v) | None => false end in
  let speaker := match reply with Some v => truthy (get (lit "speaker") v) | None => false end in
  let doc := show_status s (foldr show_status (render_index scale) ss) in
  shows doc "screen" "visibility" (if powered then None else Some (lit "hidden")) /\
  shows doc "screenwrap" "background" (Some (lit "#0b0d10")) /\
  shows doc "screenwrap" "visibility" None /\
  shows doc "powerstate" "color" (Some (if powered then lit "#3fb950" else lit "#6e7681")) /\
  shows doc "speaker" "opacity" (Some (if speaker then lit "1" else lit "0.25")) /\
  reads doc "powerstate" (if powered then lit "on" else lit "off") /\
  reads doc "panel" (panel_text (v ← reply; get (lit "panel") v)) /\
  reads doc "status" (match reply with
                      | None => lit "server unreachable"
                      | Some v => if powered then lit "guest: " ++ or_text (get (lit "status") v) (lit "unknown")
                                  else lit "powered off -- press On to boot"
                      end).
Proof.
  intros s powered speaker doc. unfold doc. destruct (show_status_last s ss scale) as (e1 & e2 & ->).
  unfold render_index. assert (s = Shown (if powered then lit "on" else lit "off") (negb powered) speaker
    (sh_panel s) (sh_status s)) as -> by (unfold s, powered, speaker; by destruct reply).
  destruct (status_looks (if powered then lit "on" else lit "off") (negb powered) speaker (sh_panel s) (sh_status s)
    e1 e2 (decimal (128 * scale)) (decimal (64 * scale))) as (H1 & H2 & H3 & H4 & H5).
  destruct (status_reads (if powered then lit "on" else lit "off") (negb powered) speaker (sh_panel s) (sh_status s)
    e1 e2 (decimal (128 * scale)) (decimal (64 * scale))) as (R1 & R2 & R3).
  rewrite !if_negb in H1, H4. do 6 (split; [assumption|]).
  unfold s, powered in R2, R3 |- *. by destruct reply.
Qed.

(** ** The buttons *)

Definition key_at (k : list Z) (doc : html) : list place :=
  places (fun h => bool_decide (attr (lit "data-key") h = Some k)) doc.
Definition pointer (on : bool) (pos : place) : option place := if on then Some pos else None.

(** The colour of a button: held, under the pointer, or neither. *)
Definition key_colour (held_colour : string) (held hover : bool) : list Z :=
  if held then lit held_colour else if hover then lit "#343b44" else lit "#2b3138".

Lemma keys_look k held hover width height : k ∈ KEYS ->
  exists pos, key_at k (mark k held (document width height)) = [pos] /\
    look (mark k held (document width height)) (pointer hover pos) "background" pos
      = Some (key_colour "#4b8bf5" held hover).
Proof.
  assert (Forall (fun k => exists pos, key_at k (mark k held (document width height)) = [pos] /\
    look (mark k held (document width height)) (pointer hover pos) "background" pos
      = Some (key_colour "#4b8bf5" held hover)) KEYS) as H.
  { unfold KEYS. cbn [map]. destruct held, hover;
      repeat (apply Forall_cons; split; [eexists; (split; [vm_compute; reflexivity|vm_compute; reflexivity])|]);
      by apply Forall_nil. }
  rewrite Forall_forall in H. apply H.
Qed.

Lemma ptt_looks held hover width height :
  exists pos, places (has_id (lit "ptt")) (mark_ptt held (document width height)) = [pos] /\
    look (mark_ptt held (document width height)) (pointer hover pos) "background" pos
      = Some (key_colour "#da3633" held hover).
Proof. destruct held, hover; (eexists; split; [vm_compute; reflexivity|vm_compute; reflexivity]). Qed.

(** A button looks the way it is.  Every key the server knows has one
    button, blue while the script holds it and only then, under the pointer or
    not; PTT is red while it is held, although it is a key like the others,
    so transmitting never looks like pressing; and a power button that waits
    for the server's answer is faded and does not light up under the
    pointer. *)
Theorem buttons_look scale held hover :
  (forall k, k ∈ KEYS -> exists pos, key_at k (mark k held (render_index scale)) = [pos] /\
     look (mark k held (render_index scale)) (pointer hover pos) "background" pos
       = Some (key_colour "#4b8bf5" held hover)) /\
  (exists pos, places (has_id (lit "ptt")) (mark_ptt held (render_index scale)) = [pos] /\
     look (mark_ptt held (render_index scale)) (pointer hover pos) "background" pos
       = Some (key_colour "#da3633" held hover)) /\
  (forall waiting, let doc := disable_power waiting (render_index scale) in
   Forall (fun pos =>
     look doc (pointer hover pos) "background" pos
       = Some (if hover && negb waiting then lit "#343b44" else lit "#2b3138") /\
     look doc (pointer hover pos) "opacity" pos = (if waiting then Some (lit "0.5") else None))
     (places (has_class (lit "pwr")) doc)).
Proof.
  split; [intros k; apply keys_look|]. split; [apply ptt_looks|]. intros waiting doc. unfold doc, render_index.
  generalize (decimal (128 * scale)) (decimal (64 * scale)). intros width height.
  match goal with |- Forall ?P ?l => let x := eval vm_compute in l in change (Forall P x) end.
  destruct waiting, hover; repeat (apply Forall_cons; split; [split; vm_compute; reflexivity|]); by apply Forall_nil.
Qed.
