(* ===== verification/Painted.v ===== *)
(** The page's buttons, painted: what the script's events do to the tree.
    [Page] keeps the keys that are marked and whether PTT is held; here the
    handlers change the tree of [Markup] as [mark] and [setPtt] of
    [src/tools/webui.py] do, one [classList.toggle] at a time, and the tree is
    shown to be the one that state paints. *)
From S2P Require Import Prelude Text Endpoint Supervisor Files Views WebUI Page Panes Markup Style.
Open Scope Z_scope.
Set Warnings "-register-all".

(** ** The script's handlers, on the tree *)

(** What an event does to the tree, beside what it does to the pad: [down],
    [up] and [setPtt], with the tests they start with. *)
Definition down_tree (p : pad) (key : list Z) (doc : html) : html :=
  match started p key with Some _ => doc | None => Style.mark key true doc end.
Definition up_tree (p : pad) (key : list Z) (doc : html) : html :=
  match started p key with Some _ => Style.mark key false doc | None => doc end.
Definition setPtt_tree (held : bool) (p : pad) (doc : html) : html :=
  if bool_decide (held = pd_ptt p) then doc else mark_ptt held doc.
Fixpoint up_all_tree (now : Z) (keys : list (list Z)) (p : pad) (doc : html) : html :=
  match keys with
  | [] => doc
  | key :: keys => up_all_tree now keys (up now key p).1 (up_tree p key doc)
  end.

Definition on_event_tree (now : Z) (ev : pad_event) (p : pad) (doc : html) : html :=
  match ev with
  | PointerDown key => down_tree p key doc
  | PointerUp key | PointerLeave key | PointerCancel key => up_tree p key doc
  | KeyDown code repeat =>
      match binding code with
      | Some key => if repeat then doc else down_tree p key doc
      | None => doc
      end
  | KeyUp code => match binding code with Some key => up_tree p key doc | None => doc end
  | PttDown => setPtt_tree true p doc
  | PttUp | PttLeave | PttCancel => setPtt_tree false p doc
  | Blur => up_all_tree now (map fst (pd_pressed p)) p doc
  | PageHide => if pd_ptt p then setPtt_tree false p doc else doc
  end.

(** The page over a run of events. *)
Fixpoint page_tree (evs : list (Z * pad_event)) (p : pad) (doc : html) : html :=
  match evs with
  | [] => doc
  | (now, ev) :: evs => page_tree evs (on_event now ev p).1 (on_event_tree now ev p doc)
  end.

(** ** Painting *)

Definition ACTIVE : list Z := Eval vm_compute in lit "active".
Definition DATA_KEY : list Z := Eval vm_compute in lit "data-key".

(** An element as a state of the buttons paints it: [held] says which keys
    are marked. *)
Definition paint_node (held : list Z -> bool) (ptt : bool) (h : html) : html :=
  match attr DATA_KEY h with
  | Some key => toggle ACTIVE (held key) h
  | None => if has_id (lit "ptt") h then toggle ACTIVE ptt h else h
  end.
Definition paint (held : list Z -> bool) (ptt : bool) (doc : html) : html :=
  update (fun _ => true) (paint_node held ptt) doc.
Definition painted (p : pad) (doc : html) : html := paint (fun k => bool_decide (k ∈ pd_active p)) (pd_ptt p) doc.

(** ** Trees *)

(** Induction over a tree and its children. *)
Lemma html_ind_children (P : html -> Prop) :
  (forall s, P (Tx s)) -> (forall t a cs, Forall P cs -> P (El t a cs)) -> forall h, P h.
Proof.
  intros HT HE. fix IH 1. intros [t a cs|s]; [|apply HT]. apply HE.
  induction cs as [|c cs IHcs]; constructor; [apply IH|exact IHcs].
Qed.

Lemma attr_set n n' v attrs t cs t' cs' : n <> n' ->
  attr n (El t (set_attr n' v attrs) cs) = attr n (El t' attrs cs').
Proof.
  intros Hn. unfold attr, set_attr. destruct (existsb _ _).
  - induction attrs as [|[m x] attrs IH]; [done|]. cbn [map List.find fst].
    destruct (decide (m = n')) as [->|Hm].
    + rewrite (bool_decide_eq_true_2 (n' = n')) by done. cbn [fst]. rewrite !bool_decide_eq_false_2 by done. exact IH.
    + rewrite (bool_decide_eq_false_2 (m = n')) by done. cbn [fst]. by destruct (bool_decide (m = n)).
  - induction attrs as [|[m x] attrs IH]; cbn [app List.find fst].
    + by rewrite bool_decide_eq_false_2.
    + by destruct (bool_decide (m = n)).
Qed.

(** A toggle changes the classes of one element and nothing below it. *)
Lemma attr_toggle n c on h : n <> CLASS -> attr n (toggle c on h) = attr n h.
Proof.
  intros Hn. destruct h as [t a cs|s]; [|done]. unfold toggle. case_bool_decide; [done|]. by apply attr_set.
Qed.

Lemma toggle_children c on t a cs cs' :
  exists a', toggle c on (El t a cs) = El t a' cs /\ toggle c on (El t a cs') = El t a' cs'.
Proof.
  unfold toggle. change (attr CLASS (El t a cs')) with (attr CLASS (El t a cs)). case_bool_decide; by eexists.
Qed.

Lemma has_id_toggle i c on h : has_id i (toggle c on h) = has_id i h.
Proof. unfold has_id. by rewrite attr_toggle. Qed.

(** An element whose class list is written so that a toggle can be undone,
    and that is not both a key and PTT. *)
Definition steady (h : html) : Prop := forall a b, toggle ACTIVE a (toggle ACTIVE b h) = toggle ACTIVE a h.
Definition ready (h : html) : Prop :=
  match attr DATA_KEY h with
  | Some _ => has_id (lit "ptt") h = false /\ steady h
  | None => has_id (lit "ptt") h = true -> steady h
  end.

Lemma steady_children t a cs cs' : steady (El t a cs) -> steady (El t a cs').
Proof.
  intros Hs x y. specialize (Hs x y).
  destruct (toggle_children ACTIVE y t a cs cs') as (a1 & E1 & E1'). rewrite E1 in Hs. rewrite E1'.
  destruct (toggle_children ACTIVE x t a1 cs cs') as (a2 & E2 & E2'). rewrite E2 in Hs. rewrite E2'.
  destruct (toggle_children ACTIVE x t a cs cs') as (a3 & E3 & E3'). rewrite E3 in Hs. rewrite E3'. by injection Hs as ->.
Qed.

Lemma ready_children t a cs cs' : ready (El t a cs) -> ready (El t a cs').
Proof.
  unfold ready. change (attr DATA_KEY (El t a cs')) with (attr DATA_KEY (El t a cs)).
  change (has_id (lit "ptt") (El t a cs')) with (has_id (lit "ptt") (El t a cs)).
  destruct (attr DATA_KEY _); [intros [? ?]; split; [done|]|intros Hs Hp; specialize (Hs Hp)];
    by eapply steady_children.
Qed.

Lemma paint_node_attr held ptt n h : n <> CLASS -> attr n (paint_node held ptt h) = attr n h.
Proof. intros Hn. unfold paint_node. destruct (attr DATA_KEY h); [|destruct (has_id _ _)]; by rewrite ?attr_toggle. Qed.

Lemma paint_node_children held ptt t a cs cs' :
  exists a', paint_node held ptt (El t a cs) = El t a' cs /\ paint_node held ptt (El t a cs') = El t a' cs'.
Proof.
  unfold paint_node. change (attr DATA_KEY (El t a cs')) with (attr DATA_KEY (El t a cs)).
  change (has_id (lit "ptt") (El t a cs')) with (has_id (lit "ptt") (El t a cs)).
  destruct (attr DATA_KEY _); [apply toggle_children|]. destruct (has_id _ _); [apply toggle_children|by eexists].
Qed.

Lemma paint_el held ptt t a cs : paint held ptt (El t a cs) = paint_node held ptt (El t a (map (paint held ptt) cs)).
Proof. reflexivity. Qed.

(** Changing the painted elements that pass a test is painting otherwise,
    when it is for every element by itself. *)
Lemma update_paint (p : html -> bool) (f : html -> html) held ptt held' ptt' doc :
  (forall t a cs cs', p (El t a cs) = p (El t a cs')) ->
  (forall h, ready h -> (if p (paint_node held ptt h) then f (paint_node held ptt h) else paint_node held ptt h)
                        = paint_node held' ptt' h) ->
  (forall s, p (Tx s) = false) ->
  Forall ready (nodes doc) -> update p f (paint held ptt doc) = paint held' ptt' doc.
Proof.
  intros Hp Hn Ht. induction doc as [s|t a cs IH] using html_ind_children; intros Hr.
  - unfold paint. cbn [update]. change (paint_node held ptt (Tx s)) with (Tx s). change (paint_node held' ptt' (Tx s)) with (Tx s).
    cbn [update]. by rewrite Ht.
  - cbn [nodes] in Hr. apply Forall_cons in Hr as [Hr Hrs]. rewrite !paint_el.
    rewrite <- Hn by by eapply ready_children.
    destruct (paint_node_children held ptt t a (map (paint held ptt) cs) (map (paint held' ptt') cs)) as (a' & -> & ->).
    cbn [update]. rewrite (Hp t a' _ (map (paint held' ptt') cs)).
    replace (map (update p f) (map (paint held ptt) cs)) with (map (paint held' ptt') cs); [done|].
    rewrite map_map. symmetry. apply map_ext_in. intros c Hc%list_elem_of_In. rewrite Forall_forall in IH.
    apply IH; [done|]. rewrite Forall_forall in Hrs |- *. intros n Hin. apply Hrs.
    apply list_elem_of_In, in_concat. exists (nodes c). split; [by apply in_map, list_elem_of_In|by apply list_elem_of_In].
Qed.

Lemma mark_paint key on held ptt doc : Forall ready (nodes doc) ->
  Style.mark key on (paint held ptt doc) = paint (fun k => if bool_decide (k = key) then on else held k) ptt doc.
Proof.
  apply update_paint; [done| |done]. intros h Hr. change (lit "data-key") with DATA_KEY. change (lit "active") with ACTIVE.
  rewrite paint_node_attr by done. unfold paint_node, ready in *. destruct (attr DATA_KEY h) as [k|].
  - destruct Hr as [_ Hs]. rewrite (bool_decide_ext (Some k = Some key) (k = key)) by naive_solver.
    case_bool_decide; [apply Hs|done].
  - by rewrite bool_decide_eq_false_2.
Qed.

Lemma mark_ptt_paint on held ptt doc : Forall ready (nodes doc) ->
  mark_ptt on (paint held ptt doc) = paint held on doc.
Proof.
  apply update_paint; [done| |done]. intros h Hr. change (lit "active") with ACTIVE.
  assert (has_id (lit "ptt") (paint_node held ptt h) = has_id (lit "ptt") h) as ->
    by (unfold has_id; by rewrite paint_node_attr).
  unfold paint_node, ready in *. destruct (attr DATA_KEY h) as [k|].
  - by destruct Hr as [-> _].
  - destruct (has_id _ h); [by apply Hr|done].
Qed.

Lemma paint_ext held held' ptt doc : (forall k, held k = held' k) -> paint held ptt doc = paint held' ptt doc.
Proof.
  intros He. induction doc as [s|t a cs IH] using html_ind_children; [done|]. rewrite !paint_el.
  unfold paint_node. change (attr DATA_KEY (El t a (map (paint held' ptt) cs))) with (attr DATA_KEY (El t a (map (paint held ptt) cs))).
  replace (map (paint held' ptt) cs) with (map (paint held ptt) cs).
  - destruct (attr DATA_KEY _); [by rewrite He|done].
  - apply map_ext_in. intros c Hc%list_elem_of_In. rewrite Forall_forall in IH. by apply IH.
Qed.

(** Whether an element is ready, computed. *)
Definition attrs (h : html) : list (list Z * list Z) := match h with El _ a _ => a | Tx _ => [] end.
Definition steadyb (h : html) : bool :=
  forallb (fun '(a, b) => bool_decide (attrs (toggle ACTIVE a (toggle ACTIVE b h)) = attrs (toggle ACTIVE a h)))
    [(true, true); (true, false); (false, true); (false, false)].
Definition readyb (h : html) : bool :=
  match attr DATA_KEY h with
  | Some _ => negb (has_id (lit "ptt") h) && steadyb h
  | None => negb (has_id (lit "ptt") h) || steadyb h
  end.

Lemma toggle_attrs c on t a cs : toggle c on (El t a cs) = El t (attrs (toggle c on (El t a cs))) cs.
Proof. by destruct (toggle_children c on t a cs cs) as (a' & -> & _). Qed.

Lemma steadyb_steady h : steadyb h = true -> steady h.
Proof.
  destruct h as [t a cs|s]; [|done]. unfold steadyb. rewrite forallb_forall. intros H x y.
  specialize (H (x, y)). cbn beta iota in H. rewrite bool_decide_eq_true in H.
  destruct (toggle_children ACTIVE y t a cs cs) as (a1 & E & _). rewrite E in *.
  rewrite (toggle_attrs _ x t a1), (toggle_attrs _ x t a). f_equal. apply H. destruct x, y; cbn; tauto.
Qed.

Lemma readyb_ready hs : forallb readyb hs = true -> Forall ready hs.
Proof.
  rewrite forallb_forall, Forall_forall. intros H h Hh. specialize (H h (proj1 (list_elem_of_In _ _) Hh)).
  unfold readyb in H. unfold ready. destruct (attr DATA_KEY h).
  - apply andb_prop in H as [H%negb_true_iff Hs]. split; [done|by apply steadyb_steady].
  - intros Hp. rewrite Hp in H. by apply steadyb_steady.
Qed.

Lemma document_ready width height : Forall ready (nodes (document width height)).
Proof. apply readyb_ready. vm_compute. reflexivity. Qed.

Lemma painted_init width height : painted pad_init (document width height) = document width height.
Proof. vm_compute. reflexivity. Qed.

(** ** The handlers keep the tree painted *)

Section handlers.
Context (doc : html) (Hdoc : Forall ready (nodes doc)).

Lemma mark_painted p key on : Style.mark key on (painted p doc) = painted (Page.mark p key on) doc.
Proof using Hdoc.
  unfold painted. rewrite mark_paint by done. apply paint_ext. intros k. unfold Page.mark. cbn [pd_active].
  destruct (decide (k = key)) as [->|Hk].
  - rewrite (bool_decide_eq_true_2 (key = key)) by done. destruct on; symmetry;
      [apply bool_decide_eq_true_2|apply bool_decide_eq_false_2]; set_solver.
  - rewrite (bool_decide_eq_false_2 (k = key)) by done. apply bool_decide_ext. destruct on; set_solver.
Qed.

Lemma down_painted now p key : down_tree p key (painted p doc) = painted (down now key p) doc.
Proof using Hdoc. unfold down_tree, down. destruct (started p key); [done|]. by rewrite mark_painted. Qed.

Lemma up_painted now p key : up_tree p key (painted p doc) = painted (up now key p).1 doc.
Proof using Hdoc. unfold up_tree, up. destruct (started p key); [|done]. by rewrite mark_painted. Qed.

Lemma setPtt_painted held p : setPtt_tree held p (painted p doc) = painted (setPtt held p).1 doc.
Proof using Hdoc.
  unfold setPtt_tree, setPtt. destruct (bool_decide _); [done|]. unfold painted. by rewrite mark_ptt_paint.
Qed.

Lemma up_all_painted now keys : forall p,
  up_all_tree now keys p (painted p doc) = painted (up_all now keys p).1 doc.
Proof using Hdoc.
  induction keys as [|key keys IH]; intros p; [done|]. cbn [up_all_tree up_all].
  rewrite (up_painted now). destruct (up now key p) as [p1 fs]. cbn [fst]. rewrite IH.
  by destruct (up_all now keys p1).
Qed.

Lemma on_event_painted now ev p : on_event_tree now ev p (painted p doc) = painted (on_event now ev p).1 doc.
Proof using Hdoc.
  destruct ev; cbn [on_event_tree on_event fst];
    try first [apply down_painted | apply up_painted | apply setPtt_painted].
  - destruct (binding code); [|done]. destruct repeat; [done|apply down_painted].
  - destruct (binding code); [apply up_painted|done].
  - rewrite up_all_painted. by destruct (up_all _ _ _).
  - destruct (pd_ptt p) eqn:E; [apply setPtt_painted|done].
Qed.

Lemma page_painted evs : forall p, page_tree evs p (painted p doc) = painted (page evs p).1 doc.
Proof using Hdoc.
  induction evs as [|[now ev] evs IH]; intros p; [done|]. cbn [page_tree page].
  rewrite on_event_painted, IH. destruct (on_event now ev p) as [p1 fs]. cbn [fst]. by destruct (page evs p1).
Qed.
End handlers.

(** ** Marked is measured *)

(** The keys that are marked are those whose press is being measured. *)
Definition in_step (p : pad) : Prop := forall k, k ∈ pd_active p <-> is_Some (started p k).

Lemma in_step_down now k p : in_step p -> in_step (down now k p).
Proof.
  intros Hp key. rewrite started_down. specialize (Hp key) as Hk. unfold down. destruct (started p k) eqn:E.
  - rewrite Hk. destruct (started p key) eqn:E2; [done|]. case_bool_decide; [congruence|done].
  - unfold Page.mark. cbn [pd_active]. rewrite elem_of_union, elem_of_singleton, Hk.
    destruct (started p key) eqn:E2; [naive_solver|]. case_bool_decide; naive_solver.
Qed.

Lemma in_step_up now k p : in_step p -> in_step (up now k p).1.
Proof.
  intros Hp key. rewrite started_up. specialize (Hp key) as Hk. unfold up. destruct (started p k) eqn:E; cbn [fst].
  - unfold Page.mark. cbn [pd_active]. rewrite elem_of_difference, elem_of_singleton, Hk.
    case_bool_decide as Hd; [subst|naive_solver]. split; [naive_solver|by intros []].
  - rewrite Hk. case_bool_decide; [subst; by rewrite E|done].
Qed.

Lemma in_step_up_all now keys : forall p, in_step p -> in_step (up_all now keys p).1.
Proof.
  induction keys as [|k keys IH]; intros p Hp; [done|]. cbn [up_all].
  pose proof (in_step_up now k p Hp) as H1. destruct (up now k p) as [p1 fs]. cbn [fst] in *.
  specialize (IH p1 H1). by destruct (up_all now keys p1).
Qed.

Lemma in_step_setPtt b p : in_step p -> in_step (setPtt b p).1.
Proof. unfold setPtt. by case_bool_decide. Qed.

#[local] Hint Resolve in_step_down in_step_up in_step_setPtt in_step_up_all : core.

Lemma in_step_event now ev p : in_step p -> in_step (on_event now ev p).1.
Proof.
  intros Hp. destruct ev; cbn [on_event fst]; auto.
  - destruct (binding code); [|done]. destruct repeat; cbn [fst]; auto.
  - destruct (binding code); auto.
  - pose proof (in_step_up_all now (map fst (pd_pressed p)) p Hp). by destruct (up_all _ _ _).
  - destruct (pd_ptt p); auto.
Qed.

Lemma in_step_page evs : forall p, in_step p -> in_step (page evs p).1.
Proof.
  induction evs as [|[now ev] evs IH]; intros p Hp; [done|]. cbn [page].
  pose proof (in_step_event now ev p Hp) as H1. destruct (on_event now ev p) as [p1 fs]. cbn [fst] in H1.
  specialize (IH p1 H1). by destruct (page evs p1).
Qed.

(** ** How a painted page looks *)

(** An element as a selector sees it, painted, and without what is in it. *)
Definition repaint (held : list Z -> bool) (ptt : bool) (v : view) : view :=
  View (paint held ptt (v_elt v)) (v_root v) (v_first v) (v_hover v).
Definition shell (h : html) : html := match h with El t a _ => El t a [] | Tx s => Tx s end.
Definition bare (v : view) : view := View (shell (v_elt v)) (v_root v) (v_first v) (v_hover v).

Lemma paint_children held ptt h : children (paint held ptt h) = map (paint held ptt) (children h).
Proof.
  destruct h as [t a cs|s]; [|done]. rewrite paint_el.
  by destruct (paint_node_children held ptt t a (map (paint held ptt) cs) []) as (a' & -> & _).
Qed.

Lemma paint_text held ptt h : is_text (paint held ptt h) = is_text h.
Proof.
  destruct h as [t a cs|s]; [|done]. rewrite paint_el.
  by destruct (paint_node_children held ptt t a (map (paint held ptt) cs) []) as (a' & -> & _).
Qed.

Lemma paint_attr held ptt n h : n <> CLASS -> attr n (paint held ptt h) = attr n h.
Proof. intros Hn. destruct h as [t a cs|s]; [|done]. rewrite paint_el. by rewrite paint_node_attr. Qed.

Lemma shell_paint held ptt h : shell (paint held ptt h) = paint_node held ptt (shell h).
Proof.
  destruct h as [t a cs|s]; [|done]. rewrite paint_el. cbn [shell].
  by destruct (paint_node_children held ptt t a (map (paint held ptt) cs) []) as (a' & -> & ->).
Qed.

Lemma views_paint held ptt pos : forall h over root first around,
  views (paint held ptt h) pos over root first (map (repaint held ptt) around)
    = map (repaint held ptt) <$> views h pos over root first around.
Proof.
  induction pos as [|i pos IH]; intros h over root first around; [done|]. cbn [views].
  rewrite paint_children, list_lookup_fmap. destruct (children h !! i) as [c|]; [|done]. cbn [fmap option_fmap option_map].
  rewrite <- IH. cbn [map]. f_equal.
  rewrite <- fmap_take. induction (take i (children h)) as [|x l IHl]; [done|]. cbn. by rewrite paint_text, IHl.
Qed.

Lemma meets_bare v s : meets (bare v) s = meets v s.
Proof.
  induction s as [n|n|n|n x| | | | |s IH]; cbn [meets]; try (by rewrite IH); destruct v as [[t a cs|x'] r f h]; done.
Qed.

Lemma applies_bare r p : applies r (map bare p) = applies r p.
Proof.
  assert (forall v ss, meets_all (bare v) ss = meets_all v ss) as Hm.
  { intros v ss. unfold meets_all. induction ss as [|s ss IH]; [done|]. cbn [forallb]. by rewrite meets_bare, IH. }
  destruct p as [|v around]; [done|]. cbn [map applies]. rewrite Hm. f_equal.
  destruct (r_within r) as [[[|] ss]|]; [| |done].
  - destruct around; [done|]. apply Hm.
  - induction around as [|a around IH]; [done|]. cbn [map existsb]. by rewrite Hm, IH.
Qed.

Lemma cascade_bare sheet prop p : cascade sheet prop (map bare p) = cascade sheet prop p.
Proof.
  unfold cascade. f_equal. generalize (@None (nat * nat * nat * list Z)).
  induction sheet as [|r sheet IH]; intros best; [done|]. cbn [foldl]. rewrite applies_bare. apply IH.
Qed.

Lemma computed_bare sheet prop p : computed sheet prop (map bare p) = computed sheet prop p.
Proof.
  induction p as [|v around IH]; [done|]. cbn [map computed]. change (bare v :: map bare around) with (map bare (v :: around)).
  rewrite cascade_bare. by destruct (cascade _ _ _); rewrite ?IH.
Qed.

(** An element that no state of the buttons changes. *)
Definition plain (h : html) : bool := bool_decide (attr DATA_KEY h = None) && negb (has_id (lit "ptt") h).

Lemma bare_repaint_plain held ptt v : plain (v_elt v) = true -> bare (repaint held ptt v) = bare v.
Proof.
  unfold plain, bare, repaint. cbn [v_elt v_root v_first v_hover]. rewrite shell_paint.
  intros [Hk%bool_decide_eq_true Hp%negb_true_iff]%andb_prop. unfold paint_node.
  destruct v as [[t a cs|s] r f h]; [|done]. cbn [shell v_elt] in *.
  change (attr DATA_KEY (El t a [])) with (attr DATA_KEY (El t a cs)). rewrite Hk.
  change (has_id (lit "ptt") (El t a [])) with (has_id (lit "ptt") (El t a cs)). by rewrite Hp.
Qed.

(** How a button looks depends on its own state and on no other. *)
Lemma look_paint held ptt held' ptt' doc over prop pos v around :
  views_at doc over pos = Some (v :: around) -> forallb (fun w => plain (v_elt w)) around = true ->
  paint_node held ptt (shell (v_elt v)) = paint_node held' ptt' (shell (v_elt v)) ->
  look (paint held ptt doc) over prop pos = look (paint held' ptt' doc) over prop pos.
Proof.
  intros Hv Ha He. unfold look, views_at in *.
  pose proof (views_paint held ptt pos doc over true false []) as E. pose proof (views_paint held' ptt' pos doc over true false []) as E'.
  cbn [map] in E, E'. rewrite E, E', Hv. cbn [fmap option_fmap option_map mbind option_bind].
  rewrite <- computed_bare. symmetry. rewrite <- computed_bare. f_equal. cbn [map]. f_equal.
  - unfold bare, repaint. cbn [v_elt v_root v_first v_hover]. by rewrite !shell_paint, He.
  - clear E E' Hv. induction around as [|w around IH]; [done|]. cbn [forallb] in Ha. apply andb_prop in Ha as [Hw Ha].
    cbn [map]. by rewrite !bare_repaint_plain, IH.
Qed.

(** Painting moves nothing. *)
Lemma places_paint held ptt (q : html -> bool) doc :
  (forall h, q (paint held ptt h) = q h) -> places q (paint held ptt doc) = places q doc.
Proof.
  intros Hq. induction doc as [s|t a cs IH] using html_ind_children; [done|].
  pose proof (paint_children held ptt (El t a cs)) as Hc. pose proof (Hq (El t a cs)) as Hh.
  rewrite paint_el in *. destruct (paint_node_children held ptt t a (map (paint held ptt) cs) []) as (a' & E & _).
  rewrite E in *. cbn [places]. rewrite Hh. f_equal. generalize 0%nat. clear E Hh Hc.
  induction IH as [|c cs Hc _ IHcs]; intros i; [done|]. cbn [map]. by rewrite Hc, IHcs.
Qed.

Lemma key_at_paint held ptt k doc : key_at k (paint held ptt doc) = key_at k doc.
Proof. apply places_paint. intros h. by rewrite paint_attr. Qed.

Lemma ptt_at_paint held ptt doc : places (has_id (lit "ptt")) (paint held ptt doc) = places (has_id (lit "ptt")) doc.
Proof. apply places_paint. intros h. unfold has_id. by rewrite paint_attr. Qed.

(** The elements around a button of the page are plain. *)
Definition alone (name value : list Z) (hover : bool) (doc : html) (pos : place) : bool :=
  match views_at doc (pointer hover pos) pos with
  | Some (v :: around) =>
      bool_decide (attr name (v_elt v) = Some value) && forallb (fun w => plain (v_elt w)) around
  | _ => false
  end.

Lemma keys_alone k hover width height : k ∈ KEYS ->
  forallb (alone DATA_KEY k hover (document width height)) (key_at k (document width height)) = true.
Proof.
  assert (Forall (fun k => forallb (alone DATA_KEY k hover (document width height)) (key_at k (document width height)) = true)
    KEYS) as H.
  { unfold KEYS. cbn [map]. destruct hover;
      repeat (apply Forall_cons; split; [vm_compute; reflexivity|]); by apply Forall_nil. }
  rewrite Forall_forall in H. apply H.
Qed.

Lemma ptt_alone hover width height :
  forallb (fun pos => alone ID (lit "ptt") hover (document width height) pos
                      && match views_at (document width height) (pointer hover pos) pos with
                         | Some (v :: _) => bool_decide (attr DATA_KEY (v_elt v) = None)
                         | _ => false
                         end) (places (has_id (lit "ptt")) (document width height)) = true.
Proof. destruct hover; vm_compute; reflexivity. Qed.

(** ** The page after any events *)

(** Whether a key is down after some events: what the last event that
    concerned it did.  PTT likewise. *)
Definition key_down (key : list Z) (evs : list (Z * pad_event)) : bool :=
  foldl (fun b e => default b (edge key e.2)) false evs.
(** PTT after some events: whether the button is down, by the last event on
    it or a closing page, and whether the window lost the focus since it went
    down, which releases PTT at the radio and leaves the button as it is. *)
Definition ptt_turn (st : bool * bool) (ev : pad_event) : bool * bool :=
  match ev with
  | PttDown => if st.1 then st else (true, false)
  | PttUp | PttLeave | PttCancel | PageHide => (false, st.2)
  | Blur => (st.1, true)
  | _ => st
  end.
Definition ptt_state (evs : list (Z * pad_event)) : bool * bool :=
  foldl (fun st e => ptt_turn st e.2) (false, false) evs.
Definition ptt_down (evs : list (Z * pad_event)) : bool := (ptt_state evs).1.
Definition ptt_keyed (evs : list (Z * pad_event)) : bool := (ptt_state evs).1 && negb (ptt_state evs).2.

Lemma page_fst evs1 : forall evs2 p, (page (evs1 ++ evs2) p).1 = (page evs2 (page evs1 p).1).1.
Proof.
  induction evs1 as [|[now ev] evs1 IH]; intros evs2 p; [done|]. cbn [app page].
  destruct (on_event now ev p) as [p1 fs]. specialize (IH evs2 p1).
  destruct (page (evs1 ++ evs2) p1), (page evs1 p1). exact IH.
Qed.

Lemma page_one now ev p : (page [(now, ev)] p).1 = (on_event now ev p).1.
Proof. cbn [page]. by destruct (on_event now ev p). Qed.

Lemma started_key_down key evs : bool_decide (is_Some (started (page evs pad_init).1 key)) = key_down key evs.
Proof.
  induction evs as [|[now ev] evs IH] using rev_ind; [done|]. rewrite page_fst, page_one.
  unfold key_down in *. rewrite foldl_app, <- IH. cbn [foldl snd].
  pose proof (on_event_key now ev (page evs pad_init).1 key) as H. cbv zeta in H.
  destruct (edge key ev) as [[|]|], (started (page evs pad_init).1 key) as [t|]; cbn [default from_option];
    destruct H as [-> _]; done.
Qed.

Lemma setPtt_turn b p b' : pd_ptt p = b' -> (setPtt b p).1 = Pad (pd_pressed p) (pd_active p) b /\
  (setPtt b p).2 = if bool_decide (b = b') then [] else [FPtt b].
Proof. intros <-. unfold setPtt. case_bool_decide; [|done]. subst. by destruct p. Qed.

(** One event, on the page and in what it asks of the radio. *)
Lemma on_event_ptt_turn now ev p st : pd_ptt p = st.1 ->
  pd_ptt (on_event now ev p).1 = (ptt_turn st ev).1 /\
  ptt_after (st.1 && negb st.2) (on_event now ev p).2 = (ptt_turn st ev).1 && negb (ptt_turn st ev).2.
Proof.
  intros Hp. destruct st as [h b]. cbn [fst snd] in *.
  destruct ev; cbn [on_event ptt_turn fst snd]; rewrite ?down_ptt;
    try (destruct (up_ptt now key p (h && negb b)) as [-> ->]; done); try done;
    try (destruct (setPtt_turn true p h Hp) as [-> ->]; by destruct h, b);
    try (destruct (setPtt_turn false p h Hp) as [-> ->]; by destruct h, b).
  - destruct (binding code); [|done]. destruct repeat; [done|]. cbn [fst snd]. by rewrite down_ptt.
  - destruct (binding code) as [k|]; [|done]. by destruct (up_ptt now k p (h && negb b)) as [-> ->].
  - destruct (up_all_ptt now (map fst (pd_pressed p)) p (h && negb b)) as [H1 H2].
    destruct (up_all _ _ _) as [p1 fs]. cbn [fst snd] in *. rewrite ptt_after_app, H1, andb_false_r. done.
  - rewrite Hp. destruct h; [|done]. destruct (setPtt_turn false p true Hp) as [-> ->]. done.
Qed.

Lemma page_ptt_state evs :
  pd_ptt (page evs pad_init).1 = ptt_down evs /\ ptt_after false (page evs pad_init).2 = ptt_keyed evs.
Proof.
  unfold ptt_down, ptt_keyed. induction evs as [|[now ev] evs [IH1 IH2]] using rev_ind; [done|].
  rewrite page_app. unfold ptt_state in *. rewrite foldl_app. cbn [fst snd foldl].
  destruct (on_event_ptt_turn now ev (page evs pad_init).1 _ IH1) as [H1 H2]. cbn [page].
  destruct (on_event now ev _) as [p1 fs]. cbn [fst snd] in *. by rewrite app_nil_r, ptt_after_app, IH2.
Qed.

(** The tree after the events, painted. *)
Lemma page_tree_painted evs width height :
  page_tree evs pad_init (document width height) =
  paint (fun k => key_down k evs) (ptt_down evs) (document width height).
Proof.
  rewrite <- (painted_init width height) at 1. rewrite page_painted by apply document_ready.
  unfold painted. rewrite (proj1 (page_ptt_state evs)). apply paint_ext. intros k. rewrite <- started_key_down.
  apply bool_decide_ext. apply in_step_page. intros key. unfold started. cbn. split; [set_solver|by intros []].
Qed.

(** Nothing held is the page as it is served. *)
Lemma paint_none width height : document width height = paint (fun _ => false) false (document width height).
Proof. rewrite <- (painted_init width height) at 1. by apply paint_ext. Qed.

Lemma alone_look name value hover doc pos held ptt held' ptt' prop :
  alone name value hover doc pos = true ->
  (forall v, attr name v = Some value -> match views_at doc (pointer hover pos) pos with
                                         | Some (w :: _) => shell (v_elt w) = v | _ => False end ->
     paint_node held ptt v = paint_node held' ptt' v) ->
  look (paint held ptt doc) (pointer hover pos) prop pos = look (paint held' ptt' doc) (pointer hover pos) prop pos.
Proof.
  unfold alone. destruct (views_at _ _ _) as [[|v around]|] eqn:Ev; [done| |done].
  intros [Ha%bool_decide_eq_true Hp]%andb_prop Hn. apply (look_paint _ _ _ _ _ _ _ _ v around Ev Hp).
  apply Hn; [|done]. destruct (v_elt v); exact Ha.
Qed.

(** C21. The page shows which buttons are down.  After any events the tree,
    changed one class at a time by the handlers, has one button for every key
    and one for PTT; a key's is blue exactly when the last event that
    concerned the key pressed it, by pointer or keyboard, and PTT's is red
    exactly when the last event on the button, or the closing of the page,
    pressed it; otherwise a button has its plain colour, or the lighter one
    under the pointer.  Red is what the button shows, not always what the
    radio does: by the requests the page sent, served in their order, PTT is
    keyed exactly when the button is red and the window has not lost the focus
    since it was pressed.  After a blur the radio is released and the button
    stays red. *)
Theorem buttons_follow_events scale evs hover :
  let doc := page_tree evs pad_init (render_index scale) in
  (forall k, k ∈ KEYS -> exists pos, key_at k doc = [pos] /\
     look doc (pointer hover pos) "background" pos = Some (key_colour "#4b8bf5" (key_down k evs) hover)) /\
  (exists pos, places (has_id (lit "ptt")) doc = [pos] /\
     look doc (pointer hover pos) "background" pos = Some (key_colour "#da3633" (ptt_down evs) hover)) /\
  ptt_after false (page evs pad_init).2 = ptt_keyed evs.
Proof.
  intros doc. unfold doc, render_index. clear doc. enough (forall A B C : Prop, A /\ B -> C -> A /\ B /\ C) as Hjoin; [|tauto]. apply Hjoin; [|apply page_ptt_state].
  generalize (decimal (128 * scale)) (decimal (64 * scale)). intros width height. rewrite page_tree_painted. pose proof (document_ready width height) as Hr. split.
  - intros k Hk. destruct (keys_look k (key_down k evs) hover width height Hk) as (pos & Hpos & Hlook).
    rewrite (paint_none width height) in Hpos, Hlook. rewrite mark_paint in Hpos, Hlook by done.
    rewrite key_at_paint in Hpos. exists pos. rewrite key_at_paint. split; [done|]. rewrite <- Hlook.
    pose proof (keys_alone k hover width height Hk) as Ha. rewrite Hpos in Ha. cbn [forallb] in Ha.
    rewrite andb_true_r in Ha. apply (alone_look _ _ _ _ _ _ _ _ _ _ Ha). intros v Hv _. unfold paint_node.
    rewrite Hv. by rewrite bool_decide_eq_true_2.
  - destruct (ptt_looks (ptt_down evs) hover width height) as (pos & Hpos & Hlook).
    rewrite (paint_none width height) in Hpos, Hlook. rewrite mark_ptt_paint in Hpos, Hlook by done.
    rewrite ptt_at_paint in Hpos. exists pos. rewrite ptt_at_paint. split; [done|]. rewrite <- Hlook.
    pose proof (ptt_alone hover width height) as Ha. rewrite Hpos in Ha. cbn [forallb] in Ha.
    rewrite andb_true_r in Ha. apply andb_prop in Ha as [Ha Hk]. apply (alone_look _ _ _ _ _ _ _ _ _ _ Ha).
    intros v Hv Hw. destruct (views_at _ _ _) as [[|w around]|]; [done| |done]. subst v.
    apply bool_decide_eq_true in Hk. unfold paint_node.
    assert (attr DATA_KEY (shell (v_elt w)) = None) as -> by (destruct (v_elt w); exact Hk).
    unfold has_id. by rewrite Hv.
Qed.
