(* ===== verification/Tables.v ===== *)
(** The tables of the page [render_index] of [src/tools/webui.py] serves, as
    they are filled from the server: [loadSlots], [loadApps], "Ask the radio"
    and [loadFirmware].  The last section composes them with the handlers: a
    file the user puts into a slot is what the table then shows. *)
From S2P Require Import Slots Apps.
From S2P Require Import Prelude Text Struct Endpoint Image Logs Stream Supervisor Files Views WebUI Panes.
From S2P Require RadioApps.
Open Scope Z_scope.

(** ** What the script reads of an answer *)

(** An answer's plain fields and its [slots], where it has them; [None] when
    there was no answer, or one that is not JSON. *)
Abbreviation table_reply := (option (json * option (list json))).

Definition error_json (text : list Z) : json := JObj [(lit "error", JStr text)].
Definition slots_fields (j : list Z * Z * list json_row) : json :=
  JObj [(lit "name", JStr j.1.1); (lit "size", JNum j.1.2)].
Definition apps_fields : json :=
  JObj [(lit "region", JNum Apps.REGION_BASE); (lit "slot_count", JNum Apps.SLOT_COUNT);
        (lit "stride", JNum Apps.SLOT_STRIDE); (lit "code_offset", JNum Apps.CODE_OFFSET);
        (lit "overlay_max", JNum Apps.APP_OVERLAY_MAX)].

(** [str(exc)] of the handler's answer, [error], is the caller's to give. *)
Definition slots_reply (error : list Z) (r : result response) : table_reply :=
  match r with
  | Ok (_, BSlots j) => Some (slots_fields j, Some (map slot_json j.2))
  | Ok (_, BError _) => Some (error_json error, None)
  | _ => None
  end.
Definition apps_reply (error : list Z) (r : result response) : table_reply :=
  match r with
  | Ok (_, BApps rows) => Some (apps_fields, Some (map app_json rows))
  | Ok (_, BError _) => Some (error_json error, None)
  | _ => None
  end.

(** ** Filling the tables *)

(** The text above the table and the rows' HTML. *)
Record table := Table { tb_state : list Z; tb_rows : list (list Z) }.

(** [Math.round(v / 1024)] in a concatenation. *)
Definition kib (v : option json) : list Z :=
  match v with Some (JNum n) => decimal ((n + 512) / 1024) | _ => lit "NaN" end.

(** [raised] is the text of the exception of a request that failed or of an
    answer without rows, whichever was thrown. *)
Definition loadSlots (raised : list Z) (t : table) (reply : table_reply) : table :=
  let failed rows := Table (lit "slots unavailable: " ++ raised) rows in
  match reply with
  | None => failed (tb_rows t)
  | Some (j, slots) =>
      if truthy (get (lit "error") j) then Table (as_text (get (lit "error") j)) (tb_rows t)
      else
        match slots with
        | None => failed []
        | Some slots =>
            Table (or_text (get (lit "name") j) (or_text (get (lit "image") j) (lit "flash image"))
                   ++ lit " (" ++ kib (get (lit "size") j) ++ lit " KiB)") (map slot_html slots)
        end
  end.

(** [j.region.toString(16)]; an answer without it throws before the table is
    emptied. *)
Definition loadApps (raised : list Z) (radio : radio_apps) (t : table) (reply : table_reply) : table :=
  let failed rows := Table (lit "apps unavailable: " ++ raised) rows in
  match reply with
  | None => failed (tb_rows t)
  | Some (j, slots) =>
      if truthy (get (lit "error") j) then Table (as_text (get (lit "error") j)) (tb_rows t)
      else
        match get (lit "region") j with
        | Some (JNum region) =>
            match slots with
            | None => failed []
            | Some slots =>
                Table (lit "region 0x" ++ hex hex_lower 1 region ++ MIDDOT
                       ++ as_text (get (lit "slot_count") j) ++ lit " slots of "
                       ++ kib (get (lit "stride") j) ++ lit " KiB")
                  (map (fun s => app_html radio
                                   (match get (lit "slot") s with Some (JNum n) => n | _ => 0 end) s) slots)
            end
        | _ => failed (tb_rows t)
        end
  end.

(** "Ask the radio": what [radioApps] holds after the answer. *)
Definition ask_radio (raised : list Z) (reply : table_reply) : radio_apps :=
  match reply with
  | None => AskFailed raised
  | Some (j, slots) =>
      if truthy (get (lit "error") j) then AskFailed (as_text (get (lit "error") j))
      else match slots with Some slots => Asked slots | None => NotAsked end
  end.

(** The texts [loadFirmware] shows, in order; the answer is [res.ok] and its
    JSON. *)
Definition loadFirmware (raised name : list Z) (reply : option (bool * json)) : list (list Z) :=
  [lit "uploading " ++ name ++ lit " ..."]
  ++ match reply with
     | None => [lit "upload failed: " ++ raised]
     | Some (true, info) =>
         [match get (lit "firmware") info with
          | None => lit "upload failed: " ++ raised
          | Some _ => upload_label true info
          end]
     | Some (false, info) => [upload_label false info]
     end.

(** The firmware input's change and a drop anywhere on the page: the first
    file, if there is one. *)
Definition on_files (raised : list Z) (files : list (list Z)) (reply : option (bool * json)) : list (list Z) :=
  match files with name :: _ => loadFirmware raised name reply | [] => [] end.

(** ** The log's scroll position *)

Section scrolling.
Variable scrollHeight : list Z -> Z.    (* of the pane with this text *)
Variable clientHeight : Z.

(** What a browser makes of an assignment to [scrollTop], or of a change of
    the height. *)
Definition clamped (text : list Z) (top : Z) : Z := Z.max 0 (Z.min top (scrollHeight text - clientHeight)).
Definition atBottom (text : list Z) (top : Z) : bool := scrollHeight text - top - clientHeight <? 24.

(** The position after [pollLogs] has appended the entries. *)
Definition scroll_reply (p : pane) (top : Z) (es : list entry) (cursor : Z) : Z :=
  let text := pn_text (pane_reply p es cursor) in
  if bool_decide (es = []) then top
  else if atBottom (pn_text p) top then clamped text (scrollHeight text) else clamped text top.

(** A reader at the bottom stays there; one who scrolled up is left where he
    is as long as the text does not get shorter. *)
Theorem scroll_follows p top es cursor :
  (forall text, clientHeight <= scrollHeight text) -> 0 <= clientHeight -> es <> [] ->
  let text := pn_text (pane_reply p es cursor) in
  let top' := scroll_reply p top es cursor in
  (atBottom (pn_text p) top = true -> top' = scrollHeight text - clientHeight /\ atBottom text top' = true) /\
  (atBottom (pn_text p) top = false -> 0 <= top -> scrollHeight (pn_text p) <= scrollHeight text -> top' = top).
Proof.
  intros Hc H0 Hes text top'. unfold top', scroll_reply. rewrite bool_decide_eq_false_2 by done. fold text.
  pose proof (Hc text) as Ht. unfold clamped. split; intros Hb; rewrite Hb.
  - split; [lia|]. unfold atBottom. apply Z.ltb_lt. lia.
  - intros Htop Hle. apply Z.ltb_ge in Hb. lia.
Qed.
End scrolling.

(** ** Examples *)

Example loadSlots_unavailable :
  loadSlots [] (Table [] [lit "old row"]) (Some (error_json (lit "no flash"), None)) = Table (lit "no flash") [lit "old row"] /\
  loadSlots (lit "oops") (Table [] [lit "old row"]) (Some (error_json [], None)) = Table (lit "slots unavailable: oops") [].
Proof. by vm_compute. Qed.

Example loadApps_state :
  tb_state (loadApps [] NotAsked (Table [] []) (Some (apps_fields, Some [])))
    = lit "region 0x102000" ++ MIDDOT ++ lit "16 slots of 8 KiB".
Proof. by vm_compute. Qed.

(** ** A file put into a slot *)

(** The request [PutSlot slot name] sends: the name in the query, the file as
    the body. *)
Definition slot_request (name data ip : list Z) : request := Request (Some name) None [] [] data ip.

(** The row the user expects. *)
Definition uploaded_row (slot : Z) (name : list Z) (size : Z) : list Z :=
  lit "<td>slot " ++ decimal slot ++ (if slot =? 0 then lit " (Main)" else [])
  ++ lit "</td><td>" ++ (match name with [] => lit "?" | _ => name end) ++ lit " "
  ++ lit "</td><td>" ++ decimal size ++ lit " B</td><td></td>".

Lemma written_row_shown slot base image name :
  slot_html (slot_json (Row slot base (Some (Slots.written_header slot base image name []))))
  = uploaded_row slot (Slots.stored_text name) (zlen image).
Proof.
  set (s := slot_json _).
  assert (get (lit "slot") s = Some (JNum slot)) as Es by reflexivity.
  assert (get (lit "empty") s = Some (JBool false)) as Ee by reflexivity.
  assert (get (lit "name") s = Some (JStr (Slots.stored_text name))) as En by reflexivity.
  assert (get (lit "fw_version") s = Some (JStr [])) as Ev by reflexivity.
  assert (get (lit "image_size") s = Some (JNum (zlen image))) as Ei by reflexivity.
  assert (get (lit "crc_ok") s = Some (JBool true)) as Ec by reflexivity.
  unfold slot_html, uploaded_row, slot_label, slot_size, or_text. rewrite Es, Ee, En, Ev, Ei, Ec.
  cbn [truthy as_text]. f_equal. f_equal. rewrite !app_nil_r.
  by destruct slot, (Slots.stored_text name); rewrite <- ?app_assoc.
Qed.

(** What [slots_json] answers for an image that holds a slot table. *)
Lemma slots_json_rows fs path buf m :
  load_image fs path = Ok buf -> Slots.represents buf m ->
  exists j, slots_json fs path = Ok j /\
    forall s, 0 <= s < Slots.SLOT_COUNT -> exists r, Slots.read_slot buf s = Ok r /\
      j.2 !! Z.to_nat s = Some (Row s (Slots.SLOT_BACKUP_BASE + s * Slots.SLOT_STRIDE) (fst <$> r)).
Proof.
  intros Hl Hm.
  assert (forall s, 0 <= s < Slots.SLOT_COUNT -> exists r, Slots.read_slot buf s = Ok r /\
    (j ← slots_json fs path; row_of j s)
      = Ok (Row s (Slots.SLOT_BACKUP_BASE + s * Slots.SLOT_STRIDE) (fst <$> r))) as H.
  { intros s Hs. destruct (represents_reads buf m s Hm Hs) as [r Hr]. exists r. split; [done|].
    apply (slots_json_row buf s r); [|done..]. intros s'. by apply represents_reads with m. }
  destruct (slots_json fs path) as [j|e] eqn:Ej.
  - exists j. split; [done|]. intros s Hs. destruct (H s Hs) as (r & Hr & Hrow). exists r. split; [done|].
    cbn [mbind result_bind] in Hrow. unfold row_of in Hrow. destruct (j.2 !! _); [by injection Hrow as ->|done].
  - destruct (H 0) as (r & _ & Hrow); [by split|]. discriminate Hrow.
Qed.

Section shown.
Context `{Unicode} `{Runtime} {S : Type} `{PowerControl S} (cf : config).
Implicit Types (w : web S) (q : request) (h : host).

(** The rows of the slot table, after [loadSlots]. *)
Definition slot_rows (w : web S) : list (list Z) :=
  tb_rows (loadSlots [] (Table [] []) (slots_reply [] (api_slots cf w))).

Lemma slot_rows_read w buf m s :
  cf_flash cf = true -> load_image (w_fs w) (w_flash w) = Ok buf -> Slots.represents buf m ->
  0 <= s < Slots.SLOT_COUNT ->
  exists r, Slots.read_slot buf s = Ok r /\
    slot_rows w !! Z.to_nat s =
      Some (slot_html (slot_json (Row s (Slots.SLOT_BACKUP_BASE + s * Slots.SLOT_STRIDE) (fst <$> r)))).
Proof.
  intros Hcf Hl Hm Hs. destruct (slots_json_rows _ _ _ _ Hl Hm) as (j & Hj & Hrows).
  destruct (Hrows s Hs) as (r & Hr & Hrow). exists r. split; [done|].
  unfold slot_rows, api_slots. rewrite Hcf, Hj.
  change ((slot_html <$> (slot_json <$> j.2)) !! Z.to_nat s =
    Some (slot_html (slot_json (Row s (Slots.SLOT_BACKUP_BASE + s * Slots.SLOT_STRIDE) (fst <$> r))))).
  by rewrite !list_lookup_fmap, Hrow.
Qed.

(** An edit that succeeds leaves its result in the image in use, whether or
    not the emulator comes back, and it is answered when there was none to
    bring back. *)
Lemma edit_flash_leaves {A} w h (edit : fsys -> list Z -> fsys * result A) f (a : A) data :
  pc_ok (w_sup w) -> host_ok h -> cf_flash cf = true -> w_fs (stopped w h) !! w_flash w = Some f ->
  (forall fs, load_image fs (work_path cf) = Ok (f_data f) ->
     exists fs', edit fs (work_path cf) = (fs', Ok a) /\ load_image fs' (work_path cf) = Ok data) ->
  let '(w', r) := _edit_flash cf w h edit in
  load_image (w_fs w') (w_flash w') = Ok data /\
  (pc_running (w_sup w) = false -> r = Ok a) /\ (forall a', r = Ok a' -> a' = a).
Proof.
  intros Hok Hh Hcf Hf Hedit. unfold _edit_flash. rewrite Hcf. cbn [negb].
  destruct (stop_facts w h Hok) as (Hfs0 & Hfl0 & Hok0 & _).
  set (w0 := if pc_running (w_sup w) then power_off_ w h else w) in *. clearbody w0. destruct (use_working_copy cf w0) as [w1|e] eqn:Eu.
  2: { exfalso. unfold use_working_copy, load_image in Eu. case_bool_decide; [done|]. rewrite Hfs0, Hfl0, Hf in Eu. done. }
  destruct (use_working_copy_starts cf w0 w1 f) as (Hstart & Hfl1 & Hs1 & _); [by rewrite Hfs0, Hfl0|done|].
  destruct (Hedit (w_fs w1)) as (fs & -> & Hl).
  { unfold load_image. destruct (w_fs w1 !! work_path cf); [by injection Hstart as ->|done]. }
  destruct (pc_running (w_sup w)).
  - destruct (power_on_facts cf (set_fs w1 fs) h) as (_ & _ & _ & Hfs & _ & Hfl & _); [by rewrite <- Hs1 in Hok0|done|].
    assert (load_image (w_fs (power_on_ cf (set_fs w1 fs) h).1) (w_flash (power_on_ cf (set_fs w1 fs) h).1) = Ok data)
      as Hl3 by (rewrite Hfs, Hfl; cbn [w_fs w_flash set_fs]; by rewrite Hfl1).
    destruct (power_on_ cf (set_fs w1 fs) h) as [w2 [b|e]]; cbn [fst snd] in *;
      (split; [done|split; [done|by intros ? [= <-]]]).
  - cbn. split; [by rewrite Hfl1|]. split; [done|by intros ? [= <-]].
Qed.

Lemma stopped_loads w h f :
  w_fs (stopped w h) !! w_flash w = Some f -> load_image (w_fs (stopped w h)) (w_flash (stopped w h)) = Ok (f_data f).
Proof.
  intros Hf. assert (w_flash (stopped w h) = w_flash w) as ->; [|unfold load_image; by rewrite Hf].
  unfold stopped. destruct (pc_running (w_sup w)); [|done]. apply (write_back_facts w (ho_left h)).
Qed.

(** An accepted slot upload leaves the written table in the image in use. *)
Lemma slot_written w slot q h f m :
  pc_ok (w_sup w) -> host_ok h -> cf_flash cf = true -> 0 <= slot < Slots.SLOT_COUNT ->
  0 < zlen (q_data q) <= Slots.SLOT_STRIDE - Slots.SLOT_IMAGE_OFFSET ->
  w_fs (stopped w h) !! w_flash w = Some f -> Slots.represents (f_data f) m ->
  let '(w', r) := api_slot_write cf w slot q h in
  (exists buf, Slots.write_slot (f_data f) slot (q_data q) (upload_name q (lit "firmware.bin")) (q_version q) = Ok buf /\
     load_image (w_fs w') (w_flash w') = Ok (Slots.erase_state buf)) /\
  (pc_running (w_sup w) = false -> exists row, r = Ok (200, BSlot row)).
Proof.
  intros Hok Hh Hcf Hs Hd Hf Hm. unfold api_slot_write, in_slots.
  rewrite (proj2 (Z.leb_le 0 slot)), (proj2 (Z.ltb_lt slot _)) by lia. cbn [negb andb].
  rewrite bool_decide_eq_false_2 by (intros E; rewrite E in Hd; by destruct Hd).
  rewrite (proj2 (Z.ltb_ge _ _)) by (unfold Slots.SLOT_STRIDE, Slots.SLOT_IMAGE_OFFSET, MAX_UPLOAD_BYTES in *; lia).
  set (name := upload_name q (lit "firmware.bin")).
  destruct (Slots.write_represents (f_data f) m slot (q_data q) name (q_version q)) as (buf & Hw & Hm');
    [done|done|apply Hd|].
  pose proof (Slots.erase_state_represents _ _ Hm') as Hm2.
  destruct (saved_row ∅ (work_path cf) _ _ slot Hm2 Hs) as (row & Hrow & _).
  pose proof (edit_flash_leaves w h (fun fs p => write_slot_file fs p slot (q_data q) name (q_version q) true)
    f row (Slots.erase_state buf) Hok Hh Hcf Hf) as He.
  destruct (_edit_flash cf w h _) as [w' r]. destruct He as (Hl & Hoff & _).
  { intros fs Hl. unfold write_slot_file. rewrite Hl. cbn [mbind result_bind]. rewrite Hw.
    eexists. split; [|apply save_image_load]. f_equal. rewrite <- Hrow. unfold slots_json.
    by rewrite !save_image_load. }
  destruct r as [a|e]; cbn [answer_edit].
  - split; [by exists buf|by eauto].
  - destruct (is_exception e); (split; [by exists buf|]); intros Hr; discriminate (Hoff Hr).
Qed.

(** C13. A file the user chooses for a slot is what the table shows next.  For
    a flash image that holds a slot table, as the emulator leaves it when it
    is stopped for the write, and a file that is not empty and fits a slot (at
    most 124 KiB: a whole 128 KiB image is refused), whatever its name and
    bytes: the request the page sends is accepted (answered with 200 where no
    emulator has to be restarted), and the table loaded afterwards shows the
    file's stored name and its size in that slot's row, without a checksum
    mismatch, and every other row as the table of that image has it; also when
    restarting the emulator failed. *)
Theorem uploaded_slot_shown w slot name data ip h f m :
  pc_ok (w_sup w) -> host_ok h -> cf_flash cf = true -> 0 <= slot < Slots.SLOT_COUNT ->
  0 < zlen data <= Slots.SLOT_STRIDE - Slots.SLOT_IMAGE_OFFSET ->
  w_fs (stopped w h) !! w_flash w = Some f -> Slots.represents (f_data f) m ->
  let q := slot_request name data ip in
  let '(w', r) := api_slot_write cf w slot q h in
  (pc_running (w_sup w) = false -> exists row, r = Ok (200, BSlot row)) /\
  forall s, 0 <= s < Slots.SLOT_COUNT ->
    slot_rows w' !! Z.to_nat s =
      if decide (s = slot)
      then Some (uploaded_row slot (Slots.stored_text (upload_name q (lit "firmware.bin"))) (zlen data))
      else slot_rows (stopped w h) !! Z.to_nat s.
Proof.
  intros Hok Hh Hcf Hs Hd Hf Hm q.
  pose proof (slot_written w slot q h f m Hok Hh Hcf Hs Hd Hf Hm) as Hw.
  destruct (api_slot_write cf w slot q h) as [w' r]. destruct Hw as [(buf & Hw & Hl') Hr].
  split; [done|]. intros s Hss.
  pose proof (stopped_loads w h f Hf) as Hl.
  destruct (slot_rows_read (stopped w h) _ m s Hcf Hl Hm Hss) as (r0 & Hr0 & ->).
  destruct (Slots.write_represents (f_data f) m slot (q_data q) (upload_name q (lit "firmware.bin")) (q_version q))
    as (buf' & Hw' & Hm'); [done|done|apply Hd|]. rewrite Hw in Hw'. injection Hw' as <-.
  pose proof (Slots.erase_state_represents _ _ Hm') as Hm2.
  destruct (slot_rows_read w' _ _ s Hcf Hl' Hm2 Hss) as (r1 & Hr1 & ->).
  rewrite (Slots.erase_state_reads _ _ _ Hm' Hss), (Slots.write_reads _ _ _ _ _ _ _ s Hm Hs Hw Hss) in Hr1.
  case_decide as E.
  - subst s. injection Hr1 as <-. f_equal. apply written_row_shown.
  - rewrite Hr0 in Hr1. by injection Hr1 as <-.
Qed.

(** ** An app put into a slot *)

(** The request [PutApp slot force] sends. *)
Definition app_request (force : bool) (data ip : list Z) : request :=
  Request None None [] (if force then lit "1" else []) data ip.

Definition installed_row (radio : radio_apps) (slot : Z) (i : Apps.info) : list Z :=
  lit "<td>app " ++ decimal (slot + 1) ++ (if slot <? 8 then [] else lit " (after the menu)")
  ++ lit "</td><td>" ++ Apps.i_name i ++ lit " " ++ Apps.i_version i
  ++ (match Apps.i_shortcut i with
      | [] => []
      | s => if bool_decide (s = lit "none") then [] else MIDDOT ++ s
      end)
  ++ lit "</td><td>" ++ decimal (Apps.i_code_size i) ++ lit " B</td><td>" ++ app_said radio slot ++ lit "</td><td></td>".

Lemma installed_row_shown radio slot base i :
  app_html radio slot (app_json (AppHere slot base i)) = installed_row radio slot i.
Proof.
  set (s := app_json _).
  assert (get (lit "state") s = Some (JStr (lit "app"))) as Es by reflexivity.
  assert (get (lit "name") s = Some (JStr (Apps.i_name i))) as En by reflexivity.
  assert (get (lit "version") s = Some (JStr (Apps.i_version i))) as Ev by reflexivity.
  assert (get (lit "code_size") s = Some (JNum (Apps.i_code_size i))) as Ec by reflexivity.
  assert (get (lit "shortcut") s = Some (JStr (Apps.i_shortcut i))) as Eh by reflexivity.
  unfold app_html, installed_row, app_what, app_size. rewrite Es, En, Ev, Ec, Eh.
  rewrite bool_decide_eq_true_2 by done. cbn [truthy as_text]. rewrite <- !app_assoc. do 4 f_equal.
  destruct (Apps.i_shortcut i) as [|c t]; [done|]. cbn [andb]. by case_bool_decide.
Qed.

(** The rows of the app table, after [loadApps]. *)
Definition app_rows (radio : radio_apps) (w : web S) : list (list Z) :=
  tb_rows (loadApps [] radio (Table [] []) (apps_reply [] (api_apps cf w))).

Lemma app_rows_read radio w image s :
  cf_flash cf = true -> load_image (w_fs w) (w_flash w) = Ok image -> 0 <= s < Apps.SLOT_COUNT ->
  exists o, Apps.read_slot image s = Ok o /\
    app_rows radio w !! Z.to_nat s =
      Some (app_html radio s (app_json
        (match o with
         | None => AppEmpty s (Apps.REGION_BASE + s * Apps.SLOT_STRIDE)
         | Some (Apps.SlotApp _ _ i) => AppHere s (Apps.REGION_BASE + s * Apps.SLOT_STRIDE) i
         | Some x => AppOther s (Apps.REGION_BASE + s * Apps.SLOT_STRIDE) x
         end))).
Proof.
  intros Hcf Hl Hs. destruct (apps_json_rows _ _ _ Hl) as (rows & Hj & Hrows).
  destruct (Hrows s Hs) as (o & Ho & Hrow). exists o. split; [done|].
  unfold app_rows, api_apps. rewrite Hcf, Hj.
  change (((fun s => app_html radio (match get (lit "slot") s with Some (JNum n) => n | _ => 0 end) s)
    <$> (app_json <$> rows)) !! Z.to_nat s =
    Some (app_html radio s (app_json (match o with
         | None => AppEmpty s (Apps.REGION_BASE + s * Apps.SLOT_STRIDE)
         | Some (Apps.SlotApp _ _ i) => AppHere s (Apps.REGION_BASE + s * Apps.SLOT_STRIDE) i
         | Some x => AppOther s (Apps.REGION_BASE + s * Apps.SLOT_STRIDE) x
         end)))).
  rewrite !list_lookup_fmap, Hrow. by destruct o as [[]|].
Qed.

(** C14. An app the server accepts is what the table shows next: the app's own
    name, version, shortcut and code size in the row of the slot it was put
    in, and every other row as it was in the image, as the emulator leaves it
    when it is stopped for the install; also when restarting the emulator
    failed; the answer is 200 where no emulator has to be restarted. *)
Theorem installed_app_shown w slot force blob ip h f image' i radio :
  pc_ok (w_sup w) -> host_ok h -> cf_flash cf = true ->
  wf_bytes blob -> zlen blob <= MAX_UPLOAD_BYTES ->
  w_fs (stopped w h) !! w_flash w = Some f -> Apps.install (f_data f) slot blob force = Ok (image', i) ->
  let '(w', r) := api_app_install cf w slot (app_request force blob ip) h in
  (pc_running (w_sup w) = false -> exists rows, r = Ok (200, BApp slot i rows)) /\
  forall s, 0 <= s < Apps.SLOT_COUNT ->
    app_rows radio w' !! Z.to_nat s =
      if decide (s = slot) then Some (installed_row radio slot i) else app_rows radio (stopped w h) !! Z.to_nat s.
Proof.
  intros Hok Hh Hcf Hwf Hmax Hf Hin.
  destruct (Apps.install_slots _ _ _ _ _ _ Hwf Hin) as (Hs & Hread & Hother).
  assert (blob <> []) as Hne by (intros ->; discriminate Hin).
  unfold api_app_install, in_slots. change (q_data (app_request force blob ip)) with blob.
  rewrite (proj2 (Z.leb_le 0 slot)), (proj2 (Z.ltb_lt slot _)) by lia. cbn [negb andb].
  rewrite bool_decide_eq_false_2, (proj2 (Z.ltb_ge _ _)) by done.
  assert (force_of (app_request force blob ip) = force) as -> by by destruct force.
  pose proof (stopped_loads w h f Hf) as Hl.
  pose proof (edit_flash_leaves w h (fun fs p => install_file fs p slot blob force) f i image' Hok Hh Hcf Hf) as He.
  destruct (_edit_flash cf w h _) as [w' r]. destruct He as (Hl' & Hoff & Hr).
  { intros fs Hfs. unfold install_file. rewrite Hfs. cbn [mbind result_bind]. rewrite Hin.
    eexists. split; [done|]. unfold load_image. by rewrite exec_write, decide_True. }
  assert (forall w2, w_fs w2 = w_fs w' -> w_flash w2 = w_flash w' -> forall s, 0 <= s < Apps.SLOT_COUNT ->
    app_rows radio w2 !! Z.to_nat s =
      if decide (s = slot) then Some (installed_row radio slot i) else app_rows radio (stopped w h) !! Z.to_nat s) as Hrows.
  { intros w2 Hfs Hfl s Hss. rewrite <- Hfs, <- Hfl in Hl'.
    destruct (app_rows_read radio (stopped w h) _ s Hcf Hl Hss) as (o & Ho & ->).
    destruct (app_rows_read radio w2 _ s Hcf Hl' Hss) as (o' & Ho' & ->).
    case_decide as E.
    - subst s. rewrite Hread in Ho'. injection Ho' as <-. f_equal. apply installed_row_shown.
    - rewrite (Hother s E), Ho in Ho'. by injection Ho' as <-. }
  destruct r as [a|e]; cbn [answer_edit].
  - rewrite (Hr a eq_refl). split; [|by apply Hrows]. intros _.
    destruct (apps_json_rows _ _ _ Hl') as (rows & Hj & _). exists rows.
    change (w_fs (log w' _ _ _)) with (w_fs w'). change (w_flash (log w' _ _ _)) with (w_flash w').
    rewrite Hj. done.
  - destruct (is_exception e); (split; [intros Hx; discriminate (Hoff Hx)|by apply Hrows]).
Qed.

End shown.

(** ** Concrete tables *)

#[local] Existing Instance ascii_tables.
#[local] Existing Instance plain_runtime.

(** A radio running with an erased external flash. *)
Definition w_blank : web sup :=
  Web sup_on {[flash_img := File Apps.blank true]} (Some old_image) boot_key_init flash_img []
    (View None (Stream.init (Some 0%nat) 0 0) (log_init 2000)).

Lemma uploaded_slot_shown_witness :
  slot_rows cf0 (api_slot_write cf0 w_blank 1 (slot_request (lit "dir/fw.bin") fw_image here) host0).1 !! 1%nat
  = Some (lit "<td>slot 1</td><td>fw.bin </td><td>12 B</td><td></td>").
Proof.
  pose proof (uploaded_slot_shown cf0 w_blank 1 (lit "dir/fw.bin") fw_image here host0 (File Apps.blank true) ∅
    w0_ok (conj I I) eq_refl ltac:(split; [discriminate|reflexivity]) ltac:(split; [reflexivity|discriminate])
    (lookup_singleton_eq _ _) (Slots.represents_erased 0x200000 ltac:(vm_compute; discriminate))) as H.
  cbv zeta in H. destruct (api_slot_write cf0 w_blank 1 _ host0) as [w' r]. destruct H as [_ H].
  specialize (H 1 ltac:(split; [discriminate|reflexivity])). rewrite decide_True in H by reflexivity.
  exact H.
Defined.

Lemma installed_app_shown_witness :
  app_rows cf0 NotAsked (api_app_install cf0 w_blank 3 (app_request false Apps.beam here) host0).1 !! 3%nat
  = Some (lit "<td>app 4</td><td>Beam 1.2" ++ MIDDOT ++ lit "beam</td><td>10 B</td><td></td><td></td>").
Proof.
  destruct (Apps.beam_installs 3) as [image' E]; [split; vm_compute; congruence|].
  pose proof (installed_app_shown cf0 w_blank 3 false Apps.beam here host0 (File Apps.blank true) image' Apps.beam_info
    NotAsked w0_ok (conj I I) eq_refl Apps.beam_wf ltac:(vm_compute; discriminate) (lookup_singleton_eq _ _) E) as H.
  destruct (api_app_install cf0 w_blank 3 _ host0) as [w' r]. destruct H as [_ H].
  specialize (H 3 ltac:(split; [discriminate|reflexivity])). rewrite decide_True in H by reflexivity.
  exact H.
Defined.
